(* ===== verification/_CoqProject ===== *)
-Q . S2P
Prelude.v
JsString.v
JsNum.v
JsVal.v
Json.v
Types.v
Prog.v
State.v
Demo.v
Storage.v
StorageProps.v
TokenVault.v
Api.v
Payload.v
Catalog.v
Session.v
SessionProps.v
View.v
Form.v
Net.v
Keeps.v
GateView.v
SetupView.v
RevealView.v
SettingsView.v
DocsView.v
EnqueueView.v
QueuesView.v
FlowsView.v
PublishView.v
GroupsView.v
HttpView.v
SchedulesView.v
DlqView.v
OverviewView.v
InfraView.v
AppHeader.v
CellSwitcher.v
AppSidebar.v
App.v
Components.v
RenderRules.v
Kit.v
Expand.v
Offered.v
Liveness.v
Page.v
PageProps.v
Phases.v
Mounting.v
AuthMachine.v
AuthProps.v
FormProps.v
ResourceProps.v
PublishProps.v
ShellProps.v
OpsProps.v
InfraProps.v
WireProps.v
RenderProps.v
InfraRender.v
LiveProps.v
TypedPages.v
Races.v
TokenSync.v
Access.v
SidebarProvider.v
UiBase.v
UiOverlay.v
UiSidebar.v
KitRules.v
KitProps.v
SidebarProps.v
CommandState.v
CommandProps.v
UiCommand.v
FormField.v
UiExtra.v
UiChart.v
AddonFocus.v
