(* ===== verification/Prelude.v ===== *)
(** * The betterMQ admin panel: a Rocq development

    betterMQ is a message broker.  Its admin panel, [src/engine/panel/src], is a
    Vue application in TypeScript that the broker serves; this development models
    that panel and proves what it sends to the broker, what it stores and what it
    shows.  The broker itself (the Rust crates under [src/engine]) is the panel's
    environment: its replies are arbitrary in every theorem.

    ** The program's parts and the files that model them

    - JavaScript: [JsString] (strings as lists of UTF-16 code units, [trim],
      [encodeURIComponent]), [JsNum] (numbers as IEEE doubles on [SpecFloat], with
      parsing and printing), [JsVal] (dynamic values, property access, operators
      and their exceptions), [Json] ([JSON.parse] and [JSON.stringify]).
    - [Prog]: asynchronous handlers.  A [prog] is a tree of synchronous actions on
      the page, waits for a reply, spawned tasks and concurrent pairs.  [advance]
      runs a program to its next waits, [start] and [deliver] start a task and
      answer one of the pending requests, in any order, and [reachable] is the
      resulting transition system.  [exec] runs one handler on a list of replies
      given in order.  [safe], [ends] and their rules prove invariants of all
      interleavings, for arbitrary replies or for replies that keep a contract
      ([answering]); [zoom] lifts a program on a part of the state to the whole.
    - [State]: the page's shared state: browser (location, both web storages,
      theme, log of requests sent), session, catalog, outbound defaults, timers.
      The class [Platform] holds what the panel takes from libraries and the
      browser and the model leaves open (URL parsing, date formatting, avatar
      generator, class merging); [Demo] has a concrete instance.
    - [Storage] ([lib/config.ts], [lib/storage.ts]), [Api] ([lib/api.ts]),
      [Payload] ([lib/payload.ts], [composables/useActionStatus.ts]), [Catalog]
      ([lib/catalog.ts], [lib/federation.ts], [lib/avatar.ts]), [Session]
      ([lib/session.ts]): one definition per function, under its name.
    - [View]: components.  Handlers are programs on the pair of page and component
      state; a template is a function [render] to virtual nodes with their
      listeners; [Form] has the form components and [AuthLayout].
    - One file per view ([GateView] to [InfraView], from [views]) and per layout
      component ([AppHeader], [CellSwitcher], [AppSidebar]): a record for its
      refs and reactive objects, [setup], its handlers, computed values and
      [render].  [App] has [App.vue], [AppShell.vue] and [router/index.ts].
    - [Types]: the TypeScript types the panel declares for the broker's data, as
      data, with the decidable predicate that a value has one.
    - [Net], [Keeps], [Components]: the interface [Component] (the tasks a component
      may start, and that they keep the page's network invariant) and its instance
      for every component.
    - [Offered]: the handlers of every rendered tree are covered by these tasks.
    - [Page] ([main.ts], [App.vue], [AppShell.vue], the router): the running panel.
      A [ui] has the page, the store of all component instances, those that are
      mounted and the route; [ui_step] is an event on a handler of a tree on the
      screen, a reply, a tick, a navigation; [session_of] is what these reach.
      [page_task] is the open system in which any task may start at any time.

    - [Kit]: how Vue applies a component of [components/ui] (declared props and
      events, [$attrs], [mergeProps]), with the libraries it wraps as the class
      [UiLibs].  [UiBase], [UiOverlay], [UiSidebar], [UiCommand]: one definition per
      component, with its class tables ([index.ts]) and template; [UiExtra] those
      the panel does not use, on [FormField] ([useFormField.ts]); [UiChart] the
      charts, with the cache of their tooltips; [AddonFocus] the
      listener of an input group's addon on the document's elements.
      [SidebarProvider] and [CommandState]: the two that keep state.  [Expand]
      and [KitRules]: expanding the kit in a rendered tree.

    ** The theorems

    - [Mounting]: every session is a run of the open system, and exactly the
      components in the rendered trees are mounted.
    - [PageProps]: in every session, requests stay on the page's origin or the
      configured admin root, and at most one timer of each kind is alive.
    - [AuthMachine], on [Phases] (which task can set which phase): every step of a
      session follows the abstract machine of authentication phases.
    - [SessionProps], [AuthProps]: the authentication decision table, the password
      and token flows, the gate and setup forms, the refreshers and health poll.
    - [Access]: while the broker accepts no token and no password, nothing but the
      gate and the setup form is ever mounted.
    - [LiveProps], on the theory of [Liveness] (every reply shortens a suspended
      handler, so delivery is well-founded; flags that every way out lowers): a
      page comes to rest, the loading screen is left, buttons are enabled again.
    - [TypedPages], with [RenderProps] and [InfraRender]: if successful answers
      have the declared types, no template throws in any session, and the table of
      nodes has the type declared for it.
    - [Races]: in every session, a dead letter in the table belongs to the table's
      topic and is deleted from it, however the listings' replies arrive.  Rows and
      topic are two refs: [Keeps.keeps] is for invariants like this one, which hold
      whenever a handler pauses and not after every assignment.  The members of
      groups have no such invariant, and a gate submitted twice loses its token.
    - [StorageProps]: round trips and migration of the token, the theme.
      [TokenVault]: the token store refines an abstract vault of tokens per base.
      [TokenSync], on the vault: in every session the session's token, the stored one
      and the one requests carry are the same.
    - [WireProps]: what is sent parses back, broker errors reach the status line,
      identifiers in paths decode to themselves.
    - [FormProps], [PublishProps], [ResourceProps], [OpsProps]: the payloads of the
      forms, and for each handler the requests it sends on every branch.
    - [ShellProps], [InfraProps]: navigation, cells, refresh, setup hint; the table
      of nodes and the removal of a node.
    - [KitProps]: the kit loses no listener, field binding or text of a view.
      [SidebarProps]: the sidebar's state survives reloading the page.
      [CommandProps]: a command list shows what matches the search.  [UiChart]:
      when the tooltip cache shows what rendering would, and when not.
    Theorems whose names appear among the errors (a number typed as parallelism, a
    token lost without [sessionStorage], unencoded schedule identifiers, members
    of the wrong group, an accepted token forgotten, a refresh that cannot fail)
    show where the code does not do what it means to.

    ** Bounds and fuel

    - [json_parse] runs its parser with one more step than the text has units;
      each step consumes a unit, and [Json.json_roundtrip] shows it is enough for
      every serialised value.  Number printing tries up to the seventeen digits
      that identify a double.
    - [exec] is given the replies a handler waits for; theorems about a handler
      give as many as it can use and say which are left over.  Reachability has no
      bound on tasks, replies or their order.
    - [header_ok] says that the stored token can be put into an HTTP header (the
      browser refuses others); both cases are modelled.

    ** Not modelled

    - The broker, its command line, tools and deployment files: other programs.
    - Of [components/ui]: what the wrapped libraries do ([reka-ui], [vee-validate],
      [vue-sonner], [unovis]); the wrappers themselves are modelled.
    - The build configuration; the vendored API reference viewer and the generated
      [dist].
    - What Vue and the browser do with a rendered tree, beyond events and [v-model]
      as [View] states them; reactivity is the re-evaluation of [render] and of the
      computed values.
 *)

From stdpp Require Import base list gmap strings.
From Stdlib Require Import NArith ZArith Lia.

(** ** Results

    A synchronous JavaScript computation either yields a value or throws; the
    type of what is thrown is fixed once [jsval] exists. *)
Inductive result (E A : Type) : Type :=
| Ok (a : A)
| Exn (e : E).
Arguments Ok {E A} a.
Arguments Exn {E A} e.

#[export] Instance result_ret E : MRet (result E) := fun _ => Ok.
#[export] Instance result_bind E : MBind (result E) :=
  fun _ _ f m => match m with Ok a => f a | Exn e => Exn e end.
#[export] Instance result_fmap E : FMap (result E) :=
  fun _ _ f m => match m with Ok a => Ok (f a) | Exn e => Exn e end.

Definition is_ok {E A} (r : result E A) : Prop := match r with Ok _ => True | Exn _ => False end.

(** [try m catch h]. *)
Definition try_catch {E A} (m : result E A) (h : E -> result E A) : result E A :=
  match m with Ok a => Ok a | Exn e => h e end.

Fixpoint result_seq {E A} (l : list (result E A)) : result E (list A) :=
  match l with
  | [] => Ok []
  | m :: l' => y ← m; ys ← result_seq l'; Ok (y :: ys)
  end.

(** ** Automation shared by the components *)

Create HintDb panel discriminated.

(** Case analysis on the scrutinee of the first [match] (or [if]) of the goal. *)
Ltac case_goal :=
  match goal with
  | |- context [ match ?x with _ => _ end ] =>
      lazymatch x with
      | context [ match _ with _ => _ end ] => fail
      | _ => let E := fresh "E" in destruct x eqn:E
      end
  end.

(** ** Generic lemmas *)

Section results.
Context {E : Type}.

Lemma result_bind_Ok {A B} (m : result E A) (f : A -> result E B) b :
  m ≫= f = Ok b <-> exists a, m = Ok a /\ f a = Ok b.
Proof. destruct m; simpl; naive_solver. Qed.

End results.

