(* ===== verification/JsString.v ===== *)
(** * JavaScript strings

    A JavaScript string is a sequence of UTF-16 code units.  This file models the
    string operations the panel calls: [trim], [startsWith], the two regular
    expressions of [storage.ts], [toLowerCase], [encodeURIComponent] and the
    [application/x-www-form-urlencoded] serializer behind [URLSearchParams].
    Source literals are written [js "..."], which decodes the UTF-8 of this file. *)

From stdpp Require Import base list gmap strings.
From Stdlib Require Import NArith ZArith Lia Ascii String Wf_nat.
From S2P Require Import Prelude.

Notation jstring := (list N).
Local Open Scope N_scope.

(** ** Literals: UTF-8 to UTF-16 *)

Definition byte_list (s : String.string) : list N :=
  map N_of_ascii (list_ascii_of_string s).

(** UTF-8 bytes to code points (well-formed input). *)
Fixpoint utf8_decode (bs : list N) : list N :=
  match bs with
  | [] => []
  | b0 :: r0 =>
      if b0 <? 128 then b0 :: utf8_decode r0
      else match r0 with
      | [] => []
      | b1 :: r1 =>
          if b0 <? 224 then ((b0 - 192) * 64 + (b1 - 128)) :: utf8_decode r1
          else match r1 with
          | [] => []
          | b2 :: r2 =>
              if b0 <? 240 then ((b0 - 224) * 4096 + (b1 - 128) * 64 + (b2 - 128)) :: utf8_decode r2
              else match r2 with
              | [] => []
              | b3 :: r3 =>
                  ((b0 - 240) * 262144 + (b1 - 128) * 4096 + (b2 - 128) * 64 + (b3 - 128))
                    :: utf8_decode r3
              end
          end
      end
  end.

(** Code points to UTF-16 code units. *)
Definition utf16_units (cp : N) : jstring :=
  if cp <? 65536 then [cp]
  else [55296 + (cp - 65536) / 1024; 56320 + (cp - 65536) mod 1024].

Definition utf16_encode (cps : list N) : jstring := flat_map utf16_units cps.

Definition js (s : String.string) : jstring := utf16_encode (utf8_decode (byte_list s)).
Arguments js : simpl never.
Arguments js s%_string : simpl never.

Definition is_unit (c : N) : bool := c <? 65536.

(** ** White space and [trim] *)

(** [WhiteSpace] and [LineTerminator] of ECMA-262, also what [\s] matches. *)
Definition is_ws (c : N) : bool :=
  ((9 <=? c) && (c <=? 13)) || (c =? 32) || (c =? 160) || (c =? 5760)
  || ((8192 <=? c) && (c <=? 8202)) || (c =? 8232) || (c =? 8233)
  || (c =? 8239) || (c =? 8287) || (c =? 12288) || (c =? 65279).

Fixpoint drop_ws (s : jstring) : jstring :=
  match s with
  | c :: r => if is_ws c then drop_ws r else s
  | [] => []
  end.

Definition trim (s : jstring) : jstring := rev (drop_ws (rev (drop_ws s))).

(** ** Prefixes and the regular expressions of the panel *)

Fixpoint starts_with (p s : jstring) : bool :=
  match p, s with
  | [], _ => true
  | a :: p', b :: s' => (a =? b) && starts_with p' s'
  | _ :: _, [] => false
  end.

(** [s.replace(/\/$/, "")]. *)
Definition strip_slash (s : jstring) : jstring :=
  match rev s with
  | 47 :: r => rev r
  | _ => s
  end.

(** ASCII case folding; the panel only lower-cases the value of a fixed
    two-entry select, which is ASCII. *)
Definition lower_unit (c : N) : N := if (65 <=? c) && (c <=? 90) then c + 32 else c.
Definition to_lower (s : jstring) : jstring := lower_unit <$> s.

(** [s.replace(/^bearer\s+/i, "")], or [None] when the expression does not match. *)
Definition strip_bearer (s : jstring) : option jstring :=
  let p := js "bearer" in
  if starts_with p (to_lower s) then
    match drop (List.length p) s with
    | c :: r => if is_ws c then Some (drop_ws r) else None
    | [] => None
    end
  else None.

(** [s.replace(p, "")] for a string pattern: the first occurrence only. *)
Fixpoint remove_first (p s : jstring) : jstring :=
  if starts_with p s then drop (List.length p) s
  else match s with [] => [] | c :: r => c :: remove_first p r end.

Fixpoint includes (p s : jstring) : bool :=
  starts_with p s || match s with [] => false | _ :: r => includes p r end.

(** [l.join(sep)] on strings. *)
Fixpoint join (sep : jstring) (l : list jstring) : jstring :=
  match l with
  | [] => []
  | [x] => x
  | x :: l' => x ++ sep ++ join sep l'
  end.

(** ** Percent encoding *)

Definition is_alnum (c : N) : bool :=
  ((48 <=? c) && (c <=? 57)) || ((65 <=? c) && (c <=? 90)) || ((97 <=? c) && (c <=? 122)).

(** [uriUnescaped] minus reserved: what [encodeURIComponent] leaves alone. *)
Definition uri_unescaped (c : N) : bool :=
  is_alnum c || (c =? 45) || (c =? 95) || (c =? 46) || (c =? 33) || (c =? 126)
  || (c =? 42) || (c =? 39) || (c =? 40) || (c =? 41).

Definition hex_digit (d : N) : N := if d <? 10 then 48 + d else 55 + d.
Definition pct (b : N) : jstring := [37; hex_digit (b / 16); hex_digit (b mod 16)].

Definition utf8_bytes (cp : N) : list N :=
  if cp <? 128 then [cp]
  else if cp <? 2048 then [192 + cp / 64; 128 + cp mod 64]
  else if cp <? 65536 then [224 + cp / 4096; 128 + (cp / 64) mod 64; 128 + cp mod 64]
  else [240 + cp / 262144; 128 + (cp / 4096) mod 64; 128 + (cp / 64) mod 64; 128 + cp mod 64].

Definition pct_cp (cp : N) : jstring := flat_map pct (utf8_bytes cp).

Definition is_high (c : N) : bool := (55296 <=? c) && (c <=? 56319).
Definition is_low (c : N) : bool := (56320 <=? c) && (c <=? 57343).
Definition pair_cp (h l : N) : N := 65536 + (h - 55296) * 1024 + (l - 56320).

(** [encodeURIComponent(s)]; [None] is the [URIError] of a lone surrogate. *)
Fixpoint encodeURIComponent (s : jstring) : option jstring :=
  match s with
  | [] => Some []
  | c :: r =>
      if uri_unescaped c then cons c <$> encodeURIComponent r
      else if is_low c then None
      else if is_high c then
        match r with
        | d :: r' => if is_low d then app (pct_cp (pair_cp c d)) <$> encodeURIComponent r' else None
        | [] => None
        end
      else app (pct_cp c) <$> encodeURIComponent r
  end.

(** ** [URLSearchParams.toString()] *)

(** Bytes the urlencoded serializer keeps. *)
Definition form_kept (c : N) : bool :=
  is_alnum c || (c =? 42) || (c =? 45) || (c =? 46) || (c =? 95).

Definition form_cp (cp : N) : jstring :=
  if cp =? 32 then [43] else if form_kept cp then [cp] else pct_cp cp.

(** A lone surrogate becomes U+FFFD (conversion to [USVString]). *)
Fixpoint form_encode (s : jstring) : jstring :=
  match s with
  | [] => []
  | c :: r =>
      if is_low c then pct_cp 65533 ++ form_encode r
      else if is_high c then
        match r with
        | d :: r' => if is_low d then form_cp (pair_cp c d) ++ form_encode r'
                     else pct_cp 65533 ++ form_encode r
        | [] => pct_cp 65533
        end
      else form_cp c ++ form_encode r
  end.

Definition search_params (l : list (jstring * jstring)) : jstring :=
  join [38] ((fun '(k, v) => form_encode k ++ [61] ++ form_encode v) <$> l).

(** ** What the receiver of a percent-encoded segment reads back *)

Definition hex_value (c : N) : option N :=
  if (48 <=? c) && (c <=? 57) then Some (c - 48)
  else if (65 <=? c) && (c <=? 70) then Some (c - 55)
  else None.

Fixpoint pct_bytes (s : jstring) : option (list N) :=
  match s with
  | [] => Some []
  | c :: r =>
      if c =? 37 then
        match r with
        | a :: b :: r' =>
            match hex_value a, hex_value b with
            | Some x, Some y => cons (16 * x + y) <$> pct_bytes r'
            | _, _ => None
            end
        | _ => None
        end
      else cons c <$> pct_bytes r
  end.

Definition pct_decode (s : jstring) : option jstring :=
  (fun bs => utf16_encode (utf8_decode bs)) <$> pct_bytes s.

(** ** Lemmas *)

Lemma starts_with_spec p s : starts_with p s = true <-> exists r, s = p ++ r.
Proof.
  revert s. induction p as [|a p IH]; intros s; simpl.
  - split; [by exists s | done].
  - destruct s as [|b s]; [split; [done | by intros [? ?]]|].
    rewrite andb_true_iff, N.eqb_eq, IH. split.
    + intros [-> [r ->]]. by exists r.
    + intros [r [= -> ->]]. eauto.
Qed.

Lemma starts_with_app p r : starts_with p (p ++ r) = true.
Proof. apply starts_with_spec. by exists r. Qed.

(** [s.endsWith(suffix)] *)
Definition ends_in (suffix s : jstring) : bool := starts_with (rev suffix) (rev s).

Lemma ends_in_app base suffix : ends_in suffix (base ++ suffix) = true.
Proof. unfold ends_in. rewrite rev_app_distr. apply starts_with_app. Qed.


Lemma drop_ws_suffix s : exists w, s = w ++ drop_ws s /\ Forall (fun c => is_ws c = true) w.
Proof.
  induction s as [|c s IH]; simpl; [by exists []|].
  destruct (is_ws c) eqn:E; [|by exists []].
  destruct IH as (w & Hw & HF). exists (c :: w). split; [by rewrite Hw at 1 | by constructor].
Qed.

Lemma drop_ws_idemp s : drop_ws (drop_ws s) = drop_ws s.
Proof. induction s as [|c s IH]; simpl; [done|]. destruct (is_ws c) eqn:E; simpl; rewrite ?E; done. Qed.

(** A string that starts with a non-space, or is empty. *)
Definition no_lead (s : jstring) : Prop := drop_ws s = s.

Lemma drop_ws_length s : (List.length (drop_ws s) <= List.length s)%nat.
Proof. induction s as [|c s IH]; simpl; [lia|]. destruct (is_ws c); simpl; lia. Qed.

Lemma no_lead_app s w : no_lead (s ++ w) -> s <> [] -> no_lead s.
Proof.
  unfold no_lead. destruct s as [|c s]; simpl; [done|]. destruct (is_ws c); [|done].
  intros H. pose proof (drop_ws_length (s ++ w)) as Hl. rewrite H in Hl. simpl in Hl. lia.
Qed.

Lemma trim_no_lead s : no_lead (trim s).
Proof.
  unfold trim. destruct (drop_ws_suffix (rev (drop_ws s))) as (w & Hw & _).
  set (t := drop_ws (rev (drop_ws s))) in *.
  destruct (decide (t = [])) as [->|Hne]; [done|].
  apply (no_lead_app _ (rev w)).
  - rewrite <- rev_app_distr, <- Hw, rev_involutive. apply drop_ws_idemp.
  - intros H. apply Hne. by rewrite <- (rev_involutive t), H.
Qed.

Lemma trim_no_trail s : no_lead (rev (trim s)).
Proof. unfold trim, no_lead. rewrite rev_involutive. apply drop_ws_idemp. Qed.

Lemma trim_id s : no_lead s -> no_lead (rev s) -> trim s = s.
Proof. unfold trim. intros -> ->. apply rev_involutive. Qed.

Lemma trim_idemp s : trim (trim s) = trim s.
Proof. apply trim_id; [apply trim_no_lead | apply trim_no_trail]. Qed.

Lemma strip_slash_cases s : strip_slash s = s \/ s = strip_slash s ++ [47].
Proof.
  unfold strip_slash. destruct (rev s) as [|c r] eqn:E; [by left|].
  destruct (N.eq_dec c 47) as [->|Hc].
  - right. by rewrite <- (rev_involutive s), E.
  - left. destruct c as [|p]; [done|]. repeat (destruct p as [p|p|]; try done).
Qed.

Lemma join_cons sep x l : l <> [] -> join sep (x :: l) = x ++ sep ++ join sep l.
Proof. by destruct l. Qed.

(** Every unit of an encoded component is an unreserved mark or part of a
    percent triplet, so no path, query or fragment delimiter survives. *)
Definition uri_safe (c : N) : bool := uri_unescaped c || (c =? 37).

Lemma hex_digit_safe d : d < 16 -> uri_safe (hex_digit d) = true.
Proof.
  intros H. unfold uri_safe, uri_unescaped, is_alnum, hex_digit.
  destruct (N.ltb_spec d 10);
    repeat match goal with |- context [?a <=? ?b] => destruct (N.leb_spec a b); try lia end;
    simpl; rewrite ?orb_true_r; done.
Qed.

Lemma utf8_bytes_byte cp : cp < 1114112 -> Forall (fun b => b < 256) (utf8_bytes cp).
Proof.
  intros H. unfold utf8_bytes.
  repeat case_goal; rewrite ?N.ltb_lt, ?N.ltb_ge in *; repeat constructor;
    try (apply N.add_lt_mono_l with (n := 0)); zify; Z.to_euclidean_division_equations; lia.
Qed.

Lemma pct_safe b : b < 256 -> Forall (fun c => uri_safe c = true) (pct b).
Proof.
  intros H. unfold pct. constructor; [done|].
  constructor; [|constructor; [|constructor]]; apply hex_digit_safe;
    zify; Z.to_euclidean_division_equations; lia.
Qed.

Lemma pct_cp_safe cp : cp < 1114112 -> Forall (fun c => uri_safe c = true) (pct_cp cp).
Proof.
  intros H. unfold pct_cp. pose proof (utf8_bytes_byte cp H) as HF.
  induction HF as [|b l Hb _ IH]; [constructor|].
  change (flat_map pct (b :: l)) with (pct b ++ flat_map pct l). apply Forall_app. split; [by apply pct_safe | done].
Qed.

Lemma pair_cp_bound h l : is_high h = true -> is_low l = true ->
  65536 <= pair_cp h l < 1114112.
Proof.
  unfold is_high, is_low, pair_cp. rewrite !andb_true_iff, !N.leb_le. lia.
Qed.

(** The shape of [encodeURIComponent]: an induction on the encoded prefix. *)
Inductive enc_rel : jstring -> jstring -> Prop :=
| enc_nil : enc_rel [] []
| enc_keep c s t : uri_unescaped c = true -> enc_rel s t -> enc_rel (c :: s) (c :: t)
| enc_bmp c s t :
    uri_unescaped c = false -> is_low c = false -> is_high c = false ->
    enc_rel s t -> enc_rel (c :: s) (pct_cp c ++ t)
| enc_pair h l s t :
    is_high h = true -> is_low l = true ->
    enc_rel s t -> enc_rel (h :: l :: s) (pct_cp (pair_cp h l) ++ t).

Lemma encode_rel s t : encodeURIComponent s = Some t -> enc_rel s t.
Proof.
  revert t. induction s as [s IH] using (induction_ltof1 _ (@List.length N)).
  unfold ltof in IH. intros t H. destruct s as [|c s]; simpl in H; [by inv H; constructor|].
  destruct (uri_unescaped c) eqn:Eu.
  { apply fmap_Some in H as (t' & H & ->). apply enc_keep; [done|]. apply IH; simpl; [lia|done]. }
  destruct (is_low c) eqn:El; [done|]. destruct (is_high c) eqn:Eh.
  - destruct s as [|d s]; [done|]. destruct (is_low d) eqn:Ed; [|done].
    apply fmap_Some in H as (t' & H & ->). apply enc_pair; [done..|]. apply IH; simpl; [lia|done].
  - apply fmap_Some in H as (t' & H & ->). apply enc_bmp; [done..|]. apply IH; simpl; [lia|done].
Qed.

Lemma encode_safe s t :
  Forall (fun c => is_unit c = true) s -> encodeURIComponent s = Some t ->
  Forall (fun c => uri_safe c = true) t.
Proof.
  intros Hu H. apply encode_rel in H. induction H; [constructor|..].
  - inv Hu. constructor; [|by apply IHenc_rel]. unfold uri_safe. by rewrite H.
  - inv Hu. apply Forall_app. split; [|by apply IHenc_rel]. apply pct_cp_safe.
    unfold is_unit in *. rewrite N.ltb_lt in *. lia.
  - inv Hu. inv H5. apply Forall_app. split; [|by apply IHenc_rel].
    apply pct_cp_safe, pair_cp_bound; done.
Qed.

Lemma hex_value_digit d : d < 16 -> hex_value (hex_digit d) = Some d.
Proof.
  intros H. unfold hex_value, hex_digit. destruct (N.ltb_spec d 10);
    repeat match goal with |- context [?a <=? ?b] => destruct (N.leb_spec a b); try lia end;
    simpl; f_equal; lia.
Qed.

Lemma pct_bytes_pct b r : b < 256 -> pct_bytes (pct b ++ r) = cons b <$> pct_bytes r.
Proof.
  intros H. simpl. rewrite !hex_value_digit by (zify; Z.to_euclidean_division_equations; lia).
  replace (16 * (b / 16) + b mod 16) with b; [done|]. rewrite <- N.div_mod'; lia.
Qed.

Lemma pct_bytes_list bs r :
  Forall (fun b => b < 256) bs -> pct_bytes (flat_map pct bs ++ r) = app bs <$> pct_bytes r.
Proof.
  induction 1 as [|b bs Hb _ IH].
  - simpl. by destruct (pct_bytes r).
  - change (flat_map pct (b :: bs)) with (pct b ++ flat_map pct bs). rewrite <- app_assoc, pct_bytes_pct, IH by done.
    by destruct (pct_bytes r).
Qed.

Lemma utf8_decode_bytes cp r : cp < 1114112 -> utf8_decode (utf8_bytes cp ++ r) = cp :: utf8_decode r.
Proof.
  intros H. unfold utf8_bytes.
  destruct (N.ltb_spec cp 128); [simpl; by rewrite (proj2 (N.ltb_lt cp 128))|].
  destruct (N.ltb_spec cp 2048); [|destruct (N.ltb_spec cp 65536)]; simpl;
    repeat match goal with |- context [?a <? ?b] => destruct (N.ltb_spec a b) end;
    try (exfalso; zify; Z.to_euclidean_division_equations; lia);
    f_equal; zify; Z.to_euclidean_division_equations; lia.
Qed.

Lemma utf16_pair h l : is_high h = true -> is_low l = true -> utf16_units (pair_cp h l) = [h; l].
Proof.
  intros Hh Hl. pose proof (pair_cp_bound _ _ Hh Hl) as Hb. unfold utf16_units.
  destruct (N.ltb_spec (pair_cp h l) 65536); [lia|].
  unfold is_high, is_low, pair_cp in *. rewrite !andb_true_iff, !N.leb_le in *.
  repeat f_equal; zify; Z.to_euclidean_division_equations; lia.
Qed.

Lemma unescaped_ascii c : uri_unescaped c = true -> c < 128 /\ c <> 37.
Proof.
  unfold uri_unescaped, is_alnum.
  rewrite !orb_true_iff, !andb_true_iff, !N.leb_le, !N.eqb_eq. lia.
Qed.

(** The bytes behind an encoded component, and the code points they spell. *)
Lemma encode_bytes s t :
  Forall (fun c => is_unit c = true) s -> enc_rel s t ->
  exists bs, pct_bytes t = Some bs /\ utf16_encode (utf8_decode bs) = s.
Proof.
  intros Hu H. induction H as [|c s t Hc _ IH|c s t _ _ _ _ IH|h l s t Hh Hl _ IH].
  - by exists [].
  - inv Hu. destruct IH as (bs & Hb & Hd); [done|]. apply unescaped_ascii in Hc as [Hc Hp].
    exists (c :: bs). simpl. destruct (N.eqb_spec c 37); [done|]. rewrite Hb. split; [done|].
    rewrite (proj2 (N.ltb_lt c 128)) by done. unfold utf16_encode; cbn [flat_map].
    fold (utf16_encode (utf8_decode bs)). rewrite Hd. unfold utf16_units.
    by rewrite (proj2 (N.ltb_lt c 65536)) by lia.
  - inv Hu. destruct IH as (bs & Hb & Hd); [done|]. unfold is_unit in *. rewrite N.ltb_lt in *.
    unfold pct_cp. rewrite pct_bytes_list, Hb by (apply utf8_bytes_byte; lia).
    eexists; split; [done|]. rewrite utf8_decode_bytes by lia.
    unfold utf16_encode; cbn [flat_map]. fold (utf16_encode (utf8_decode bs)).
    rewrite Hd. unfold utf16_units. by rewrite (proj2 (N.ltb_lt c 65536)) by lia.
  - inv Hu. inv H2. destruct IH as (bs & Hb & Hd); [done|].
    pose proof (pair_cp_bound _ _ Hh Hl). unfold pct_cp.
    rewrite pct_bytes_list, Hb by (apply utf8_bytes_byte; lia).
    eexists; split; [done|]. rewrite utf8_decode_bytes by lia.
    unfold utf16_encode; cbn [flat_map]. fold (utf16_encode (utf8_decode bs)).
    by rewrite Hd, utf16_pair.
Qed.

Lemma encode_decode s t :
  Forall (fun c => is_unit c = true) s -> encodeURIComponent s = Some t -> pct_decode t = Some s.
Proof.
  intros Hu H. destruct (encode_bytes s t Hu (encode_rel _ _ H)) as (bs & Hb & Hd).
  unfold pct_decode. by rewrite Hb; simpl; rewrite Hd.
Qed.

#[export] Hint Resolve starts_with_app trim_no_lead trim_no_trail : panel.
