(* ===== verification/JsNum.v ===== *)
(** * JavaScript numbers

    A JavaScript number is an IEEE 754 double.  The Standard Library's
    [SpecFloat] gives the value type and correctly rounded arithmetic at
    precision 53 and maximal exponent 1024; this file adds what the panel uses of
    [Number], [parseInt], [parseFloat], [Math.max], [Math.ceil], [toFixed] and
    [Number::toString], all executable on integers of [Z]. *)

From stdpp Require Import base list gmap strings.
From Stdlib Require Import NArith ZArith Lia SpecFloat Decimal DecimalN DecimalFacts.
From S2P Require Import Prelude JsString.

Notation num := spec_float.
Local Open Scope Z_scope.

#[export] Instance num_eq_dec : EqDecision num.
Proof. solve_decision. Defined.

(** ** Arithmetic and comparison *)

Definition num_of_Z (z : Z) : num := binary_normalize 53 1024 z 0 false.
Definition NaN : num := S754_nan.
Definition num_add : num -> num -> num := SFadd 53 1024.
Definition num_mul : num -> num -> num := SFmul 53 1024.
Definition num_div : num -> num -> num := SFdiv 53 1024.
Definition num_eqb : num -> num -> bool := SFeqb.
Definition num_ltb : num -> num -> bool := SFltb.
Definition num_leb : num -> num -> bool := SFleb.

(** [ToBoolean]: zeros and NaN are falsy. *)
Definition num_truthy (x : num) : bool :=
  match x with S754_zero _ | S754_nan => false | _ => true end.

Definition num_is_nan (x : num) : bool := match x with S754_nan => true | _ => false end.

(** [Number.isFinite]. *)
Definition num_is_finite (x : num) : bool :=
  match x with S754_zero _ | S754_finite _ _ _ => true | _ => false end.

(** [Math.max(x, y)]. *)
Definition num_max (x y : num) : num :=
  match x, y with
  | S754_nan, _ | _, S754_nan => S754_nan
  | S754_zero s, S754_zero t => S754_zero (s && t)
  | _, _ => if num_ltb x y then y else x
  end.

(** [Math.ceil(x)]. *)
Definition num_ceil (x : num) : num :=
  match x with
  | S754_finite s m e =>
      if 0 <=? e then x
      else
        let d := 2 ^ (- e) in
        let q := Zpos m / d in
        let r := Zpos m mod d in
        if s then (if q =? 0 then S754_zero true else num_of_Z (- q))
        else num_of_Z (if r =? 0 then q else q + 1)
  | _ => x
  end.

(** ** Decimal numerals *)

(** The double nearest to [(-1)^s * m * 10^e].  The two guards only avoid
    computing huge powers: outside them the value is beyond the range of doubles
    on one side or the other. *)
Definition num_of_dec (s : bool) (m : N) (e : Z) : num :=
  match m with
  | N0 => S754_zero s
  | Npos p =>
      if 400 <? e then S754_infinity s
      else if e + Zpos (digits2_pos p) <? - 400 then S754_zero s
      else if 0 <=? e then binary_round 53 1024 s (p * Z.to_pos (10 ^ e)) 0
      else
        let '(q, e', l) := SFdiv_core_binary 53 1024 (Zpos p) 0 (10 ^ (- e)) 0 in
        binary_round_aux 53 1024 s q e' l
  end.

Fixpoint uint_units (u : Decimal.uint) : jstring :=
  match u with
  | Decimal.Nil => []
  | D0 u => 48%N :: uint_units u | D1 u => 49%N :: uint_units u
  | D2 u => 50%N :: uint_units u | D3 u => 51%N :: uint_units u
  | D4 u => 52%N :: uint_units u | D5 u => 53%N :: uint_units u
  | D6 u => 54%N :: uint_units u | D7 u => 55%N :: uint_units u
  | D8 u => 56%N :: uint_units u | D9 u => 57%N :: uint_units u
  end.

(** Decimal digits of a natural number. *)
Definition dec_of_N (n : N) : jstring := uint_units (N.to_uint n).

Definition digit_cons (c : N) : option (Decimal.uint -> Decimal.uint) :=
  match c with
  | 48%N => Some D0 | 49%N => Some D1 | 50%N => Some D2 | 51%N => Some D3 | 52%N => Some D4
  | 53%N => Some D5 | 54%N => Some D6 | 55%N => Some D7 | 56%N => Some D8 | 57%N => Some D9
  | _ => None
  end.

(** The longest prefix of decimal digits, and the rest. *)
Fixpoint span_digits (s : jstring) : Decimal.uint * jstring :=
  match s with
  | [] => (Decimal.Nil, [])
  | c :: r =>
      match digit_cons c with
      | Some d => let '(u, r') := span_digits r in (d u, r')
      | None => (Decimal.Nil, s)
      end
  end.

Fixpoint uint_len (u : Decimal.uint) : nat :=
  match u with
  | Decimal.Nil => O
  | D0 u | D1 u | D2 u | D3 u | D4 u | D5 u | D6 u | D7 u | D8 u | D9 u => S (uint_len u)
  end.

Definition span_sign (s : jstring) : bool * jstring :=
  match s with
  | 43%N :: r => (false, r)
  | 45%N :: r => (true, r)
  | _ => (false, s)
  end.

(** An exponent part, when one is present. *)
Definition span_exp (s : jstring) : Z * jstring :=
  match s with
  | (69%N | 101%N) :: r =>
      let '(neg, r1) := span_sign r in
      let '(u, r2) := span_digits r1 in
      if (uint_len u =? 0)%nat then (0, s)
      else (if neg then - Z.of_N (N.of_uint u) else Z.of_N (N.of_uint u), r2)
  | _ => (0, s)
  end.

(** [StrUnsignedDecimalLiteral], longest prefix: value and rest, [None] without digits. *)
Definition span_decimal (neg : bool) (s : jstring) : option (num * jstring) :=
  if starts_with (js "Infinity") s then Some (S754_infinity neg, drop 8 s)
  else
    let '(u, r) := span_digits s in
    let '(f, r1) := match r with 46%N :: r' => span_digits r' | _ => (Decimal.Nil, r) end in
    if ((uint_len u =? 0) && (uint_len f =? 0))%nat then None
    else
      let r2 := match r with 46%N :: _ => r1 | _ => r end in
      let '(e, r3) := span_exp r2 in
      Some (num_of_dec neg (N.of_uint (Decimal.app u f)) (e - Z.of_nat (uint_len f)), r3).

Definition radix_digit (radix : N) (c : N) : option N :=
  (let d := if (48 <=? c) && (c <=? 57) then c - 48
            else if (97 <=? c) && (c <=? 122) then c - 87
            else if (65 <=? c) && (c <=? 90) then c - 55 else 99 in
   if d <? radix then Some d else None)%N.

Fixpoint radix_value (radix acc : N) (s : jstring) : option N :=
  match s with
  | [] => Some acc
  | c :: r => match radix_digit radix c with
              | Some d => radix_value radix (acc * radix + d)%N r
              | None => None
              end
  end.

Definition radix_literal (radix : N) (s : jstring) : num :=
  match s with
  | [] => NaN
  | _ => match radix_value radix 0 s with Some n => num_of_dec false n 0 | None => NaN end
  end.

(** [Number(s)] on a string. *)
Definition string_to_number (s : jstring) : num :=
  match trim s with
  | [] => S754_zero false
  | 48%N :: (120%N | 88%N) :: r => radix_literal 16 r
  | 48%N :: (111%N | 79%N) :: r => radix_literal 8 r
  | 48%N :: (98%N | 66%N) :: r => radix_literal 2 r
  | t => let '(neg, r) := span_sign t in
         match span_decimal neg r with Some (x, []) => x | _ => NaN end
  end.

(** [parseFloat(s)]. *)
Definition parse_float (s : jstring) : num :=
  let '(neg, r) := span_sign (drop_ws s) in
  match span_decimal neg r with Some (x, _) => x | None => NaN end.

(** [parseInt(s, 10)]. *)
Definition parse_int (s : jstring) : num :=
  let '(neg, r) := span_sign (drop_ws s) in
  let '(u, _) := span_digits r in
  if (uint_len u =? 0)%nat then NaN else num_of_dec neg (N.of_uint u) 0.

(** ** [Number::toString] *)

(** The exact integer value of a double, when it has one. *)
Definition num_to_Z (x : num) : option Z :=
  match x with
  | S754_zero _ => Some 0
  | S754_finite s m e =>
      let sg z := if s then - z else z in
      if 0 <=? e then Some (sg (Zpos m * 2 ^ e))
      else if Zpos m mod 2 ^ (- e) =? 0 then Some (sg (Zpos m / 2 ^ (- e)))
      else None
  | _ => None
  end.

(** [m * 2^e] as a fraction. *)
Definition frac_of (m : positive) (e : Z) : Z * Z :=
  if 0 <=? e then (Zpos m * 2 ^ e, 1) else (Zpos m, 2 ^ (- e)).

(** Smallest [j] with [10^j * a >= b], counted from [j0]. *)
Fixpoint lead_zeros (fuel : nat) (a b : Z) (j : Z) : Z :=
  match fuel with
  | O => j
  | S fuel => if b <=? a then j else lead_zeros fuel (10 * a) b (j + 1)
  end.

(** [n] with [10^(n-1) <= a/b < 10^n]. *)
Definition dec_exponent (a b : Z) : Z :=
  if b <=? a then Z.of_nat (List.length (dec_of_N (Z.to_N (a / b))))
  else 1 - lead_zeros 400 a b 0.

Definition round_div_even (a b : Z) : Z :=
  let q := a / b in
  let r := a mod b in
  match Z.compare (2 * r) b with Lt => q | Gt => q + 1 | Eq => if Z.even q then q else q + 1 end.

(** Fewest digits [k <= 17] that read back as the same double: significand and scale. *)
Fixpoint shortest (fuel : nat) (k : Z) (x : num) (a b n : Z) : Z * Z :=
  let s := if 0 <=? n - k then round_div_even a (b * 10 ^ (n - k))
           else round_div_even (a * 10 ^ (k - n)) b in
  match fuel with
  | O => (s, k)
  | S fuel => if decide (num_of_dec false (Z.to_N s) (n - k) = x) then (s, k)
              else shortest fuel (k + 1) x a b n
  end.

Definition zeros (n : Z) : jstring := repeat 48%N (Z.to_nat n).

Definition format_digits (ds : jstring) (k n : Z) : jstring :=
  if (k <=? n) && (n <=? 21) then ds ++ zeros (n - k)
  else if (0 <? n) && (n <=? 21) then take (Z.to_nat n) ds ++ js "." ++ drop (Z.to_nat n) ds
  else if (-6 <? n) && (n <=? 0) then js "0." ++ zeros (- n) ++ ds
  else
    let e := n - 1 in
    let es := (if e <? 0 then js "-" else js "+") ++ dec_of_N (Z.to_N (Z.abs e)) in
    match ds with
    | [d] => [d] ++ js "e" ++ es
    | d :: r => [d] ++ js "." ++ r ++ js "e" ++ es
    | [] => []
    end.

(** Integers up to [2^53] are printed exactly: they are exactly representable,
    so their own digits (without trailing zeros) are the shortest. *)
Definition pos_to_string (m : positive) (e : Z) : jstring :=
  match num_to_Z (S754_finite false m e) with
  | Some z => if z <=? 2 ^ 53 then dec_of_N (Z.to_N z)
              else
                let n := dec_exponent z 1 in
                let '(s, k) := shortest 17 1 (S754_finite false m e) z 1 n in
                format_digits (dec_of_N (Z.to_N s)) k n
  | None =>
      let '(a, b) := frac_of m e in
      let n := dec_exponent a b in
      let '(s, k) := shortest 17 1 (S754_finite false m e) a b n in
      format_digits (dec_of_N (Z.to_N s)) k n
  end.

Definition num_to_string (x : num) : jstring :=
  match x with
  | S754_nan => js "NaN"
  | S754_zero _ => js "0"
  | S754_infinity s => if s then js "-Infinity" else js "Infinity"
  | S754_finite s m e => if s then 45%N :: pos_to_string m e else pos_to_string m e
  end.

(** [x.toFixed(1)]. *)
Definition fixed1 (n : Z) : jstring :=
  dec_of_N (Z.to_N (n / 10)) ++ js "." ++ dec_of_N (Z.to_N (n mod 10)).

Definition num_to_fixed1 (x : num) : jstring :=
  match x with
  | S754_zero _ => js "0.0"
  | S754_finite s m e =>
      let '(a, b) := frac_of m e in
      if 10 ^ 21 <=? a / b then num_to_string x
      else
        let n := (20 * a + b) / (2 * b) in
        if s then 45%N :: fixed1 n else fixed1 n
  | _ => num_to_string x
  end.

(** ** Safe integers *)

Definition safe_int (z : Z) : Prop := - 2 ^ 53 < z < 2 ^ 53.

Lemma digits2_pos_size p : digits2_pos p = Pos.size p.
Proof. induction p; simpl; congruence. Qed.

Lemma digits2_iter_xO p k : Zpos (digits2_pos (Pos.iter xO p k)) = Zpos (digits2_pos p) + Zpos k.
Proof.
  induction k as [|k IH] using Pos.peano_ind; [simpl; lia|].
  rewrite Pos.iter_succ. simpl. lia.
Qed.

Lemma iter_xO_mul p k : Zpos (Pos.iter xO p k) = Zpos p * 2 ^ Zpos k.
Proof.
  induction k as [|k IH] using Pos.peano_ind; [simpl; lia|].
  rewrite Pos.iter_succ, Pos2Z.inj_xO, IH, Pos2Z.inj_succ, Z.pow_succ_r by lia. lia.
Qed.

Lemma digits_bound p : (Zpos p < 2 ^ 53) -> Zpos (digits2_pos p) <= 53.
Proof.
  intros H. rewrite digits2_pos_size. pose proof (Pos.size_le p) as Hs.
  destruct (Z.le_gt_cases (Zpos (Pos.size p)) 53) as [|Hgt]; [done|].
  assert (2 ^ 54 <= 2 ^ Zpos (Pos.size p)) by (apply Z.pow_le_mono_r; lia).
  assert (Hz : 2 ^ Zpos (Pos.size p) <= 2 * Zpos p).
  { rewrite <- Pos2Z.inj_pow. change (2 * Zpos p) with (Zpos p~0). apply Hs. }
  lia.
Qed.

(** Rounding a value whose mantissa already has 53 bits changes nothing. *)
Lemma round_aux_exact s m e :
  Zpos (digits2_pos m) = 53 -> -1074 <= e <= 971 ->
  binary_round_aux 53 1024 s (Zpos m) e loc_Exact = S754_finite s m e.
Proof.
  intros Hd He. unfold binary_round_aux.
  assert (Hs : shr_fexp 53 1024 (Zpos m) e loc_Exact = (Build_shr_record (Zpos m) false false, e)).
  { unfold shr_fexp, fexp, emin, Zdigits2. rewrite Hd.
    replace (Z.max (53 + e - 53) (3 - 1024 - 53) - e) with 0 by lia. done. }
  rewrite Hs; cbn -[shr_fexp Z.leb]. rewrite Hs; cbn -[Z.leb].
  by rewrite (proj2 (Z.leb_le e (1024 - 53))) by lia.
Qed.

(** The mantissa of a safe integer is normalised to 53 bits. *)
Lemma binary_round_norm s p : Zpos p < 2 ^ 53 ->
  exists m e, binary_round 53 1024 s p 0 = S754_finite s m e /\
    e <= 0 /\ Zpos m = Zpos p * 2 ^ (- e) /\ Zpos (digits2_pos m) = 53.
Proof.
  intros H. pose proof (digits_bound p H) as Hd. unfold binary_round, shl_align, fexp, emin.
  replace (Z.max (Zpos (digits2_pos p) + 0 - 53) (3 - 1024 - 53) - 0)
    with (Zpos (digits2_pos p) - 53) by lia.
  replace (Z.max (Zpos (digits2_pos p) + 0 - 53) (3 - 1024 - 53))
    with (Zpos (digits2_pos p) - 53) by lia.
  destruct (Zpos (digits2_pos p) - 53) as [|q|q] eqn:E; [|lia|].
  - exists p, 0. rewrite round_aux_exact by lia. split_and!; [done|lia|lia|lia].
  - exists (Pos.iter xO p q), (Zneg q). rewrite round_aux_exact; [|rewrite digits2_iter_xO; lia|lia].
    split_and!; [done|lia|apply iter_xO_mul|rewrite digits2_iter_xO; lia].
Qed.

Lemma binary_round_safe s p : Zpos p < 2 ^ 53 ->
  exists m e, binary_round 53 1024 s p 0 = S754_finite s m e /\
    e <= 0 /\ Zpos m = Zpos p * 2 ^ (- e).
Proof. intros H. destruct (binary_round_norm s p H) as (m & e & ? & ? & ? & _). eauto. Qed.

Lemma num_to_Z_of_Z z : safe_int z -> num_to_Z (num_of_Z z) = Some z.
Proof.
  intros [H1 H2]. unfold num_of_Z, binary_normalize.
  destruct z as [|p|p]; [done|..].
  - destruct (binary_round_safe false p H2) as (m & e & -> & He & Hm). simpl.
    destruct (Z.leb_spec 0 e).
    + replace e with 0 in * by lia. f_equal. lia.
    + rewrite Hm, Z.mod_mul, Z.div_mul by (apply Z.pow_nonzero; lia). done.
  - destruct (binary_round_safe true p ltac:(lia)) as (m & e & -> & He & Hm). simpl.
    destruct (Z.leb_spec 0 e).
    + replace e with 0 in * by lia. f_equal. lia.
    + rewrite Hm, Z.mod_mul, Z.div_mul by (apply Z.pow_nonzero; lia). f_equal; lia.
Qed.

Lemma num_of_Z_truthy z : safe_int z -> num_truthy (num_of_Z z) = negb (z =? 0).
Proof.
  intros [H1 H2]. destruct z as [|p|p]; [done|..]; unfold num_of_Z, binary_normalize.
  - destruct (binary_round_safe false p H2) as (m & e & -> & _); done.
  - destruct (binary_round_safe true p ltac:(lia)) as (m & e & -> & _); done.
Qed.

Lemma num_of_dec_N n : num_of_dec false n 0 = num_of_Z (Z.of_N n).
Proof.
  destruct n as [|p]; [done|]. unfold num_of_dec. simpl (400 <? 0).
  destruct (Z.ltb_spec (0 + Zpos (digits2_pos p)) (-400)); [lia|].
  cbn -[binary_round]. by rewrite Pos.mul_1_r.
Qed.

Lemma num_to_string_nat z : 0 <= z < 2 ^ 53 ->
  num_to_string (num_of_Z z) = dec_of_N (Z.to_N z).
Proof.
  intros H. destruct z as [|p|p]; [done| |lia].
  pose proof (num_to_Z_of_Z (Zpos p) ltac:(split; lia)) as HZ.
  unfold num_of_Z, binary_normalize in *.
  destruct (binary_round_safe false p ltac:(lia)) as (m & e & Hr & _ & _).
  rewrite Hr in *. cbn [num_to_string]. unfold pos_to_string. rewrite HZ.
  by rewrite (proj2 (Z.leb_le _ _)) by lia.
Qed.

Lemma num_to_string_neg p : safe_int (Zneg p) ->
  num_to_string (num_of_Z (Zneg p)) = 45%N :: dec_of_N (Npos p).
Proof.
  intros [H _]. unfold num_of_Z, binary_normalize.
  destruct (binary_round_safe true p ltac:(lia)) as (m & e & Hr & He & Hm).
  rewrite Hr. cbn [num_to_string]. f_equal. unfold pos_to_string.
  assert (num_to_Z (S754_finite false m e) = Some (Zpos p)) as ->.
  { simpl. destruct (Z.leb_spec 0 e).
    - replace e with 0 in * by lia. f_equal. lia.
    - by rewrite Hm, Z.mod_mul, Z.div_mul by (apply Z.pow_nonzero; lia). }
  by rewrite (proj2 (Z.leb_le _ _)) by lia.
Qed.

Lemma num_of_dec_neg p : num_of_dec true (Npos p) 0 = num_of_Z (Zneg p).
Proof.
  unfold num_of_dec. simpl (400 <? 0).
  destruct (Z.ltb_spec (0 + Zpos (digits2_pos p)) (-400)); [lia|].
  cbn -[binary_round]. by rewrite Pos.mul_1_r.
Qed.

(** Reading printed digits back. *)
Definition digit_free (s : jstring) : Prop :=
  match s with [] => True | c :: _ => digit_cons c = None end.

Lemma span_digits_units u r : digit_free r -> span_digits (uint_units u ++ r) = (u, r).
Proof.
  intros Hr. induction u; simpl; rewrite ?IHu; try done.
  destruct r as [|c r]; [done|]. simpl in *. by rewrite Hr.
Qed.

Lemma span_dec_of_N n r : digit_free r ->
  exists u, span_digits (dec_of_N n ++ r) = (u, r) /\ N.of_uint u = n /\ uint_len u <> O.
Proof.
  intros Hr. exists (N.to_uint n). unfold dec_of_N. rewrite span_digits_units by done.
  split_and!; [done | apply DecimalN.Unsigned.of_to |].
  destruct n as [|p]; [done|]. simpl. intros H0.
  assert (Pos.to_uint p = Decimal.Nil) as E by (by destruct (Pos.to_uint p)).
  pose proof (DecimalN.Unsigned.of_to (Npos p)) as Hof. simpl in Hof. by rewrite E in Hof.
Qed.

Lemma uint_units_digits u : Forall (fun c => 48 <= c <= 57)%N (uint_units u).
Proof. induction u; simpl; constructor; (lia || done). Qed.

Lemma digit_plain c : (48 <= c <= 57)%N -> is_ws c = false /\ c <> 43%N /\ c <> 45%N.
Proof.
  intros H. split; [|lia]. unfold is_ws.
  repeat match goal with
  | |- context [(?a <=? ?b)%N] => destruct (N.leb_spec a b); try lia
  | |- context [(?a =? ?b)%N] => destruct (N.eqb_spec a b); try lia
  end; done.
Qed.

Lemma dec_of_N_cons n : exists c r, dec_of_N n = c :: r /\ (48 <= c <= 57)%N.
Proof.
  destruct (span_dec_of_N n [] I) as (u & Hs & _ & Hl). rewrite List.app_nil_r in Hs.
  pose proof (uint_units_digits (N.to_uint n)) as HF. fold (dec_of_N n) in HF.
  destruct (dec_of_N n) as [|c r]; [simpl in Hs; by inv Hs|]. inv HF. eauto.
Qed.

Lemma span_sign_digit c r : (48 <= c <= 57)%N -> span_sign (c :: r) = (false, c :: r).
Proof.
  intros H. destruct (digit_plain c H) as (_ & H1 & H2). unfold span_sign.
  destruct c as [|p]; [done|]. repeat (destruct p as [p|p|]; try done).
Qed.

(** Printing a natural number and reading it back with [parseInt] is the identity. *)
Lemma parse_int_dec n : parse_int (dec_of_N n) = num_of_Z (Z.of_N n).
Proof.
  destruct (dec_of_N_cons n) as (c & r & E & Hc). destruct (digit_plain c Hc) as (Hw & _).
  unfold parse_int. rewrite E. simpl drop_ws. rewrite Hw, span_sign_digit, <- E by done.
  destruct (span_dec_of_N n [] I) as (u & Hs & Hu & Hl). rewrite List.app_nil_r in Hs. rewrite Hs.
  destruct (Nat.eqb_spec (uint_len u) 0); [done|]. by rewrite Hu, num_of_dec_N.
Qed.

(** ** Comparing safe integers *)

Lemma digits_range m : Zpos (digits2_pos m) = 53 -> 2 ^ 52 <= Zpos m < 2 ^ 53.
Proof.
  rewrite digits2_pos_size. intros Hs. pose proof (Pos.size_le m) as Hl. pose proof (Pos.size_gt m) as Hg.
  assert (Hp : Zpos (2 ^ Pos.size m)%positive = 2 ^ 53) by (by rewrite Pos2Z.inj_pow, Hs).
  assert (Zpos (2 ^ Pos.size m)%positive <= 2 * Zpos m) by (change (2 * Zpos m) with (Zpos m~0); apply Hl).
  assert (Zpos m < Zpos (2 ^ Pos.size m)%positive) by apply Hg. lia.
Qed.

(** Normalised mantissas compare as the numbers they stand for. *)
Lemma norm_compare p q m n d e :
  Zpos m = Zpos p * 2 ^ (- d) -> Zpos n = Zpos q * 2 ^ (- e) -> d <= 0 -> e <= 0 ->
  Zpos (digits2_pos m) = 53 -> Zpos (digits2_pos n) = 53 ->
  match Z.compare d e with Lt => Lt | Gt => Gt | Eq => Pos.compare_cont Eq m n end = (Zpos p ?= Zpos q).
Proof.
  intros Hm Hn Hd He Dm%digits_range Dn%digits_range.
  assert (Hlt : forall a b x y i j, Zpos a = Zpos x * 2 ^ (- i) -> Zpos b = Zpos y * 2 ^ (- j) ->
    i <= 0 -> j <= 0 -> 2 ^ 52 <= Zpos a < 2 ^ 53 -> 2 ^ 52 <= Zpos b < 2 ^ 53 -> i < j -> Zpos x < Zpos y).
  { intros a b x y i j Ha Hb Hi Hj Da Db Hij. pose proof (Z.pow_pos_nonneg 2 (- j)) as Hp.
    assert (Hs : 2 ^ (- i) = 2 ^ (- j) * 2 ^ (j - i)) by (rewrite <- Z.pow_add_r by lia; f_equal; lia).
    assert (H2 : 2 <= 2 ^ (j - i)) by (change 2 with (2 ^ 1) at 1; apply Z.pow_le_mono_r; lia).
    rewrite Hs in Ha. nia. }
  destruct (Z.compare_spec d e) as [->|Hde|Hde].
  - change (Pos.compare_cont Eq m n) with (Zpos m ?= Zpos n). rewrite Hm, Hn.
    pose proof (Z.pow_pos_nonneg 2 (- e)) as Hp. symmetry.
    apply Zmult_compare_compat_r. lia.
  - symmetry. apply Z.compare_lt_iff. by eapply (Hlt m n).
  - symmetry. apply Z.compare_gt_iff. by eapply (Hlt n m).
Qed.

Lemma num_compare_Z a b : safe_int a -> safe_int b -> SFcompare (num_of_Z a) (num_of_Z b) = Some (a ?= b).
Proof.
  intros [A1 A2] [B1 B2]. unfold num_of_Z, binary_normalize.
  destruct a as [|p|p]; destruct b as [|q|q]; try done;
    try (destruct (binary_round_norm false p) as (m & d & -> & Hd & Hm & Dm); [lia|]);
    try (destruct (binary_round_norm true p) as (m & d & -> & Hd & Hm & Dm); [lia|]);
    try (destruct (binary_round_norm false q) as (n & e & -> & He & Hn & Dn); [lia|]);
    try (destruct (binary_round_norm true q) as (n & e & -> & He & Hn & Dn); [lia|]); try done; simpl.
  - by rewrite (norm_compare p q m n d e).
  - replace (match d ?= e with Eq => CompOpp (Pos.compare_cont Eq m n) | Lt => Gt | Gt => Lt end)
      with (CompOpp (match Z.compare d e with Lt => Lt | Gt => Gt | Eq => Pos.compare_cont Eq m n end))
      by (by destruct (d ?= e)).
    by rewrite (norm_compare p q m n d e).
Qed.

Lemma num_ltb_Z a b : safe_int a -> safe_int b -> num_ltb (num_of_Z a) (num_of_Z b) = (a <? b).
Proof. intros Ha Hb. unfold num_ltb, SFltb, Z.ltb. rewrite num_compare_Z by done. by destruct (a ?= b). Qed.
Lemma num_leb_Z a b : safe_int a -> safe_int b -> num_leb (num_of_Z a) (num_of_Z b) = (a <=? b).
Proof. intros Ha Hb. unfold num_leb, SFleb, Z.leb. rewrite num_compare_Z by done. by destruct (a ?= b). Qed.
Lemma num_eqb_Z a b : safe_int a -> safe_int b -> num_eqb (num_of_Z a) (num_of_Z b) = (a =? b).
Proof.
  intros Ha Hb. unfold num_eqb, SFeqb. rewrite num_compare_Z by done.
  destruct (Z.eqb_spec a b) as [->|Hne]; [by rewrite Z.compare_refl|].
  by destruct (Z.compare_spec a b).
Qed.
