(* ===== verification/JsVal.v ===== *)
(** * JavaScript values

    What the panel's code manipulates dynamically: parsed JSON, the values of
    form fields (which Vue turns into numbers for number inputs), and thrown
    errors.  Expressions evaluate in [E], so that reading a property of
    [undefined] or calling a missing method is the [TypeError] it is in the
    program.  Prototype chains, getters and symbols are not modelled: the code
    only reads own data properties of parsed JSON and of its own literals. *)

From stdpp Require Import base list gmap strings.
From Stdlib Require Import NArith ZArith Lia String SpecFloat.
From S2P Require Import Prelude JsString JsNum.

Inductive errclass := ErrError | ErrType | ErrSyntax | ErrURI | ErrApi.

Inductive jsval : Type :=
| VUndef
| VNull
| VBool (b : bool)
| VNum (x : num)
| VStr (s : jstring)
| VArr (l : list jsval)
| VObj (o : list (jstring * jsval))
| VErr (c : errclass) (msg : jstring) (o : list (jstring * jsval)).

Notation E := (result jsval).

Section jsval_ind.
Variable P : jsval -> Prop.
Hypothesis Hundef : P VUndef.
Hypothesis Hnull : P VNull.
Hypothesis Hbool : forall b, P (VBool b).
Hypothesis Hnum : forall x, P (VNum x).
Hypothesis Hstr : forall s, P (VStr s).
Hypothesis Harr : forall l, Forall P l -> P (VArr l).
Hypothesis Hobj : forall o, Forall (fun kv => P (snd kv)) o -> P (VObj o).
Hypothesis Herr : forall c m o, Forall (fun kv => P (snd kv)) o -> P (VErr c m o).

(** Induction through the nested lists of arrays and objects. *)
Fixpoint jsval_nested_ind (v : jsval) : P v :=
  let fix arr (l : list jsval) : Forall P l :=
    match l with
    | [] => @List.Forall_nil _ P
    | x :: l' => @List.Forall_cons _ P x l' (jsval_nested_ind x) (arr l')
    end in
  let fix obj (o : list (jstring * jsval)) : Forall (fun kv => P (snd kv)) o :=
    match o with
    | [] => @List.Forall_nil _ (fun kv => P (snd kv))
    | kv :: o' => @List.Forall_cons _ (fun kv => P (snd kv)) kv o' (jsval_nested_ind (snd kv)) (obj o')
    end in
  match v with
  | VUndef => Hundef
  | VNull => Hnull
  | VBool b => Hbool b
  | VNum x => Hnum x
  | VStr s => Hstr s
  | VArr l => Harr l (arr l)
  | VObj o => Hobj o (obj o)
  | VErr c m o => Herr c m o (obj o)
  end.
End jsval_ind.

(** ** Errors the engine throws (message texts are the engine's) *)

Definition type_error (msg : jstring) : jsval := VErr ErrType msg [].
Definition throw_type {A} (msg : jstring) : E A := Exn (type_error msg).
Definition new_error (msg : jstring) : jsval := VErr ErrError msg [].

(** ** Objects as ordered property lists *)

Fixpoint assoc (k : jstring) (o : list (jstring * jsval)) : option jsval :=
  match o with
  | [] => None
  | (k', v) :: o' => if decide (k = k') then Some v else assoc k o'
  end.

(** [o[k] = v]: in place when the property exists, appended otherwise. *)
Fixpoint assoc_set (k : jstring) (v : jsval) (o : list (jstring * jsval)) : list (jstring * jsval) :=
  match o with
  | [] => [(k, v)]
  | (k', v') :: o' => if decide (k = k') then (k, v) :: o' else (k', v') :: assoc_set k v o'
  end.

(** Array-index keys ("0", "17", ...), which enumerate first, in numeric order. *)
Definition index_key (k : jstring) : option N :=
  let '(u, r) := span_digits k in
  match r with
  | [] => let m := N.of_uint u in
          if decide (dec_of_N m = k) then if (m <? 4294967295)%N then Some m else None else None
  | _ => None
  end.

Fixpoint insert_index {A} (n : N) (kv : jstring * A) (l : list (N * (jstring * A)))
  : list (N * (jstring * A)) :=
  match l with
  | [] => [(n, kv)]
  | (m, kv') :: l' => if (n <? m)%N then (n, kv) :: l else (m, kv') :: insert_index n kv l'
  end.

(** [Object.entries] order: index keys ascending, then insertion order. *)
Definition own_entries {A} (o : list (jstring * A)) : list (jstring * A) :=
  let idx := foldr (fun kv acc => match index_key (fst kv) with
                                  | Some n => insert_index n kv acc
                                  | None => acc end) [] o in
  (snd <$> idx) ++ filter (fun kv => index_key (fst kv) = None) o.

(** ** Conversions *)

Definition truthy (v : jsval) : bool :=
  match v with
  | VUndef | VNull => false
  | VBool b => b
  | VNum x => num_truthy x
  | VStr s => match s with [] => false | _ => true end
  | VArr _ | VObj _ | VErr _ _ _ => true
  end.

Definition is_nullish (v : jsval) : bool := match v with VUndef | VNull => true | _ => false end.
Definition is_string (v : jsval) : bool := match v with VStr _ => true | _ => false end.
Definition is_array (v : jsval) : bool := match v with VArr _ => true | _ => false end.

(** [v && typeof v === "object"]. *)
Definition is_object (v : jsval) : bool :=
  match v with VArr _ | VObj _ | VErr _ _ _ => true | _ => false end.

Definition errclass_name (c : errclass) : jstring :=
  match c with
  | ErrType => js "TypeError" | ErrSyntax => js "SyntaxError" | ErrURI => js "URIError"
  | ErrError | ErrApi => js "Error"
  end.

(** [String(v)]. *)
Fixpoint to_string (v : jsval) : jstring :=
  match v with
  | VUndef => js "undefined"
  | VNull => js "null"
  | VBool b => if b then js "true" else js "false"
  | VNum x => num_to_string x
  | VStr s => s
  | VArr l => join (js ",") (map (fun x => if is_nullish x then [] else to_string x) l)
  | VObj _ => js "[object Object]"
  | VErr c msg _ => match msg with [] => errclass_name c | _ => errclass_name c ++ js ": " ++ msg end
  end.

(** [Number(v)]. *)
Definition to_number (v : jsval) : num :=
  match v with
  | VUndef => NaN
  | VNull => S754_zero false
  | VBool b => if b then num_of_Z 1 else S754_zero false
  | VNum x => x
  | VStr s => string_to_number s
  | VArr _ => string_to_number (to_string v)
  | VObj _ | VErr _ _ _ => NaN
  end.

(** [a === b].  Two objects are equal only when they are the same reference;
    the code never compares an object with itself. *)
Definition strict_eq (a b : jsval) : bool :=
  match a, b with
  | VUndef, VUndef | VNull, VNull => true
  | VBool x, VBool y => Bool.eqb x y
  | VNum x, VNum y => num_eqb x y
  | VStr s, VStr t => bool_decide (s = t)
  | _, _ => false
  end.

(** ** Property access and operators *)

Definition own_get (v : jsval) (k : jstring) : jsval :=
  match v with
  | VObj o => default VUndef (assoc k o)
  | VErr _ msg o => if decide (k = js "message") then VStr msg else default VUndef (assoc k o)
  | VArr l => if decide (k = js "length") then VNum (num_of_Z (Z.of_nat (List.length l))) else VUndef
  | VStr s => if decide (k = js "length") then VNum (num_of_Z (Z.of_nat (List.length s))) else VUndef
  | _ => VUndef
  end.

(** [v.k] *)
Definition get (v : jsval) (k : jstring) : E jsval :=
  if is_nullish v then throw_type (js "Cannot read properties of " ++ to_string v)
  else Ok (own_get v k).

(** [v?.k] *)
Definition oget (v : jsval) (k : jstring) : jsval := if is_nullish v then VUndef else own_get v k.

(** [v[k]] with a computed key. *)
Definition e_index (v k : E jsval) : E jsval := x ← v; y ← k; get x (to_string y).

(** [k in v] for an object [v]. *)
Definition has_key (v : jsval) (k : jstring) : bool :=
  match v with
  | VObj o => bool_decide (is_Some (assoc k o))
  | VErr _ _ o => bool_decide (k = js "message") || bool_decide (is_Some (assoc k o))
  | _ => false
  end.

(** Lifted to expressions, with JavaScript's order and short-circuiting. *)
Definition e_get (e : E jsval) (k : jstring) : E jsval := v ← e; get v k.
Definition e_oget (e : E jsval) (k : jstring) : E jsval := v ← e; Ok (oget v k).
Definition e_or (a b : E jsval) : E jsval := v ← a; if truthy v then Ok v else b.
Definition e_and (a b : E jsval) : E jsval := v ← a; if truthy v then b else Ok v.
Definition e_coalesce (a b : E jsval) : E jsval := v ← a; if is_nullish v then b else Ok v.
Definition e_not (a : E jsval) : E jsval := v ← a; Ok (VBool (negb (truthy v))).
Definition e_seq (a b : E jsval) : E jsval := x ← a; y ← b; Ok (VBool (strict_eq x y)).
Definition e_sne (a b : E jsval) : E jsval := e_not (e_seq a b).
Definition e_if {A} (c : E jsval) (a b : E A) : E A := v ← c; if truthy v then a else b.
Definition e_Number (a : E jsval) : E jsval := v ← a; Ok (VNum (to_number v)).
Definition e_String (a : E jsval) : E jsval := v ← a; Ok (VStr (to_string v)).
Definition e_str (s : jstring) : E jsval := Ok (VStr s).
Definition e_num (z : Z) : E jsval := Ok (VNum (num_of_Z z)).

(** A template literal: the parts are converted with [ToString] and concatenated. *)
Fixpoint e_template (parts : list (E jsval)) : E jsval :=
  match parts with
  | [] => Ok (VStr [])
  | p :: ps => v ← p; w ← e_template ps; Ok (VStr (to_string v ++ to_string w))
  end.

(** [v.trim()] and the other string methods throw on anything but a string. *)
Definition str_method (name : jstring) (v : jsval) (f : jstring -> jsval) : E jsval :=
  match v with
  | VStr s => Ok (f s)
  | VUndef | VNull => throw_type (js "Cannot read properties of " ++ to_string v)
  | _ => throw_type (name ++ js " is not a function")
  end.
Definition e_trim (a : E jsval) : E jsval := v ← a; str_method (js "trim") v (fun s => VStr (trim s)).

(** [v?.trim()] *)
Definition e_otrim (a : E jsval) : E jsval :=
  v ← a; if is_nullish v then Ok VUndef else str_method (js "trim") v (fun s => VStr (trim s)).

(** The elements an array method or a [for ... of] visits. *)
Definition elements_of (v : jsval) : E (list jsval) :=
  match v with
  | VArr l => Ok l
  | VUndef | VNull => throw_type (js "Cannot read properties of " ++ to_string v)
  | _ => throw_type (js "is not a function")
  end.

(** [l.length] of an expression used as an array. *)
Definition e_length (a : E jsval) : E jsval := e_get a (js "length").

Definition encode_component (v : jsval) : E jstring :=
  match encodeURIComponent (to_string v) with
  | Some t => Ok t
  | None => Exn (VErr ErrURI (js "URI malformed") [])
  end.

(** ** Operators on primitives *)

(** [ToPrimitive(v)] of the values above. *)
Definition to_prim (v : jsval) : jsval :=
  match v with VArr _ | VObj _ | VErr _ _ _ => VStr (to_string v) | _ => v end.

Fixpoint str_ltb (s t : jstring) : bool :=
  match s, t with
  | _, [] => false
  | [], _ :: _ => true
  | c :: s', d :: t' => (c <? d)%N || ((c =? d)%N && str_ltb s' t')
  end.

(** [a < b]: by code units between strings, numeric otherwise. *)
Definition js_ltb (a b : jsval) : bool :=
  match to_prim a, to_prim b with
  | VStr s, VStr t => str_ltb s t
  | x, y => num_ltb (to_number x) (to_number y)
  end.

(** [a >= b] with [b] a number. *)
Definition js_geb (a : jsval) (b : num) : bool := num_leb b (to_number (to_prim a)).

(** [a + b]: concatenation as soon as one side is a string. *)
Definition js_add (a b : jsval) : jsval :=
  match to_prim a, to_prim b with
  | VStr s, y => VStr (s ++ to_string y)
  | x, VStr t => VStr (to_string x ++ t)
  | x, y => VNum (num_add (to_number x) (to_number y))
  end.

Definition e_lt (a b : E jsval) : E jsval := x ← a; y ← b; Ok (VBool (js_ltb x y)).
Definition e_gt (a b : E jsval) : E jsval := x ← a; y ← b; Ok (VBool (js_ltb y x)).
Definition e_call {A : Type} (f : jsval -> E A) (a : E jsval) : E A := v ← a; f v.
Definition e_encode (a : E jsval) : E jsval := v ← a; t ← encode_component v; Ok (VStr t).

(** Array and object literals, and the array methods templates use. *)
Definition e_array (l : list (E jsval)) : E jsval := vs ← result_seq l; Ok (VArr vs).
Fixpoint e_object (l : list (string * E jsval)) : E jsval :=
  match l with
  | [] => Ok (VObj [])
  | (k, e) :: l' =>
      v ← e; r ← e_object l';
      match r with VObj o => Ok (VObj ((js k, v) :: o)) | _ => Ok r end
  end.
Definition e_map (f : jsval -> E jsval) (a : E jsval) : E jsval :=
  v ← a; l ← elements_of v; vs ← result_seq (map f l); Ok (VArr vs).
Definition e_join (a : E jsval) (sep : string) : E jsval :=
  v ← a; l ← elements_of v;
  Ok (VStr (join (js sep) (map (fun x => if is_nullish x then [] else to_string x) l))).

(** [s.replace(pat, rep)] with a plain string pattern. *)
Fixpoint replace_first (p r s : jstring) : jstring :=
  if starts_with p s then r ++ drop (List.length p) s
  else match s with [] => [] | c :: s' => c :: replace_first p r s' end.
Definition e_replace (p r : string) (a : E jsval) : E jsval :=
  v ← a; str_method (js "replace") v (fun s => VStr (replace_first (js p) (js r) s)).

(** A literal with double quotes, written with single ones. *)
Definition jsq (s : string) : jstring := (fun c => if decide (c = 39%N) then 34%N else c) <$> js s.

Declare Scope js_scope.
Delimit Scope js_scope with jsx.
Notation "a @. k" := (e_get a (js k)) (at level 8, left associativity) : js_scope.
Notation "a @? k" := (e_oget a (js k)) (at level 8, left associativity) : js_scope.
Notation "a .|| b" := (e_or a b) (at level 52, left associativity) : js_scope.
Notation "a .&& b" := (e_and a b) (at level 51, left associativity) : js_scope.
Notation "a .?? b" := (e_coalesce a b) (at level 52, left associativity) : js_scope.
Notation "a === b" := (e_seq a b) (at level 50) : js_scope.
Notation "a !== b" := (e_sne a b) (at level 50) : js_scope.
Notation "a .< b" := (e_lt a b) (at level 49) : js_scope.
Notation "a .> b" := (e_gt a b) (at level 49) : js_scope.
Notation "# s" := (e_str (js s)) (at level 1, s at level 0, format "# s") : js_scope.

(** Object literals. *)
Definition obj (l : list (jstring * jsval)) : jsval := VObj l.
Notation "k ~> v" := (js k, v) (at level 60) : js_scope.

(** [o.k = v] on a value known to be an object. *)
Definition set_prop (o : jsval) (k : jstring) (v : jsval) : jsval :=
  match o with
  | VObj l => VObj (assoc_set k v l)
  | VErr c m l => VErr c m (assoc_set k v l)
  | _ => o
  end.

(** ** Lemmas *)

Lemma assoc_set_eq k v o : assoc k (assoc_set k v o) = Some v.
Proof.
  induction o as [|[k' v'] o IH]; simpl; [by rewrite decide_True|].
  destruct (decide (k = k')); simpl; [by rewrite decide_True | by rewrite decide_False].
Qed.

Lemma assoc_set_ne k k' v o : k <> k' -> assoc k (assoc_set k' v o) = assoc k o.
Proof.
  intros Hne. induction o as [|[k'' v''] o IH]; simpl; [by rewrite decide_False|].
  destruct (decide (k' = k'')) as [->|]; simpl; [by rewrite !decide_False|].
  by rewrite IH.
Qed.

Lemma own_get_set_eq o k v : own_get (set_prop (VObj o) k v) k = v.
Proof. simpl. by rewrite assoc_set_eq. Qed.

Lemma own_get_set_ne o k k' v : k <> k' -> own_get (set_prop (VObj o) k' v) k = own_get (VObj o) k.
Proof. intros H. simpl. by rewrite assoc_set_ne. Qed.

Lemma e_or_truthy v b : truthy v = true -> e_or (Ok v) b = Ok v.
Proof. unfold e_or; simpl. by intros ->. Qed.
Lemma e_or_falsy v b : truthy v = false -> e_or (Ok v) b = b.
Proof. unfold e_or; simpl. by intros ->. Qed.

#[export] Hint Rewrite assoc_set_eq own_get_set_eq : panel.

(** The fields of an object literal are those of its expressions. *)
Lemma e_object_fields l v : e_object l = Ok v ->
  exists o, v = VObj o /\ Forall2 (fun ke kv => fst kv = js (fst ke) /\ snd ke = Ok (snd kv)) l o.
Proof.
  revert v. induction l as [|[k e] l IH]; intros v; cbn [e_object].
  - intros [= <-]. by exists [].
  - destruct e as [x|]; cbn [mbind result_bind]; [|done].
    destruct (e_object l) as [r|]; cbn [mbind result_bind]; [|done].
    destruct (IH r eq_refl) as (o & -> & Ho). intros [= <-]. eexists. split; [done|]. by constructor.
Qed.
