(* ===== verification/Json.v ===== *)
(** * [JSON.stringify] and [JSON.parse]

    Every request body the panel sends goes through [JSON.stringify], and every
    response body and user-typed JSON field through [JSON.parse].  The parser's
    fuel is the length of the text plus one, which is always enough: each step of
    the recursion consumes a character. *)

From stdpp Require Import base list gmap strings.
From Stdlib Require Import NArith ZArith Lia String SpecFloat Wf_nat.
From S2P Require Import Prelude JsString JsNum JsVal.
Local Open Scope N_scope.

(** ** Serialization *)

Definition lhex (d : N) : N := if d <? 10 then 48 + d else 87 + d.

(** [\uXXXX] *)
Definition esc_u (c : N) : jstring :=
  [92; 117; lhex (c / 4096); lhex ((c / 256) mod 16); lhex ((c / 16) mod 16); lhex (c mod 16)].

Definition esc_unit (c : N) : jstring :=
  if c =? 34 then [92; 34]
  else if c =? 92 then [92; 92]
  else if c =? 8 then [92; 98]
  else if c =? 12 then [92; 102]
  else if c =? 10 then [92; 110]
  else if c =? 13 then [92; 114]
  else if c =? 9 then [92; 116]
  else if c <? 32 then esc_u c
  else [c].

(** Surrogate pairs are kept, lone surrogates are escaped. *)
Fixpoint quote_body (s : jstring) : jstring :=
  match s with
  | [] => []
  | c :: r =>
      if is_high c then
        match r with
        | d :: r' => if is_low d then c :: d :: quote_body r' else esc_u c ++ quote_body r
        | [] => esc_u c
        end
      else if is_low c then esc_u c ++ quote_body r
      else esc_unit c ++ quote_body r
  end.

Definition quote (s : jstring) : jstring := 34 :: quote_body s ++ [34].

Definition member_text (kv : jstring * option jstring) : option jstring :=
  match snd kv with Some t => Some (quote (fst kv) ++ 58 :: t) | None => None end.

(** [JSON.stringify(v)]; [None] is the result [undefined]. *)
Fixpoint stringify (v : jsval) : option jstring :=
  match v with
  | VUndef => None
  | VNull => Some (js "null")
  | VBool b => Some (if b then js "true" else js "false")
  | VNum x => Some (if num_is_finite x then num_to_string x else js "null")
  | VStr s => Some (quote s)
  | VArr l =>
      Some (91 :: join [44] (map (fun x => default (js "null") (stringify x)) l) ++ [93])
  | VObj o | VErr _ _ o =>
      let o' := own_entries (map (fun kv => (fst kv, stringify (snd kv))) o) in
      Some (123 :: join [44] (omap member_text o') ++ [125])
  end.

Definition newline (indent : nat) : jstring := 10 :: repeat 32 indent.

(** [JSON.stringify(v, null, 2)] at nesting [indent]. *)
Fixpoint stringify2 (indent : nat) (v : jsval) : option jstring :=
  let deeper := (indent + 2)%nat in
  let wrap (open close : N) (items : list jstring) : jstring :=
    match items with
    | [] => [open; close]
    | _ => open :: newline deeper ++ join (44 :: newline deeper) items ++ newline indent ++ [close]
    end in
  match v with
  | VArr l => Some (wrap 91 93 (map (fun x => default (js "null") (stringify2 deeper x)) l))
  | VObj o | VErr _ _ o =>
      let o' := own_entries (map (fun kv => (fst kv, stringify2 deeper (snd kv))) o) in
      Some (wrap 123 125 (omap (fun kv => match snd kv with
                                          | Some t => Some (quote (fst kv) ++ js ": " ++ t)
                                          | None => None end) o'))
  | _ => stringify v
  end.

(** ** Parsing *)

Definition json_ws (c : N) : bool := (c =? 32) || (c =? 9) || (c =? 10) || (c =? 13).

Fixpoint skip_ws (s : jstring) : jstring :=
  match s with c :: r => if json_ws c then skip_ws r else s | [] => [] end.

Definition hex_any (c : N) : option N :=
  if (48 <=? c) && (c <=? 57) then Some (c - 48)
  else if (97 <=? c) && (c <=? 102) then Some (c - 87)
  else if (65 <=? c) && (c <=? 70) then Some (c - 55)
  else None.

Definition simple_escape (c : N) : option N :=
  if c =? 34 then Some 34 else if c =? 92 then Some 92 else if c =? 47 then Some 47
  else if c =? 98 then Some 8 else if c =? 102 then Some 12 else if c =? 110 then Some 10
  else if c =? 114 then Some 13 else if c =? 116 then Some 9 else None.

(** The characters of a string after its opening quote. *)
Fixpoint parse_str (s : jstring) : option (jstring * jstring) :=
  let add c (r : option (jstring * jstring)) :=
    match r with Some (t, rest) => Some (c :: t, rest) | None => None end in
  match s with
  | [] => None
  | c :: r =>
      if c =? 34 then Some ([], r)
      else if c =? 92 then
        match r with
        | e :: r1 =>
            if e =? 117 then
              match r1 with
              | a :: b :: d :: f :: r2 =>
                  match hex_any a, hex_any b, hex_any d, hex_any f with
                  | Some x, Some y, Some z, Some w =>
                      add (4096 * x + 256 * y + 16 * z + w) (parse_str r2)
                  | _, _, _, _ => None
                  end
              | _ => None
              end
            else match simple_escape e with
                 | Some x => add x (parse_str r1)
                 | None => None
                 end
        | [] => None
        end
      else if c <? 32 then None
      else add c (parse_str r)
  end.

(** Fraction and exponent of a number whose integer part is [u]. *)
Definition num_tail (neg : bool) (u : Decimal.uint) (r1 : jstring) : option (num * jstring) :=
  let finish f r3 :=
    let '(e, r4) := span_exp r3 in
    match r4 with
    | (69 | 101) :: _ => None
    | _ => Some (num_of_dec neg (N.of_uint (Decimal.app u f)) (e - Z.of_nat (uint_len f)), r4)
    end in
  match r1 with
  | 46 :: r2 =>
      let '(f, r3) := span_digits r2 in
      if (uint_len f =? 0)%nat then None else finish f r3
  | _ => finish Decimal.Nil r1
  end.

Definition leading_zero (u : Decimal.uint) : bool :=
  match u with Decimal.D0 u' => negb (uint_len u' =? 0)%nat | _ => false end.

(** A JSON number: digits are required and a leading zero stands alone. *)
Definition parse_num (s : jstring) : option (num * jstring) :=
  let '(neg, r) := match s with 45 :: r => (true, r) | _ => (false, s) end in
  let '(u, r1) := span_digits r in
  if (uint_len u =? 0)%nat || leading_zero u then None else num_tail neg u r1.

Definition expect (w : jstring) (v : jsval) (s : jstring) : option (jsval * jstring) :=
  if starts_with w s then Some (v, drop (List.length w) s) else None.

Fixpoint parse_value (fuel : nat) (s : jstring) : option (jsval * jstring) :=
  match fuel with
  | O => None
  | S n =>
      match skip_ws s with
      | [] => None
      | c :: r =>
          if c =? 34 then
            match parse_str r with Some (t, rest) => Some (VStr t, rest) | None => None end
          else if c =? 91 then
            match skip_ws r with
            | 93 :: rest => Some (VArr [], rest)
            | _ => match parse_elems n r with Some (l, rest) => Some (VArr l, rest) | None => None end
            end
          else if c =? 123 then
            match skip_ws r with
            | 125 :: rest => Some (VObj [], rest)
            | _ => match parse_members n [] r with Some (o, rest) => Some (VObj o, rest) | None => None end
            end
          else if c =? 116 then expect (js "true") (VBool true) (c :: r)
          else if c =? 102 then expect (js "false") (VBool false) (c :: r)
          else if c =? 110 then expect (js "null") VNull (c :: r)
          else match parse_num (c :: r) with Some (x, rest) => Some (VNum x, rest) | None => None end
      end
  end
with parse_elems (fuel : nat) (s : jstring) : option (list jsval * jstring) :=
  match fuel with
  | O => None
  | S n =>
      match parse_value n s with
      | None => None
      | Some (v, r) =>
          match skip_ws r with
          | 93 :: rest => Some ([v], rest)
          | 44 :: r' => match parse_elems n r' with
                        | Some (l, rest) => Some (v :: l, rest)
                        | None => None
                        end
          | _ => None
          end
      end
  end
with parse_members (fuel : nat) (acc : list (jstring * jsval)) (s : jstring)
  : option (list (jstring * jsval) * jstring) :=
  match fuel with
  | O => None
  | S n =>
      match skip_ws s with
      | 34 :: r =>
          match parse_str r with
          | None => None
          | Some (k, r1) =>
              match skip_ws r1 with
              | 58 :: r2 =>
                  match parse_value n r2 with
                  | None => None
                  | Some (v, r3) =>
                      let acc' := assoc_set k v acc in
                      match skip_ws r3 with
                      | 125 :: rest => Some (acc', rest)
                      | 44 :: r4 => parse_members n acc' r4
                      | _ => None
                      end
                  end
              | _ => None
              end
          end
      | _ => None
      end
  end.

Definition syntax_error : jsval := VErr ErrSyntax (js "Unexpected token in JSON") [].

(** [JSON.parse(s)]. *)
Definition json_parse (s : jstring) : E jsval :=
  match parse_value (S (List.length s)) s with
  | Some (v, rest) => match skip_ws rest with [] => Ok v | _ => Exn syntax_error end
  | None => Exn syntax_error
  end.

(** ** Round trip *)

(** Values that survive a trip through JSON unchanged: integers in the safe
    range, strings of code units, and objects without duplicate or array-index
    keys (which would be reordered). *)
Inductive json_ok : jsval -> Prop :=
| ok_null : json_ok VNull
| ok_bool b : json_ok (VBool b)
| ok_int z : safe_int z -> json_ok (VNum (num_of_Z z))
| ok_str s : Forall (fun c => is_unit c = true) s -> json_ok (VStr s)
| ok_arr l : Forall json_ok l -> json_ok (VArr l)
| ok_obj o :
    Forall (fun kv => json_ok (snd kv)) o ->
    Forall (fun kv => Forall (fun c => is_unit c = true) (fst kv) /\ index_key (fst kv) = None) o ->
    NoDup (fst <$> o) -> json_ok (VObj o).

(** What can follow a value inside a document. *)
Definition delim (r : jstring) : Prop :=
  match r with [] => True | c :: _ => c = 44 \/ c = 93 \/ c = 125 end.

Lemma own_entries_plain {A} (o : list (jstring * A)) :
  Forall (fun kv => index_key (fst kv) = None) o -> own_entries o = o.
Proof.
  intros H. unfold own_entries.
  assert (foldr (fun kv acc => match index_key (fst kv) with
            | Some n => insert_index n kv acc | None => acc end) [] o = []) as ->.
  { induction H as [|kv o Hk _ IH]; simpl; [done|]. by rewrite IH, Hk. }
  simpl. induction H as [|kv o Hk _ IH]; [done|]. rewrite filter_cons_True by done. by rewrite IH.
Qed.

Lemma hex_any_lhex d : d < 16 -> hex_any (lhex d) = Some d.
Proof.
  intros H. unfold hex_any, lhex. destruct (N.ltb_spec d 10);
    repeat match goal with |- context [?a <=? ?b] => destruct (N.leb_spec a b); try lia end;
    simpl; f_equal; lia.
Qed.

Definition add_unit (c : N) (r : option (jstring * jstring)) : option (jstring * jstring) :=
  match r with Some (t, rest) => Some (c :: t, rest) | None => None end.

Lemma parse_str_esc_u c r : is_unit c = true ->
  parse_str (esc_u c ++ r) = add_unit c (parse_str r).
Proof.
  unfold is_unit. rewrite N.ltb_lt. intros H. cbn -[lhex hex_any N.mul N.add N.div N.modulo].
  rewrite !hex_any_lhex by (zify; Z.to_euclidean_division_equations; lia).
  fold (add_unit c). unfold add_unit. destruct (parse_str r) as [[t rest]|]; [|done].
  repeat f_equal. zify; Z.to_euclidean_division_equations; lia.
Qed.

Lemma parse_str_plain c r : c <> 34 -> c <> 92 -> 32 <= c ->
  parse_str (c :: r) = add_unit c (parse_str r).
Proof.
  intros H1 H2 H3. cbn. rewrite (proj2 (N.eqb_neq _ _)), (proj2 (N.eqb_neq _ _)) by done.
  by rewrite (proj2 (N.ltb_ge _ _)) by done.
Qed.

Lemma parse_str_esc c r : is_unit c = true ->
  parse_str (esc_unit c ++ r) = add_unit c (parse_str r).
Proof.
  intros Hu. unfold esc_unit.
  repeat match goal with |- context [c =? ?x] => destruct (N.eqb_spec c x); [subst; done|] end.
  destruct (N.ltb_spec c 32); [by apply parse_str_esc_u|]. by apply parse_str_plain.
Qed.

Lemma parse_quote_body s r : Forall (fun c => is_unit c = true) s ->
  parse_str (quote_body s ++ 34 :: r) = Some (s, r).
Proof.
  induction s as [s IH] using (induction_ltof1 _ (@List.length N)). unfold ltof in IH.
  intros HF. destruct s as [|c s]; [done|]. inv HF. cbn [quote_body].
  destruct (is_high c) eqn:Eh; [|destruct (is_low c)].
  - assert (Hc : c <> 34 /\ c <> 92 /\ 32 <= c)
      by (unfold is_high in Eh; rewrite andb_true_iff, !N.leb_le in Eh; lia).
    destruct s as [|d s]; [by rewrite parse_str_esc_u|].
    destruct (is_low d) eqn:El.
    + assert (Hd : d <> 34 /\ d <> 92 /\ 32 <= d)
        by (unfold is_low in El; rewrite andb_true_iff, !N.leb_le in El; lia).
      inv H2. cbn [app]. rewrite !parse_str_plain by tauto. by rewrite (IH s) by (simpl; lia || done).
    + rewrite <- app_assoc, parse_str_esc_u by done. by rewrite (IH (d :: s)) by (simpl; lia || done).
  - rewrite <- app_assoc, parse_str_esc_u by done. by rewrite (IH s) by (simpl; lia || done).
  - rewrite <- app_assoc, parse_str_esc by done. by rewrite (IH s) by (simpl; lia || done).
Qed.

Lemma delim_plain r : delim r ->
  digit_free r /\ skip_ws r = r /\ (forall r', r <> 46 :: r') /\ span_exp r = (0%Z, r) /\
  match r with (69 | 101) :: _ => False | _ => True end.
Proof. destruct r as [|c r]; [done|]. by intros [-> | [-> | ->]]. Qed.

Lemma num_tail_delim neg u r : delim r -> num_tail neg u r = Some (num_of_dec neg (N.of_uint u) 0, r).
Proof.
  intros Hd. destruct r as [|c r]; [|destruct Hd as [-> | [-> | ->]]]; unfold num_tail; simpl;
    by rewrite DecimalFacts.app_nil_r.
Qed.

Lemma dec_no_leading_zero n : leading_zero (N.to_uint n) = false.
Proof.
  assert (H : Decimal.unorm (N.to_uint n) = N.to_uint n)
    by (by rewrite <- DecimalN.Unsigned.to_of, DecimalN.Unsigned.of_to).
  destruct (N.to_uint n) as [|u|u|u|u|u|u|u|u|u|u]; try done. simpl in *.
  unfold Decimal.unorm in H. simpl in H. destruct (Decimal.nzhead u) eqn:E; try done.
  - by injection H as <-.
  - by apply DecimalFacts.nzhead_nonzero in E.
Qed.

Lemma parse_num_dec (neg : bool) (n : N) (r : jstring) : delim r ->
  parse_num ((if neg then [45] else []) ++ dec_of_N n ++ r) = Some (num_of_dec neg n 0, r).
Proof.
  intros Hd. destruct (delim_plain r Hd) as (Hfree & _).
  destruct (dec_of_N_cons n) as (c & t & Hc & Hr).
  assert (H : (let '(u, r1) := span_digits (dec_of_N n ++ r) in
    if (uint_len u =? 0)%nat || leading_zero u then None else num_tail neg u r1)
    = Some (num_of_dec neg n 0, r)).
  { pose proof (span_digits_units (N.to_uint n) r Hfree) as Hs. fold (dec_of_N n) in Hs. rewrite Hs.
    destruct (span_dec_of_N n r Hfree) as (u & Hs' & Hu & Hl). rewrite Hs in Hs'. inv Hs'.
    rewrite dec_no_leading_zero, orb_false_r, (proj2 (Nat.eqb_neq _ _)) by done.
    by rewrite num_tail_delim, DecimalN.Unsigned.of_to. }
  unfold parse_num. destruct neg; simpl app; [done|]. rewrite Hc in *. simpl app in *.
  destruct c as [|p]; [lia|]. repeat (destruct p as [p|p|]; try lia); done.
Qed.

Lemma parse_num_safe z r : safe_int z -> delim r ->
  parse_num (num_to_string (num_of_Z z) ++ r) = Some (num_of_Z z, r).
Proof.
  intros Hz Hd. destruct (Z.le_gt_cases 0 z) as [Hp|Hn].
  - rewrite num_to_string_nat by (destruct Hz; lia).
    pose proof (parse_num_dec false (Z.to_N z) r Hd) as H. simpl app in H. rewrite H.
    by rewrite num_of_dec_N, Z2N.id.
  - destruct z as [|p|p]; try lia. rewrite num_to_string_neg by done.
    pose proof (parse_num_dec true (Npos p) r Hd) as H. simpl app in *. rewrite H.
    by rewrite num_of_dec_neg.
Qed.

Notation comma := [44%N].

Definition ser (v : jsval) : jstring := default [] (stringify v).

Lemma json_ok_ser v : json_ok v -> stringify v = Some (ser v).
Proof. destruct 1; done. Qed.

(** [v] is read back from its text in any context. *)
Definition reads_back (v : jsval) : Prop :=
  forall fuel r, delim r -> (List.length (ser v) <= fuel)%nat ->
    parse_value fuel (ser v ++ r) = Some (v, r).

Lemma skip_ws_plain c r : json_ws c = false -> skip_ws (c :: r) = c :: r.
Proof. simpl. by intros ->. Qed.

Lemma ser_head v : json_ok v -> exists c r, ser v = c :: r /\ json_ws c = false /\ c <> 93.
Proof.
  intros H. destruct H as [|[]|z Hz|s _|l _|o _ _ _]; try (by eexists _, _; split_and!).
  cbn [ser stringify default].
  replace (num_is_finite (num_of_Z z)) with true.
  2: { pose proof (num_to_Z_of_Z z Hz). by destruct (num_of_Z z). }
  destruct (Z.le_gt_cases 0 z).
  - rewrite num_to_string_nat by (destruct Hz; lia).
    destruct (dec_of_N_cons (Z.to_N z)) as (c & r & -> & Hc). exists c, r. split_and!; [done| |lia].
    unfold json_ws. repeat match goal with |- context [c =? ?x] => destruct (N.eqb_spec c x); [lia|] end. done.
  - destruct z as [|p|p]; try lia. rewrite num_to_string_neg by done. by eexists _, _; split_and!.
Qed.

Lemma elems_read_back l r fuel :
  l <> [] -> Forall reads_back l -> Forall json_ok l ->
  (List.length (join comma (map ser l)) < fuel)%nat ->
  parse_elems fuel (join comma (map ser l) ++ 93 :: r) = Some (l, r).
Proof.
  revert fuel. induction l as [|v l IH]; [done|]. intros fuel _ HR HO Hf.
  inv HR. inv HO. destruct fuel as [|fuel]; [lia|]. destruct l as [|v' l].
  - cbn [map join parse_elems] in *. rewrite H1; [done|simpl; auto|lia].
  - rewrite map_cons, join_cons in Hf |- * by done. rewrite !length_app in Hf. cbn [List.length] in Hf.
    rewrite <- !app_assoc. cbn [parse_elems]. rewrite H1; [|simpl; auto|lia].
    cbn [app]. rewrite skip_ws_plain by done. by rewrite IH by (done || lia).
Qed.

Definition member_ser (kv : jstring * jsval) : jstring := quote (fst kv) ++ 58 :: ser (snd kv).

Lemma assoc_set_fresh k v acc : k ∉ (fst <$> acc) -> assoc_set k v acc = acc ++ [(k, v)].
Proof.
  induction acc as [|[k' v'] acc IH]; [done|]. rewrite fmap_cons, not_elem_of_cons. intros [Hne Hn].
  simpl in *. rewrite decide_False by done. by rewrite IH.
Qed.

Lemma members_read_back o acc r fuel :
  o <> [] -> Forall (fun kv => reads_back (snd kv)) o ->
  Forall (fun kv => json_ok (snd kv)) o ->
  Forall (fun kv => Forall (fun c => is_unit c = true) (fst kv)) o ->
  NoDup ((fst <$> acc) ++ (fst <$> o)) ->
  (List.length (join comma (map member_ser o)) < fuel)%nat ->
  parse_members fuel acc (join comma (map member_ser o) ++ 125 :: r) = Some (acc ++ o, r).
Proof.
  revert fuel acc. induction o as [|[k v] o IH]; [done|]. intros fuel acc _ HR HO HU HN Hf.
  inv HR. inv HO. inv HU. destruct fuel as [|fuel]; [lia|]. simpl in H1, H3, H5.
  assert (Hk : k ∉ (fst <$> acc)).
  { apply NoDup_app in HN as (_ & HN & _). intros Hin. apply (HN k Hin). rewrite fmap_cons. by left. }
  assert (Hstep : forall rest, delim rest -> (List.length (ser v) <= fuel)%nat ->
    parse_members (S fuel) acc (member_ser (k, v) ++ rest) =
    match skip_ws rest with
    | 125 :: rest => Some (acc ++ [(k, v)], rest)
    | 44 :: r4 => parse_members fuel (acc ++ [(k, v)]) r4
    | _ => None
    end).
  { intros rest Hd Hl. unfold member_ser, quote. cbn [fst snd]. simpl app. rewrite <- !app_assoc.
    cbn [parse_members]. rewrite skip_ws_plain by done. simpl app.
    rewrite parse_quote_body by done. rewrite skip_ws_plain by done.
    rewrite H1 by done. by rewrite assoc_set_fresh. }
  destruct o as [|kv' o].
  - cbn [map join] in *. rewrite Hstep; [done|simpl; auto|].
    unfold member_ser, quote in Hf. rewrite length_app in Hf. simpl in *. lia.
  - rewrite map_cons, join_cons in Hf |- * by done. rewrite !length_app in Hf. cbn [List.length] in Hf.
    unfold member_ser at 1, quote in Hf. rewrite length_app in Hf. cbn [fst snd List.length] in Hf.
    rewrite <- !app_assoc, Hstep; [|simpl; auto|lia]. cbn [app].
    rewrite skip_ws_plain by done. rewrite IH; try done; [by rewrite <- app_assoc| |lia].
    rewrite fmap_app, <- app_assoc. done.
Qed.

Lemma omap_members o : Forall (fun kv => json_ok (snd kv)) o ->
  omap member_text (map (fun kv => (fst kv, stringify (snd kv))) o) = map member_ser o.
Proof.
  induction 1 as [|[k v] o Hv _ IH]; [done|]. rewrite !map_cons. cbn [fst snd].
  rewrite (json_ok_ser v Hv). simpl. f_equal. exact IH.
Qed.

Lemma stringify_obj o : json_ok (VObj o) -> ser (VObj o) = 123 :: join comma (map member_ser o) ++ [125].
Proof.
  inversion 1 as [| | | | |o' HO HK HN]; subst.
  change (ser (VObj o)) with
    (123 :: join comma (omap member_text
       (own_entries (map (fun kv => (fst kv, stringify (snd kv))) o))) ++ [125]).
  rewrite own_entries_plain, omap_members; [done..|].
  apply Forall_fmap. eapply Forall_impl; [apply HK|]. by intros [k v] [_ ?].
Qed.

Lemma stringify_arr l : Forall json_ok l -> ser (VArr l) = 91 :: join comma (map ser l) ++ [93].
Proof.
  intros H. change (ser (VArr l)) with
    (91 :: join comma (map (fun x => default (js "null") (stringify x)) l) ++ [93]).
  do 3 f_equal. apply map_ext_in. intros x Hx.
  rewrite json_ok_ser; [done|]. rewrite Forall_forall in H. apply H. by apply list_elem_of_In.
Qed.

Lemma parse_value_num z fuel r : safe_int z -> delim r ->
  parse_value (S fuel) (ser (VNum (num_of_Z z)) ++ r) = Some (VNum (num_of_Z z), r).
Proof.
  intros Hz Hd. pose proof (parse_num_safe z r Hz Hd) as Hp.
  replace (ser (VNum (num_of_Z z))) with (num_to_string (num_of_Z z)).
  2: { cbn [ser stringify default]. pose proof (num_to_Z_of_Z z Hz). by destruct (num_of_Z z). }
  assert (Hh : exists c t, num_to_string (num_of_Z z) = c :: t /\ (c = 45 \/ 48 <= c <= 57)).
  { destruct (Z.le_gt_cases 0 z).
    - rewrite num_to_string_nat by (destruct Hz; lia).
      destruct (dec_of_N_cons (Z.to_N z)) as (c & t & -> & Hc). eauto 10.
    - destruct z as [|p|p]; try lia. rewrite num_to_string_neg by done. eauto 10. }
  destruct Hh as (c & t & Hs & Hc). rewrite Hs in *. cbn [app parse_value] in *.
  rewrite skip_ws_plain.
  2: { unfold json_ws. repeat match goal with |- context [c =? ?x] => destruct (N.eqb_spec c x); [lia|] end. done. }
  repeat match goal with |- context [c =? ?x] => destruct (N.eqb_spec c x); [lia|] end.
  by rewrite Hp.
Qed.

Lemma json_ok_reads_back v : json_ok v -> reads_back v.
Proof.
  induction v as [| |b|x|s|l IH|o IH|c m o _] using jsval_nested_ind; intros Hok fuel r Hd Hf;
    inversion Hok as [|b' Eb|z Hz Ez|s' Hs Es|l' Hl El|o' HO HK HN Eo]; subst;
    (destruct fuel as [|fuel]; [exfalso; destruct (ser_head _ Hok) as (c & t & Ht & _);
       rewrite Ht in Hf; simpl in Hf; lia|]).
  - done.
  - by destruct b.
  - by apply parse_value_num.
  - change (ser (VStr s)) with (34 :: quote_body s ++ [34]). cbn [app parse_value].
    rewrite skip_ws_plain by done. simpl (34 =? 34). rewrite <- app_assoc. cbn [app].
    by rewrite parse_quote_body.
  - rewrite stringify_arr in * by done. destruct l as [|v l]; [done|].
    rewrite List.Forall_forall in IH.
    assert (HR : Forall reads_back (v :: l)).
    { apply List.Forall_forall. intros x Hx. apply IH; [done|]. rewrite List.Forall_forall in Hl. auto. }
    destruct (ser_head v) as (c & t & Ht & Hc & Hne); [by inv Hl|].
    cbn [app List.length] in *. rewrite length_app in Hf. cbn [List.length] in Hf.
    pose proof (elems_read_back (v :: l) r fuel ltac:(done) HR Hl ltac:(lia)) as He.
    cbn [parse_value]. rewrite skip_ws_plain by done. simpl (91 =? _).
    rewrite <- app_assoc. cbn [app]. rewrite He.
    assert (Hh : exists t', join comma (map ser (v :: l)) ++ 93 :: r = c :: t').
    { destruct l; [|rewrite map_cons, join_cons by done]; cbn [map join]; rewrite Ht; by eexists. }
    destruct Hh as (t' & ->). rewrite skip_ws_plain by done.
    destruct c as [|p]; [done|]. repeat (destruct p as [p|p|]; try done).
  - rewrite stringify_obj in * by done. destruct o as [|[k v] o]; [done|].
    rewrite List.Forall_forall in IH.
    assert (HR : Forall (fun kv => reads_back (snd kv)) ((k, v) :: o)).
    { apply List.Forall_forall. intros x Hx. apply IH; [done|]. rewrite List.Forall_forall in HO. auto. }
    cbn [app List.length] in *. rewrite length_app in Hf. cbn [List.length] in Hf.
    pose proof (members_read_back ((k, v) :: o) [] r fuel ltac:(done) HR HO
      ltac:(eapply Forall_impl; [apply HK|]; by intros ? [? _]) HN ltac:(lia)) as He.
    cbn [parse_value]. rewrite skip_ws_plain by done. simpl (123 =? _).
    rewrite <- app_assoc. cbn [app] in *. rewrite He.
    assert (Hh : exists t', join comma (map member_ser ((k, v) :: o)) ++ 125 :: r = 34 :: t').
    { destruct o; [|rewrite map_cons, join_cons by done]; by eexists. }
    by destruct Hh as (t' & ->).
Qed.

Lemma json_roundtrip v : json_ok v -> exists t, stringify v = Some t /\ json_parse t = Ok v.
Proof.
  intros H. exists (ser v). split; [by apply json_ok_ser|]. unfold json_parse.
  pose proof (json_ok_reads_back v H (S (List.length (ser v))) [] I ltac:(lia)) as Hr.
  rewrite List.app_nil_r in Hr. by rewrite Hr.
Qed.
