(* ===== verification/Types.v ===== *)
(** * The TypeScript types of the broker's data

    The types the panel declares for what the broker returns, as data, with the
    predicate that a value has one.  TypeScript does not check replies, so nothing
    in the model depends on these types; the theorems about rendering assume them. *)

From stdpp Require Import base list gmap strings.
From Stdlib Require Import NArith ZArith Lia String.
From S2P Require Import Prelude JsString JsNum JsVal.
Local Open Scope js_scope.

Inductive ty :=
| TUnknown
| TString
| TNumber
| TBoolean
| TNullType
| TArray (t : ty)
| TUnion (t u : ty)
| TRecord (t : ty)
| TObject (fields : list (string * bool * ty)).

(** [k: t] and [k?: t]. *)
Definition req (k : string) (t : ty) : string * bool * ty := (k, true, t).
Definition opt (k : string) (t : ty) : string * bool * ty := (k, false, t).

Fixpoint has_type (t : ty) (v : jsval) : bool :=
  match t with
  | TUnknown => true
  | TString => is_string v
  | TNumber => match v with VNum _ => true | _ => false end
  | TBoolean => match v with VBool _ => true | _ => false end
  | TNullType => match v with VNull => true | _ => false end
  | TArray t => match v with VArr l => forallb (has_type t) l | _ => false end
  | TUnion t u => has_type t v || has_type u v
  | TRecord t => match v with VObj o => forallb (fun kv => has_type t (snd kv)) o | _ => false end
  | TObject fields =>
      match v with
      | VObj o => forallb (fun f => match f with (k, required, t) =>
          match assoc (js k) o with
          | None | Some VUndef => negb required
          | Some x => has_type t x
          end end) fields
      | _ => false
      end
  end.

(** ** [lib/session.ts] *)

Definition CellRecord : ty :=
  TObject [req "id" TString; req "region" TString; req "controllerUrl" TString; opt "label" (TUnion TString TNullType)].

Definition CellMember : ty :=
  TObject [req "profile" TString; req "reachUrl" TString; req "advertiseUrl" TString; req "name" TString; req "cellId" TString].

Definition AuthConfig : ty :=
  TObject [req "mode" TString; req "configured" TBoolean; opt "setup_open" TBoolean;
           opt "setup_closes_in_secs" (TUnion TNumber TNullType)].

Definition ClusterNode : ty :=
  TObject [opt "id" TString; opt "addr" TString; opt "name" TString; opt "healthy" TBoolean; opt "is_self" TBoolean;
           opt "led_shards" (TArray TNumber); opt "preferred_shards" (TArray TNumber)].

Definition ClusterStatus : ty :=
  TObject [opt "cluster_id" TString; opt "generation" TNumber; opt "enabled" TBoolean; opt "node_count" TNumber;
           opt "healthy_count" TNumber; opt "scheduler_leader_id" TString; opt "this_node_scheduler_leader" TBoolean;
           opt "nodes" (TArray ClusterNode)].

(** ** [lib/catalog.ts] *)

Definition QueueRow : ty :=
  TObject [opt "queue_id" TString; opt "id" TString; opt "queue" TString; opt "name" TString; opt "url" TString;
           opt "parallelism" TNumber; opt "max_retries" TNumber].
Definition GroupRow : ty := TObject [opt "group_id" TString; opt "id" TString; opt "name" TString].
Definition FlowRow : ty :=
  TObject [opt "flow_id" TString; opt "id" TString; opt "key" TString; opt "parallelism" TNumber; opt "rate" TNumber;
           opt "period_secs" TNumber].

(** ** [lib/federation.ts] *)

Definition FedOk (t : ty) : ty := TObject [req "cell" TString; req "data" t].
Definition FedResult (t : ty) : ty :=
  TObject [opt "ok" (TArray (FedOk t)); opt "failed" (TArray (TObject [req "cell" TString; req "error" TString]))].

Definition AdminNode : ty :=
  TObject [opt "id" TString; opt "addr" TString; opt "alive" TBoolean; opt "self" TBoolean; opt "name" TString;
           opt "healthy" TBoolean; opt "is_self" TBoolean; opt "led_shards" (TArray TNumber);
           opt "preferred_shards" (TArray TNumber)].
Definition AdminShard : ty :=
  TObject [opt "shard" TNumber; opt "leaderId" TString; opt "replicas" (TArray TString); opt "learners" (TArray TString);
           opt "isr" (TArray TString)].
Definition AdminCluster : ty :=
  TObject [opt "nodeCount" TNumber; opt "replicationFactor" TNumber; opt "minIsr" TNumber; opt "ready" TBoolean].

(** ** The views' own types *)

Definition Delayed : ty :=
  TObject [opt "schedule_id" TString; opt "id" TString; opt "url" TString; opt "queue" TString; opt "key" TString;
           opt "run_at_ms" TNumber; opt "deliver_at_ms" TNumber].
Definition Cron : ty :=
  TObject [opt "cron_id" TString; opt "id" TString; opt "url" TString; opt "destination_url" TString; opt "queue" TString;
           opt "cron" TString; opt "every_seconds" TNumber; opt "paused" TBoolean; opt "next_run_ms" TNumber;
           opt "next_run_at_ms" TNumber].
Definition Source : ty :=
  TObject [req "dlq_topic" TString; opt "kind" TString; opt "label" TString; opt "count" TNumber; opt "queue" TString].
Definition Msg : ty :=
  TObject [req "message_id" TString; opt "source_queue" TString; opt "destination_url" TString; opt "reason" TString;
           opt "published_at_ms" TNumber; req "partition" TNumber; req "offset" TNumber; opt "body" TUnknown].
Definition Host : ty := TObject [req "host" TString; opt "remaining_ms" TNumber; opt "remaining" TNumber].
Definition Member : ty :=
  TObject [opt "member_id" TString; opt "id" TString; opt "name" TString; opt "url" TString; opt "parallelism" TNumber;
           opt "rate" TNumber].

(** A row of the table of nodes ([InfraView.vue]). *)
Definition NodeRow : ty :=
  TObject [req "key" TString; req "name" TString; req "role" TString; req "addr" TString; req "healthy" TBoolean;
           req "self" TBoolean; req "cellId" TString; req "cellLabel" TString; opt "broker" AdminNode; opt "member" CellMember].

(** ** Facts *)

(** A typed object is an object: reading its properties never throws. *)
Definition is_obj (v : jsval) : Prop := exists o, v = VObj o.

Lemma typed_object fields v : has_type (TObject fields) v = true -> is_obj v.
Proof. destruct v; try done. by eexists. Qed.

Lemma typed_array t v : has_type (TArray t) v = true ->
  exists l, v = VArr l /\ Forall (fun x => has_type t x = true) l.
Proof.
  destruct v as [| | | | |l| |]; try done. cbn [has_type]. intros Hl. exists l. split; [done|].
  apply Forall_forall. intros x Hx. rewrite forallb_forall in Hl. apply Hl. by apply list_elem_of_In.
Qed.

Lemma typed_union t u v : has_type (TUnion t u) v = true -> has_type t v = true \/ has_type u v = true.
Proof. cbn [has_type]. apply orb_true_iff. Qed.

(** An object with the fields of a type has it. *)
Lemma typed_fields fields o :
  Forall (fun f => match f with (k, required, t) =>
    match assoc (js k) o with None | Some VUndef => required = false | Some x => has_type t x = true end end) fields ->
  has_type (TObject fields) (VObj o) = true.
Proof.
  intros Hf. cbn [has_type]. apply forallb_forall. intros [[k required] t] Hin%list_elem_of_In.
  rewrite Forall_forall in Hf. specialize (Hf _ Hin). cbn beta iota in Hf |- *.
  destruct (assoc (js k) o) as [[]|]; first [done | by rewrite Hf].
Qed.

(** The value of a field: absent and [undefined] only when it is optional. *)
Lemma typed_field fields o k required t :
  has_type (TObject fields) (VObj o) = true -> (k, required, t) ∈ fields ->
  own_get (VObj o) (js k) = VUndef /\ required = false \/ has_type t (own_get (VObj o) (js k)) = true.
Proof.
  cbn [has_type own_get]. rewrite forallb_forall. intros Hf Hin. apply list_elem_of_In in Hin.
  specialize (Hf _ Hin). cbn beta iota in Hf. destruct (assoc (js k) o) as [x|]; [|left; by destruct required].
  cbn [default]. destruct x; try (by right). left. by destruct required.
Qed.
