(* ===== verification/Prog.v ===== *)
(** * Asynchronous programs

    The panel's handlers are [async] functions over shared mutable state.  A
    handler is a [prog]: a tree whose nodes are synchronous state updates
    ([Act]), suspension points ([Wait], an [await] on something outside the
    program), fire-and-forget calls ([Spawn], the source's [void f()]) and
    [Promise.all] of two branches ([Par], nested for more).

    [advance] runs a program to its next suspension, as the JavaScript engine
    runs a task to completion; [deliver] answers one outstanding request of a
    pool of suspended programs.  Because an [await] on another [async] function
    adds no observable interleaving point beyond those of its body (the engine
    drains the microtask queue before the next reply is handled), calling and
    awaiting a local function is plain [bind]. *)

From stdpp Require Import base list gmap strings.
From Stdlib Require Import NArith ZArith Lia FunctionalExtensionality.
From S2P Require Import Prelude JsString JsNum JsVal.

(** ** The environment's side *)

Record http_request := {
  rq_method : jstring;
  rq_url : jstring;
  rq_headers : list (jstring * jstring);
  rq_body : option jstring
}.

(** [rs_text = None]: the body cannot be read ([res.text()] rejects). *)
Record http_response := {
  rs_status : N;
  rs_statusText : jstring;
  rs_text : option jstring
}.

(** What a program can wait for; [AskBody] is the arrival of a response's body,
    where the code does something between the headers and the body. *)
Inductive ask :=
| AskFetch (r : http_request)
| AskBody (r : http_response)
| AskClipboard (text : jstring)
| AskConfirm (msg : jstring).

Inductive reply :=
| Responded (r : http_response)
| Rejected (e : jsval)
| Answered (b : bool).

(** ** Programs *)

Inductive prog (S A : Type) : Type :=
| Ret (a : A)
| Throw (e : jsval)
| Act (f : S -> S) (k : S -> prog S A)
| Wait (q : ask) (k : reply -> prog S A)
| Spawn (p : prog S unit) (k : prog S A)
| Par (p q : prog S jsval) (k : result jsval (jsval * jsval) -> prog S A).
Arguments Ret {S A} a.
Arguments Throw {S A} e.
Arguments Act {S A} f k.
Arguments Wait {S A} q k.
Arguments Spawn {S A} p k.
Arguments Par {S A} p q k.

Fixpoint prog_bind {S A B : Type} (f : A -> prog S B) (p : prog S A) : prog S B :=
  match p with
  | Ret a => f a
  | Throw e => Throw e
  | Act g k => Act g (fun s => prog_bind f (k s))
  | Wait q k => Wait q (fun x => prog_bind f (k x))
  | Spawn p k => Spawn p (prog_bind f k)
  | Par p q k => Par p q (fun r => prog_bind f (k r))
  end.

#[export] Instance prog_mret S : MRet (prog S) := fun _ => Ret.
#[export] Instance prog_mbind S : MBind (prog S) := fun _ _ => prog_bind.

(** [try { p } catch (e) { h e }]: the handler guards [p]'s own exceptions only. *)
Fixpoint prog_catch {S A : Type} (p : prog S A) (h : jsval -> prog S A) : prog S A :=
  match p with
  | Ret a => Ret a
  | Throw e => h e
  | Act g k => Act g (fun s => prog_catch (k s) h)
  | Wait q k => Wait q (fun x => prog_catch (k x) h)
  | Spawn p k => Spawn p (prog_catch k h)
  | Par p q k => Par p q (fun r => prog_catch (k r) h)
  end.

(** [try { p } finally { f }]. *)
Fixpoint prog_finally {S A : Type} (p : prog S A) (f : prog S unit) : prog S A :=
  match p with
  | Ret a => prog_bind (fun _ => Ret a) f
  | Throw e => prog_bind (fun _ => Throw e) f
  | Act g k => Act g (fun s => prog_finally (k s) f)
  | Wait q k => Wait q (fun x => prog_finally (k x) f)
  | Spawn p k => Spawn p (prog_finally k f)
  | Par p q k => Par p q (fun r => prog_finally (k r) f)
  end.

(** Run a program on a part of a larger state. *)
Fixpoint zoom {S T A : Type} (get : T -> S) (put : S -> T -> T) (p : prog S A) : prog T A :=
  match p with
  | Ret a => Ret a
  | Throw e => Throw e
  | Act f k => Act (fun t => put (f (get t)) t) (fun t => zoom get put (k (get t)))
  | Wait q k => Wait q (fun x => zoom get put (k x))
  | Spawn p k => Spawn (zoom get put p) (zoom get put k)
  | Par p q k => Par (zoom get put p) (zoom get put q) (fun r => zoom get put (k r))
  end.

(** ** Synchronous code

    [sync S A] is a synchronous function that may update the state and throw. *)
Definition sync (S A : Type) : Type := S -> result jsval A * S.

#[export] Instance sync_mret S : MRet (sync S) := fun _ a s => (Ok a, s).
#[export] Instance sync_mbind S : MBind (sync S) := fun _ _ f m s =>
  match m s with
  | (Ok a, s') => f a s'
  | (Exn e, s') => (Exn e, s')
  end.

Definition sget {S : Type} : sync S S := fun s => (Ok s, s).
Definition smod {S : Type} (f : S -> S) : sync S unit := fun s => (Ok tt, f s).
Definition spure {S A : Type} (r : E A) : sync S A := fun s => (r, s).
Definition szoom {S T A : Type} (get : T -> S) (put : S -> T -> T) (m : sync S A) : sync T A :=
  fun t => let '(r, s) := m (get t) in (r, put s t).
Definition scatch {S A : Type} (m : sync S A) (h : jsval -> sync S A) : sync S A :=
  fun s => match m s with (Ok a, s') => (Ok a, s') | (Exn e, s') => h e s' end.

(** A synchronous call inside an asynchronous function. *)
Definition call {S A : Type} (m : sync S A) : prog S A :=
  Act (fun s => snd (m s)) (fun s => match fst (m s) with Ok a => Ret a | Exn e => Throw e end).

Definition modify {S : Type} (f : S -> S) : prog S unit := Act f (fun _ => Ret tt).
Definition read {S A : Type} (f : S -> A) : prog S A := Act id (fun s => Ret (f s)).
Definition pure {S A : Type} (r : E A) : prog S A := match r with Ok a => Ret a | Exn e => Throw e end.

(** [void p()]. *)
Definition spawn {S : Type} (p : prog S unit) : prog S unit := Spawn p (Ret tt).

(** [Promise.all([p, q])]. *)
Definition promise_all {S : Type} (p q : prog S jsval) : prog S (jsval * jsval) := Par p q pure.

(** [Promise.all] of any number of promises, as the array of their values. *)
Definition cons_value (a l : jsval) : jsval := match l with VArr vs => VArr (a :: vs) | _ => l end.
Fixpoint promise_array {S : Type} (ps : list (prog S jsval)) : prog S jsval :=
  match ps with
  | [] => Ret (VArr [])
  | p :: ps' => Par p (promise_array ps') (fun r => pure (x ← r; Ok (cons_value (fst x) (snd x))))
  end.

Definition discard {S A : Type} (p : prog S A) : prog S jsval := prog_bind (fun _ => Ret VUndef) p.
Definition ignore {S A : Type} (p : prog S A) : prog S unit := prog_bind (fun _ => Ret tt) p.

(** ** Scheduling *)

Definition finished {S A : Type} (p : prog S A) : bool :=
  match p with Ret _ | Throw _ => true | _ => false end.

(** A program that still waits joins the pool; a finished one is dropped
    (an unhandled rejection of a [void] call is only logged by the browser). *)
Definition park {S : Type} (p : prog S unit) : list (prog S unit) := if finished p then [] else [p].

(** Run to the next suspension: new state, programs parked on the way, residual. *)
Fixpoint advance {S A : Type} (p : prog S A) (s : S) : S * list (prog S unit) * prog S A :=
  match p with
  | Ret a => (s, [], Ret a)
  | Throw e => (s, [], Throw e)
  | Act f k => advance (k s) (f s)
  | Wait q k => (s, [], Wait q k)
  | Spawn p k =>
      let '(s1, ps1, p') := advance p s in
      let '(s2, ps2, k') := advance k s1 in
      (s2, ps1 ++ park p' ++ ps2, k')
  | Par p q k =>
      let '(s1, ps1, p') := advance p s in
      let '(s2, ps2, q') := advance q s1 in
      match p', q' with
      | Throw e, _ =>
          let '(s3, ps3, r) := advance (k (Exn e)) s2 in (s3, ps1 ++ ps2 ++ park (ignore q') ++ ps3, r)
      | _, Throw e =>
          let '(s3, ps3, r) := advance (k (Exn e)) s2 in (s3, ps1 ++ ps2 ++ park (ignore p') ++ ps3, r)
      | Ret a, Ret b =>
          let '(s3, ps3, r) := advance (k (Ok (a, b))) s2 in (s3, ps1 ++ ps2 ++ ps3, r)
      | _, _ => (s2, ps1 ++ ps2, Par p' q' k)
      end
  end.

(** Outstanding requests, left to right. *)
Fixpoint asks {S A : Type} (p : prog S A) : list ask :=
  match p with
  | Wait q _ => [q]
  | Par p q _ => asks p ++ asks q
  | _ => []
  end.

(** Answer the [n]-th outstanding request. *)
Fixpoint resume {S A : Type} (n : nat) (x : reply) (p : prog S A) : prog S A :=
  match p with
  | Wait q k => k x
  | Par p q k =>
      if (n <? List.length (asks p))%nat then Par (resume n x p) q k
      else Par p (resume (n - List.length (asks p)) x q) k
  | _ => p
  end.

(** A page: its state and its suspended programs. *)
Definition config (S : Type) : Type := S * list (prog S unit).

(** A new task (event handler, timer callback) starts. *)
Definition start {S : Type} (p : prog S unit) (c : config S) : config S :=
  let '(s, pool) := c in
  let '(s', ps, p') := advance p s in (s', pool ++ ps ++ park p').

(** Reply [x] to request [n] of task [i]. *)
Definition deliver {S : Type} (i n : nat) (x : reply) (c : config S) : config S :=
  let '(s, pool) := c in
  match pool !! i with
  | Some p =>
      let '(s', ps, p') := advance (resume n x p) s in
      (s', take i pool ++ park p' ++ drop (i + 1) pool ++ ps)
  | None => c
  end.

(** Pages reachable from [c0] when the tasks that may start are those of [T]. *)
Inductive reachable {S : Type} (T : prog S unit -> Prop) (c0 : config S) : config S -> Prop :=
| reach_init : reachable T c0 c0
| reach_start p c : T p -> reachable T c0 c -> reachable T c0 (start p c)
| reach_deliver i n x c : reachable T c0 c -> reachable T c0 (deliver i n x c).

(** One handler on its own, answered in order: state, programs it spawned
    (suspended), residual. *)
Fixpoint feed {S A : Type} (xs : list reply) (p : prog S A) (s : S) : S * list (prog S unit) * prog S A :=
  let '(s', ps, p') := advance p s in
  match xs with
  | [] => (s', ps, p')
  | x :: xs' =>
      if finished p' then (s', ps, p')
      else let '(s'', ps', p'') := feed xs' (resume 0 x p') s' in (s'', ps ++ ps', p'')
  end.

Definition feed_state {S A : Type} (xs : list reply) (p : prog S A) (s : S) : S := fst (fst (feed xs p s)).
Definition feed_done {S A : Type} (xs : list reply) (p : prog S A) (s : S) : bool := finished (snd (feed xs p s)).

(** ** Big-step execution of a handler without [Promise.all]

    [exec p xs s]: run [p] from [s], answering its requests in order with [xs];
    the outcome, the final state, the unused replies and the programs it left
    suspended.  [None] when the replies run out or [p] uses [Par]. *)
Definition exec_result (S A : Type) : Type :=
  option (result jsval A * S * list reply * list (prog S unit)).

Definition add_parked {S A : Type} (ps : list (prog S unit)) (r : exec_result S A) : exec_result S A :=
  match r with Some (o, s, xs, qs) => Some (o, s, xs, ps ++ qs) | None => None end.

Fixpoint exec {S A : Type} (p : prog S A) (xs : list reply) (s : S) : exec_result S A :=
  match p with
  | Ret a => Some (Ok a, s, xs, [])
  | Throw e => Some (Exn e, s, xs, [])
  | Act f k => exec (k s) xs (f s)
  | Wait q k => match xs with [] => None | x :: xs' => exec (k x) xs' s end
  | Spawn p k => let '(s1, ps, p') := advance p s in add_parked (ps ++ park p') (exec k xs s1)
  | Par _ _ _ => None
  end.

Definition exec_then {S A B : Type} (r : exec_result S A)
    (f : result jsval A -> list reply -> S -> exec_result S B) : exec_result S B :=
  match r with Some (o, s, xs, ps) => add_parked ps (f o xs s) | None => None end.

Lemma add_parked_nil {S A : Type} (r : exec_result S A) : add_parked [] r = r.
Proof. by destruct r as [[[[? ?] ?] ?]|]. Qed.

Lemma add_parked_app {S A : Type} ps qs (r : exec_result S A) :
  add_parked ps (add_parked qs r) = add_parked (ps ++ qs) r.
Proof. destruct r as [[[[? ?] ?] ?]|]; [|done]. simpl. by rewrite <- app_assoc. Qed.

Lemma exec_then_parked {S A B : Type} ps (r : exec_result S A)
    (f : result jsval A -> list reply -> S -> exec_result S B) :
  exec_then (add_parked ps r) f = add_parked ps (exec_then r f).
Proof. destruct r as [[[[? ?] ?] ?]|]; [|done]. simpl. by rewrite add_parked_app. Qed.

(** Sequencing, [try]/[catch] and [finally] are what they should be. *)
Lemma exec_bind {S A B : Type} (f : A -> prog S B) (p : prog S A) xs s :
  exec (prog_bind f p) xs s =
  exec_then (exec p xs s) (fun o xs' s' =>
    match o with Ok a => exec (f a) xs' s' | Exn e => Some (Exn e, s', xs', []) end).
Proof.
  revert f xs s. induction p as [A a|A e|A g k IH|A q k IH|A p _ k IH|A p _ q _ k IH]; intros f xs s; simpl.
  - by rewrite add_parked_nil.
  - done.
  - apply IH.
  - destruct xs; [done|]. apply IH.
  - destruct (advance p s) as [[s1 ps] p']. by rewrite IH, exec_then_parked.
  - done.
Qed.

Lemma exec_mbind {S A B : Type} (f : A -> prog S B) (p : prog S A) xs s :
  exec (p ≫= f) xs s =
  exec_then (exec p xs s) (fun o xs' s' =>
    match o with Ok a => exec (f a) xs' s' | Exn e => Some (Exn e, s', xs', []) end).
Proof. apply exec_bind. Qed.

Lemma exec_catch {S A : Type} (p : prog S A) h xs s :
  exec (prog_catch p h) xs s =
  exec_then (exec p xs s) (fun o xs' s' =>
    match o with Ok a => Some (Ok a, s', xs', []) | Exn e => exec (h e) xs' s' end).
Proof.
  revert xs s. induction p as [A a|A e|A g k IH|A q k IH|A p _ k IH|A p _ q _ k IH]; intros xs s; simpl.
  - done.
  - by rewrite add_parked_nil.
  - apply IH.
  - destruct xs; [done|]. apply IH.
  - destruct (advance p s) as [[s1 ps] p']. by rewrite IH, exec_then_parked.
  - done.
Qed.

Lemma exec_finally {S A : Type} (p : prog S A) f xs s :
  exec (prog_finally p f) xs s =
  exec_then (exec p xs s) (fun o xs' s' =>
    exec_then (exec f xs' s') (fun o' xs'' s'' =>
      match o' with Ok _ => Some (o, s'', xs'', []) | Exn e => Some (Exn e, s'', xs'', []) end)).
Proof.
  revert xs s. induction p as [A a|A e|A g k IH|A q k IH|A p _ k IH|A p _ q _ k IH]; intros xs s; simpl.
  - rewrite add_parked_nil, exec_bind. by destruct (exec f xs s) as [[[[[] ?] ?] ?]|].
  - rewrite add_parked_nil, exec_bind. by destruct (exec f xs s) as [[[[[] ?] ?] ?]|].
  - apply IH.
  - destruct xs; [done|]. apply IH.
  - destruct (advance p s) as [[s1 ps] p']. by rewrite IH, exec_then_parked.
  - done.
Qed.

Lemma exec_call {S A : Type} (m : sync S A) xs s : exec (call m) xs s = Some (fst (m s), snd (m s), xs, []).
Proof. simpl. by destruct (fst (m s)). Qed.

Lemma exec_modify_bind {S B : Type} f (k : unit -> prog S B) xs s :
  exec (modify f ≫= k) xs s = exec (k tt) xs (f s).
Proof. done. Qed.

Lemma exec_read_bind {S A B : Type} (g : S -> A) (k : A -> prog S B) xs s :
  exec (read g ≫= k) xs s = exec (k (g s)) xs s.
Proof. done. Qed.

Lemma exec_pure_bind {S A B : Type} (r : E A) (k : A -> prog S B) xs s :
  exec (pure r ≫= k) xs s = match r with Ok a => exec (k a) xs s | Exn e => Some (Exn e, s, xs, []) end.
Proof. by destruct r. Qed.

Lemma exec_call_bind {S A B : Type} (m : sync S A) (k : A -> prog S B) xs s :
  exec (call m ≫= k) xs s =
  match m s with
  | (Ok a, s') => exec (k a) xs s'
  | (Exn e, s') => Some (Exn e, s', xs, [])
  end.
Proof.
  rewrite exec_mbind, exec_call. destruct (m s) as [[a|e] s']; simpl; [apply add_parked_nil | done].
Qed.

Definition outcome_prog {S A : Type} (o : result jsval A) : prog S A :=
  match o with Ok a => Ret a | Exn e => Throw e end.

(** The big step agrees with the scheduler: feeding the replies it consumed one
    by one to the suspended handler ends in the same state with the same outcome
    and the same programs left suspended. *)
Lemma exec_feed {S A : Type} (p : prog S A) xs s o s' ps :
  exec p xs s = Some (o, s', [], ps) -> feed xs p s = (s', ps, outcome_prog o).
Proof.
  revert xs s o s' ps.
  induction p as [A a|A e|A g k IH|A q k IH|A p _ k IH|A p _ q _ k IH]; intros xs s o s' ps H;
    simpl in H.
  - by inv H.
  - by inv H.
  - apply IH in H. by destruct xs.
  - destruct xs as [|x xs]; [done|]. apply IH in H. simpl. by rewrite H.
  - destruct (advance p s) as [[s1 ps1] p'] eqn:Ea.
    destruct (exec k xs s1) as [[[[o1 s2] xs2] ps2]|] eqn:Ek; [|done]. simpl in H. inv H.
    apply IH in Ek.
    assert (Hfk : feed xs (Spawn p k) s =
      let '(s'', qs, r) := feed xs k s1 in (s'', (ps1 ++ park p') ++ qs, r)).
    { destruct xs as [|x xs]; simpl; rewrite Ea; destruct (advance k s1) as [[s3 ps3] k'];
        rewrite !app_assoc; [done|].
      destruct (finished k'); [done|].
      destruct (feed xs (resume 0 x k') s3) as [[? ?] ?]. by rewrite !app_assoc. }
    by rewrite Hfk, Ek.
  - done.
Qed.

(** ** Invariants of the page under every interleaving *)

Section safe.
Context {S : Type} (I : S -> Prop).

(** Every synchronous step of [p] preserves [I]. *)
Fixpoint safe {A : Type} (p : prog S A) : Prop :=
  match p with
  | Ret _ | Throw _ => True
  | Act f k => forall s, I s -> I (f s) /\ safe (k s)
  | Wait _ k => forall x, safe (k x)
  | Spawn p k => safe p /\ safe k
  | Par p q k => safe p /\ safe q /\ forall r, safe (k r)
  end.

(** A synchronous function preserves [I] even when it throws. *)
Definition spreserves {A : Type} (m : sync S A) : Prop := forall s, I s -> I (snd (m s)).

Lemma safe_bind {A B : Type} (f : A -> prog S B) (p : prog S A) :
  safe p -> (forall a, safe (f a)) -> safe (prog_bind f p).
Proof.
  intros Hp Hf. induction p; simpl in *; naive_solver.
Qed.

Lemma safe_catch {A : Type} (p : prog S A) h : safe p -> (forall e, safe (h e)) -> safe (prog_catch p h).
Proof. intros Hp Hh. induction p; simpl in *; naive_solver. Qed.

Lemma safe_finally {A : Type} (p : prog S A) f : safe p -> safe f -> safe (prog_finally p f).
Proof.
  intros Hp Hf. induction p; simpl in *; try naive_solver; by apply safe_bind.
Qed.

Lemma safe_call {A : Type} (m : sync S A) : spreserves m -> safe (call m).
Proof. intros H s Hs. split; [by apply H|]. by destruct (fst (m s)). Qed.

Lemma safe_call_bind {A B : Type} (m : sync S A) (f : A -> prog S B) :
  spreserves m -> (forall s a, I s -> fst (m s) = Ok a -> safe (f a)) ->
  safe (prog_bind f (call m)).
Proof. intros Hm Hf s Hs. split; [by apply Hm|]. destruct (fst (m s)) eqn:E; simpl; eauto. Qed.

Lemma safe_read_bind {A B : Type} (g : S -> A) (f : A -> prog S B) :
  (forall s, I s -> safe (f (g s))) -> safe (prog_bind f (read g)).
Proof. intros H s Hs. split; [done|]. simpl. by apply H. Qed.

Lemma safe_modify (f : S -> S) : (forall s, I s -> I (f s)) -> safe (modify f).
Proof. intros H s Hs. split; [by apply H | done]. Qed.

Lemma safe_read {A : Type} (g : S -> A) : safe (read g).
Proof. intros s Hs. done. Qed.

Lemma safe_pure {A : Type} (r : E A) : safe (pure r).
Proof. by destruct r. Qed.

Lemma safe_spawn (p : prog S unit) : safe p -> safe (spawn p).
Proof. done. Qed.

Lemma safe_ignore {A : Type} (p : prog S A) : safe p -> safe (ignore p).
Proof. intros H. by apply safe_bind. Qed.

Lemma safe_promise_all (p q : prog S jsval) : safe p -> safe q -> safe (promise_all p q).
Proof. intros Hp Hq. split_and!; [done..|]. intros r. apply safe_pure. Qed.

End safe.

Lemma safe_zoom {S T A : Type} (I : S -> Prop) (get : T -> S) (put : S -> T -> T) (p : prog S A) :
  (forall s t, get (put s t) = s) ->
  safe I p -> safe (fun t => I (get t)) (zoom get put p).
Proof.
  intros Hgp. induction p; simpl; try naive_solver.
  intros Hp s Hs. rewrite Hgp. naive_solver.
Qed.

Create HintDb safe discriminated.
#[export] Hint Resolve safe_bind safe_catch safe_finally safe_call safe_modify safe_read safe_pure
  safe_spawn safe_ignore safe_promise_all : safe.

(** ** Outcomes and invariants under every interleaving

    [ends I K Q p]: with answers that keep to [K], every synchronous step of [p]
    preserves [I], and [p] can only end with an outcome in [Q]. *)
Definition anyway {A : Type} (_ : result jsval A) : Prop := True.
Definition any_reply (_ : ask) (_ : reply) : Prop := True.

(** Pages reachable from [c0] when the tasks that may start are those of [T] and
    every answer keeps to [K]. *)
Inductive answering {S : Type} (K : ask -> reply -> Prop) (T : prog S unit -> Prop) (c0 : config S) : config S -> Prop :=
| ans_init : answering K T c0 c0
| ans_start p c : T p -> answering K T c0 c -> answering K T c0 (start p c)
| ans_deliver i n x c p q : snd c !! i = Some p -> asks p !! n = Some q -> K q x ->
    answering K T c0 c -> answering K T c0 (deliver i n x c).

Lemma reachable_trans {S : Type} (T : prog S unit -> Prop) c0 c1 c :
  reachable T c0 c1 -> reachable T c1 c -> reachable T c0 c.
Proof. intros H1. induction 1; [done|by apply reach_start|by apply reach_deliver]. Qed.

Lemma answering_trans {S : Type} K (T : prog S unit -> Prop) c0 c1 c :
  answering K T c0 c1 -> answering K T c1 c -> answering K T c0 c.
Proof. intros H1. induction 1; [done|by apply ans_start|by eapply ans_deliver]. Qed.

Lemma answering_mono {S : Type} K (T T' : prog S unit -> Prop) c0 c :
  (forall p, T p -> T' p) -> answering K T c0 c -> answering K T' c0 c.
Proof. intros HT. induction 1; [apply ans_init|by apply ans_start; [apply HT|]|by eapply ans_deliver]. Qed.

Lemma answering_reachable {S : Type} K (T : prog S unit -> Prop) c0 c : answering K T c0 c -> reachable T c0 c.
Proof. induction 1; [apply reach_init|by apply reach_start|by apply reach_deliver]. Qed.

(** The [n]-th outstanding request of task [i]. *)
Definition outstanding {S : Type} (c : config S) (i n : nat) : option ask :=
  match snd c !! i with Some p => asks p !! n | None => None end.

Lemma ans_answer {S : Type} K (T : prog S unit -> Prop) c0 i n x c :
  match outstanding c i n with Some q => K q x | None => False end ->
  answering K T c0 c -> answering K T c0 (deliver i n x c).
Proof.
  unfold outstanding. destruct (snd c !! i) as [p|] eqn:Hi; [|done]. destruct (asks p !! n) as [q|] eqn:Hq; [|done].
  intros HK Hc. by eapply ans_deliver.
Qed.

Section ends.
Context {S : Type} (I : S -> Prop) (K : ask -> reply -> Prop).

Fixpoint ends {A : Type} (Q : result jsval A -> Prop) (p : prog S A) : Prop :=
  match p with
  | Ret a => Q (Ok a)
  | Throw e => Q (Exn e)
  | Act f k => forall s, I s -> I (f s) /\ ends Q (k s)
  | Wait q k => forall x, K q x -> ends Q (k x)
  | Spawn p k => ends anyway p /\ ends Q k
  | Par p q k => exists Q1 Q2, ends Q1 p /\ ends Q2 q /\
      (forall a b, Q1 (Ok a) -> Q2 (Ok b) -> ends Q (k (Ok (a, b)))) /\
      (forall e, Q1 (Exn e) \/ Q2 (Exn e) -> ends Q (k (Exn e)))
  end.

Lemma ends_bind {A B : Type} Q (R : result jsval B -> Prop) (f : A -> prog S B) (p : prog S A) :
  ends Q p -> (forall a, Q (Ok a) -> ends R (f a)) -> (forall e, Q (Exn e) -> R (Exn e)) ->
  ends R (prog_bind f p).
Proof.
  intros Hp Hf He. induction p as [A a|A e|A g k IH|A q k IH|A p _ k IH|A p _ q _ k IH]; simpl in *.
  - by apply Hf.
  - by apply He.
  - intros s Hs. destruct (Hp s Hs). eauto.
  - eauto.
  - naive_solver.
  - destruct Hp as (Q1 & Q2 & H1 & H2 & H3 & H4). exists Q1, Q2. naive_solver.
Qed.

Lemma ends_catch {A : Type} Q (R : result jsval A -> Prop) (p : prog S A) h :
  ends Q p -> (forall a, Q (Ok a) -> R (Ok a)) -> (forall e, Q (Exn e) -> ends R (h e)) ->
  ends R (prog_catch p h).
Proof.
  intros Hp Hf He. induction p as [A a|A e|A g k IH|A q k IH|A p _ k IH|A p _ q _ k IH]; simpl in *.
  - by apply Hf.
  - by apply He.
  - intros s Hs. destruct (Hp s Hs). eauto.
  - eauto.
  - naive_solver.
  - destruct Hp as (Q1 & Q2 & H1 & H2 & H3 & H4). exists Q1, Q2. naive_solver.
Qed.

Lemma safe_ends {A : Type} (p : prog S A) : safe I p -> ends anyway p.
Proof.
  induction p as [A a|A e|A g k IH|A q k IH|A p IHp k IH|A p IHp q IHq k IH]; simpl; [done..| | | |].
  - intros Hp s Hs. destruct (Hp s Hs). eauto.
  - eauto.
  - naive_solver.
  - intros (Hp & Hq & Hk). exists anyway, anyway. eauto 10.
Qed.

Lemma ends_modify Q (f : S -> S) : (forall s, I s -> I (f s)) -> Q (Ok tt) -> ends Q (modify f).
Proof. intros Hf HQ s Hs. split; [by apply Hf|done]. Qed.

Lemma ends_weaken {A : Type} (Q R : result jsval A -> Prop) (p : prog S A) :
  ends Q p -> (forall r, Q r -> R r) -> ends R p.
Proof.
  intros Hp HQ. induction p as [A a|A e|A g k IH|A q k IH|A p _ k IH|A p _ q _ k IH]; simpl in *.
  - by apply HQ.
  - by apply HQ.
  - intros s Hs. destruct (Hp s Hs). eauto.
  - eauto.
  - naive_solver.
  - destruct Hp as (Q1 & Q2 & H1 & H2 & H3 & H4). exists Q1, Q2. naive_solver.
Qed.

Lemma ends_anyway {A : Type} Q (p : prog S A) : ends Q p -> ends anyway p.
Proof. intros Hp. by eapply ends_weaken. Qed.

Lemma ends_finally {A : Type} (p : prog S A) f : ends anyway p -> ends anyway f -> ends anyway (prog_finally p f).
Proof.
  intros Hp Hf. induction p as [A a|A e|A g k IH|A q k IH|A p _ k IH|A p _ q _ k IH]; simpl in *.
  - by eapply ends_bind.
  - by eapply ends_bind.
  - intros s Hs. destruct (Hp s Hs). eauto.
  - eauto.
  - naive_solver.
  - destruct Hp as (Q1 & Q2 & H1 & H2 & H3 & H4). exists Q1, Q2. naive_solver.
Qed.

Lemma ends_pure_bind {A B : Type} (Q : result jsval B -> Prop) (r : E A) (k : A -> prog S B) :
  (forall a, r = Ok a -> ends Q (k a)) -> (forall e, r = Exn e -> Q (Exn e)) -> ends Q (pure r ≫= k).
Proof. destruct r; intros Hk He; [by apply Hk|by apply He]. Qed.

Lemma ends_read_bind {A B : Type} (Q : result jsval B -> Prop) (g : S -> A) (k : A -> prog S B) :
  (forall s, I s -> ends Q (k (g s))) -> ends Q (read g ≫= k).
Proof. intros Hk s Hs. split; [done|]. by apply Hk. Qed.

Lemma ends_call {A : Type} (m : sync S A) Q : (forall s, I s -> I (snd (m s)) /\ Q (fst (m s))) -> ends Q (call m).
Proof. intros Hm s Hs. destruct (Hm s Hs) as [? HQ]. split; [done|]. by destruct (fst (m s)). Qed.

Lemma ends_ignore {A : Type} Q (p : prog S A) : ends Q p -> ends anyway (ignore p).
Proof. intros Hp. by eapply ends_bind. Qed.

Lemma ends_discard {A : Type} (p : prog S A) : ends is_ok p -> ends is_ok (discard p).
Proof. intros Hp. by eapply ends_bind. Qed.

(** [Promise.all] of promises that cannot reject does not reject. *)
Lemma ends_promise_array (ps : list (prog S jsval)) :
  Forall (ends is_ok) ps -> ends is_ok (promise_array ps).
Proof.
  induction 1 as [|p ps Hp _ IH]; simpl; [done|].
  exists is_ok, is_ok. split_and!; [done..| |].
  - done.
  - by intros e [|].
Qed.

Lemma ends_park (p : prog S unit) Q : ends Q p -> Forall (ends anyway) (park p).
Proof.
  intros H. unfold park. destruct (finished p); [constructor|]. constructor; [|constructor].
  by eapply ends_weaken.
Qed.

Lemma advance_ends {A : Type} (p : prog S A) Q s s' ps p' :
  I s -> ends Q p -> advance p s = (s', ps, p') -> I s' /\ Forall (ends anyway) ps /\ ends Q p'.
Proof.
  revert Q s s' ps p'.
  induction p as [A a|A e|A g k IH|A q k IH|A p IHp k IHk|A p IHp q IHq k IHk];
    intros Q s s' ps p' Hs Hp Ha; simpl in Ha.
  - by inv Ha.
  - by inv Ha.
  - eapply IH; [| |done]; by apply Hp.
  - inv Ha. done.
  - destruct Hp as [Hp Hk]. destruct (advance p s) as [[s1 ps1] r1] eqn:E1.
    destruct (advance k s1) as [[s2 ps2] r2] eqn:E2. inv Ha.
    destruct (IHp _ _ _ _ _ Hs Hp E1) as (H1 & H2 & H3).
    destruct (IHk _ _ _ _ _ H1 Hk E2) as (H4 & H5 & H6).
    split_and!; [done| |done]. rewrite !Forall_app. eauto using ends_park.
  - destruct Hp as (Q1 & Q2 & Hp & Hq & Hok & Hexn). destruct (advance p s) as [[s1 ps1] r1] eqn:E1.
    destruct (advance q s1) as [[s2 ps2] r2] eqn:E2.
    destruct (IHp _ _ _ _ _ Hs Hp E1) as (H1 & H2 & H3).
    destruct (IHq _ _ _ _ _ H1 Hq E2) as (H4 & H5 & H6).
    assert (Hgo : forall r (w : prog S unit) s3 ps3 t, ends Q (k r) -> advance (k r) s2 = (s3, ps3, t) ->
      ends anyway w -> I s3 /\ Forall (ends anyway) (ps1 ++ ps2 ++ park w ++ ps3) /\ ends Q t).
    { intros r w s3 ps3 t Hk Hadv Hw. destruct (IHk _ _ _ _ _ _ H4 Hk Hadv) as (? & ? & ?).
      split_and!; [done| |done]. rewrite !Forall_app. eauto using ends_park. }
    assert (Hstop : I s2 /\ Forall (ends anyway) (ps1 ++ ps2) /\ ends Q (Par r1 r2 k)).
    { split_and!; [done|by apply Forall_app|]. exists Q1, Q2. naive_solver. }
    destruct r1 as [a|e| | | |], r2 as [b|e'| | | |]; try (inv Ha; exact Hstop);
      match type of Ha with context [advance (k ?r) s2] =>
        destruct (advance (k r) s2) as [[s3 ps3] t] eqn:E3 end; inv Ha;
      first [ exact (Hgo _ (Ret tt) _ _ _ (Hok _ _ H3 H6) E3 Logic.I)
            | exact (Hgo _ (ignore _) _ _ _ (Hexn _ (or_introl H3)) E3 (ends_ignore _ _ H6))
            | exact (Hgo _ (ignore _) _ _ _ (Hexn _ (or_intror H6)) E3 (ends_ignore _ _ H3)) ].
Qed.

Lemma resume_ends {A : Type} Q n x a (p : prog S A) : asks p !! n = Some a -> K a x -> ends Q p -> ends Q (resume n x p).
Proof.
  intros Ha HK. revert Q n Ha. induction p as [| | |A b k IH| |A p IHp q IHq k IHk]; intros Q n Ha; simpl in *; try done.
  - destruct n; simplify_eq/=. auto.
  - intros (Q1 & Q2 & H1 & H2 & H3 & H4). destruct (Nat.ltb_spec n (List.length (asks p))) as [Hn|Hn].
    + rewrite lookup_app_l in Ha by done. exists Q1, Q2. auto.
    + rewrite lookup_app_r in Ha by done. exists Q1, Q2. auto.
Qed.

Lemma resume_ends_any {A : Type} Q n x (p : prog S A) : (forall a, K a x) -> ends Q p -> ends Q (resume n x p).
Proof.
  intros HK. revert Q n. induction p as [| | | | |A p IHp q IHq k IHk]; intros Q n; simpl; auto.
  intros (Q1 & Q2 & H1 & H2 & H3 & H4). destruct (n <? _)%nat; exists Q1, Q2; auto.
Qed.

(** The invariant holds and every suspended task keeps it. *)
Definition config_inv (c : config S) : Prop := I (fst c) /\ Forall (ends anyway) (snd c).

Lemma start_inv p c : ends anyway p -> config_inv c -> config_inv (start p c).
Proof.
  destruct c as [s pool]. intros Hp [Hs HF]. unfold start, config_inv in *. simpl in *.
  destruct (advance p s) as [[s' ps] p'] eqn:E.
  destruct (advance_ends _ _ _ _ _ _ Hs Hp E) as (? & ? & ?).
  split; [done|]. simpl. rewrite !Forall_app. eauto using ends_park.
Qed.

Lemma deliver_inv i n x c : (forall p, snd c !! i = Some p -> ends anyway (resume n x p)) ->
  config_inv c -> config_inv (deliver i n x c).
Proof.
  destruct c as [s pool]. intros Hp [Hs HF]. unfold deliver. simpl in *.
  destruct (pool !! i) as [p|] eqn:Ei; [|done]. specialize (Hp p eq_refl).
  destruct (advance (resume n x p) s) as [[s' ps] p'] eqn:E.
  destruct (advance_ends _ _ _ _ _ _ Hs Hp E) as (? & ? & ?).
  split; [done|]. simpl. rewrite !Forall_app.
  split_and!; [by apply Forall_take | by eapply ends_park | by apply Forall_drop | done].
Qed.

(** If every task that may start keeps [I], it holds on every reachable page,
    whatever the order of the replies. *)
Lemma answering_inv (T : prog S unit -> Prop) c0 c :
  (forall p, T p -> ends anyway p) -> config_inv c0 -> answering K T c0 c -> config_inv c.
Proof.
  intros HT H0. induction 1 as [|p c Hp _ IH|i n x c p q Hi Hq HK _ IH]; [done|eauto using start_inv|].
  apply deliver_inv; [|done]. intros p' Hp'. simplify_eq. eapply resume_ends; [done..|].
  destruct IH as [_ HF]. by eapply Forall_lookup_1 in HF.
Qed.
End ends.

Lemma reachable_inv {S : Type} (I : S -> Prop) (T : prog S unit -> Prop) c0 c :
  (forall p, T p -> ends I any_reply anyway p) -> config_inv I any_reply c0 -> reachable T c0 c ->
  config_inv I any_reply c.
Proof.
  intros HT H0. induction 1 as [|p c Hp _ IH|i n x c _ IH]; [done|eauto using start_inv|].
  apply deliver_inv; [|done]. intros p Hp. apply resume_ends_any; [done|].
  destruct IH as [_ HF]. by eapply Forall_lookup_1 in HF.
Qed.

Lemma reachable_safe {S : Type} (I : S -> Prop) (T : prog S unit -> Prop) s c :
  (forall p, T p -> safe I p) -> I s -> reachable T (s, []) c -> I (fst c).
Proof.
  intros HT Hs Hr. eapply (reachable_inv I T (s, [])); [|split; [exact Hs|constructor]|exact Hr].
  intros p Hp. by apply safe_ends, HT.
Qed.

(** A program on a part of the state keeps what it kept, and what is outside that part. *)
Lemma ends_zoom {S T A : Type} (I : S -> Prop) (J : T -> Prop) K Q (get : T -> S) (put : S -> T -> T) (p : prog S A) :
  (forall s t, J t -> I s -> J (put s t)) -> (forall t, J t -> I (get t)) ->
  ends I K Q p -> ends J K Q (zoom get put p).
Proof.
  intros Hput Hget. revert Q. induction p as [A a|A e|A g k IH|A q k IH|A p IHp k IHk|A p IHp q IHq k IHk]; intros Q; simpl; auto.
  - intros Hp t Ht. destruct (Hp (get t) (Hget t Ht)). auto.
  - intros [Hp Hk]. auto.
  - intros (Q1 & Q2 & H1 & H2 & H3 & H4). exists Q1, Q2. auto 6.
Qed.

(** ** Zooming

    A program on a component of the state behaves as on its own. *)
Section zoom.
Context {S T : Type} (get : T -> S) (put : S -> T -> T).
Hypothesis get_put : forall s t, get (put s t) = s.
Hypothesis put_put : forall s s' t, put s' (put s t) = put s' t.
Hypothesis put_get : forall t, put (get t) t = t.

Lemma zoom_bind {A B : Type} (f : A -> prog S B) (p : prog S A) :
  zoom get put (prog_bind f p) = prog_bind (fun a => zoom get put (f a)) (zoom get put p).
Proof.
  induction p as [A a|A e|A g k IH|A q k IH|A p _ k IH|A p _ q _ k IH]; simpl; try done; f_equal;
    try (apply functional_extensionality; intros; apply IH). apply IH.
Qed.

Lemma zoom_park (p : prog S unit) : park (zoom get put p) = zoom get put <$> park p.
Proof. by destruct p. Qed.

Lemma zoom_ignore {A : Type} (p : prog S A) : ignore (zoom get put p) = zoom get put (ignore p).
Proof. unfold ignore. by rewrite zoom_bind. Qed.

Lemma advance_zoom {A : Type} (p : prog S A) t :
  advance (zoom get put p) t =
  let '(s', ps, p') := advance p (get t) in (put s' t, zoom get put <$> ps, zoom get put p').
Proof.
  revert t. induction p as [A a|A e|A g k IH|A q k IH|A p IHp k IHk|A p IHp q IHq k IHk]; intros t; simpl.
  - by rewrite put_get.
  - by rewrite put_get.
  - rewrite IH, get_put. destruct (advance (k (get t)) (g (get t))) as [[? ?] ?]. by rewrite put_put.
  - by rewrite put_get.
  - rewrite IHp. destruct (advance p (get t)) as [[s1 ps1] p']. rewrite IHk, get_put.
    destruct (advance k s1) as [[s2 ps2] k']. by rewrite put_put, zoom_park, !fmap_app.
  - rewrite IHp. destruct (advance p (get t)) as [[s1 ps1] p']. rewrite IHq, get_put.
    destruct (advance q s1) as [[s2 ps2] q'].
    assert (Hgo : forall r, advance (zoom get put (k r)) (put s2 (put s1 t)) =
      let '(s3, ps3, x) := advance (k r) s2 in (put s3 t, zoom get put <$> ps3, zoom get put x)).
    { intros r. rewrite IHk, get_put. destruct (advance (k r) s2) as [[? ?] ?]. by rewrite !put_put. }
    assert (Hi : forall B (r : prog S B), zoom get put <$> park (ignore r) = park (ignore (zoom get put r)))
      by (intros; by rewrite zoom_ignore, zoom_park).
    pose proof (Hi _ p') as Hp. pose proof (Hi _ q') as Hq. clear Hi.
    destruct p', q'; cbn [zoom] in *; rewrite ?Hgo;
      repeat match goal with |- context [advance (k ?r) s2] => destruct (advance (k r) s2) as [[? ?] ?] end;
      rewrite ?fmap_app, ?put_put, ?Hp, ?Hq; done.
Qed.

Lemma exec_zoom {A : Type} (p : prog S A) xs t :
  exec (zoom get put p) xs t =
  match exec p xs (get t) with
  | Some (o, s', rest, ps) => Some (o, put s' t, rest, zoom get put <$> ps)
  | None => None
  end.
Proof.
  revert xs t. induction p as [A a|A e|A g k IH|A q k IH|A p _ k IH|A p _ q _ k _]; intros xs t; simpl.
  - by rewrite put_get.
  - by rewrite put_get.
  - rewrite IH, get_put. destruct (exec (k (get t)) xs (g (get t))) as [[[[? ?] ?] ?]|]; [|done]. by rewrite put_put.
  - destruct xs; [done|]. apply IH.
  - rewrite advance_zoom. destruct (advance p (get t)) as [[s1 ps1] p']. rewrite IH, get_put.
    destruct (exec k xs s1) as [[[[? ?] ?] ?]|]; [|done]. simpl. by rewrite put_put, zoom_park, !fmap_app.
  - done.
Qed.
End zoom.
