(* ===== verification/State.v ===== *)
(** * The state of a panel page

    Everything the panel's modules share: the browser environment ([location],
    the two web storages, the document's theme, the globals the server injects
    into the page, the requests sent so far), the reactive [session] of
    [session.ts] with its two interval timers, the [catalog] of [catalog.ts], the
    [outbound] defaults of [payload.ts] and the avatar cache of [avatar.ts].
    Values that come from the broker are kept as the JSON they are. *)

From stdpp Require Import base list gmap strings.
From Stdlib Require Import NArith ZArith Lia.
From S2P Require Import Prelude JsString JsNum JsVal Prog.

(** The browser side. [session_storage = None] when reading [window.sessionStorage] throws;
    [sent] is the log of requests, newest first. *)
Record browser := Browser {
  loc_protocol : jstring;
  loc_origin : jstring;
  local_storage : gmap jstring jstring;
  session_storage : option (gmap jstring jstring);
  prefers_dark : bool;
  html_dark : bool;
  html_theme_mode : jstring;
  g_external_auth : bool;
  g_panel_mode : option jstring;
  g_admin_api : option jstring;
  now_ms : Z;
  sent : list http_request
}.

Definition set_loc_protocol (v : jstring) (r : browser) : browser :=
  {| loc_protocol := v; loc_origin := loc_origin r; local_storage := local_storage r; session_storage := session_storage r; prefers_dark := prefers_dark r; html_dark := html_dark r; html_theme_mode := html_theme_mode r; g_external_auth := g_external_auth r; g_panel_mode := g_panel_mode r; g_admin_api := g_admin_api r; now_ms := now_ms r; sent := sent r |}.
Definition set_loc_origin (v : jstring) (r : browser) : browser :=
  {| loc_protocol := loc_protocol r; loc_origin := v; local_storage := local_storage r; session_storage := session_storage r; prefers_dark := prefers_dark r; html_dark := html_dark r; html_theme_mode := html_theme_mode r; g_external_auth := g_external_auth r; g_panel_mode := g_panel_mode r; g_admin_api := g_admin_api r; now_ms := now_ms r; sent := sent r |}.
Definition set_local_storage (v : gmap jstring jstring) (r : browser) : browser :=
  {| loc_protocol := loc_protocol r; loc_origin := loc_origin r; local_storage := v; session_storage := session_storage r; prefers_dark := prefers_dark r; html_dark := html_dark r; html_theme_mode := html_theme_mode r; g_external_auth := g_external_auth r; g_panel_mode := g_panel_mode r; g_admin_api := g_admin_api r; now_ms := now_ms r; sent := sent r |}.
Definition set_session_storage (v : option (gmap jstring jstring)) (r : browser) : browser :=
  {| loc_protocol := loc_protocol r; loc_origin := loc_origin r; local_storage := local_storage r; session_storage := v; prefers_dark := prefers_dark r; html_dark := html_dark r; html_theme_mode := html_theme_mode r; g_external_auth := g_external_auth r; g_panel_mode := g_panel_mode r; g_admin_api := g_admin_api r; now_ms := now_ms r; sent := sent r |}.
Definition set_prefers_dark (v : bool) (r : browser) : browser :=
  {| loc_protocol := loc_protocol r; loc_origin := loc_origin r; local_storage := local_storage r; session_storage := session_storage r; prefers_dark := v; html_dark := html_dark r; html_theme_mode := html_theme_mode r; g_external_auth := g_external_auth r; g_panel_mode := g_panel_mode r; g_admin_api := g_admin_api r; now_ms := now_ms r; sent := sent r |}.
Definition set_html_dark (v : bool) (r : browser) : browser :=
  {| loc_protocol := loc_protocol r; loc_origin := loc_origin r; local_storage := local_storage r; session_storage := session_storage r; prefers_dark := prefers_dark r; html_dark := v; html_theme_mode := html_theme_mode r; g_external_auth := g_external_auth r; g_panel_mode := g_panel_mode r; g_admin_api := g_admin_api r; now_ms := now_ms r; sent := sent r |}.
Definition set_html_theme_mode (v : jstring) (r : browser) : browser :=
  {| loc_protocol := loc_protocol r; loc_origin := loc_origin r; local_storage := local_storage r; session_storage := session_storage r; prefers_dark := prefers_dark r; html_dark := html_dark r; html_theme_mode := v; g_external_auth := g_external_auth r; g_panel_mode := g_panel_mode r; g_admin_api := g_admin_api r; now_ms := now_ms r; sent := sent r |}.
Definition set_g_external_auth (v : bool) (r : browser) : browser :=
  {| loc_protocol := loc_protocol r; loc_origin := loc_origin r; local_storage := local_storage r; session_storage := session_storage r; prefers_dark := prefers_dark r; html_dark := html_dark r; html_theme_mode := html_theme_mode r; g_external_auth := v; g_panel_mode := g_panel_mode r; g_admin_api := g_admin_api r; now_ms := now_ms r; sent := sent r |}.
Definition set_g_panel_mode (v : option jstring) (r : browser) : browser :=
  {| loc_protocol := loc_protocol r; loc_origin := loc_origin r; local_storage := local_storage r; session_storage := session_storage r; prefers_dark := prefers_dark r; html_dark := html_dark r; html_theme_mode := html_theme_mode r; g_external_auth := g_external_auth r; g_panel_mode := v; g_admin_api := g_admin_api r; now_ms := now_ms r; sent := sent r |}.
Definition set_g_admin_api (v : option jstring) (r : browser) : browser :=
  {| loc_protocol := loc_protocol r; loc_origin := loc_origin r; local_storage := local_storage r; session_storage := session_storage r; prefers_dark := prefers_dark r; html_dark := html_dark r; html_theme_mode := html_theme_mode r; g_external_auth := g_external_auth r; g_panel_mode := g_panel_mode r; g_admin_api := v; now_ms := now_ms r; sent := sent r |}.
Definition set_now_ms (v : Z) (r : browser) : browser :=
  {| loc_protocol := loc_protocol r; loc_origin := loc_origin r; local_storage := local_storage r; session_storage := session_storage r; prefers_dark := prefers_dark r; html_dark := html_dark r; html_theme_mode := html_theme_mode r; g_external_auth := g_external_auth r; g_panel_mode := g_panel_mode r; g_admin_api := g_admin_api r; now_ms := v; sent := sent r |}.
Definition set_sent (v : list http_request) (r : browser) : browser :=
  {| loc_protocol := loc_protocol r; loc_origin := loc_origin r; local_storage := local_storage r; session_storage := session_storage r; prefers_dark := prefers_dark r; html_dark := html_dark r; html_theme_mode := html_theme_mode r; g_external_auth := g_external_auth r; g_panel_mode := g_panel_mode r; g_admin_api := g_admin_api r; now_ms := now_ms r; sent := v |}.

(** [AuthPhase] of [session.ts]. *)
Inductive AuthPhase := PLoading | PSetup | PGate | PReveal | PApp.
#[export] Instance AuthPhase_eq_dec : EqDecision AuthPhase.
Proof. solve_decision. Defined.

Definition phase_name (ph : AuthPhase) : jstring :=
  match ph with
  | PLoading => js "loading" | PSetup => js "setup" | PGate => js "gate" | PReveal => js "reveal" | PApp => js "app"
  end.

(** [ThemeMode] of [storage.ts]. *)
Inductive ThemeMode := TSystem | TLight | TDark.
#[export] Instance ThemeMode_eq_dec : EqDecision ThemeMode.
Proof. solve_decision. Defined.

(** The reactive [session] object. *)
Record session_state := Session {
  phase : AuthPhase;
  apiBase : jstring;
  token : jsval;
  revealedToken : jsval;
  auth : jsval;
  health : jsval;
  healthOk : bool;
  clusterLabel : jstring;
  cluster : jsval;
  cells : jsval;
  members : jsval;
  selectedCellId : jsval;
  themeMode : ThemeMode;
  splitAuth : bool;
  joinToken : jsval;
  gateMessage : jsval;
  isSeed : bool
}.

Definition set_phase (v : AuthPhase) (r : session_state) : session_state :=
  {| phase := v; apiBase := apiBase r; token := token r; revealedToken := revealedToken r; auth := auth r; health := health r; healthOk := healthOk r; clusterLabel := clusterLabel r; cluster := cluster r; cells := cells r; members := members r; selectedCellId := selectedCellId r; themeMode := themeMode r; splitAuth := splitAuth r; joinToken := joinToken r; gateMessage := gateMessage r; isSeed := isSeed r |}.
Definition set_apiBase (v : jstring) (r : session_state) : session_state :=
  {| phase := phase r; apiBase := v; token := token r; revealedToken := revealedToken r; auth := auth r; health := health r; healthOk := healthOk r; clusterLabel := clusterLabel r; cluster := cluster r; cells := cells r; members := members r; selectedCellId := selectedCellId r; themeMode := themeMode r; splitAuth := splitAuth r; joinToken := joinToken r; gateMessage := gateMessage r; isSeed := isSeed r |}.
Definition set_token (v : jsval) (r : session_state) : session_state :=
  {| phase := phase r; apiBase := apiBase r; token := v; revealedToken := revealedToken r; auth := auth r; health := health r; healthOk := healthOk r; clusterLabel := clusterLabel r; cluster := cluster r; cells := cells r; members := members r; selectedCellId := selectedCellId r; themeMode := themeMode r; splitAuth := splitAuth r; joinToken := joinToken r; gateMessage := gateMessage r; isSeed := isSeed r |}.
Definition set_revealedToken (v : jsval) (r : session_state) : session_state :=
  {| phase := phase r; apiBase := apiBase r; token := token r; revealedToken := v; auth := auth r; health := health r; healthOk := healthOk r; clusterLabel := clusterLabel r; cluster := cluster r; cells := cells r; members := members r; selectedCellId := selectedCellId r; themeMode := themeMode r; splitAuth := splitAuth r; joinToken := joinToken r; gateMessage := gateMessage r; isSeed := isSeed r |}.
Definition set_auth (v : jsval) (r : session_state) : session_state :=
  {| phase := phase r; apiBase := apiBase r; token := token r; revealedToken := revealedToken r; auth := v; health := health r; healthOk := healthOk r; clusterLabel := clusterLabel r; cluster := cluster r; cells := cells r; members := members r; selectedCellId := selectedCellId r; themeMode := themeMode r; splitAuth := splitAuth r; joinToken := joinToken r; gateMessage := gateMessage r; isSeed := isSeed r |}.
Definition set_health (v : jsval) (r : session_state) : session_state :=
  {| phase := phase r; apiBase := apiBase r; token := token r; revealedToken := revealedToken r; auth := auth r; health := v; healthOk := healthOk r; clusterLabel := clusterLabel r; cluster := cluster r; cells := cells r; members := members r; selectedCellId := selectedCellId r; themeMode := themeMode r; splitAuth := splitAuth r; joinToken := joinToken r; gateMessage := gateMessage r; isSeed := isSeed r |}.
Definition set_healthOk (v : bool) (r : session_state) : session_state :=
  {| phase := phase r; apiBase := apiBase r; token := token r; revealedToken := revealedToken r; auth := auth r; health := health r; healthOk := v; clusterLabel := clusterLabel r; cluster := cluster r; cells := cells r; members := members r; selectedCellId := selectedCellId r; themeMode := themeMode r; splitAuth := splitAuth r; joinToken := joinToken r; gateMessage := gateMessage r; isSeed := isSeed r |}.
Definition set_clusterLabel (v : jstring) (r : session_state) : session_state :=
  {| phase := phase r; apiBase := apiBase r; token := token r; revealedToken := revealedToken r; auth := auth r; health := health r; healthOk := healthOk r; clusterLabel := v; cluster := cluster r; cells := cells r; members := members r; selectedCellId := selectedCellId r; themeMode := themeMode r; splitAuth := splitAuth r; joinToken := joinToken r; gateMessage := gateMessage r; isSeed := isSeed r |}.
Definition set_cluster (v : jsval) (r : session_state) : session_state :=
  {| phase := phase r; apiBase := apiBase r; token := token r; revealedToken := revealedToken r; auth := auth r; health := health r; healthOk := healthOk r; clusterLabel := clusterLabel r; cluster := v; cells := cells r; members := members r; selectedCellId := selectedCellId r; themeMode := themeMode r; splitAuth := splitAuth r; joinToken := joinToken r; gateMessage := gateMessage r; isSeed := isSeed r |}.
Definition set_cells (v : jsval) (r : session_state) : session_state :=
  {| phase := phase r; apiBase := apiBase r; token := token r; revealedToken := revealedToken r; auth := auth r; health := health r; healthOk := healthOk r; clusterLabel := clusterLabel r; cluster := cluster r; cells := v; members := members r; selectedCellId := selectedCellId r; themeMode := themeMode r; splitAuth := splitAuth r; joinToken := joinToken r; gateMessage := gateMessage r; isSeed := isSeed r |}.
Definition set_members (v : jsval) (r : session_state) : session_state :=
  {| phase := phase r; apiBase := apiBase r; token := token r; revealedToken := revealedToken r; auth := auth r; health := health r; healthOk := healthOk r; clusterLabel := clusterLabel r; cluster := cluster r; cells := cells r; members := v; selectedCellId := selectedCellId r; themeMode := themeMode r; splitAuth := splitAuth r; joinToken := joinToken r; gateMessage := gateMessage r; isSeed := isSeed r |}.
Definition set_selectedCellId (v : jsval) (r : session_state) : session_state :=
  {| phase := phase r; apiBase := apiBase r; token := token r; revealedToken := revealedToken r; auth := auth r; health := health r; healthOk := healthOk r; clusterLabel := clusterLabel r; cluster := cluster r; cells := cells r; members := members r; selectedCellId := v; themeMode := themeMode r; splitAuth := splitAuth r; joinToken := joinToken r; gateMessage := gateMessage r; isSeed := isSeed r |}.
Definition set_themeMode (v : ThemeMode) (r : session_state) : session_state :=
  {| phase := phase r; apiBase := apiBase r; token := token r; revealedToken := revealedToken r; auth := auth r; health := health r; healthOk := healthOk r; clusterLabel := clusterLabel r; cluster := cluster r; cells := cells r; members := members r; selectedCellId := selectedCellId r; themeMode := v; splitAuth := splitAuth r; joinToken := joinToken r; gateMessage := gateMessage r; isSeed := isSeed r |}.
Definition set_splitAuth (v : bool) (r : session_state) : session_state :=
  {| phase := phase r; apiBase := apiBase r; token := token r; revealedToken := revealedToken r; auth := auth r; health := health r; healthOk := healthOk r; clusterLabel := clusterLabel r; cluster := cluster r; cells := cells r; members := members r; selectedCellId := selectedCellId r; themeMode := themeMode r; splitAuth := v; joinToken := joinToken r; gateMessage := gateMessage r; isSeed := isSeed r |}.
Definition set_joinToken (v : jsval) (r : session_state) : session_state :=
  {| phase := phase r; apiBase := apiBase r; token := token r; revealedToken := revealedToken r; auth := auth r; health := health r; healthOk := healthOk r; clusterLabel := clusterLabel r; cluster := cluster r; cells := cells r; members := members r; selectedCellId := selectedCellId r; themeMode := themeMode r; splitAuth := splitAuth r; joinToken := v; gateMessage := gateMessage r; isSeed := isSeed r |}.
Definition set_gateMessage (v : jsval) (r : session_state) : session_state :=
  {| phase := phase r; apiBase := apiBase r; token := token r; revealedToken := revealedToken r; auth := auth r; health := health r; healthOk := healthOk r; clusterLabel := clusterLabel r; cluster := cluster r; cells := cells r; members := members r; selectedCellId := selectedCellId r; themeMode := themeMode r; splitAuth := splitAuth r; joinToken := joinToken r; gateMessage := v; isSeed := isSeed r |}.
Definition set_isSeed (v : bool) (r : session_state) : session_state :=
  {| phase := phase r; apiBase := apiBase r; token := token r; revealedToken := revealedToken r; auth := auth r; health := health r; healthOk := healthOk r; clusterLabel := clusterLabel r; cluster := cluster r; cells := cells r; members := members r; selectedCellId := selectedCellId r; themeMode := themeMode r; splitAuth := splitAuth r; joinToken := joinToken r; gateMessage := gateMessage r; isSeed := v |}.
(** The reactive [catalog] object. *)
Record catalog_state := Catalog {
  queues : jsval;
  groups : jsval;
  flows : jsval
}.

Definition set_queues (v : jsval) (r : catalog_state) : catalog_state :=
  {| queues := v; groups := groups r; flows := flows r |}.
Definition set_groups (v : jsval) (r : catalog_state) : catalog_state :=
  {| queues := queues r; groups := v; flows := flows r |}.
Definition set_flows (v : jsval) (r : catalog_state) : catalog_state :=
  {| queues := queues r; groups := groups r; flows := v |}.
(** The reactive [outbound] object. *)
Record outbound_state := Outbound {
  ob_method : jsval;
  ob_sign : jsval;
  ob_headers : jsval
}.

Definition set_ob_method (v : jsval) (r : outbound_state) : outbound_state :=
  {| ob_method := v; ob_sign := ob_sign r; ob_headers := ob_headers r |}.
Definition set_ob_sign (v : jsval) (r : outbound_state) : outbound_state :=
  {| ob_method := ob_method r; ob_sign := v; ob_headers := ob_headers r |}.
Definition set_ob_headers (v : jsval) (r : outbound_state) : outbound_state :=
  {| ob_method := ob_method r; ob_sign := ob_sign r; ob_headers := v |}.

(** The callbacks the page installs with [setInterval]. *)
Inductive timer_kind := THealth | TCluster.
#[export] Instance timer_kind_eq_dec : EqDecision timer_kind.
Proof. solve_decision. Defined.

(** The two timer variables of [session.ts] and the browser's live intervals. *)
Record timer_state := Timers {
  healthTimer : option nat;
  clusterTimer : option nat;
  intervals : list (nat * timer_kind);
  next_timer : nat
}.

Definition set_healthTimer (v : option nat) (r : timer_state) : timer_state :=
  {| healthTimer := v; clusterTimer := clusterTimer r; intervals := intervals r; next_timer := next_timer r |}.
Definition set_clusterTimer (v : option nat) (r : timer_state) : timer_state :=
  {| healthTimer := healthTimer r; clusterTimer := v; intervals := intervals r; next_timer := next_timer r |}.
Definition set_intervals (v : list (nat * timer_kind)) (r : timer_state) : timer_state :=
  {| healthTimer := healthTimer r; clusterTimer := clusterTimer r; intervals := v; next_timer := next_timer r |}.
Definition set_next_timer (v : nat) (r : timer_state) : timer_state :=
  {| healthTimer := healthTimer r; clusterTimer := clusterTimer r; intervals := intervals r; next_timer := v |}.
(** A page. *)
Record panel := Panel {
  br : browser;
  ses : session_state;
  cat : catalog_state;
  out : outbound_state;
  tm : timer_state;
  avatars : gmap jstring jstring
}.

Definition set_br (v : browser) (r : panel) : panel :=
  {| br := v; ses := ses r; cat := cat r; out := out r; tm := tm r; avatars := avatars r |}.
Definition set_ses (v : session_state) (r : panel) : panel :=
  {| br := br r; ses := v; cat := cat r; out := out r; tm := tm r; avatars := avatars r |}.
Definition set_cat (v : catalog_state) (r : panel) : panel :=
  {| br := br r; ses := ses r; cat := v; out := out r; tm := tm r; avatars := avatars r |}.
Definition set_out (v : outbound_state) (r : panel) : panel :=
  {| br := br r; ses := ses r; cat := cat r; out := v; tm := tm r; avatars := avatars r |}.
Definition set_tm (v : timer_state) (r : panel) : panel :=
  {| br := br r; ses := ses r; cat := cat r; out := out r; tm := v; avatars := avatars r |}.
Definition set_avatars (v : gmap jstring jstring) (r : panel) : panel :=
  {| br := br r; ses := ses r; cat := cat r; out := out r; tm := tm r; avatars := v |}.

(** Browser, third-party and build-time values the panel uses and this repository
    does not define: [new URL(s).origin], [new Date(v).toLocaleString()], the avatar
    renderer of @dicebear, [clsx] and [twMerge] (class-name utilities), and the URL
    the bundler gives the brand icon. *)
Class Platform := {
  url_origin : jstring -> option jstring;
  locale_string : jsval -> jstring;
  avatar_uri : jstring -> jstring;
  clsx : list jsval -> jstring;
  twMerge : jstring -> jstring;
  iconBrand : jstring
}.

(** Synchronous code on a component of the page. *)
Definition on_br {A : Type} (m : sync browser A) : sync panel A := szoom br set_br m.
Definition on_ses (f : session_state -> session_state) (p : panel) : panel := set_ses (f (ses p)) p.
Definition on_cat (f : catalog_state -> catalog_state) (p : panel) : panel := set_cat (f (cat p)) p.
Definition on_out (f : outbound_state -> outbound_state) (p : panel) : panel := set_out (f (out p)) p.
Definition on_tm (f : timer_state -> timer_state) (p : panel) : panel := set_tm (f (tm p)) p.
