(* ===== verification/Demo.v ===== *)
(** * A concrete platform and browser

    Instances at which the theorems' hypotheses are shown to hold. *)

From stdpp Require Import base list gmap strings.
From Stdlib Require Import NArith ZArith Lia String.
From S2P Require Import Prelude JsString JsNum JsVal Prog State.

(** URLs that are their own origin, numbers for dates, and transparent class names. *)
Definition demo_platform : Platform :=
  {| url_origin := Some; locale_string := to_string; avatar_uri := fun seed => js "data:" ++ seed;
     clsx := fun l => join (js " ") (to_string <$> l); twMerge := id; iconBrand := js "/icon.svg" |}.

(** A broker's own page on a development machine. *)
Definition demo_browser : browser :=
  {| loc_protocol := js "http:"; loc_origin := js "http://localhost:8080";
     local_storage := ∅; session_storage := Some ∅; prefers_dark := false; html_dark := false;
     html_theme_mode := []; g_external_auth := false; g_panel_mode := None; g_admin_api := None;
     now_ms := 0; sent := [] |}.

Definition ok_reply (text : jstring) : reply :=
  Responded {| rs_status := 200; rs_statusText := js "OK"; rs_text := Some text |}.
Definition down_reply : reply :=
  Responded {| rs_status := 503; rs_statusText := js "Service Unavailable"; rs_text := Some [] |}.
