(* ===== verification/Storage.v ===== *)
(** * [lib/config.ts] and [lib/storage.ts]

    The page globals, the API base (restricted to the page's own origin when the
    page is served over HTTP), the token store with its migration from the legacy
    keys, the selected cell and the theme. *)

From stdpp Require Import base list gmap strings.
From Stdlib Require Import NArith ZArith Lia String.
From S2P Require Import Prelude JsString JsNum JsVal Prog State.

(** ** [config.ts] *)

Definition or_default (o : option jstring) (d : jstring) : jstring :=
  match o with Some (c :: r) => c :: r | _ => d end.

Definition panelMode (b : browser) : jstring := or_default (g_panel_mode b) (js "embedded").
Definition adminApiRoot (b : browser) : jstring := or_default (g_admin_api b) (js "/admin/v1").
Definition isExternalAuth (b : browser) : bool := g_external_auth b.

(** ** [storage.ts] *)

Definition TOKEN_PREFIX : jstring := js "bettermq_api_token:".
Definition API_BASE_KEY : jstring := js "bettermq_api_base".
Definition CELL_KEY : jstring := js "bettermq_cell_id".
Definition LEGACY_TOKEN_KEY : jstring := js "bettermq_api_token".
Definition THEME_KEY : jstring := js "themeMode".

Definition local_get (k : jstring) (b : browser) : option jstring := local_storage b !! k.
Definition local_set (k v : jstring) (b : browser) : browser := set_local_storage (<[k := v]> (local_storage b)) b.
Definition local_remove (k : jstring) (b : browser) : browser := set_local_storage (delete k (local_storage b)) b.

(** [tokenStore()]: [sessionStorage], or [localStorage] when reading the former throws. *)
Inductive store := StoreSession | StoreLocal.
Definition tokenStore (b : browser) : store :=
  match session_storage b with Some _ => StoreSession | None => StoreLocal end.

Definition store_get (k : jstring) (b : browser) : option jstring :=
  match session_storage b with Some m => m !! k | None => local_get k b end.
Definition store_set (k v : jstring) (b : browser) : browser :=
  match session_storage b with Some m => set_session_storage (Some (<[k := v]> m)) b | None => local_set k v b end.
Definition store_remove (k : jstring) (b : browser) : browser :=
  match session_storage b with Some m => set_session_storage (Some (delete k m)) b | None => local_remove k b end.

Definition is_http (b : browser) : bool :=
  bool_decide (loc_protocol b = js "http:") || bool_decide (loc_protocol b = js "https:").

Definition defaultApiBase (b : browser) : jstring :=
  if is_http b then loc_origin b else js "http://127.0.0.1:8080".

Section api_base.
Context `{Platform}.

Definition allowlistedApiBase (raw : jstring) (b : browser) : jstring :=
  let v := strip_slash (trim raw) in
  if is_http b then
    match v with
    | [] => loc_origin b
    | _ => match url_origin v with
           | Some o => if decide (o = loc_origin b) then o else loc_origin b
           | None => loc_origin b
           end
    end
  else match v with [] => defaultApiBase b | _ => v end.

Definition loadSavedApiBase (b : browser) : jstring :=
  allowlistedApiBase (or_default (local_get API_BASE_KEY b) (defaultApiBase b)) b.

Definition saveApiBase (base : jstring) (b : browser) : browser :=
  local_set API_BASE_KEY (allowlistedApiBase base b) b.
End api_base.

Definition tokenStorageKey (apiBase : jstring) : jstring := TOKEN_PREFIX ++ apiBase.

Definition truthy_str (o : option jstring) : option jstring :=
  match o with Some (c :: r) => Some (c :: r) | _ => None end.

(** The stored token; one found only in [localStorage] is moved to the token store. *)
Definition loadSavedToken (apiBase : jstring) (b : browser) : jstring * browser :=
  let key := tokenStorageKey apiBase in
  match truthy_str (store_get key b) with
  | Some t => (t, b)
  | None =>
      let t := match truthy_str (local_get key b) with
               | Some t => Some t
               | None => local_get LEGACY_TOKEN_KEY b
               end in
      match truthy_str t with
      | Some t => (t, local_remove LEGACY_TOKEN_KEY (local_remove key (store_set key t b)))
      | None => ([], b)
      end
  end.

(** [normalizeToken(raw)]: throws on a truthy value that is not a string. *)
Definition normalize_str (s : jstring) : jstring :=
  let t := trim s in
  match strip_bearer t with Some r => trim r | None => t end.

Definition normalizeToken (raw : jsval) : E jstring :=
  if truthy raw then
    match raw with
    | VStr s => Ok (normalize_str s)
    | _ => throw_type (js "trim is not a function")
    end
  else Ok [].

Definition saveToken (apiBase : jstring) (tok : jsval) : sync browser unit :=
  t ← spure (normalizeToken tok);
  match t with
  | [] => smod (store_remove (tokenStorageKey apiBase))
  | _ => smod (store_set (tokenStorageKey apiBase) t)
  end.

Definition loadSavedCellId (b : browser) : jstring := or_default (local_get CELL_KEY b) [].

(** [localStorage.setItem] stores [String(id)]. *)
Definition saveCellId (id : jsval) (b : browser) : browser := local_set CELL_KEY (to_string id) b.

Definition theme_name (m : ThemeMode) : jstring :=
  match m with TSystem => js "system" | TLight => js "light" | TDark => js "dark" end.

Definition readThemeMode (b : browser) : ThemeMode :=
  match local_get THEME_KEY b with
  | Some s => if decide (s = js "dark") then TDark
              else if decide (s = js "light") then TLight
              else TSystem
  | None => TSystem
  end.

Definition theme_is_dark (m : ThemeMode) (b : browser) : bool :=
  match m with TDark => true | TSystem => prefers_dark b | TLight => false end.

Definition applyTheme (m : ThemeMode) (b : browser) : browser :=
  local_set THEME_KEY (theme_name m)
    (set_html_theme_mode (theme_name m) (set_html_dark (theme_is_dark m b) b)).

(** ** Properties *)

Section api_base_facts.
Context `{Platform}.

Lemma allowlisted_http raw b : is_http b = true -> allowlistedApiBase raw b = loc_origin b.
Proof.
  intros Hh. unfold allowlistedApiBase. rewrite Hh. destruct (strip_slash (trim raw)) as [|c v]; [done|].
  destruct (url_origin (c :: v)) as [o|]; [|done]. by destruct (decide (o = loc_origin b)).
Qed.

Lemma loadSavedApiBase_http b : is_http b = true -> loadSavedApiBase b = loc_origin b.
Proof. intros Hh. by apply allowlisted_http. Qed.
End api_base_facts.

(** The token store sees what it was last given. *)
Lemma store_get_set k v b : store_get k (store_set k v b) = Some v.
Proof.
  unfold store_get, store_set, local_get, local_set. destruct b as [? ? ? [m|]]; simpl; by rewrite lookup_insert_eq.
Qed.

Lemma store_get_remove k b : store_get k (store_remove k b) = None.
Proof.
  unfold store_get, store_remove, local_get, local_remove. destruct b as [? ? ? [m|]]; simpl; by rewrite lookup_delete_eq.
Qed.

Lemma token_key_legacy base : tokenStorageKey base <> LEGACY_TOKEN_KEY.
Proof. intros H. apply (f_equal List.length) in H. unfold tokenStorageKey in H. rewrite length_app in H.
  vm_compute (List.length TOKEN_PREFIX) in H. vm_compute (List.length LEGACY_TOKEN_KEY) in H. lia. Qed.

Lemma token_key_inj a b : tokenStorageKey a = tokenStorageKey b -> a = b.
Proof. unfold tokenStorageKey. apply app_inv_head. Qed.

Lemma strip_bearer_shorter s r : strip_bearer s = Some r -> (List.length r < List.length s)%nat.
Proof.
  unfold strip_bearer. destruct (starts_with _ _); [|done].
  destruct (drop _ s) as [|c t] eqn:E; [done|]. destruct (is_ws c); [|done]. intros [= <-].
  apply (f_equal List.length) in E. rewrite length_drop in E. simpl in E.
  pose proof (drop_ws_length t). lia.
Qed.

(** What [saveToken] wrote is what [loadSavedToken] returns: the trimmed token
    without its "Bearer" prefix, under the key of that API base only. *)
Lemma save_load_token base s t b :
  normalize_str s = t -> t <> [] ->
  exists b', saveToken base (VStr s) b = (Ok tt, b') /\ loadSavedToken base b' = (t, b').
Proof.
  intros Hn Hne.
  assert (Htr : normalizeToken (VStr s) = Ok t).
  { unfold normalizeToken. destruct s as [|c s]; [by rewrite <- Hn in Hne|]. simpl. by rewrite Hn. }
  unfold saveToken, mbind, sync_mbind, spure. rewrite Htr. destruct t as [|c t]; [done|].
  eexists; split; [done|]. unfold loadSavedToken. by rewrite store_get_set.
Qed.

(** ** The theme does not disturb the other keys *)

Lemma local_get_set_ne k k' v b : k <> k' -> local_get k (local_set k' v b) = local_get k b.
Proof. intros Hne. unfold local_get, local_set. simpl. by rewrite lookup_insert_ne. Qed.

Lemma token_key_theme base : tokenStorageKey base <> THEME_KEY.
Proof. unfold tokenStorageKey. intros Hk. apply (f_equal head) in Hk. by vm_compute in Hk. Qed.

Lemma applyTheme_local k m b : k <> THEME_KEY -> local_get k (applyTheme m b) = local_get k b.
Proof. intros Hk. unfold applyTheme. by rewrite local_get_set_ne. Qed.

Lemma applyTheme_store k m b : k <> THEME_KEY -> store_get k (applyTheme m b) = store_get k b.
Proof.
  intros Hk. unfold store_get. change (session_storage (applyTheme m b)) with (session_storage b).
  destruct (session_storage b); [done|]. by apply applyTheme_local.
Qed.

Lemma loadSavedToken_theme base m b :
  fst (loadSavedToken base (applyTheme m b)) = fst (loadSavedToken base b).
Proof.
  unfold loadSavedToken. rewrite applyTheme_store, !applyTheme_local by (apply token_key_theme || done).
  destruct (truthy_str (store_get _ b)); [done|]. by destruct (truthy_str _).
Qed.
