(* ===== verification/StorageProps.v ===== *)
(** * Properties of the token store and the theme *)

From stdpp Require Import base list gmap strings.
From Stdlib Require Import NArith ZArith Lia String.
From S2P Require Import Prelude JsString JsNum JsVal Prog State Storage Demo.

Lemma store_get_set_ne k k' v b : k <> k' -> store_get k (store_set k' v b) = store_get k b.
Proof.
  intros Hne. unfold store_get, store_set, local_get, local_set.
  destruct b as [? ? ? [m|]]; simpl; by rewrite lookup_insert_ne.
Qed.

Lemma store_get_local_remove k k' b : k <> k' -> store_get k (local_remove k' b) = store_get k b.
Proof.
  intros Hne. unfold store_get, local_get, local_remove. destruct b as [? ? ? [m|]]; simpl; [done|].
  by rewrite lookup_delete_ne.
Qed.

Lemma local_get_remove k b : local_get k (local_remove k b) = None.
Proof. unfold local_get, local_remove. simpl. by rewrite lookup_delete_eq. Qed.

Lemma local_get_remove_ne k k' b : k <> k' -> local_get k (local_remove k' b) = local_get k b.
Proof. intros Hne. unfold local_get, local_remove. simpl. by rewrite lookup_delete_ne. Qed.

Lemma normalizeToken_str s : normalizeToken (VStr s) = Ok (normalize_str s).
Proof. by destruct s. Qed.

(** C14: What is saved is what is loaded: after [saveToken] the token of that API
    base is the normalised one, it is found without touching the stores again,
    and the tokens of other API bases are unchanged. *)
Theorem token_roundtrip base s b :
  normalize_str s <> [] ->
  exists b', saveToken base (VStr s) b = (Ok tt, b') /\
    loadSavedToken base b' = (normalize_str s, b') /\
    forall base', base' <> base ->
      store_get (tokenStorageKey base') b' = store_get (tokenStorageKey base') b.
Proof.
  intros Hne. unfold saveToken, mbind, sync_mbind, spure. rewrite normalizeToken_str.
  destruct (normalize_str s) as [|c t]; [done|]. eexists; split; [done|]. split.
  - unfold loadSavedToken. by rewrite store_get_set.
  - intros base' Hb. apply store_get_set_ne. by intros ?%token_key_inj.
Qed.

Lemma token_roundtrip_witness :
  exists b', saveToken (js "http://a") (VStr (js " Bearer sk_local_1 ")) demo_browser = (Ok tt, b') /\
    loadSavedToken (js "http://a") b' = (js "sk_local_1", b').
Proof.
  destruct (token_roundtrip (js "http://a") (js " Bearer sk_local_1 ") demo_browser) as (b' & H1 & H2 & _);
    [by vm_compute|]. by exists b'.
Defined.

(** The token kept in [localStorage] by earlier versions of the panel. *)
Definition legacy_token (base : jstring) (b : browser) : option jstring :=
  match truthy_str (local_get (tokenStorageKey base) b) with
  | Some t => Some t
  | None => truthy_str (local_get LEGACY_TOKEN_KEY b)
  end.

Lemma truthy_str_idem o : truthy_str (truthy_str o) = truthy_str o.
Proof. by destruct o as [[|]|]. Qed.

Lemma loadSavedToken_eq base b :
  loadSavedToken base b =
  match truthy_str (store_get (tokenStorageKey base) b) with
  | Some t => (t, b)
  | None =>
      match legacy_token base b with
      | Some t => (t, local_remove LEGACY_TOKEN_KEY (local_remove (tokenStorageKey base)
                        (store_set (tokenStorageKey base) t b)))
      | None => ([], b)
      end
  end.
Proof.
  unfold loadSavedToken, legacy_token. destruct (truthy_str (store_get _ b)); [done|].
  by destruct (local_get (tokenStorageKey base) b) as [[|]|].
Qed.

Lemma legacy_token_truthy base b t : legacy_token base b = Some t -> truthy_str (Some t) = Some t.
Proof.
  unfold legacy_token. intros Ht. rewrite <- Ht.
  destruct (truthy_str (local_get (tokenStorageKey base) b)) as [u|] eqn:E; [|apply truthy_str_idem].
  rewrite <- E. apply truthy_str_idem.
Qed.

(** Migration of a token from the old keys: with [sessionStorage] available,
    loading returns the same token and the same stores a second time, and once a
    legacy token was moved it is gone from [localStorage]. *)
Theorem token_migration base b t b' :
  session_storage b <> None -> loadSavedToken base b = (t, b') ->
  loadSavedToken base b' = (t, b') /\
  (truthy_str (store_get (tokenStorageKey base) b) = None -> legacy_token base b' = None).
Proof.
  intros Hss Hl. rewrite loadSavedToken_eq in *.
  destruct (truthy_str (store_get (tokenStorageKey base) b)) as [t0|] eqn:E.
  { inv Hl. by rewrite E. }
  destruct (legacy_token base b) as [t0|] eqn:El; inv Hl; cycle 1.
  { rewrite E, El. done. }
  assert (Hg : store_get (tokenStorageKey base) (local_remove LEGACY_TOKEN_KEY
      (local_remove (tokenStorageKey base) (store_set (tokenStorageKey base) t b))) = Some t).
  { unfold store_get, store_set. destruct b as [? ? ? [m|]]; [|done]. simpl. by rewrite lookup_insert_eq. }
  rewrite Hg, (legacy_token_truthy _ _ _ El). split; [done|]. intros _. unfold legacy_token.
  by rewrite local_get_remove, local_get_remove_ne, local_get_remove by apply token_key_legacy.
Qed.

Definition legacy_browser (ss : option (gmap jstring jstring)) : browser :=
  set_session_storage ss (set_local_storage {[LEGACY_TOKEN_KEY := js "sk_local_1"]} demo_browser).

Lemma token_migration_witness :
  let '(t, b') := loadSavedToken (js "http://a") (legacy_browser (Some ∅)) in
  t = js "sk_local_1" /\ loadSavedToken (js "http://a") b' = (t, b').
Proof.
  destruct (loadSavedToken (js "http://a") (legacy_browser (Some ∅))) as [t b'] eqn:E.
  pose proof (token_migration _ _ _ _ (ltac:(done) : session_storage (legacy_browser (Some ∅)) <> None) E) as [H _].
  split; [|done]. apply (f_equal fst) in E. by vm_compute in E.
Defined.

(** C37: Without [sessionStorage] the migration loses the token: the token store is
    then [localStorage] itself, so the key just written is the key removed, and
    the next load finds nothing. *)
Theorem token_lost_without_session_storage base b t b' :
  session_storage b = None -> truthy_str (local_get (tokenStorageKey base) b) = None ->
  truthy_str (local_get LEGACY_TOKEN_KEY b) = Some t -> loadSavedToken base b = (t, b') ->
  loadSavedToken base b' = ([], b').
Proof.
  intros Hss Hk Hleg Hl. rewrite loadSavedToken_eq in *. unfold store_get in *. rewrite Hss, Hk in Hl.
  unfold legacy_token in Hl. rewrite Hk, Hleg in Hl. inv Hl.
  set (b' := local_remove _ _).
  assert (Hs : session_storage b' = None) by (unfold b', store_set; by rewrite Hss).
  assert (H1 : local_get (tokenStorageKey base) b' = None).
  { unfold b'. rewrite local_get_remove_ne by apply token_key_legacy. apply local_get_remove. }
  assert (H2 : local_get LEGACY_TOKEN_KEY b' = None) by apply local_get_remove.
  rewrite Hs, H1. unfold legacy_token. by rewrite H1, H2.
Qed.

Lemma token_lost_witness :
  let '(t, b') := loadSavedToken (js "http://a") (legacy_browser None) in
  t = js "sk_local_1" /\ loadSavedToken (js "http://a") b' = ([], b').
Proof.
  destruct (loadSavedToken (js "http://a") (legacy_browser None)) as [t b'] eqn:E.
  assert (t = js "sk_local_1") as -> by (apply (f_equal fst) in E; by vm_compute in E).
  split; [done|]. by apply (token_lost_without_session_storage _ (legacy_browser None) (js "sk_local_1")).
Defined.

(** The theme round trip: after [applyTheme] the stored mode reads back, the
    document carries it, and it is dark exactly for dark mode or for system mode
    on a dark system. *)
Theorem theme_roundtrip m b :
  readThemeMode (applyTheme m b) = m /\ html_theme_mode (applyTheme m b) = theme_name m /\
  (html_dark (applyTheme m b) = true <-> m = TDark \/ (m = TSystem /\ prefers_dark b = true)).
Proof.
  split_and!; [|done|].
  - unfold readThemeMode, applyTheme, local_get, local_set. simpl. rewrite lookup_insert_eq. by destruct m.
  - destruct m; simpl; split; try tauto; try by left.
    all: try (intros Hd; by right). all: intros [?|[? ?]]; done.
Qed.
