(* ===== verification/TokenVault.v ===== *)
(** * The token store refines a vault of tokens

    [lib/storage.ts] spreads the API tokens over two browser stores, one key per
    API base and one key shared by all bases that earlier versions used.  The
    specification is a [vault]: a token per base, the tokens earlier versions left
    per base, and at most one token that the first base without its own inherits.
    Every sequence of storage operations, the unrelated ones included, behaves on
    the browser as on the vault. *)

From stdpp Require Import base list gmap strings.
From Stdlib Require Import NArith ZArith Lia String.
From S2P Require Import Prelude JsString JsNum JsVal Prog State Storage StorageProps Demo.

(** ** The specification *)

Record vault := Vault {
  held : jstring -> option jstring;
  left_behind : jstring -> option jstring;
  heirloom : option jstring
}.

Definition put (f : jstring -> option jstring) (base : jstring) (t : option jstring) : jstring -> option jstring :=
  fun base' => if decide (base' = base) then t else f base'.

Definition vault_save (base t : jstring) (v : vault) : vault :=
  Vault (put (held v) base (truthy_str (Some t))) (left_behind v) (heirloom v).

(** A base without a token takes over what was left behind for it, or else the
    heirloom; either way nothing is left to inherit. *)
Definition vault_load (base : jstring) (v : vault) : jstring * vault :=
  match held v base with
  | Some t => (t, v)
  | None =>
      match (match left_behind v base with Some t => Some t | None => heirloom v end) with
      | Some t => (t, Vault (put (held v) base (Some t)) (put (left_behind v) base None) None)
      | None => ([], v)
      end
  end.

(** ** The operations of [storage.ts] *)

Inductive storage_op :=
| OpSave (base : jstring) (tok : jsval)
| OpLoad (base : jstring)
| OpApiBase (base : jstring)
| OpCell (id : jsval)
| OpTheme (m : ThemeMode).

Inductive storage_out :=
| OutSaved (r : E unit)
| OutToken (t : jstring)
| OutDone.

Definition vault_op (op : storage_op) (v : vault) : storage_out * vault :=
  match op with
  | OpSave base tok =>
      match normalizeToken tok with
      | Ok t => (OutSaved (Ok tt), vault_save base t v)
      | Exn e => (OutSaved (Exn e), v)
      end
  | OpLoad base => let '(t, v') := vault_load base v in (OutToken t, v')
  | _ => (OutDone, v)
  end.

Section browser.
Context `{Platform}.

Definition browser_op (op : storage_op) (b : browser) : storage_out * browser :=
  match op with
  | OpSave base tok => let '(r, b') := saveToken base tok b in (OutSaved r, b')
  | OpLoad base => let '(t, b') := loadSavedToken base b in (OutToken t, b')
  | OpApiBase base => (OutDone, saveApiBase base b)
  | OpCell id => (OutDone, saveCellId id b)
  | OpTheme m => (OutDone, applyTheme m b)
  end.

Fixpoint run_ops {A : Type} (step : storage_op -> A -> storage_out * A) (ops : list storage_op) (a : A) :
    list storage_out * A :=
  match ops with
  | [] => ([], a)
  | op :: ops' => let '(o, a1) := step op a in let '(os, a2) := run_ops step ops' a1 in (o :: os, a2)
  end.

(** ** The abstraction relation *)

Record represents (b : browser) (v : vault) : Prop := {
  rep_session : session_storage b <> None;
  rep_held : forall base, truthy_str (store_get (tokenStorageKey base) b) = held v base;
  rep_left : forall base, truthy_str (local_get (tokenStorageKey base) b) = left_behind v base;
  rep_heir : truthy_str (local_get LEGACY_TOKEN_KEY b) = heirloom v
}.

(** Every browser with a session store represents some vault. *)
Definition vault_of (b : browser) : vault :=
  Vault (fun base => truthy_str (store_get (tokenStorageKey base) b))
        (fun base => truthy_str (local_get (tokenStorageKey base) b)) (truthy_str (local_get LEGACY_TOKEN_KEY b)).

Lemma represents_vault_of b : session_storage b <> None -> represents b (vault_of b).
Proof. by constructor. Qed.

Lemma put_eq f base t : put f base t base = t.
Proof. unfold put. by rewrite decide_True. Qed.
Lemma put_ne f base t base' : base' <> base -> put f base t base' = f base'.
Proof. intros Hne. unfold put. by rewrite decide_False. Qed.

(** *** Frames *)

(** A key of [localStorage] that is not about tokens. *)
Definition other_key (k : jstring) : Prop := k <> LEGACY_TOKEN_KEY /\ forall base, k <> tokenStorageKey base.

Lemma other_key_check k : k <> LEGACY_TOKEN_KEY -> starts_with TOKEN_PREFIX k = false -> other_key k.
Proof. intros Hl Hp. split; [done|]. intros base ->. unfold tokenStorageKey in Hp. by rewrite starts_with_app in Hp. Qed.

Lemma represents_local_set k x b v : other_key k -> represents b v -> represents (local_set k x b) v.
Proof.
  intros [Hl Hk] [H1 H2 H3 H4]. constructor.
  - done.
  - intros base. rewrite <- H2. unfold store_get. simpl. by destruct (session_storage b).
  - intros base. rewrite <- H3, local_get_set_ne; [done|]. intros He. by apply (Hk base).
  - rewrite <- H4, local_get_set_ne; [done|congruence].
Qed.

Lemma represents_html b f v :
  session_storage (f b) = session_storage b -> local_storage (f b) = local_storage b -> represents b v -> represents (f b) v.
Proof.
  intros Hs Hl [H1 H2 H3 H4].
  constructor; unfold store_get, local_get in *; rewrite ?Hs, ?Hl; auto.
Qed.

(** *** Saving and loading *)

Lemma store_get_remove_ne k k' b : k <> k' -> store_get k (store_remove k' b) = store_get k b.
Proof.
  intros Hne. unfold store_get, store_remove, local_get, local_remove.
  destruct b as [? ? ? [m|]]; simpl; by rewrite lookup_delete_ne.
Qed.

Lemma store_set_local k x b k' : session_storage b <> None -> local_get k' (store_set k x b) = local_get k' b.
Proof. intros Hs. unfold store_set, local_get. by destruct (session_storage b). Qed.
Lemma store_remove_local k b k' : session_storage b <> None -> local_get k' (store_remove k b) = local_get k' b.
Proof. intros Hs. unfold store_remove, local_get. by destruct (session_storage b). Qed.

Lemma represents_set base t b v : t <> [] -> represents b v ->
  represents (store_set (tokenStorageKey base) t b) (vault_save base t v).
Proof.
  intros Ht [H1 H2 H3 H4]. constructor; simpl.
  - unfold store_set. by destruct (session_storage b).
  - intros base'. destruct (decide (base' = base)) as [->|Hne].
    + rewrite put_eq, store_get_set. by destruct t.
    + rewrite put_ne, store_get_set_ne by (done || by intros ?%token_key_inj). apply H2.
  - intros base'. by rewrite store_set_local.
  - by rewrite store_set_local.
Qed.

Lemma represents_remove base b v : represents b v ->
  represents (store_remove (tokenStorageKey base) b) (vault_save base [] v).
Proof.
  intros [H1 H2 H3 H4]. constructor; simpl.
  - unfold store_remove. by destruct (session_storage b).
  - intros base'. destruct (decide (base' = base)) as [->|Hne].
    + by rewrite put_eq, store_get_remove.
    + rewrite put_ne, store_get_remove_ne by (done || by intros ?%token_key_inj). apply H2.
  - intros base'. by rewrite store_remove_local.
  - by rewrite store_remove_local.
Qed.

Lemma store_get_local_remove_session k k' b : session_storage b <> None -> store_get k (local_remove k' b) = store_get k b.
Proof. intros Hs. unfold store_get, local_remove. simpl. by destruct (session_storage b). Qed.

Lemma represents_inherit base t b v : t <> [] -> represents b v ->
  represents (local_remove LEGACY_TOKEN_KEY (local_remove (tokenStorageKey base) (store_set (tokenStorageKey base) t b)))
    (Vault (put (held v) base (Some t)) (put (left_behind v) base None) None).
Proof.
  intros Ht Hr. destruct (represents_set base t b v Ht Hr) as [H1 H2 H3 H4]. simpl in *. constructor; simpl; [done|..].
  - intros base'. rewrite !store_get_local_remove_session by done. rewrite H2. by destruct t.
  - intros base'. rewrite local_get_remove_ne by apply token_key_legacy. destruct (decide (base' = base)) as [->|Hne].
    + by rewrite put_eq, local_get_remove.
    + rewrite put_ne, local_get_remove_ne by (done || by intros ?%token_key_inj). apply H3.
  - by rewrite local_get_remove.
Qed.

(** One operation. *)
Lemma op_refines op b v : represents b v ->
  fst (browser_op op b) = fst (vault_op op v) /\ represents (snd (browser_op op b)) (snd (vault_op op v)).
Proof.
  intros Hr. destruct op as [base tok|base|base|id|m]; simpl.
  - unfold saveToken, mbind, sync_mbind, spure. destruct (normalizeToken tok) as [[|c t]|e]; simpl; (split; [done|]).
    + by apply represents_remove.
    + by apply represents_set.
    + done.
  - rewrite loadSavedToken_eq. unfold vault_load, legacy_token. rewrite (rep_held _ _ Hr), (rep_left _ _ Hr), (rep_heir _ _ Hr).
    destruct (held v base); [by split|].
    destruct (match left_behind v base with Some t => Some t | None => heirloom v end) as [t|] eqn:Et; simpl; (split; [done|]); [|done].
    apply represents_inherit; [|done]. intros ->.
    assert (Hl : legacy_token base b = Some []) by (unfold legacy_token; by rewrite (rep_left _ _ Hr), (rep_heir _ _ Hr)).
    by apply legacy_token_truthy in Hl.
  - split; [done|]. apply represents_local_set; [|done]. by apply other_key_check.
  - split; [done|]. apply represents_local_set; [|done]. by apply other_key_check.
  - split; [done|]. unfold applyTheme. apply represents_local_set; [by apply other_key_check|].
    by apply (represents_html b (fun b => set_html_theme_mode _ (set_html_dark _ b))).
Qed.
End browser.

(** C10: The token store refines the vault.  In a browser with [sessionStorage], any
    sequence of storage operations (saving tokens, accepted or not, loading them
    with the migration of old keys, and changes of API base, cell and theme in
    between) returns what the vault returns and leaves stores that represent the
    vault after the same operations.  So a token is never seen under another
    base, a held token is never lost but by saving over it, and an inherited token
    goes to one base only. *)
Theorem token_store_refines `{Platform} ops b v :
  represents b v ->
  fst (run_ops browser_op ops b) = fst (run_ops vault_op ops v) /\
  represents (snd (run_ops browser_op ops b)) (snd (run_ops vault_op ops v)).
Proof.
  revert b v. induction ops as [|op ops IH]; intros b v Hr; simpl; [by split|].
  destruct (op_refines op b v Hr) as [H1 H2].
  destruct (browser_op op b) as [o b1], (vault_op op v) as [o' v1]. simpl in *. destruct (IH b1 v1 H2) as [H3 H4].
  destruct (run_ops browser_op ops b1) as [os b2], (run_ops vault_op ops v1) as [os' v2]. simpl in *. by subst.
Qed.

(** One base inherits the legacy token, the other finds nothing. *)
Definition demo_ops : list storage_op :=
  [OpLoad (js "http://a"); OpTheme TDark; OpLoad (js "http://b"); OpSave (js "http://b") (VStr (js "Bearer sk_local_2"));
   OpLoad (js "http://b"); OpLoad (js "http://a")].

Lemma token_store_refines_witness :
  fst (run_ops (@browser_op demo_platform) demo_ops (legacy_browser (Some ∅))) =
    [OutToken (js "sk_local_1"); OutDone; OutToken []; OutSaved (Ok tt); OutToken (js "sk_local_2");
     OutToken (js "sk_local_1")].
Proof.
  rewrite (proj1 (@token_store_refines demo_platform demo_ops _ _
    (represents_vault_of (legacy_browser (Some ∅)) ltac:(done)))). by vm_compute.
Defined.
