(* ===== verification/Api.v ===== *)
(** * [lib/api.ts]: URLs, headers, requests and API errors *)

From stdpp Require Import base list gmap strings.
From Stdlib Require Import NArith ZArith Lia String.
From S2P Require Import Prelude JsString JsNum JsVal Json Prog State Storage.

(** [new ApiError(message, status, body)]. *)
Definition api_error (msg : jstring) (status : N) (body : jsval) : jsval :=
  VErr ErrApi msg [(js "status", VNum (num_of_Z (Z.of_N status))); (js "body", body)].

(** [res.ok] *)
Definition rs_ok (r : http_response) : bool := ((200 <=? rs_status r) && (rs_status r <=? 299))%N.

Definition network_error : jsval := type_error (js "Failed to fetch").

(** [fetch(url, init)]: the request leaves when the call is made. *)
Definition log_request (r : http_request) (p : panel) : panel :=
  set_br (set_sent (r :: sent (br p)) (br p)) p.

Definition fetch (r : http_request) : prog panel http_response :=
  Act (log_request r) (fun _ =>
    Wait (AskFetch r) (fun x =>
      match x with
      | Responded resp => Ret resp
      | Rejected e => Throw e
      | Answered _ => Throw network_error
      end)).

(** [new Headers().set(name, value)] rejects values that are not byte strings or
    contain NUL, CR or LF. *)
Definition valid_header_value (v : jstring) : bool :=
  forallb (fun c => (c <? 256) && negb ((c =? 0) || (c =? 10) || (c =? 13)))%N v.

(** [await res.text()], then JSON when it parses, the text otherwise. *)
Definition body_text (r : http_response) : E jstring :=
  match rs_text r with Some t => Ok t | None => Exn network_error end.

Definition parseBody (r : http_response) : E jsval :=
  text ← body_text r;
  match text with
  | [] => Ok VNull
  | _ => try_catch (json_parse text) (fun _ => Ok (VStr text))
  end.

(** The message of the error a failed response is turned into. *)
Definition error_message (r : http_response) (body : jsval) : jstring :=
  let msg := match rs_statusText r with [] => js "request failed" | s => s end in
  if is_object body && has_key body (js "error")
  then to_string (let e := own_get body (js "error") in if truthy e then e else VStr msg)
  else msg.

Definition response_result (r : http_response) : E jsval :=
  body ← parseBody r;
  if rs_ok r then Ok body else Exn (api_error (error_message r body) (rs_status r) body).

Section api.
Context `{Platform}.

Definition api_base (b : browser) : jstring := allowlistedApiBase (loadSavedApiBase b) b.

Definition authHeaders (b : browser) : list (jstring * jstring) * browser :=
  let '(t, b') := loadSavedToken (api_base b) b in
  match normalize_str t with
  | [] => ([], b')
  | n => ([(js "Authorization", js "Bearer " ++ n)], b')
  end.

Definition adminUrl (path : jstring) (b : browser) : jstring :=
  let root := adminApiRoot b in
  let base := if starts_with (js "http") root then root else api_base b ++ root in
  strip_slash base ++ path.

Definition publicUrl (path : jstring) (b : browser) : jstring := strip_slash (api_base b) ++ path.

(** The headers of a request with or without a body; no caller passes its own. *)
Definition request_headers (auth : list (jstring * jstring)) (body : option jstring) : E (list (jstring * jstring)) :=
  if forallb (fun kv => valid_header_value (snd kv)) auth
  then Ok (auth ++ match body with
                   | Some (_ :: _) => [(js "Content-Type", js "application/json")]
                   | _ => []
                   end)
  else throw_type (js "Failed to execute 'set' on 'Headers'").

Definition build_request (method url : jstring) (body : option jstring) : sync browser http_request :=
  fun b =>
    let '(auth, b') := authHeaders b in
    (h ← request_headers auth body;
     Ok {| rq_method := method; rq_url := url; rq_headers := h; rq_body := body |}, b').

Definition request (method url : jstring) (body : option jstring) : prog panel jsval :=
  rq ← call (on_br (build_request method url body));
  res ← fetch rq;
  pure (response_result res).

Definition apiGet (url : jstring) : prog panel jsval := request (js "GET") url None.

(** [data = None]: called without a second argument. *)
Definition json_body (data : option jsval) : option jstring :=
  match data with Some v => stringify v | None => None end.

Definition apiPost (url : jstring) (data : option jsval) : prog panel jsval :=
  request (js "POST") url (json_body data).
Definition apiPut (url : jstring) (data : option jsval) : prog panel jsval :=
  request (js "PUT") url (json_body data).
Definition apiDelete (url : jstring) : prog panel jsval := request (js "DELETE") url None.

(** [apiGet(publicUrl(path))] and the like: the URL is computed at the call. *)
Definition public (path : jstring) : prog panel jstring := read (fun p => publicUrl path (br p)).
Definition admin (path : jstring) : prog panel jstring := read (fun p => adminUrl path (br p)).
Definition pub_get (path : jstring) : prog panel jsval := url ← public path; apiGet url.
Definition pub_delete (path : jstring) : prog panel jsval := url ← public path; apiDelete url.
Definition pub_post (path : jstring) (data : option jsval) : prog panel jsval := url ← public path; apiPost url data.
Definition pub_put (path : jstring) (data : option jsval) : prog panel jsval := url ← public path; apiPut url data.
Definition adm_post (path : jstring) (data : option jsval) : prog panel jsval := url ← admin path; apiPost url data.
End api.

(** ** Facts *)

Section facts.
Context `{Platform}.

Lemma api_base_http b : is_http b = true -> api_base b = loc_origin b.
Proof. intros. by apply allowlisted_http. Qed.

(** What [request] makes of the reply to its [fetch]. *)
Definition reply_result (x : reply) : E jsval :=
  match x with
  | Responded r => response_result r
  | Rejected e => Exn e
  | Answered _ => Exn network_error
  end.

Lemma exec_request m u body x xs p :
  exec (request m u body) (x :: xs) p =
  match build_request m u body (br p) with
  | (Ok rq, b') => Some (reply_result x, log_request rq (set_br b' p), xs, [])
  | (Exn e, b') => Some (Exn e, set_br b' p, x :: xs, [])
  end.
Proof.
  unfold request. rewrite exec_mbind, exec_call. unfold on_br, szoom.
  destruct (build_request m u body (br p)) as [[rq|e] b']; simpl; [|done].
  destruct x as [r|e|b]; simpl; [|done..]. by destruct (response_result r).
Qed.

(** The token the page would send, as a header value. *)
Definition bearer (b : browser) : jstring :=
  js "Bearer " ++ normalize_str (fst (loadSavedToken (api_base b) b)).

Lemma request_headers_ok auth body h :
  request_headers auth body = Ok h -> forall k v, (k, v) ∈ h ->
  (k, v) ∈ auth \/ (k, v) = (js "Content-Type", js "application/json").
Proof.
  unfold request_headers. destruct (forallb _ _); [|done]. intros [= <-] k v.
  rewrite elem_of_app. intros [?|Hin]; [by left|right].
  destruct body as [[|]|]; set_solver.
Qed.

Lemma authHeaders_spec b k v :
  (k, v) ∈ fst (authHeaders b) -> k = js "Authorization" /\ v = bearer b.
Proof.
  unfold authHeaders, bearer. destruct (loadSavedToken (api_base b) b) as [t b']. simpl.
  destruct (normalize_str t); simpl; set_solver.
Qed.

(** Whether the stored token can be put into a header. *)
Definition header_ok (b : browser) : bool :=
  forallb (fun kv => valid_header_value (snd kv)) (fst (authHeaders b)).

Definition mk_request (m u : jstring) (body : option jstring) (b : browser) : http_request :=
  {| rq_method := m; rq_url := u; rq_body := body;
     rq_headers := fst (authHeaders b) ++
       match body with Some (_ :: _) => [(js "Content-Type", js "application/json")] | _ => [] end |}.

Lemma build_request_eq m u body b :
  build_request m u body b =
  (if header_ok b then Ok (mk_request m u body b)
   else throw_type (js "Failed to execute 'set' on 'Headers'"), snd (authHeaders b)).
Proof.
  unfold build_request, header_ok, mk_request, request_headers.
  destruct (authHeaders b) as [auth b']. simpl. by destruct (forallb _ auth).
Qed.

Definition header_error : jsval := type_error (js "Failed to execute 'set' on 'Headers'").

(** The page after a request was sent: token migrated, request logged. *)
Definition after_request (m u : jstring) (body : option jstring) (p : panel) : panel :=
  log_request (mk_request m u body (br p)) (set_br (snd (authHeaders (br p))) p).

Lemma exec_request_ok m u body x xs p : header_ok (br p) = true ->
  exec (request m u body) (x :: xs) p = Some (reply_result x, after_request m u body p, xs, []).
Proof. intros Ho. by rewrite exec_request, build_request_eq, Ho. Qed.

Lemma exec_request_bad m u body xs p : header_ok (br p) = false ->
  exec (request m u body) xs p = Some (Exn header_error, set_br (snd (authHeaders (br p))) p, xs, []).
Proof.
  intros Ho. unfold request. rewrite exec_mbind, exec_call. unfold on_br, szoom.
  rewrite build_request_eq, Ho. done.
Qed.

(** The same for the calls the components make. *)
Lemma exec_pub_get path x xs p : header_ok (br p) = true ->
  exec (pub_get path) (x :: xs) p =
  Some (reply_result x, after_request (js "GET") (publicUrl path (br p)) None p, xs, []).
Proof. apply exec_request_ok. Qed.
Lemma exec_pub_get_bad path xs p : header_ok (br p) = false ->
  exec (pub_get path) xs p = Some (Exn header_error, set_br (snd (authHeaders (br p))) p, xs, []).
Proof. apply exec_request_bad. Qed.
Lemma exec_pub_delete path x xs p : header_ok (br p) = true ->
  exec (pub_delete path) (x :: xs) p =
  Some (reply_result x, after_request (js "DELETE") (publicUrl path (br p)) None p, xs, []).
Proof. apply exec_request_ok. Qed.
Lemma exec_pub_post path data x xs p : header_ok (br p) = true ->
  exec (pub_post path data) (x :: xs) p =
  Some (reply_result x, after_request (js "POST") (publicUrl path (br p)) (json_body data) p, xs, []).
Proof. apply exec_request_ok. Qed.
Lemma exec_pub_put path data x xs p : header_ok (br p) = true ->
  exec (pub_put path data) (x :: xs) p =
  Some (reply_result x, after_request (js "PUT") (publicUrl path (br p)) (json_body data) p, xs, []).
Proof. apply exec_request_ok. Qed.
Lemma exec_adm_post path data x xs p : header_ok (br p) = true ->
  exec (adm_post path data) (x :: xs) p =
  Some (reply_result x, after_request (js "POST") (adminUrl path (br p)) (json_body data) p, xs, []).
Proof. apply exec_request_ok. Qed.

(** Loading the token moves it between stores; nothing else of the browser changes. *)
Lemma loadSavedToken_frame base b :
  let b' := snd (loadSavedToken base b) in
  loc_protocol b' = loc_protocol b /\ loc_origin b' = loc_origin b /\ sent b' = sent b /\
  g_admin_api b' = g_admin_api b /\ g_external_auth b' = g_external_auth b.
Proof.
  unfold loadSavedToken. destruct (truthy_str (store_get _ b)); [done|].
  destruct (truthy_str _); [|done]. unfold store_set, local_remove, local_set.
  by destruct (session_storage b).
Qed.

Lemma authHeaders_sent b : sent (snd (authHeaders b)) = sent b.
Proof.
  unfold authHeaders. pose proof (loadSavedToken_frame (api_base b) b) as (_ & _ & Hs & _).
  destruct (loadSavedToken (api_base b) b) as [t b1]. by destruct (normalize_str t).
Qed.

Lemma after_request_sent m u body p :
  sent (br (after_request m u body p)) = mk_request m u body (br p) :: sent (br p).
Proof. unfold after_request, log_request. simpl. by rewrite authHeaders_sent. Qed.

(** Invariants that do not look at the browser survive any request. *)
Lemma safe_fetch (I : panel -> Prop) rq : (forall p, I p -> I (log_request rq p)) -> safe I (fetch rq).
Proof. intros Hl p Hp. split; [by apply Hl|]. simpl. by intros []. Qed.

Lemma safe_request (I : panel -> Prop) m u body :
  (forall p, I p -> I (set_br (snd (authHeaders (br p))) p)) ->
  (forall p b, I p -> I (log_request (mk_request m u body b) p)) ->
  safe I (request m u body).
Proof.
  intros Hb Hl. apply safe_call_bind.
  - intros p Hp. unfold on_br, szoom. rewrite build_request_eq. simpl. by apply Hb.
  - intros p rq _ Hrq. apply safe_bind; [|intros; apply safe_pure]. apply safe_fetch.
    intros q Hq. unfold on_br, szoom in Hrq. rewrite build_request_eq in Hrq.
    simpl in Hrq. destruct (header_ok (br p)); inv Hrq. by apply Hl.
Qed.

(** The headers a request may carry: the bearer token and the JSON content type. *)
Definition plain_header (kv : jstring * jstring) : Prop :=
  (kv.1 = js "Authorization" /\ exists t, kv.2 = js "Bearer " ++ normalize_str t /\ normalize_str t <> []) \/
  kv = (js "Content-Type", js "application/json").

Lemma mk_request_plain m u body b : Forall plain_header (rq_headers (mk_request m u body b)).
Proof.
  unfold mk_request, authHeaders. destruct (loadSavedToken (api_base b) b) as [t b'].
  simpl. apply Forall_app. split.
  - destruct (normalize_str t) as [|c n] eqn:En; constructor; [|constructor].
    left. split; [done|]. exists t. by rewrite En.
  - destruct body as [[|]|]; constructor; [by right|constructor].
Qed.
End facts.
