(* ===== verification/Payload.v ===== *)
(** * [lib/payload.ts] and [composables/useActionStatus.ts]

    The payload builders shared by the publish, enqueue, queue and schedule
    forms, and the status line of every form. *)

From stdpp Require Import base list gmap strings.
From Stdlib Require Import NArith ZArith Lia String SpecFloat.
From S2P Require Import Prelude JsString JsNum JsVal Json Prog State.
Local Open Scope js_scope.

(** [parseBody(raw)]: JSON when it parses, the text itself otherwise. *)
Definition parseBodyField (raw : jsval) : jsval :=
  match json_parse (to_string raw) with Ok v => v | Exn _ => raw end.

(** [mergeOutbound(payload)]: the updated payload and the error, if any. *)
Definition mergeOutbound (ob : outbound_state) (payload : jsval) : E (jsval * option jstring) :=
  let p1 := set_prop payload (js "method") (ob_method ob) in
  let p2 := if truthy (ob_sign ob) then set_prop p1 (js "sign") (VBool true) else p1 in
  raw ← e_trim (Ok (ob_headers ob));
  if truthy raw then
    match json_parse (to_string raw) with
    | Ok v => Ok (set_prop p2 (js "headers") v, None)
    | Exn _ => Ok (p2, Some (js "Headers must be valid JSON"))
    end
  else Ok (p2, None).

(** [RetryState].  Number inputs make the fields numbers or, when emptied, strings. *)
Record RetryState := Retry {
  maxRetries : jsval;
  kind : jsval;
  initialMs : jsval;
  maxMs : jsval;
  multiplier : jsval
}.

Definition defaultRetry : RetryState :=
  {| maxRetries := VNum (num_of_Z 0); kind := VStr (js "exponential");
     initialMs := VNum (num_of_Z 500); maxMs := VNum (num_of_Z 30000); multiplier := VNum (num_of_Z 2) |}.

(** [Number(v) || d] *)
Definition number_or (v : jsval) (d : Z) : num :=
  let x := to_number v in if num_truthy x then x else num_of_Z d.

Definition mergeRetry (payload : jsval) (retry : RetryState) : E jsval :=
  let max := num_max (num_of_Z 0) (number_or (maxRetries retry) 0) in
  if num_leb max (num_of_Z 0) then Ok payload
  else
    let p1 := set_prop payload (js "max_retries") (VNum max) in
    k ← str_method (js "toLowerCase") (if truthy (kind retry) then kind retry else VStr (js "exponential"))
          (fun s => VStr (to_lower s));
    let backoff := VObj ["kind" ~> k; "initialMs" ~> VNum (number_or (initialMs retry) 500)] in
    let backoff :=
      if strict_eq k (VStr (js "exponential")) then
        let b1 := set_prop backoff (js "maxMs") (VNum (number_or (maxMs retry) 30000)) in
        let mult := to_number (multiplier retry) in
        if num_ltb (num_of_Z 0) mult then set_prop b1 (js "multiplier") (VNum mult) else b1
      else backoff in
    Ok (set_prop p1 (js "retry_backoff") backoff).

(** [errText(e)]. *)
Definition errText (e : jsval) : jstring :=
  if is_object e && has_key e (js "message") then to_string (own_get e (js "message"))
  else to_string (if truthy e then e else VStr (js "request failed")).

(** [copyText(text)]. *)
Definition copyText (text : jsval) : prog panel unit :=
  Wait (AskClipboard (to_string text)) (fun x =>
    match x with Responded _ => Ret tt | Rejected e => Throw e | Answered _ => Throw VUndef end).

(** ** [useActionStatus()] *)

Record status := Status { st_error : jsval; st_ok : jsval }.

Definition useActionStatus : status := {| st_error := VStr []; st_ok := VStr [] |}.
Definition st_fail (e : jsval) (_ : status) : status :=
  {| st_error := if is_string e then e else VStr (errText e); st_ok := VStr [] |}.
Definition st_succeed (msg : jsval) (_ : status) : status := {| st_error := VStr []; st_ok := msg |}.
Definition st_reset (_ : status) : status := {| st_error := VStr []; st_ok := VStr [] |}.

(** ** [Input] fields

    [v-model] on a field with [type="number"] stores [looseToNumber] of the
    text: a number when [parseFloat] finds one, the text itself otherwise. *)
Definition looseToNumber (s : jstring) : jsval :=
  let n := parse_float s in if num_is_nan n then VStr s else VNum n.

Definition input_text (s : jstring) : jsval := VStr s.
Definition input_number (s : jstring) : jsval := looseToNumber s.
