(* ===== verification/Catalog.v ===== *)
(** * [lib/catalog.ts], [lib/federation.ts] and [lib/avatar.ts] *)

From stdpp Require Import base list gmap strings.
From Stdlib Require Import NArith ZArith Lia String.
From S2P Require Import Prelude JsString JsNum JsVal Json Prog State Storage Api.
Local Open Scope js_scope.

(** ** Row identifiers *)

Definition queueId (q : jsval) : E jsval := (Ok q) @. "queue_id" .|| (Ok q) @. "id" .|| #"".
Definition groupId (g : jsval) : E jsval := (Ok g) @. "group_id" .|| (Ok g) @. "id" .|| #"".
Definition flowId (f : jsval) : E jsval := (Ok f) @. "flow_id" .|| (Ok f) @. "id" .|| #"".

(** [l.find(f)], [undefined] when nothing matches. *)
Fixpoint find_elem (f : jsval -> E bool) (l : list jsval) : E jsval :=
  match l with
  | [] => Ok VUndef
  | x :: l' => b ← f x; if (b : bool) then Ok x else find_elem f l'
  end.

(** [l.some(f)]. *)
Fixpoint some_elem (f : jsval -> E bool) (l : list jsval) : E bool :=
  match l with
  | [] => Ok false
  | x :: l' => b ← f x; if (b : bool) then Ok true else some_elem f l'
  end.

Definition first_elem (l : list jsval) : jsval := match l with x :: _ => x | [] => VUndef end.

(** [c => c.k === v] *)
Definition field_is (k : jstring) (v : jsval) (c : jsval) : E bool := x ← get c k; Ok (strict_eq x v).

Section catalog.
Context `{Platform}.

(** [d.k || []] *)
Definition list_field (d : jsval) (k : jstring) : E jsval := e_or (get d k) (Ok (VArr [])).

Definition refreshQueues : prog panel unit :=
  prog_catch
    (url ← public (js "/v1/queues");
     d ← apiGet url;
     v ← pure (list_field d (js "queues"));
     modify (on_cat (set_queues v)))
    (fun _ => modify (on_cat (set_queues (VArr [])))).

Definition refreshGroups : prog panel unit :=
  prog_catch
    (url ← public (js "/v1/groups");
     d ← apiGet url;
     v ← pure (list_field d (js "groups"));
     modify (on_cat (set_groups v)))
    (fun _ => modify (on_cat (set_groups (VArr [])))).

Definition refreshFlows : prog panel unit :=
  prog_catch
    (url ← public (js "/v1/flows");
     d ← apiGet url;
     v ← pure (list_field d (js "flows"));
     modify (on_cat (set_flows v)))
    (fun _ => modify (on_cat (set_flows (VArr [])))).

(** ** Federated queries *)

Inductive query_kind := QNodes | QShards | QCluster | QCatalog.
Definition query_name (k : query_kind) : jstring :=
  match k with
  | QNodes => js "nodes" | QShards => js "shards" | QCluster => js "cluster" | QCatalog => js "catalog"
  end.

Definition queryCells (k : query_kind) : prog panel jsval :=
  url ← admin (js "/cells/query/" ++ query_name k);
  apiGet url.

(** The row of [cellId], or the first row when that cell did not answer. *)
Definition dataForCell (res cellId : jsval) : E jsval :=
  let ok := oget res (js "ok") in
  if truthy ok then
    rows ← elements_of ok;
    hit ← find_elem (field_is (js "cell") cellId) rows;
    let hit := if truthy hit then hit else first_elem rows in
    let d := oget hit (js "data") in
    Ok (if is_nullish d then VNull else d)
  else Ok VNull.

(** ** Avatars *)

Definition glassAvatar (seed : jstring) (cache : gmap jstring jstring) : jstring * gmap jstring jstring :=
  let key := match trim seed with [] => js "local" | s => s end in
  match truthy_str (cache !! key) with
  | Some hit => (hit, cache)
  | None => let uri := avatar_uri key in (uri, <[key := uri]> cache)
  end.
End catalog.

(** ** Facts *)

Section facts.
Context `{Platform}.

(** The cache only ever holds rendered avatars. *)
Definition cache_ok (cache : gmap jstring jstring) : Prop :=
  map_Forall (fun k uri => uri = avatar_uri k) cache.

Lemma glassAvatar_ok seed cache :
  cache_ok cache ->
  cache_ok (snd (glassAvatar seed cache)) /\
  fst (glassAvatar seed cache) = avatar_uri (match trim seed with [] => js "local" | s => s end).
Proof.
  intros Hc. unfold glassAvatar. set (key := match trim seed with [] => js "local" | s => s end).
  destruct (truthy_str (cache !! key)) as [hit|] eqn:E.
  - split; [done|]. simpl. assert (cache !! key = Some hit) as Hk
      by (by destruct (cache !! key) as [[|]|]; inv E). by apply Hc in Hk.
  - split; [|done]. by apply map_Forall_insert_2.
Qed.
End facts.

(** ** Lists of records with an identifier *)

(** An object whose field [k] is the non-empty string [id]. *)
Definition keyed (k : jstring) (c : jsval) (id : jstring) : Prop :=
  is_object c = true /\ get c k = Ok (VStr id) /\ id <> [].
Definition all_keyed (k : jstring) (cs : list jsval) : Prop := Forall (fun c => exists id, keyed k c id) cs.

Lemma is_object_truthy c : is_object c = true -> truthy c = true.
Proof. by destruct c. Qed.

Lemma field_is_keyed k v c id : keyed k c id -> field_is k v c = Ok (strict_eq (VStr id) v).
Proof. intros (_ & Hg & _). unfold field_is. by rewrite Hg. Qed.

Lemma strict_eq_str s v : strict_eq (VStr s) v = true -> v = VStr s.
Proof. destruct v; try done. cbn [strict_eq]. by intros ->%bool_decide_eq_true. Qed.

(** [some] and [find] by identifier agree on them. *)
Lemma keyed_by_id k (v : jsval) cs : all_keyed k cs ->
  (some_elem (field_is k v) cs = Ok false /\ find_elem (field_is k v) cs = Ok VUndef) \/
  (exists c id, c ∈ cs /\ keyed k c id /\ v = VStr id /\
     some_elem (field_is k v) cs = Ok true /\ find_elem (field_is k v) cs = Ok c).
Proof.
  induction 1 as [|c cs (id & Hc) _ IH]; [by left|]. cbn [some_elem find_elem].
  rewrite (field_is_keyed _ _ _ _ Hc). cbn [mbind result_bind].
  destruct (strict_eq (VStr id) v) eqn:E.
  - right. exists c, id. split_and!; [apply list_elem_of_here|done|by apply strict_eq_str|done..].
  - destruct IH as [IH|(c' & id' & Hin & ?)]; [by left|right]. exists c', id'. split; [by right|done].
Qed.

(** The first record's identifier, as [l[0]?.k || d]. *)
Lemma first_keyed k c cs id d : keyed k c id ->
  e_or (e_oget (Ok (first_elem (c :: cs))) k) d = Ok (VStr id).
Proof.
  intros (Ho & Hg & Hn). unfold e_oget, e_or, oget. cbn [mbind result_bind first_elem].
  unfold get in Hg. destruct (is_nullish c); [done|]. injection Hg as ->. by destruct id.
Qed.

Lemma find_first_keyed k c cs id : keyed k c id -> find_elem (field_is k (VStr id)) (c :: cs) = Ok c.
Proof.
  intros Hc. cbn [find_elem]. rewrite (field_is_keyed _ _ _ _ Hc). cbn [mbind result_bind strict_eq].
  by rewrite bool_decide_true.
Qed.
