(* ===== verification/Session.v ===== *)
(** * [lib/session.ts]: the authentication state machine of the panel

    Module initialisation, token and theme setters, [initAuth] with all its exits,
    the password flows, the start of the application with its background tasks
    and timers, and the health, cluster and cell pollers. *)

From stdpp Require Import base list gmap strings.
From Stdlib Require Import NArith ZArith Lia String SpecFloat.
From S2P Require Import Prelude JsString JsNum JsVal Json Prog State Storage Api Payload Catalog.
Local Open Scope js_scope.

Section session.
Context `{Platform}.

(** ** Module initialisation *)

Definition init_session (b : browser) : session_state :=
  {| phase := PLoading; apiBase := loadSavedApiBase b; token := VStr []; revealedToken := VStr [];
     auth := VNull; health := VStr (js "…"); healthOk := false; clusterLabel := js "—";
     cluster := VNull; cells := VArr []; members := VArr [];
     selectedCellId := VStr (loadSavedCellId b); themeMode := readThemeMode b;
     splitAuth := false; joinToken := VStr []; gateMessage := VStr []; isSeed := false |}.

Definition init_outbound : outbound_state :=
  {| ob_method := VStr (js "POST"); ob_sign := VBool false; ob_headers := VStr [] |}.

(** Loading the modules: [session.token = loadSavedToken(session.apiBase)]. *)
Definition init_panel (b : browser) : panel :=
  let s := init_session b in
  let '(t, b') := loadSavedToken (apiBase s) b in
  {| br := b'; ses := set_token (VStr t) s;
     cat := {| queues := VArr []; groups := VArr []; flows := VArr [] |};
     out := init_outbound;
     tm := {| healthTimer := None; clusterTimer := None; intervals := []; next_timer := 1 |};
     avatars := ∅ |}.

(** ** Setters *)

Definition selectedCell (s : session_state) : E jsval :=
  cs ← elements_of (cells s);
  hit ← find_elem (field_is (js "id") (selectedCellId s)) cs;
  Ok (if truthy hit then hit else let c := first_elem cs in if truthy c then c else VNull).

Definition setToken (t : jsval) : sync panel unit :=
  _ ← smod (on_ses (set_token t));
  p ← sget;
  on_br (saveToken (apiBase (ses p)) t).

Definition setCellId (id : jsval) (p : panel) : panel :=
  set_br (saveCellId id (br p)) (on_ses (set_selectedCellId id) p).

Definition setTheme (m : ThemeMode) (p : panel) : panel :=
  set_br (applyTheme m (br p)) (on_ses (set_themeMode m) p).

(** ** Pollers *)

(** [await r.json()] on a response whose body is read later. *)
Definition json_of (r : http_response) : E jsval := text ← body_text r; json_parse text.

Definition get_plain (url : jstring) : http_request :=
  {| rq_method := js "GET"; rq_url := url; rq_headers := []; rq_body := None |}.

Definition pollHealth : prog panel unit :=
  prog_catch
    (url ← public (js "/healthz");
     r ← fetch (get_plain url);
     _ ← modify (on_ses (set_healthOk (rs_ok r)));
     j ← Wait (AskBody r) (fun _ => Ret (match json_of r with Ok v => v | Exn _ => VObj [] end));
     v ← pure (e_or (get j (js "version")) (e_str (if rs_ok r then js "ok" else js "down")));
     modify (on_ses (set_health v)))
    (fun _ =>
       _ ← modify (on_ses (set_healthOk false));
       modify (on_ses (set_health (VStr (js "down"))))).

(** [c.node_count || (c.nodes || []).length] *)
Definition node_total (c : jsval) : E jsval :=
  (Ok c) @. "node_count" .|| e_length ((Ok c) @. "nodes" .|| Ok (VArr [])).

Definition cluster_label (c : jsval) : E jsval :=
  e_if (Ok c .&& node_total c)
    (n ← node_total c;
     h ← (Ok c) @. "healthy_count" .?? Ok n;
     e_template [Ok h; #"/"; Ok n])
    (#"standalone").

Definition pollCluster : prog panel unit :=
  prog_catch
    (url ← public (js "/v1/cluster");
     c ← apiGet url;
     _ ← modify (on_ses (set_cluster c));
     l ← pure (cluster_label c);
     modify (on_ses (set_clusterLabel (to_string l))))
    (fun _ =>
       _ ← modify (on_ses (set_cluster VNull));
       modify (on_ses (set_clusterLabel (js "—")))).

Definition cell_selected (s : session_state) : E bool :=
  cs ← elements_of (cells s);
  some_elem (field_is (js "id") (selectedCellId s)) cs.

(** [session.cells[0]?.id || "local"] *)
Definition fallback_cell (s : session_state) : E jsval :=
  cs ← elements_of (cells s);
  (Ok (first_elem cs)) @? "id" .|| #"local".

Definition refreshCells : prog panel unit :=
  prog_catch
    (url ← admin (js "/cells");
     reg ← apiGet url;
     cs ← pure (list_field reg (js "cells"));
     _ ← modify (on_ses (set_cells cs));
     ms ← pure (list_field reg (js "members"));
     _ ← modify (on_ses (set_members ms));
     s ← read ses;
     known ← pure (cell_selected s);
     if (known : bool) then Ret tt
     else id ← pure (fallback_cell s);
          modify (on_ses (set_selectedCellId id)))
    (fun _ =>
       _ ← modify (on_ses (set_cells (VArr [])));
       modify (on_ses (set_members (VArr [])))).

(** ** Starting the application *)

(** [clearInterval] and [setInterval]. *)
Definition clear_interval (id : nat) (t : timer_state) : timer_state :=
  set_intervals (filter (fun e => fst e <> id) (intervals t)) t.
Definition set_interval (k : timer_kind) (t : timer_state) : nat * timer_state :=
  (next_timer t,
   set_next_timer (S (next_timer t)) (set_intervals (intervals t ++ [(next_timer t, k)]) t)).

Definition clear_opt (o : option nat) (t : timer_state) : timer_state :=
  match o with Some id => clear_interval id t | None => t end.

Definition restart_timers (t : timer_state) : timer_state :=
  let t := clear_opt (healthTimer t) t in
  let t := clear_opt (clusterTimer t) t in
  let '(h, t) := set_interval THealth t in
  let t := set_healthTimer (Some h) t in
  let '(c, t) := set_interval TCluster t in
  set_clusterTimer (Some c) t.

Definition startApp : prog panel unit :=
  _ ← modify (on_ses (set_phase PApp));
  _ ← spawn refreshCells;
  _ ← spawn refreshQueues;
  _ ← spawn refreshGroups;
  _ ← spawn refreshFlows;
  _ ← spawn pollHealth;
  _ ← spawn pollCluster;
  modify (on_tm restart_timers).

(** ** Authentication *)

Definition split_message : jstring :=
  js "Load balancer is returning different auth state from different brokers. Use one BetterMQ process for local dev.".
Definition unreachable_message (base : jstring) : jstring :=
  js "Cannot reach broker at " ++ base ++ js ". Check that BetterMQ is running.".

Definition auth_config : prog panel jsval :=
  url ← public (js "/v1/auth/config");
  r ← fetch (get_plain url);
  pure (json_of r).

Definition auth_differs (a b : jsval) : E bool :=
  v ← e_or ((Ok a) @. "configured" !== (Ok b) @. "configured") ((Ok a) @. "mode" !== (Ok b) @. "mode");
  Ok (truthy v).

(** The message of a failed token check. *)
Definition token_error (e : jsval) : jsval :=
  match e with
  | VErr _ _ _ => own_get e (js "message")
  | _ => VStr (js "Invalid API token for this broker.")
  end.

Definition check_token : prog panel unit :=
  prog_catch
    (url ← public (js "/v1/queues");
     _ ← apiGet url;
     startApp)
    (fun e =>
       _ ← call (setToken (VStr []));
       _ ← modify (on_ses (set_phase PGate));
       modify (on_ses (set_gateMessage (token_error e)))).

(** After both answers agree. *)
Definition enter (a : jsval) : prog panel unit :=
  _ ← modify (on_ses (set_auth a));
  ext ← read (fun p => isExternalAuth (br p));
  cp ← pure ((Ok a) @. "mode" === #"control_plane");
  if (ext : bool) && truthy cp then startApp
  else
    conf ← pure ((Ok a) @. "configured");
    if negb (truthy conf) then
      _ ← call (setToken (VStr []));
      modify (on_ses (set_phase PSetup))
    else
      t ← read (fun p => token (ses p));
      if negb (truthy t) then modify (on_ses (set_phase PGate))
      else check_token.

Definition enter_split (a : jsval) (s : session_state) : session_state :=
  set_gateMessage (VStr split_message) (set_auth a (set_phase PGate (set_splitAuth true s))).

Definition begin_auth (p : panel) : panel :=
  on_ses (fun s => set_gateMessage (VStr []) (set_splitAuth false (set_phase PLoading s)))
    (set_br (applyTheme (themeMode (ses p)) (br p)) p).

Definition initAuth : prog panel unit :=
  _ ← modify begin_auth;
  prog_catch
    (a ← auth_config;
     b ← auth_config;
     d ← pure (auth_differs a b);
     if (d : bool) then modify (on_ses (enter_split a)) else enter a)
    (fun _ =>
       _ ← modify (on_ses (set_phase PGate));
       modify (fun p => on_ses (set_gateMessage (VStr (unreachable_message (apiBase (ses p))))) p)).

Definition setApiBase (base : jstring) : prog panel unit :=
  _ ← modify (fun p => set_br (saveApiBase base (br p)) p);
  _ ← modify (fun p => on_ses (set_apiBase (loadSavedApiBase (br p))) p);
  _ ← modify (fun p => let '(t, b) := loadSavedToken (apiBase (ses p)) (br p) in
                       on_ses (set_token (VStr t)) (set_br b p));
  spawn initAuth.

(** The body of [setupPassword] and [regenerateToken], which differ in the path. *)
Definition password_flow (path : jstring) (password : jsval) : prog panel unit :=
  url ← public path;
  res ← apiPost url (Some (VObj ["password" ~> password]));
  t ← pure (get res (js "token"));
  _ ← call (setToken t);
  _ ← modify (on_ses (set_revealedToken t));
  modify (on_ses (set_phase PReveal)).

Definition setupPassword : jsval -> prog panel unit := password_flow (js "/v1/local-auth/setup").
Definition regenerateToken : jsval -> prog panel unit := password_flow (js "/v1/local-auth/regenerate").

Definition finishReveal : prog panel unit :=
  _ ← modify (on_ses (set_revealedToken (VStr [])));
  startApp.

Definition submitGateToken (raw : jsval) : sync panel unit :=
  t ← spure (e_trim (Ok raw));
  match t with
  | VStr [] => spure (Exn (new_error (js "Paste your sk_local_… token.")))
  | VStr s =>
      if starts_with (js "sk_local_") s then setToken t
      else spure (Exn (new_error (js "Expected a sk_local_… token from this broker's setup.")))
  | _ => spure (throw_type (js "trim is not a function"))
  end.

(** ** [setupHint(cfg)] *)

Definition setupHint (cfg : jsval) : E jstring :=
  if negb (truthy cfg) then Ok (js "Choose a password to claim this broker.")
  else
    open ← get cfg (js "setup_open");
    if truthy open then
      secs ← get cfg (js "setup_closes_in_secs");
      match secs with
      | VNum n =>
          let mins := num_max (num_of_Z 1) (num_ceil (num_div n (num_of_Z 60))) in
          Ok (js "Open for about " ++ num_to_string mins ++ js " more minute"
              ++ (if num_eqb mins (num_of_Z 1) then [] else js "s")
              ++ js ". Then restart BetterMQ to open setup again.")
      | _ => Ok (js "Anyone who can open this page can claim admin until a password is set.")
      end
    else Ok (js "Setup window closed. Restart BetterMQ, then refresh this page.").

(** [App.vue]: what the page does when it is mounted and when the system theme changes. *)
Definition app_mounted : prog panel unit := spawn initAuth.
Definition system_theme_changed (p : panel) : panel :=
  if decide (themeMode (ses p) = TSystem) then set_br (applyTheme TSystem (br p)) p else p.
End session.

Arguments restart_timers : simpl never.
