(* ===== verification/SessionProps.v ===== *)
(** * Properties of the session: what [initAuth] decides *)

From stdpp Require Import base list gmap strings.
From Stdlib Require Import NArith ZArith Lia String SpecFloat.
From S2P Require Import Prelude JsString JsNum JsVal Json Prog State Storage Api Payload Catalog Session.
Local Open Scope js_scope.

(** Structural proof search for [safe]: peel the program, leave the state updates. *)
Ltac safe_step :=
  lazymatch goal with
  | |- safe _ (prog_catch _ _) => apply safe_catch; [|intro]
  | |- safe _ (prog_finally _ _) => apply safe_finally
  | |- safe _ (prog_bind _ _) => apply safe_bind; [|intro]
  | |- safe _ (_ ≫= _) => apply safe_bind; [|intro]
  | |- safe _ (pure _) => apply safe_pure
  | |- safe _ (read _) => apply safe_read
  | |- safe _ (public _) => apply safe_read
  | |- safe _ (admin _) => apply safe_read
  | |- safe _ (modify _) => apply safe_modify; intros ? ?
  | |- safe _ (spawn _) => apply safe_spawn
  | |- safe _ (promise_all _ _) => apply safe_promise_all
  | |- safe _ (call _) => apply safe_call; intros ? ?
  | |- safe _ (Ret _) => exact Logic.I
  | |- safe _ (Throw _) => exact Logic.I
  | |- safe _ (Wait _ _) => intros ?
  | |- safe _ (if ?b then _ else _) => destruct b
  | |- safe _ (match ?r with Ok _ => _ | Exn _ => _ end) => destruct r
  end.

(** The part of the page the background tasks never touch. *)
Definition core (p : panel) :=
  (phase (ses p), token (ses p), revealedToken (ses p), auth (ses p), apiBase (ses p),
   themeMode (ses p), splitAuth (ses p), gateMessage (ses p), (tm p, out p)).

Definition core_is c (p : panel) : Prop := core p = c.

(** Equations between page cores, componentwise. *)
Ltac core_eq :=
  repeat match goal with H : context [core] |- _ => revert H end;
  unfold core; simpl; intros;
  repeat match goal with H : (_, _) = (_, _) |- _ => injection H; clear H; intros end;
  congruence.

Section frame.
Context `{Platform}.

Lemma safe_core_request c m u body : safe (core_is c) (request m u body).
Proof. apply safe_request; unfold core_is; intros p; [|intros b]; by intros <-. Qed.

Ltac core_tac :=
  repeat first [apply safe_core_request | apply safe_fetch; intros ? ? | safe_step];
  unfold core_is in *; subst; try reflexivity.

Lemma core_refreshQueues c : safe (core_is c) refreshQueues.
Proof. unfold refreshQueues, apiGet. core_tac. Qed.
Lemma core_refreshGroups c : safe (core_is c) refreshGroups.
Proof. unfold refreshGroups, apiGet. core_tac. Qed.
Lemma core_refreshFlows c : safe (core_is c) refreshFlows.
Proof. unfold refreshFlows, apiGet. core_tac. Qed.
Lemma core_refreshCells c : safe (core_is c) refreshCells.
Proof. unfold refreshCells, apiGet. core_tac. Qed.
Lemma core_pollHealth c : safe (core_is c) pollHealth.
Proof. unfold pollHealth. core_tac. Qed.
Lemma core_pollCluster c : safe (core_is c) pollCluster.
Proof. unfold pollCluster, apiGet. core_tac. Qed.

(** A background call returns at once and leaves the core alone. *)
Lemma exec_spawn_core q xs p :
  (forall c, safe (core_is c) q) ->
  exists p' ps, exec (spawn q) xs p = Some (Ok tt, p', xs, ps) /\ core p' = core p.
Proof.
  intros Hq. unfold spawn. simpl. destruct (advance q p) as [[p' ps] q'] eqn:E.
  exists p', (ps ++ park q'). rewrite app_nil_r. split; [done|].
  by destruct (advance_ends (core_is (core p)) any_reply _ anyway _ _ _ _ eq_refl (safe_ends _ _ _ (Hq _)) E).
Qed.

Lemma exec_then_spawn {B : Type} q xs p (k : unit -> prog panel B) :
  (forall c, safe (core_is c) q) ->
  exists p' ps, core p' = core p /\
    exec (spawn q ≫= k) xs p = add_parked ps (exec (k tt) xs p').
Proof.
  intros Hq. destruct (exec_spawn_core q xs p Hq) as (p' & ps & He & Hc).
  exists p', ps. split; [done|]. by rewrite exec_mbind, He.
Qed.

Ltac peel_spawn p' ps' Hc lem :=
  match goal with
  | |- context [exec (spawn ?q ≫= ?k) ?xs ?p] =>
      destruct (exec_then_spawn q xs p k lem) as (p' & ps' & Hc & ->)
  end.

(** The core after [startApp]: in the application, timers restarted. *)
Lemma exec_startApp xs p :
  exists p' ps, exec startApp xs p = Some (Ok tt, p', xs, ps) /\
    core p' = core (on_tm restart_timers (on_ses (set_phase PApp) p)).
Proof.
  unfold startApp. rewrite exec_modify_bind.
  peel_spawn p1 ps1 H1 core_refreshCells.
  peel_spawn p2 ps2 H2 core_refreshQueues.
  peel_spawn p3 ps3 H3 core_refreshGroups.
  peel_spawn p4 ps4 H4 core_refreshFlows.
  peel_spawn p5 ps5 H5 core_pollHealth.
  peel_spawn p6 ps6 H6 core_pollCluster.
  rewrite !add_parked_app. cbn [modify exec add_parked]. eexists _, _; split; [done|].
  assert (Hall : core p6 = core (on_ses (set_phase PApp) p)) by congruence.
  core_eq.
Qed.
End frame.

(** ** [initAuth] refines its decision table *)

Section initAuth.
Context `{Platform}.

(** One answer of [/v1/auth/config], as the code reads it. *)
Definition config_of (x : reply) : E jsval :=
  match x with Responded r => json_of r | Rejected e => Exn e | Answered _ => Exn network_error end.

(** What the page decides from the two answers, its globals and its token. *)
Inductive decision :=
| DUnreachable
| DSplit (a : jsval)
| DApp (a : jsval)
| DSetup (a : jsval)
| DGate (a : jsval)
| DCheck (a : jsval).

Definition decide_auth (ext : bool) (tok : jsval) (a b : E jsval) : decision :=
  match a, b with
  | Ok a, Ok b =>
      match auth_differs a b with
      | Ok true => DSplit a
      | Ok false =>
          if ext && strict_eq (own_get a (js "mode")) (VStr (js "control_plane")) then DApp a
          else if truthy (own_get a (js "configured")) then
            if truthy tok then DCheck a else DGate a
          else DSetup a
      | Exn _ => DUnreachable
      end
  | _, _ => DUnreachable
  end.

Lemma exec_auth_config x xs p :
  exec auth_config (x :: xs) p =
  Some (config_of x, log_request (get_plain (publicUrl (js "/v1/auth/config") (br p))) p, xs, []).
Proof.
  unfold auth_config. rewrite exec_mbind. cbn [public read exec exec_then]. rewrite add_parked_nil, exec_mbind.
  destruct x as [r|e|b]; simpl; [|done..]. by destruct (json_of r).
Qed.


Lemma header_ok_log rq p : header_ok (br (log_request rq p)) = header_ok (br p).
Proof.
  unfold header_ok, authHeaders, log_request. simpl.
  change (api_base (set_sent (rq :: sent (br p)) (br p))) with (api_base (br p)).
  assert (Heq : fst (loadSavedToken (api_base (br p)) (set_sent (rq :: sent (br p)) (br p)))
                = fst (loadSavedToken (api_base (br p)) (br p))).
  { unfold loadSavedToken. change (store_get ?k (set_sent ?l ?b)) with (store_get k b).
    change (local_get ?k (set_sent ?l ?b)) with (local_get k b).
    destruct (truthy_str (store_get _ _)); [done|]. by destruct (truthy_str _). }
  destruct (loadSavedToken _ (set_sent _ _)) as [t b1], (loadSavedToken _ (br p)) as [t' b2].
  simpl in Heq. subst. by destruct (normalize_str t').
Qed.

Lemma api_base_theme m b : api_base (applyTheme m b) = api_base b.
Proof.
  unfold api_base, loadSavedApiBase. rewrite applyTheme_local by done. done.
Qed.

Lemma header_ok_theme m b : header_ok (applyTheme m b) = header_ok b.
Proof.
  unfold header_ok, authHeaders. rewrite api_base_theme.
  pose proof (loadSavedToken_theme (api_base b) m b) as Heq.
  destruct (loadSavedToken _ (applyTheme m b)) as [t b1], (loadSavedToken _ b) as [t' b2].
  simpl in Heq. subst. by destruct (normalize_str t').
Qed.

Lemma header_ok_begin p : header_ok (br (begin_auth p)) = header_ok (br p).
Proof. apply header_ok_theme. Qed.

(** The outcome of the token check: the reply to [GET /v1/queues], or the
    refusal of the header. *)
Definition check_result (p : panel) (x : reply) : E jsval :=
  if header_ok (br p) then reply_result x else Exn header_error.

(** The stored token of the page's API base is gone. *)
Definition token_cleared (p : panel) : Prop :=
  token (ses p) = VStr [] /\ store_get (tokenStorageKey (apiBase (ses p))) (br p) = None.

Definition auth_post (p : panel) (x3 : reply) (d : decision) (p' : panel) : Prop :=
  let s := ses p' in
  match d with
  | DUnreachable =>
      phase s = PGate /\ gateMessage s = VStr (unreachable_message (apiBase (ses p))) /\
      splitAuth s = false /\ token s = token (ses p) /\ tm p' = tm p
  | DSplit a =>
      phase s = PGate /\ gateMessage s = VStr split_message /\ auth s = a /\
      splitAuth s = true /\ token s = token (ses p) /\ tm p' = tm p
  | DApp a =>
      phase s = PApp /\ auth s = a /\ splitAuth s = false /\ token s = token (ses p) /\
      tm p' = restart_timers (tm p)
  | DSetup a => phase s = PSetup /\ auth s = a /\ splitAuth s = false /\ token_cleared p' /\ tm p' = tm p
  | DGate a =>
      phase s = PGate /\ auth s = a /\ gateMessage s = VStr [] /\ splitAuth s = false /\
      token s = token (ses p) /\ tm p' = tm p
  | DCheck a =>
      auth s = a /\ splitAuth s = false /\
      match check_result p x3 with
      | Ok _ => phase s = PApp /\ token s = token (ses p) /\ tm p' = restart_timers (tm p)
      | Exn e => phase s = PGate /\ token_cleared p' /\ gateMessage s = token_error e /\ tm p' = tm p
      end
  end.

Lemma setToken_empty p :
  exists p', setToken (VStr []) p = (Ok tt, p') /\ token_cleared p' /\
    core p' = core (on_ses (set_token (VStr [])) p) /\ sent (br p') = sent (br p).
Proof.
  eexists; split; [done|]. split_and!; [split; [done|]|done|].
  - apply (store_get_remove _ (br p)).
  - simpl. unfold store_remove. by destruct (session_storage (br p)).
Qed.

Lemma token_cleared_ses p f :
  (forall s, token (f s) = token s) -> (forall s, apiBase (f s) = apiBase s) ->
  token_cleared p -> token_cleared (on_ses f p).
Proof. intros Ht Ha [H1 H2]. split; simpl; [by rewrite Ht | by rewrite Ha]. Qed.

(** Back to the gate without the token. *)
Lemma exec_reject e xs q :
  exists p', exec (_ ← call (setToken (VStr []));
       _ ← modify (on_ses (set_phase PGate)); modify (on_ses (set_gateMessage (token_error e)))) xs q
       = Some (Ok tt, p', xs, []) /\ token_cleared p' /\
       core p' = core (on_ses (fun s => set_gateMessage (token_error e)
                        (set_phase PGate (set_token (VStr []) s))) q).
Proof.
  destruct (setToken_empty q) as (q' & Hq & Hcl & Hco & _).
  rewrite exec_call_bind, Hq, exec_modify_bind. eexists; split; [done|]. split.
  - by repeat apply token_cleared_ses.
  - core_eq.
Qed.

(** The core after the token check, by its outcome. *)
Definition checked_core (r : E jsval) (p : panel) :=
  match r with
  | Ok _ => core (on_tm restart_timers (on_ses (set_phase PApp) p))
  | Exn e => core (on_ses (fun s => set_gateMessage (token_error e)
                    (set_phase PGate (set_token (VStr []) s))) p)
  end.

Lemma exec_check_token x p :
  exists p' rest ps, exec check_token [x] p = Some (Ok tt, p', rest, ps) /\
    core p' = checked_core (check_result p x) p /\
    (forall e, check_result p x = Exn e -> token_cleared p').
Proof.
  unfold check_token. rewrite exec_catch. unfold public. rewrite exec_read_bind, exec_mbind.
  unfold apiGet, check_result. destruct (header_ok (br p)) eqn:Eh.
  - rewrite exec_request_ok by done. cbn [exec_then]. rewrite add_parked_nil.
    set (q := after_request _ _ _ p). assert (Hq : core q = core p) by done.
    destruct (reply_result x) as [v|e].
    + destruct (exec_startApp [] q) as (p' & ps & -> & Hc). cbn [exec_then add_parked].
      eexists _, _, _. split; [done|]. split; [done | by intros].
    + cbn [exec_then]. rewrite add_parked_nil. destruct (exec_reject e [] q) as (p' & -> & Hcl & Hc).
      eexists _, _, _. split; [done|]. split; [done | by intros].
  - rewrite exec_request_bad by done. cbn [exec_then add_parked app].
    set (q := set_br _ p). rewrite add_parked_nil.
    destruct (exec_reject header_error [x] q) as (p' & -> & Hcl & Hc).
    eexists _, _, _. split; [done|]. split; [done | by intros].
Qed.

(** [enter], once the two answers agree: the rest of the decision table. *)
Lemma exec_enter a x p :
  is_nullish a = false -> gateMessage (ses p) = VStr [] -> splitAuth (ses p) = false ->
  exists p' rest ps, exec (enter a) [x] p = Some (Ok tt, p', rest, ps) /\
    auth_post p x
      (if isExternalAuth (br p) && strict_eq (own_get a (js "mode")) (VStr (js "control_plane")) then DApp a
       else if truthy (own_get a (js "configured")) then
         if truthy (token (ses p)) then DCheck a else DGate a
       else DSetup a) p'.
Proof.
  intros Ha Hg Hs. unfold enter. rewrite exec_modify_bind, exec_read_bind.
  unfold e_seq, e_get, get, e_str. cbn [mbind result_bind]. rewrite Ha, exec_pure_bind.
  cbn [mbind result_bind]. change (isExternalAuth (br (on_ses (set_auth a) p))) with (isExternalAuth (br p)).
  cbn [truthy]. set (q := on_ses (set_auth a) p).
  assert (Hq : core q = core (on_ses (set_auth a) p)) by done.
  destruct (isExternalAuth (br p) && _); [|rewrite exec_pure_bind; destruct (truthy (own_get a _)); cbn [negb]].
  - destruct (exec_startApp [x] q) as (p' & ps & -> & Hc). eexists _, _, _; split; [done|].
    unfold q in *. simpl. split_and!; core_eq.
  - rewrite exec_read_bind. change (token (ses q)) with (token (ses p)).
    destruct (truthy (token (ses p))); cbn [negb].
    + destruct (exec_check_token x q) as (p' & rest & ps & -> & Hc & Hcl). eexists _, _, _; split; [done|].
      change (check_result q x) with (check_result p x) in *.
      simpl. destruct (check_result p x) as [v|e]; cbn [checked_core] in Hc; unfold q in *.
      * split_and!; core_eq.
      * split_and!; first [by eapply Hcl | core_eq].
    + eexists _, _, _; split; [done|]. simpl. by rewrite Hg, Hs.
  - rewrite exec_call_bind. destruct (setToken_empty q) as (q' & -> & Hcl & Hc & _).
    eexists _, _, _; split; [done|]. unfold q in *. simpl.
    split_and!; first [by apply token_cleared_ses | core_eq].
Qed.

Lemma differs_not_nullish a b v : auth_differs a b = Ok v -> is_nullish a = false.
Proof. unfold auth_differs, e_sne, e_not, e_seq, e_get, get, e_or. by destruct a. Qed.

(** The core and browser facts [initAuth] starts its decision from. *)
Definition auth_ready (p q : panel) : Prop :=
  core q = core (begin_auth p) /\ isExternalAuth (br q) = isExternalAuth (br p) /\
  header_ok (br q) = header_ok (br p).

Lemma auth_ready_log p q rq : auth_ready p q -> auth_ready p (log_request rq q).
Proof. intros (H1 & H2 & H3). split_and!; [done..|]. by rewrite header_ok_log. Qed.

Definition on_unreachable : prog panel unit :=
  _ ← modify (on_ses (set_phase PGate));
  modify (fun p => on_ses (set_gateMessage (VStr (unreachable_message (apiBase (ses p))))) p).

Lemma exec_unreachable p q x3 xs : auth_ready p q ->
  exists p', exec on_unreachable xs q = Some (Ok tt, p', xs, []) /\ auth_post p x3 DUnreachable p'.
Proof.
  intros (Hc & _ & _). eexists; split; [done|]. simpl.
  unfold core in Hc. simpl in Hc. injection Hc. intros. split_and!; congruence.
Qed.

Lemma auth_post_ready p q x d p' : auth_ready p q -> d <> DUnreachable ->
  auth_post q x d p' -> auth_post p x d p'.
Proof.
  intros (Hc & _ & Hh) Hd. unfold auth_post, check_result. rewrite Hh.
  unfold core in Hc. simpl in Hc. injection Hc. intros _ Htm _ _ _ Hap _ _ Htk _.
  rewrite Htm, Hap, Htk. by destruct d.
Qed.

(** C4: Starting the panel.  [initAuth] always ends normally, for any three replies,
    in the state of the decision table: the gate with the reason when the broker
    cannot be reached, the gate with the split warning when two consecutive answers
    differ, the application when authentication is external or the stored token is
    accepted, the setup screen when no password is set, and the gate with the
    stored token cleared when the broker rejects it. *)
Theorem initAuth_spec p x1 x2 x3 :
  exists p' rest ps, exec initAuth [x1; x2; x3] p = Some (Ok tt, p', rest, ps) /\
    auth_post p x3 (decide_auth (isExternalAuth (br p)) (token (ses p)) (config_of x1) (config_of x2)) p'.
Proof.
  unfold initAuth. fold on_unreachable.
  rewrite exec_modify_bind, exec_catch, exec_mbind, exec_auth_config.
  assert (H0 : auth_ready p (begin_auth p)) by (split_and!; [done..|apply header_ok_begin]).
  cbn [exec_then]. rewrite add_parked_nil. set (q1 := log_request _ (begin_auth p)).
  assert (H1 : auth_ready p q1) by (by apply auth_ready_log).
  destruct (config_of x1) as [a|e1]; cycle 1.
  { cbn [exec_then]. rewrite add_parked_nil. destruct (exec_unreachable p q1 x3 [x2; x3] H1) as (p' & -> & Hp).
    eauto 10. }
  rewrite exec_mbind, exec_auth_config. cbn [exec_then]. rewrite add_parked_nil.
  set (q2 := log_request _ q1).
  assert (H2 : auth_ready p q2) by (by apply auth_ready_log). clearbody q2. clear H1 H0 q1.
  destruct (config_of x2) as [b|e2]; cycle 1.
  { cbn [exec_then]. rewrite add_parked_nil. destruct (exec_unreachable p q2 x3 [x3] H2) as (p' & -> & Hp).
    eauto 10. }
  rewrite exec_pure_bind. cbn [decide_auth]. destruct (auth_differs a b) as [[]|e] eqn:Ed; cycle 2.
  { cbn [exec_then]. rewrite add_parked_nil. destruct (exec_unreachable p q2 x3 [x3] H2) as (p' & -> & Hp).
    eauto 10. }
  - cbn [modify exec exec_then add_parked app]. eexists _, _, _. split; [done|].
    destruct H2 as (Hc & _ & _). unfold core in Hc. simpl in Hc. injection Hc. intros.
    simpl. split_and!; congruence.
  - assert (Hcore := H2). destruct Hcore as (Hc & Hext & _). unfold core in Hc. simpl in Hc.
    injection Hc. intros _ _ Hg Hs _ _ _ _ Ht _.
    destruct (exec_enter a x3 q2 (differs_not_nullish _ _ _ Ed) Hg Hs) as (p' & rest & ps & -> & Hp).
    rewrite Hext, Ht in Hp. cbn [exec_then add_parked]. eexists _, _, _. split; [done|].
    eapply auth_post_ready; [done| |done]. repeat case_goal; done.
Qed.
End initAuth.
