(* ===== verification/View.v ===== *)
(** * Components: local state, handlers and rendered trees

    A view is a component with its own reactive state [V] on a shared page.  Its
    handlers are programs over [panel * V] ([lib] calls a library function, [upd]
    and [local] touch the component's own refs), and its template is a function
    that renders the current state to a tree of [vnode]s or throws, as the
    compiled render function does.  Event listeners and [v-model] bindings in the
    tree are the handlers themselves, so "the user clicks this button" is the
    start of the program found at that node.

    Components of [components/ui] appear as nodes under their own name; slot
    contents are rendered with their parent. *)

From stdpp Require Import base list gmap strings.
From Stdlib Require Import NArith ZArith Lia String SpecFloat.
From S2P Require Import Prelude JsString JsNum JsVal Json Prog State Payload.
Local Open Scope js_scope.

Notation vprog V := (prog (panel * V)).

Section handlers.
Context {V : Type}.

Definition lib {A : Type} (p : prog panel A) : vprog V A := zoom fst (fun s t => (s, snd t)) p.
Definition upd (f : V -> V) : vprog V unit := modify (fun t => (fst t, f (snd t))).
Definition upd_page (f : panel -> panel) : vprog V unit := modify (fun t => (f (fst t), snd t)).
Definition local {A : Type} (g : V -> A) : vprog V A := read (fun t => g (snd t)).
Definition page {A : Type} (g : panel -> A) : vprog V A := read (fun t => g (fst t)).

(** Evaluate an expression in the current state; it may throw. *)
Definition eval {A : Type} (e : V -> E A) : vprog V A :=
  r ← read (fun t => e (snd t)); pure r.
Definition eval_page {A : Type} (e : panel -> V -> E A) : vprog V A :=
  r ← read (fun t => e (fst t) (snd t)); pure r.

(** [for (const x of l) ...] *)
Fixpoint for_each (l : list jsval) (f : jsval -> vprog V unit) : vprog V unit :=
  match l with
  | [] => Ret tt
  | x :: l' => _ ← f x; for_each l' f
  end.
End handlers.

(** ** Running a handler *)

Section exec.
Context {V : Type}.
Implicit Types (s : panel) (v : V).

Lemma exec_lib {A : Type} (p : prog panel A) xs s v :
  exec (lib p) xs (s, v) =
  match exec p xs s with
  | Some (o, s', rest, ps) => Some (o, (s', v), rest, lib <$> ps)
  | None => None
  end.
Proof. unfold lib. by rewrite exec_zoom by (by intros; try destruct t). Qed.

Lemma exec_lib_bind {A B : Type} (p : prog panel A) (k : A -> vprog V B) xs s v o s' rest ps :
  exec p xs s = Some (o, s', rest, ps) ->
  exec (lib p ≫= k) xs (s, v) =
  add_parked (lib <$> ps) (match o with
    | Ok a => exec (k a) rest (s', v)
    | Exn e => Some (Exn e, (s', v), rest, []) end).
Proof. intros He. by rewrite exec_mbind, exec_lib, He. Qed.

Lemma exec_upd {B : Type} f (k : unit -> vprog V B) xs s v :
  exec (upd f ≫= k) xs (s, v) = exec (k tt) xs (s, f v).
Proof. done. Qed.

Lemma exec_upd_last f xs s v : exec (upd f) xs (s, v) = Some (Ok tt, (s, f v), xs, []).
Proof. done. Qed.

Lemma exec_upd_page {B : Type} f (k : unit -> vprog V B) xs s v :
  exec (upd_page f ≫= k) xs (s, v) = exec (k tt) xs (f s, v).
Proof. done. Qed.

Lemma exec_local {A B : Type} (g : V -> A) (k : A -> vprog V B) xs s v :
  exec (local g ≫= k) xs (s, v) = exec (k (g v)) xs (s, v).
Proof. done. Qed.

Lemma exec_page {A B : Type} (g : panel -> A) (k : A -> vprog V B) xs s v :
  exec (page g ≫= k) xs (s, v) = exec (k (g s)) xs (s, v).
Proof. done. Qed.

Lemma exec_eval {A B : Type} (e : V -> E A) (k : A -> vprog V B) xs s v :
  exec (eval e ≫= k) xs (s, v) =
  match e v with Ok a => exec (k a) xs (s, v) | Exn x => Some (Exn x, (s, v), xs, []) end.
Proof. unfold eval. rewrite exec_mbind, exec_read_bind. simpl. destruct (e v); simpl; [by rewrite add_parked_nil|done]. Qed.

Lemma exec_eval_page {A B : Type} (e : panel -> V -> E A) (k : A -> vprog V B) xs s v :
  exec (eval_page e ≫= k) xs (s, v) =
  match e s v with Ok a => exec (k a) xs (s, v) | Exn x => Some (Exn x, (s, v), xs, []) end.
Proof. unfold eval_page. rewrite exec_mbind, exec_read_bind. simpl. destruct (e s v); simpl; [by rewrite add_parked_nil|done]. Qed.

Lemma exec_pure {A B : Type} (r : E A) (k : A -> vprog V B) xs s v :
  exec (pure r ≫= k) xs (s, v) =
  match r with Ok a => exec (k a) xs (s, v) | Exn x => Some (Exn x, (s, v), xs, []) end.
Proof. apply exec_pure_bind. Qed.
End exec.

(** One step of a handler on a concrete pair of page and component state. *)
Ltac vstep :=
  first [ rewrite exec_upd | rewrite exec_upd_page | rewrite exec_local | rewrite exec_page
        | rewrite exec_eval | rewrite exec_eval_page | rewrite exec_pure
        | rewrite exec_finally | rewrite exec_catch | rewrite exec_upd_last
        | rewrite add_parked_nil ]; cbn [exec_then].

(** ** Rendered trees *)

Inductive vnode (S : Type) : Type :=
| Text (s : jstring)
| Elem (tag : jstring) (attrs : list (jstring * attr S)) (kids : list (vnode S))
with attr (S : Type) : Type :=
| AVal (v : jsval)
| AOn (h : jsval -> prog S unit)
| AModel (v : jsval) (set : jsval -> prog S unit).
Arguments Text {S} s.
Arguments Elem {S} tag attrs kids.
Arguments AVal {S} v.
Arguments AOn {S} h.
Arguments AModel {S} v set.

(** [toDisplayString(v)]: what [{{ v }}] shows. *)
Definition toDisplayString (v : jsval) : jstring :=
  match v with
  | VUndef | VNull => []
  | VArr _ | VObj _ => default [] (stringify2 0 v)
  | _ => to_string v
  end.

(** What [v-for] iterates over. *)
Definition v_for_items (v : jsval) : list jsval :=
  match v with
  | VArr l => l
  | VStr s => (fun c => VStr [c]) <$> s
  | VNum x => match num_to_Z x with
              | Some n => (fun i => VNum (num_of_Z (Z.of_nat i))) <$> seq 1 (Z.to_nat n)
              | None => []
              end
  | VObj o | VErr _ _ o => snd <$> own_entries o
  | _ => []
  end.

Section render.
Context {S : Type}.

Notation nodes := (E (list (vnode S))).
Notation attribute := (E (jstring * attr S)).

Definition txt (s : string) : nodes := Ok [Text (js s)].
Definition interp (e : E jsval) : nodes := v ← e; Ok [Text (toDisplayString v)].
Definition none : nodes := Ok [].

(** A static attribute, a bound one, a listener and a [v-model]. *)
Definition at_ (k v : string) : attribute := Ok (js k, AVal (VStr (js v))).
Definition bind_ (k : string) (e : E jsval) : attribute := v ← e; Ok (js k, AVal v).
Definition on_ (k : string) (h : jsval -> prog S unit) : attribute := Ok (js k, AOn h).
Definition model_ (k : string) (e : E jsval) (set : jsval -> prog S unit) : attribute :=
  v ← e; Ok (js k, AModel v set).

(** [class="..."] together with [:class="..."]: [normalizeClass]. *)
Definition e_class (l : list (E jsval)) : E jsval :=
  vs ← result_seq l;
  Ok (VStr (join (js " ") (filter (fun s => s <> []) (to_string <$> vs)))).

(** Several nodes in a row. *)
Definition frag (l : list nodes) : nodes := ls ← result_seq l; Ok (List.concat ls).

Definition el (tag : string) (attrs : list attribute) (kids : list nodes) : nodes :=
  a ← result_seq attrs;
  k ← frag kids;
  Ok [Elem (js tag) a k].

Definition v_if (c : E jsval) (a b : nodes) : nodes := e_if c a b.
Definition v_for (e : E jsval) (f : jsval -> nodes) : nodes :=
  v ← e; frag (map f (v_for_items v)).
End render.

(** ** The user's side *)

Section events.
Context {S : Type}.

Fixpoint find_attr (k : jstring) (l : list (jstring * attr S)) : option (attr S) :=
  match l with
  | [] => None
  | (k', a) :: l' => if decide (k = k') then Some a else find_attr k l'
  end.

(** All elements of a tree, in document order. *)
Fixpoint elements (n : vnode S) : list (jstring * list (jstring * attr S) * list (vnode S)) :=
  match n with
  | Text _ => []
  | Elem tag attrs kids => (tag, attrs, kids) :: List.concat (map elements kids)
  end.

(** The text a user reads under a node. *)
Fixpoint text_of (n : vnode S) : jstring :=
  match n with
  | Text s => s
  | Elem _ _ kids => List.concat (map text_of kids)
  end.

(** The listeners for event [k] of the elements labelled [label] in a tree. *)
Definition listeners (k : string) (tag label : string) (l : list (vnode S)) : list (jsval -> prog S unit) :=
  omap (fun '(t, attrs, kids) =>
    if decide (t = js tag) then
      if decide (trim (List.concat (map text_of kids)) = js label) then
        match find_attr (js k) attrs with Some (AOn h) => Some h | _ => None end
      else None
    else None) (List.concat (map elements l)).

(** What typing [text] into a field with these attributes stores: number inputs
    go through [looseToNumber]. *)
Definition typed (attrs : list (jstring * attr S)) (text : jstring) : jsval :=
  match find_attr (js "type") attrs with
  | Some (AVal (VStr t)) => if decide (t = js "number") then input_number text else input_text text
  | _ => input_text text
  end.

(** The program an [input] event on a field starts. *)
Definition type_into (attrs : list (jstring * attr S)) (text : jstring) : option (prog S unit) :=
  match find_attr (js "v-model") attrs with
  | Some (AModel _ set) => Some (set (typed attrs text))
  | _ => None
  end.
End events.
