(* ===== verification/Form.v ===== *)
(** * The form components of [components/form] and [lib/utils.ts]

    Stateless components: functions from their props and slot to nodes. *)

From stdpp Require Import base list gmap strings.
From Stdlib Require Import NArith ZArith Lia String SpecFloat.
From S2P Require Import Prelude JsString JsNum JsVal Json Prog State Payload View.
Local Open Scope js_scope.

(** [cn(...inputs)] *)
Definition cn `{Platform} (inputs : list jsval) : jstring := twMerge (clsx inputs).

Section form.
Context `{Platform} {S : Type}.

Notation nodes := (E (list (vnode S))).

Definition e_cn (static : string) (cls : jsval) : E jsval := Ok (VStr (cn [VStr (js static); cls])).

(** [ActionMessage.vue]: the error if there is one, else the success message. *)
Definition ActionMessage (error ok cls : E jsval) : nodes :=
  error ← error; ok ← ok; cls ← cls;
  v_if (Ok error)
    (el "p" [bind_ "class" (e_cn "text-xs leading-snug text-destructive" cls)] [interp (Ok error)])
    (v_if (Ok ok)
      (el "p" [bind_ "class" (e_cn "text-xs leading-snug text-primary" cls)] [interp (Ok ok)])
      none).

(** [Field.vue] *)
Definition Field (label hint error cls : E jsval) (slot : nodes) : nodes :=
  label ← label; hint ← hint; error ← error; cls ← cls;
  el "div" [bind_ "class" (e_cn "grid gap-1" cls)] [
    el "label" [at_ "class" "text-sm font-medium text-muted-foreground"] [interp (Ok label)];
    slot;
    v_if (Ok error)
      (el "p" [at_ "class" "text-xs text-destructive"] [interp (Ok error)])
      (v_if (Ok hint)
        (el "p" [at_ "class" "text-xs text-muted-foreground"] [interp (Ok hint)])
        none)].

(** [AppSelect.vue]; [after] is the parent's own [update:model-value] listener,
    called after the one [v-model] installs. *)
Definition AppSelect (model : E jsval) (set : jsval -> prog S unit) (options placeholder : E jsval)
    (after : option (jsval -> prog S unit)) : nodes :=
  model ← model; options ← options; placeholder ← placeholder;
  let model := match model with VUndef => VStr [] | m => m end in
  el "Select" [model_ "v-model" (Ok model) (fun ev =>
      _ ← set ev; match after with Some h => h ev | None => Ret tt end)] [
    el "SelectTrigger" [at_ "class" "w-full"] [
      el "SelectValue" [bind_ "placeholder" (Ok placeholder)] []];
    el "SelectContent" [] [
      v_for (Ok options) (fun opt =>
        el "SelectItem" [bind_ "key" ((Ok opt) @. "value"); bind_ "value" ((Ok opt) @. "value")]
          [interp ((Ok opt) @. "label")])]].

(** ** [RetryFields.vue] *)

Definition set_maxRetries (v : jsval) (r : RetryState) : RetryState :=
  {| maxRetries := v; kind := kind r; initialMs := initialMs r; maxMs := maxMs r; multiplier := multiplier r |}.
Definition set_kind (v : jsval) (r : RetryState) : RetryState :=
  {| maxRetries := maxRetries r; kind := v; initialMs := initialMs r; maxMs := maxMs r; multiplier := multiplier r |}.
Definition set_initialMs (v : jsval) (r : RetryState) : RetryState :=
  {| maxRetries := maxRetries r; kind := kind r; initialMs := v; maxMs := maxMs r; multiplier := multiplier r |}.
Definition set_maxMs (v : jsval) (r : RetryState) : RetryState :=
  {| maxRetries := maxRetries r; kind := kind r; initialMs := initialMs r; maxMs := v; multiplier := multiplier r |}.
Definition set_multiplier (v : jsval) (r : RetryState) : RetryState :=
  {| maxRetries := maxRetries r; kind := kind r; initialMs := initialMs r; maxMs := maxMs r; multiplier := v |}.

Definition option_item (value label : string) : jsval :=
  VObj ["value" ~> VStr (js value); "label" ~> VStr (js label)].

Definition kinds : jsval :=
  VArr [option_item "exponential" "Exponential"; option_item "fixed" "Fixed interval"].

(** [modify f] is the write to the parent's [retry] object. *)
Definition RetryFields (retry : RetryState) (modify : (RetryState -> RetryState) -> prog S unit) : nodes :=
  el "div" [at_ "class" "grid gap-3 sm:grid-cols-2"] [
    Field #"Max retries" #"0 = no retries" (Ok VUndef) (Ok VUndef) (frag [
      el "Input" [model_ "v-model" (Ok (maxRetries retry)) (fun ev => modify (set_maxRetries ev));
                  at_ "type" "number"; at_ "min" "0"] []]);
    v_if ((Ok (maxRetries retry)) .> e_num 0)
      (frag [
        Field #"Backoff" (Ok VUndef) (Ok VUndef) (Ok VUndef) (frag [
          AppSelect (Ok (kind retry)) (fun ev => modify (set_kind ev)) (Ok kinds) (Ok VUndef) None]);
        Field #"Delay (ms)" (Ok VUndef) (Ok VUndef) (Ok VUndef) (frag [
          el "Input" [model_ "v-model" (Ok (initialMs retry)) (fun ev => modify (set_initialMs ev));
                      at_ "type" "number"; at_ "min" "1"] []]);
        v_if ((Ok (kind retry)) === #"exponential")
          (frag [
            Field #"Max delay (ms)" (Ok VUndef) (Ok VUndef) (Ok VUndef) (frag [
              el "Input" [model_ "v-model" (Ok (maxMs retry)) (fun ev => modify (set_maxMs ev));
                          at_ "type" "number"; at_ "min" "1"] []]);
            Field #"Multiplier" (Ok VUndef) (Ok VUndef) (Ok VUndef) (frag [
              el "Input" [model_ "v-model" (Ok (multiplier retry)) (fun ev => modify (set_multiplier ev));
                          at_ "type" "number"; at_ "min" "1"; at_ "step" "0.1"] []])])
          none])
      none].

(** [AuthLayout.vue] of [components/layout]. *)
Definition AuthLayout (slot : nodes) : nodes :=
  el "div" [at_ "class" "flex min-h-svh items-center justify-center bg-background p-6"] [
    el "div" [at_ "class" "w-full max-w-sm space-y-5"] [
      el "div" [at_ "class" "flex items-center gap-2"] [
        el "span" [at_ "class" "flex size-8 items-center justify-center rounded-2xl bg-primary/10 ring-1 ring-primary/20"] [
          el "img" [bind_ "src" (e_str iconBrand); at_ "alt" ""; at_ "class" "size-4"] []];
        el "div" [] [
          el "p" [at_ "class" "text-sm font-semibold tracking-tight"] [txt "betterMQ"];
          el "p" [at_ "class" "text-xs text-muted-foreground"] [txt "HTTP message broker"]]];
      slot]].
End form.
