(* ===== verification/Net.v ===== *)
(** * Where requests go

    The invariant behind the panel's confinement theorem: the page's origin and
    admin root do not change, and every request logged so far goes to the page's
    own origin or to the admin root the server configured.  [Component] is the
    interface a component offers to the page: the tasks it may start, each of
    which keeps the invariant. *)

From stdpp Require Import base list gmap strings.
From Stdlib Require Import NArith ZArith Lia String SpecFloat.
From S2P Require Import Prelude JsString JsNum JsVal Json Prog State Storage Api Payload Catalog Session View.
Local Open Scope js_scope.

(** [url] is [base], a slash, and anything. *)
Definition under (base url : jstring) : Prop := exists rest, url = base ++ js "/" ++ rest.

Definition absolute (root : jstring) : bool := starts_with (js "http") root.

(** A page served over HTTP, with the admin root a path or an absolute URL. *)
Record served (b : browser) : Prop := {
  served_http : is_http b = true;
  served_origin : strip_slash (loc_origin b) = loc_origin b;
  served_root : absolute (adminApiRoot b) = true \/ starts_with (js "/") (adminApiRoot b) = true
}.

(** Where a page may send requests. *)
Definition allowed (b : browser) (url : jstring) : Prop :=
  under (loc_origin b) url \/
  (absolute (adminApiRoot b) = true /\ under (strip_slash (adminApiRoot b)) url).

Definition same_net (b b' : browser) : Prop :=
  loc_protocol b' = loc_protocol b /\ loc_origin b' = loc_origin b /\ g_admin_api b' = g_admin_api b.

(** A request that goes where it may and carries no other header than the token
    and the content type. *)
Definition well_sent (b0 : browser) (rq : http_request) : Prop :=
  allowed b0 (rq_url rq) /\ Forall plain_header (rq_headers rq).

(** The live intervals are the two the session remembers, or there are none. *)
Definition timers_ok (t : timer_state) : Prop :=
  (healthTimer t = None /\ clusterTimer t = None /\ intervals t = []) \/
  exists h c, healthTimer t = Some h /\ clusterTimer t = Some c /\ h <> c /\
    intervals t = [(h, THealth); (c, TCluster)].

(** The page invariant: nothing was sent elsewhere since the page was [b0], no
    timer leaked, and the avatar cache holds rendered avatars only. *)
Definition confined `{Platform} (b0 : browser) (p : panel) : Prop :=
  same_net b0 (br p) /\ Forall (well_sent b0) (sent (br p)) /\ timers_ok (tm p) /\ cache_ok (avatars p).

Section net.
Context `{Platform}.

Lemma served_same b b' : same_net b b' -> served b -> served b'.
Proof.
  intros (H1 & H2 & H3) [Hh Ho Hr]. split.
  - unfold is_http. by rewrite H1.
  - by rewrite H2.
  - unfold adminApiRoot. by rewrite H3.
Qed.

Lemma publicUrl_allowed b rest : served b -> allowed b (publicUrl (js "/" ++ rest) b).
Proof.
  intros [Hh Ho _]. left. exists rest. unfold publicUrl. by rewrite api_base_http, Ho.
Qed.

Lemma strip_slash_under o r rest : under o (strip_slash (o ++ js "/" ++ r) ++ js "/" ++ rest).
Proof.
  destruct (strip_slash_cases (o ++ js "/" ++ r)) as [->|Hs].
  - exists (r ++ js "/" ++ rest). by rewrite <- !app_assoc.
  - revert Hs. generalize (strip_slash (o ++ js "/" ++ r)). intros x Hs.
    destruct (decide (r = [])) as [->|Hr].
    + rewrite app_nil_r in Hs. apply app_inj_tail in Hs as [<- _]. by exists rest.
    + destruct (exists_last Hr) as (r' & c & ->). rewrite !app_assoc in Hs.
      apply app_inj_tail in Hs as [<- _]. exists (r' ++ js "/" ++ rest). by rewrite <- !app_assoc.
Qed.

Lemma adminUrl_allowed b rest : served b -> allowed b (adminUrl (js "/" ++ rest) b).
Proof.
  intros [Hh Ho Hr]. unfold adminUrl, allowed, absolute in *.
  destruct (starts_with (js "http") (adminApiRoot b)) eqn:Ea.
  - right. split; [done|]. by exists rest.
  - destruct Hr as [|Hr]; [done|]. left. apply starts_with_spec in Hr as [r ->].
    rewrite api_base_http by done. apply strip_slash_under.
Qed.

(** ** Programs that keep the invariant *)

Section programs.
Context (b0 : browser) (Hserved : served b0).

Lemma confined_served p : confined b0 p -> served (br p).
Proof. intros [Hn _]. by eapply served_same. Qed.

Lemma allowed_same b url : same_net b0 b -> allowed b url -> allowed b0 url.
Proof. intros (_ & H2 & H3). unfold allowed, adminApiRoot. by rewrite H2, H3. Qed.

(** Updates that do not touch the origin, the admin root or the log. *)
Definition net_frame (b b' : browser) : Prop := same_net b b' /\ sent b' = sent b.

Lemma confined_frame p b : net_frame (br p) b -> confined b0 p -> confined b0 (set_br b p).
Proof.
  intros [(F1 & F2 & F3) F4] [(N1 & N2 & N3) Hs].
  split; simpl; [split_and!; congruence|by rewrite F4].
Qed.

Lemma confined_log p rq : well_sent b0 rq -> confined b0 p -> confined b0 (log_request rq p).
Proof. intros Ha (Hn & Hs & Ht). split_and!; [done| |apply Ht..]. by constructor. Qed.

Lemma restart_timers_ok t : timers_ok t -> timers_ok (restart_timers t).
Proof.
  intros Ht. right. exists (next_timer t), (S (next_timer t)).
  assert (Hi : intervals (clear_opt (clusterTimer t) (clear_opt (healthTimer t) t)) = []).
  { destruct Ht as [(H1 & H2 & H3)|(h & c & H1 & H2 & Hhc & H3)]; rewrite H1, H2; simpl; rewrite H3; [done|].
    rewrite filter_cons_False by (simpl; tauto). rewrite filter_cons_True by (simpl; congruence).
    by rewrite filter_nil, filter_cons_False by (simpl; tauto). }
  unfold restart_timers, set_interval. simpl.
  destruct t as [[h|] [c|] iv nx]; simpl in *; rewrite Hi; split_and!; done || lia.
Qed.

Lemma frame_store_set k x b : net_frame b (store_set k x b).
Proof. unfold store_set. by destruct (session_storage b). Qed.
Lemma frame_store_remove k b : net_frame b (store_remove k b).
Proof. unfold store_remove. by destruct (session_storage b). Qed.
Lemma frame_loadSavedToken base b : net_frame b (snd (loadSavedToken base b)).
Proof. destruct (loadSavedToken_frame base b) as (? & ? & ? & ? & _). by split. Qed.
Lemma frame_authHeaders b : net_frame b (snd (authHeaders b)).
Proof.
  unfold authHeaders. pose proof (frame_loadSavedToken (api_base b) b) as Hf.
  destruct (loadSavedToken (api_base b) b) as [t b']. by destruct (normalize_str t).
Qed.

Lemma confined_saveToken base t p : confined b0 p -> confined b0 (set_br (snd (saveToken base t (br p))) p).
Proof.
  intros Hp. apply confined_frame; [|done]. unfold saveToken, mbind, sync_mbind, spure.
  destruct (normalizeToken t) as [[|]|]; [apply frame_store_remove|apply frame_store_set|done].
Qed.

Lemma confined_setToken t : spreserves (confined b0) (setToken t).
Proof.
  intros p Hp. unfold setToken, mbind, sync_mbind, smod, sget, on_br, szoom.
  pose proof (confined_saveToken (apiBase (ses p)) t (on_ses (set_token t) p)) as Hs. simpl in *.
  destruct (saveToken _ t (br p)) as [[] b]; by apply Hs.
Qed.

Lemma confined_submit raw : spreserves (confined b0) (submitGateToken raw).
Proof.
  intros p Hp. unfold submitGateToken, mbind, sync_mbind, spure.
  destruct (e_trim (Ok raw)) as [t|]; [|done]. destruct t as [| | | |[|c s]| | |]; try done.
  destruct (starts_with _ _); [|done]. by apply confined_setToken.
Qed.

(** Every path the panel requests starts with a slash. *)
Definition slashed (path : jstring) : Prop := starts_with (js "/") path = true.

Lemma safe_public {B : Type} path (k : jstring -> prog panel B) :
  slashed path -> (forall url, allowed b0 url -> safe (confined b0) (k url)) ->
  safe (confined b0) (public path ≫= k).
Proof.
  intros [rest ->]%starts_with_spec Hk. apply safe_read_bind. intros p Hp. apply Hk.
  eapply allowed_same; [by apply Hp|]. by apply publicUrl_allowed, confined_served.
Qed.

Lemma safe_admin {B : Type} path (k : jstring -> prog panel B) :
  slashed path -> (forall url, allowed b0 url -> safe (confined b0) (k url)) ->
  safe (confined b0) (admin path ≫= k).
Proof.
  intros [rest ->]%starts_with_spec Hk. apply safe_read_bind. intros p Hp. apply Hk.
  eapply allowed_same; [by apply Hp|]. by apply adminUrl_allowed, confined_served.
Qed.

Lemma safe_net_request m url body : allowed b0 url -> safe (confined b0) (request m url body).
Proof.
  intros Hu. apply safe_request.
  - intros p. apply confined_frame, frame_authHeaders.
  - intros p b. apply confined_log. split; [done|]. apply mk_request_plain.
Qed.

Lemma safe_net_fetch url : allowed b0 url -> safe (confined b0) (fetch (get_plain url)).
Proof. intros Hu. apply safe_fetch. intros p. by apply confined_log. Qed.

Lemma safe_pub_get path : slashed path -> safe (confined b0) (pub_get path).
Proof. intros Hp. apply safe_public; [done|]. intros url. apply safe_net_request. Qed.
Lemma safe_pub_delete path : slashed path -> safe (confined b0) (pub_delete path).
Proof. intros Hp. apply safe_public; [done|]. intros url. apply safe_net_request. Qed.
Lemma safe_pub_post path data : slashed path -> safe (confined b0) (pub_post path data).
Proof. intros Hp. apply safe_public; [done|]. intros url. apply safe_net_request. Qed.
Lemma safe_pub_put path data : slashed path -> safe (confined b0) (pub_put path data).
Proof. intros Hp. apply safe_public; [done|]. intros url. apply safe_net_request. Qed.
Lemma safe_adm_post path data : slashed path -> safe (confined b0) (adm_post path data).
Proof. intros Hp. apply safe_admin; [done|]. intros url. apply safe_net_request. Qed.
End programs.
End net.

(** Peel a program down to its state updates. *)
Ltac net_step :=
  lazymatch goal with
  | |- slashed _ => reflexivity
  | |- safe _ (public _ ≫= _) => apply safe_public; [done| |intros ? ?]
  | |- safe _ (admin _ ≫= _) => apply safe_admin; [done| |intros ? ?]
  | |- safe _ (request _ _ _) => apply safe_net_request; assumption
  | |- safe _ (apiGet _) => unfold apiGet; apply safe_net_request; assumption
  | |- safe _ (apiPost _ _) => unfold apiPost; apply safe_net_request; assumption
  | |- safe _ (fetch (get_plain _)) => apply safe_net_fetch; assumption
  | |- safe _ (call (setToken _)) => apply safe_call, confined_setToken
  | |- safe _ (call (submitGateToken _)) => apply safe_call, confined_submit
  | |- safe _ (prog_catch _ _) => apply safe_catch; [|intro]
  | |- safe _ (prog_finally _ _) => apply safe_finally
  | |- safe _ (_ ≫= _) => apply safe_bind; [|intro]
  | |- safe _ (pure _) => apply safe_pure
  | |- safe _ (read _) => apply safe_read
  | |- safe _ (spawn _) => apply safe_spawn
  | |- safe _ (ignore _) => apply safe_ignore
  | |- safe _ (Ret _) => exact Logic.I
  | |- safe _ (Throw _) => exact Logic.I
  | |- safe _ (Wait _ _) => intros ?
  | |- safe _ (if ?b then _ else _) => destruct b
  | |- safe _ (match ?r with _ => _ end) => destruct r
  end.

(** Updates of the session and the catalog leave the rest alone. *)
Definition off_browser (f : panel -> panel) : Prop :=
  forall p, br (f p) = br p /\ tm (f p) = tm p /\ avatars (f p) = avatars p.

Lemma safe_off_browser `{Platform} b0 (f : panel -> panel) : off_browser f -> safe (confined b0) (modify f).
Proof. intros Hf. apply safe_modify. intros p. unfold confined. destruct (Hf p) as (-> & -> & ->). done. Qed.

Lemma safe_restart_timers `{Platform} b0 : safe (confined b0) (modify (on_tm restart_timers)).
Proof.
  apply safe_modify. intros p (H1 & H2 & H3 & H4). split_and!; [apply H1..|done| |done].
  by apply restart_timers_ok.
Qed.

Ltac net_tac := repeat first [net_step | apply safe_restart_timers | apply safe_off_browser; done].

Section lib.
Context `{Platform} (b0 : browser) (Hserved : served b0).

Lemma net_refreshQueues : safe (confined b0) refreshQueues.
Proof. unfold refreshQueues. net_tac. Qed.
Lemma net_refreshGroups : safe (confined b0) refreshGroups.
Proof. unfold refreshGroups. net_tac. Qed.
Lemma net_refreshFlows : safe (confined b0) refreshFlows.
Proof. unfold refreshFlows. net_tac. Qed.
Lemma net_refreshCells : safe (confined b0) refreshCells.
Proof. unfold refreshCells. net_tac. Qed.
Lemma net_pollHealth : safe (confined b0) pollHealth.
Proof. unfold pollHealth. net_tac. Qed.
Lemma net_pollCluster : safe (confined b0) pollCluster.
Proof. unfold pollCluster. net_tac. Qed.
Lemma net_startApp : safe (confined b0) startApp.
Proof.
  unfold startApp. net_tac; auto using net_refreshQueues, net_refreshGroups, net_refreshFlows,
    net_refreshCells, net_pollHealth, net_pollCluster.
Qed.
Lemma net_password path pw : slashed path -> safe (confined b0) (password_flow path pw).
Proof. intros Hp. unfold password_flow. apply safe_public; [done..|]. intros url Hu. net_tac. Qed.
Lemma net_initAuth : safe (confined b0) initAuth.
Proof.
  unfold initAuth, enter, check_token, auth_config. net_tac; try apply net_startApp.
  apply safe_modify. intros p Hp. by apply (confined_frame _ (on_ses _ p)).
Qed.
Lemma net_finishReveal : safe (confined b0) finishReveal.
Proof. unfold finishReveal. net_tac. apply net_startApp. Qed.
Lemma net_queryCells k : safe (confined b0) (queryCells k).
Proof. unfold queryCells. apply safe_admin; [done|by destruct k|]. intros url Hu. unfold apiGet. by apply safe_net_request. Qed.
Lemma net_setApiBase base : safe (confined b0) (setApiBase base).
Proof.
  unfold setApiBase. net_tac; try apply net_initAuth; apply safe_modify; intros p Hp.
  - by apply confined_frame.
  - pose proof (frame_loadSavedToken (apiBase (ses p)) (br p)) as Hf.
    destruct (loadSavedToken (apiBase (ses p)) (br p)) as [t b]. by apply (confined_frame _ p).
Qed.
Lemma net_copyText t : safe (confined b0) (copyText t).
Proof. unfold copyText. net_tac. Qed.
End lib.

(** ** Components *)

Definition vconfined `{Platform} {V : Type} (b0 : browser) (t : panel * V) : Prop := confined b0 (fst t).

(** What a component promises to the page it is mounted on. *)
Class Component `{Platform} (V : Type) := {
  tasks : vprog V unit -> Prop;
  tasks_confined : forall b0 p, served b0 -> tasks p -> safe (vconfined b0) p
}.

Section components.
Context `{Platform} {V : Type} (b0 : browser).

Lemma vsafe_lib {A : Type} (p : prog panel A) : safe (confined b0) p -> safe (vconfined (V:=V) b0) (lib p).
Proof. intros Hp. by apply (safe_zoom (confined b0)). Qed.
Lemma vsafe_upd f : safe (vconfined (V:=V) b0) (upd f).
Proof. apply safe_modify. by intros [p v]. Qed.
Lemma vsafe_upd_page f : off_browser f -> safe (vconfined (V:=V) b0) (upd_page f).
Proof.
  intros Hf. apply safe_modify. intros [p v]. unfold vconfined, confined. simpl.
  by destruct (Hf p) as (-> & -> & ->).
Qed.

Lemma vsafe_pure {A B : Type} (r : E A) (k : A -> vprog V B) :
  (forall a, r = Ok a -> safe (vconfined b0) (k a)) -> safe (vconfined b0) (pure r ≫= k).
Proof. intros Hk. destruct r as [a|e]; [by apply Hk|done]. Qed.

Lemma vsafe_eval {A B : Type} (e : V -> E A) (k : A -> vprog V B) :
  (forall v a, e v = Ok a -> safe (vconfined b0) (k a)) -> safe (vconfined b0) (eval e ≫= k).
Proof.
  intros Hk [p v] Hp. split; [done|]. simpl.
  destruct (e v) as [a|x] eqn:He; [by apply (Hk v)|done].
Qed.

Lemma vsafe_eval_page {A B : Type} (e : panel -> V -> E A) (k : A -> vprog V B) :
  (forall a, safe (vconfined b0) (k a)) -> safe (vconfined b0) (eval_page e ≫= k).
Proof. intros Hk [p v] Hp. split; [done|]. simpl. destruct (e p v) as [a|x]; [apply Hk|done]. Qed.

Lemma vsafe_for_each l (f : jsval -> vprog V unit) :
  (forall x, safe (vconfined b0) (f x)) -> safe (vconfined b0) (for_each l f).
Proof. intros Hf. induction l; [done|]. by apply safe_bind. Qed.
End components.

Lemma safe_promise_array {S : Type} (I : S -> Prop) ps : Forall (safe I) ps -> safe I (promise_array ps).
Proof. induction 1; [done|]. split_and!; [done..|]. intros r. apply safe_pure. Qed.

Lemma safe_discard {S A : Type} (I : S -> Prop) (p : prog S A) : safe I p -> safe I (discard p).
Proof. intros Hp. by apply safe_bind. Qed.

(** A path built by a template literal that starts with a slash. *)
Lemma template_slashed s ps v :
  e_template (e_str s :: ps) = Ok v -> slashed s -> slashed (to_string v).
Proof.
  simpl. destruct (e_template ps) as [w|]; [|done]. intros [= <-] [r ->]%starts_with_spec.
  apply starts_with_spec. simpl. by eexists.
Qed.

Create HintDb net discriminated.
#[export] Hint Resolve net_refreshQueues net_refreshGroups net_refreshFlows net_refreshCells
  net_pollHealth net_pollCluster net_startApp net_password net_initAuth net_finishReveal net_queryCells
  net_setApiBase net_copyText safe_pub_get safe_pub_delete safe_pub_post safe_pub_put safe_adm_post
  safe_ignore safe_discard vsafe_lib vsafe_upd : net.
#[export] Hint Extern 1 (slashed _) => reflexivity : net.
#[export] Hint Extern 1 (slashed (to_string ?v)) =>
  match goal with Hv : e_template _ = Ok v |- _ => eapply (template_slashed _ _ _ Hv); reflexivity end : net.
#[export] Hint Extern 1 (safe _ (call (setToken _))) => apply safe_call, confined_setToken : net.
#[export] Hint Extern 1 (safe _ (call (submitGateToken _))) => apply safe_call, confined_submit : net.

(** A [Forall] over an explicit list. *)
Ltac forall_list := repeat first [apply List.Forall_nil | apply List.Forall_cons].

(** The same for handlers of a component. *)
Ltac vnet_step :=
  lazymatch goal with
  | |- safe _ (prog_catch _ _) => apply safe_catch; [|intro]
  | |- safe _ (prog_finally _ _) => apply safe_finally
  | |- safe _ (pure _ ≫= _) => apply vsafe_pure; intros ? ?
  | |- safe _ (eval _ ≫= _) => apply vsafe_eval; intros ? ? ?
  | |- safe _ (eval_page _ ≫= _) => apply vsafe_eval_page; intros ?
  | |- safe _ (_ ≫= _) => apply safe_bind; [|intro]
  | |- safe _ (pure _) => apply safe_pure
  | |- safe _ (local _) => apply safe_read
  | |- safe _ (page _) => apply safe_read
  | |- safe _ (upd _) => apply vsafe_upd
  | |- safe _ (upd_page _) => apply vsafe_upd_page; done
  | |- safe _ (spawn _) => apply safe_spawn
  | |- safe _ (for_each _ _) => apply vsafe_for_each; intros ?
  | |- safe _ (promise_array _) => apply safe_promise_array; forall_list
  | |- safe _ (discard _) => apply safe_discard
  | |- safe _ (ignore _) => apply safe_ignore
  | |- safe _ (Ret _) => exact Logic.I
  | |- safe _ (Throw _) => exact Logic.I
  | |- safe _ (Wait _ _) => intros ?
  | |- safe _ (if ?b then _ else _) => destruct b
  | |- safe _ (match ?r with _ => _ end) => destruct r
  end.
Ltac vnet := repeat (first [solve [auto with net] | vnet_step]).
