(* ===== verification/Keeps.v ===== *)
(** * Invariants of pages under a contract of the replies

    Rules and tactics to show [ends I K anyway p] for the programs of the library
    ([I] about the panel) and for handlers of a component ([vinv I J], with [J]
    about the component's own state), and the weaker [keeps], for invariants that
    hold whenever a handler pauses. *)

From stdpp Require Import base list gmap strings.
From Stdlib Require Import NArith ZArith Lia String.
From S2P Require Import Prelude JsString JsNum JsVal Json Prog State Storage Api Payload Catalog Session View Net.

Section promises.
Context {S : Type} (I : S -> Prop) (K : ask -> reply -> Prop).

Lemma ends_promise_array_any ps : Forall (ends I K anyway) ps -> ends I K anyway (promise_array ps).
Proof.
  induction 1 as [|p ps Hp _ IH]; [done|]. exists anyway, anyway. split_and!; [done..| |].
  - intros a b _ _. done.
  - intros e _. done.
Qed.

Lemma ends_promise_all_any p q : ends I K anyway p -> ends I K anyway q -> ends I K anyway (promise_all p q).
Proof. intros Hp Hq. exists anyway, anyway. split_and!; [done..|by intros|by intros]. Qed.

Lemma ends_modify_any (f : S -> S) : (forall s, I s -> I (f s)) -> ends I K anyway (modify f).
Proof. intros Hf. by apply ends_modify. Qed.

Lemma ends_then {B : Type} (f : S -> S) (k : unit -> prog S B) Q :
  (forall s, I s -> I (f s)) -> ends I K Q (k tt) -> ends I K Q (modify f ≫= k).
Proof. intros Hf Hk s Hs. split; [by apply Hf|done]. Qed.

Lemma ends_catch_any {A : Type} (p : prog S A) h : ends I K anyway p ->
  (forall e, ends I K anyway (h e)) -> ends I K anyway (prog_catch p h).
Proof. intros Hp Hh. by eapply ends_catch. Qed.
End promises.

(** ** Handlers *)

Definition vinv {V : Type} (I : panel -> Prop) (J : V -> Prop) (t : panel * V) : Prop := I (fst t) /\ J (snd t).

Section vends.
Context {V : Type} (I : panel -> Prop) (J : V -> Prop) (K : ask -> reply -> Prop).

Lemma vends_lib {A : Type} Q (p : prog panel A) : ends I K Q p -> ends (vinv I J) K Q (lib p).
Proof. apply ends_zoom; [|by intros t [? _]]. intros s t [_ Hv] Hs. by split. Qed.

Lemma vends_upd f : (forall v : V, J v -> J (f v)) -> ends (vinv I J) K anyway (upd f).
Proof. intros Hf. apply ends_modify; [|done]. intros t [Hp Hv]. split; [done|by apply Hf]. Qed.

Lemma vends_upd_page f : (forall p, I p -> I (f p)) -> ends (vinv I J) K anyway (upd_page f).
Proof. intros Hf. apply ends_modify; [|done]. intros t [Hp Hv]. split; [by apply Hf|done]. Qed.

Lemma vends_eval {A B : Type} Q (e : V -> E A) (k : A -> vprog V B) :
  (forall v a, J v -> e v = Ok a -> ends (vinv I J) K Q (k a)) -> (forall x, Q (Exn x)) ->
  ends (vinv I J) K Q (eval e ≫= k).
Proof.
  intros Hk He t [Hp Hv]. split; [by split|]. simpl. destruct (e (snd t)) as [a|x] eqn:Ee; simpl; [by eapply Hk|apply He].
Qed.

Lemma vends_eval_page {A B : Type} Q (e : panel -> V -> E A) (k : A -> vprog V B) :
  (forall a, ends (vinv I J) K Q (k a)) -> (forall x, Q (Exn x)) -> ends (vinv I J) K Q (eval_page e ≫= k).
Proof.
  intros Hk He t Ht. split; [done|]. simpl. destruct (e (fst t) (snd t)) as [a|x] eqn:Ee; simpl; [apply Hk|apply He].
Qed.

Lemma vends_for_each l (f : jsval -> vprog V unit) :
  (forall x, x ∈ l -> ends (vinv I J) K anyway (f x)) -> ends (vinv I J) K anyway (for_each l f).
Proof.
  intros Hf. induction l as [|x l IH]; [done|]. cbn [for_each]. eapply (ends_bind _ _ anyway); [apply Hf; left| |done].
  intros _ _. apply IH. intros y Hy. apply Hf. by right.
Qed.
End vends.

(** ** Tactics *)

(** One step into a program whose outcome does not matter. *)
Ltac ends_step :=
  lazymatch goal with
  | |- ends _ _ anyway (prog_catch _ _) => eapply (ends_catch _ _ anyway); [|done|intros ? _]
  | |- ends _ _ anyway (prog_finally _ _) => apply ends_finally
  | |- ends _ _ anyway (pure _ ≫= _) => apply ends_pure_bind; [intros ? ?|done]
  | |- ends _ _ anyway (_ ≫= _) => eapply (ends_bind _ _ anyway); [|intros ? _|done]
  | |- ends _ _ anyway (pure ?r) => destruct r; exact Logic.I
  | |- ends _ _ anyway (public _) => intros ? ?; split; [assumption|exact Logic.I]
  | |- ends _ _ anyway (admin _) => intros ? ?; split; [assumption|exact Logic.I]
  | |- ends _ _ anyway (read _) => intros ? ?; split; [assumption|exact Logic.I]
  | |- ends _ _ anyway (local _) => intros ? ?; split; [assumption|exact Logic.I]
  | |- ends _ _ anyway (page _) => intros ? ?; split; [assumption|exact Logic.I]
  | |- ends _ _ anyway (spawn _) => split; [|exact Logic.I]
  | |- ends _ _ anyway (discard _) => eapply (ends_bind _ _ anyway); [|intros ? _; exact Logic.I|done]
  | |- ends _ _ anyway (ignore _) => eapply (ends_bind _ _ anyway); [|intros ? _; exact Logic.I|done]
  | |- ends _ _ anyway (promise_array _) => apply ends_promise_array_any; forall_list
  | |- ends _ _ anyway (promise_all _ _) => apply ends_promise_all_any
  | |- ends _ _ anyway (Ret _) => exact Logic.I
  | |- ends _ _ anyway (Throw _) => exact Logic.I
  | |- ends _ _ anyway (Wait _ _) => intros ? ?
  | |- ends _ _ anyway (if ?b then _ else _) => destruct b
  | |- ends _ _ anyway (match ?r with _ => _ end) => destruct r
  end.

(** The same in a handler; [lib_tac] proves the calls into the library. *)
Ltac vends_step lib_tac :=
  lazymatch goal with
  | |- ends _ _ anyway (lib _) => apply vends_lib; solve [lib_tac]
  | |- ends _ _ anyway (upd _) => apply vends_upd; intros ? ?; assumption
  | |- ends _ _ anyway (upd_page _) => apply vends_upd_page; intros ? ?; assumption
  | |- ends _ _ anyway (eval _ ≫= _) => apply vends_eval; [intros ? ? ? ?|done]
  | |- ends _ _ anyway (eval_page _ ≫= _) => apply vends_eval_page; [intros ?|done]
  | |- ends _ _ anyway (for_each _ _) => apply vends_for_each; intros ? ?
  | _ => ends_step
  end.

(** ** Invariants that hold whenever a handler pauses

    [ends] asks for an invariant after every single assignment.  Code that assigns
    two refs that belong together keeps its invariant only between the synchronous
    parts of a handler, which is when other handlers run and the page is rendered.
    [settles I K R p s]: run from [s], the program [p] has [I] at every request it
    waits for, whatever it finds there later, and [R] of its outcome at its end. *)

Section settles.
Context {S : Type} (I : S -> Prop) (K : ask -> reply -> Prop).

Fixpoint settles {A : Type} (R : result jsval A -> S -> Prop) (p : prog S A) (s : S) : Prop :=
  match p with
  | Ret a => R (Ok a) s
  | Throw e => R (Exn e) s
  | Act f k => settles R (k s) (f s)
  | Wait q k => I s /\ forall x s', K q x -> I s' -> settles R (k x) s'
  | Spawn p k => settles (fun _ => I) p s /\ forall s', I s' -> settles R k s'
  | Par p q k => I s /\ exists Q1 Q2,
      (forall s', I s' -> settles (fun r s => Q1 r /\ I s) p s') /\
      (forall s', I s' -> settles (fun r s => Q2 r /\ I s) q s') /\
      (forall a b s', Q1 (Ok a) -> Q2 (Ok b) -> I s' -> settles R (k (Ok (a, b))) s') /\
      (forall e s', Q1 (Exn e) \/ Q2 (Exn e) -> I s' -> settles R (k (Exn e)) s')
  end.

(** From any state in which the invariant holds, to one. *)
Definition keeps {A : Type} (p : prog S A) : Prop := forall s, I s -> settles (fun _ => I) p s.

Lemma settles_mono {A : Type} (R R' : result jsval A -> S -> Prop) (p : prog S A) s :
  (forall r s', R r s' -> R' r s') -> settles R p s -> settles R' p s.
Proof.
  intros HR. revert s. induction p as [A a|A e|A f k IH|A q k IH|A p _ k IH|A p _ q _ k IH]; intros s; cbn; [auto|auto|intros Hk; by eapply IH| | |].
  - intros [Hs Hk]. split; eauto.
  - intros [Hp Hk]. split; eauto.
  - intros (Hs & Q1 & Q2 & H1 & H2 & H3 & H4). split; [done|]. exists Q1, Q2. split_and!; eauto.
Qed.

Lemma settles_bind {A B : Type} (R : result jsval B -> S -> Prop) (f : A -> prog S B) (p : prog S A) s :
  settles (fun r s' => match r with Ok a => settles R (f a) s' | Exn e => R (Exn e) s' end) p s ->
  settles R (p ≫= f) s.
Proof.
  unfold mbind, prog_mbind. revert s. induction p as [A a|A e|A g k IH|A q k IH|A p _ k IH|A p _ q _ k IH]; intros s; cbn; [auto|auto|intros Hk; by eapply IH| | |].
  - intros [Hs Hk]. split; eauto.
  - intros [Hp Hk]. split; eauto.
  - intros (Hs & Q1 & Q2 & H1 & H2 & H3 & H4). split; [done|]. exists Q1, Q2. split_and!; eauto.
Qed.

Lemma settles_catch {A : Type} (R : result jsval A -> S -> Prop) (p : prog S A) h s :
  settles (fun r s' => match r with Ok a => R (Ok a) s' | Exn e => settles R (h e) s' end) p s ->
  settles R (prog_catch p h) s.
Proof.
  revert s. induction p as [A a|A e|A g k IH|A q k IH|A p _ k IH|A p _ q _ k IH]; intros s; cbn; [auto|auto|intros Hk; by eapply IH| | |].
  - intros [Hs Hk]. split; eauto.
  - intros [Hp Hk]. split; eauto.
  - intros (Hs & Q1 & Q2 & H1 & H2 & H3 & H4). split; [done|]. exists Q1, Q2. split_and!; eauto.
Qed.

(** What keeps the invariant at every assignment. *)
Lemma ends_settles {A : Type} Q (p : prog S A) s : ends I K Q p -> I s -> settles (fun r s' => Q r /\ I s') p s.
Proof.
  revert Q s. induction p as [A a|A e|A g k IH|A q k IH|A p IHp k IH|A p IHp q IHq k IH]; intros Q s; cbn.
  - done.
  - done.
  - intros Hp Hs. destruct (Hp s Hs). auto.
  - intros Hp Hs. split; [done|]. intros x s' HK Hs'. auto.
  - intros [Hp Hk] Hs. split; [|auto]. eapply settles_mono; [|by apply IHp]. by intros r s' [_ ?].
  - intros (Q1 & Q2 & H1 & H2 & H3 & H4) Hs. split; [done|]. exists Q1, Q2. split_and!; eauto.
Qed.

Lemma ends_keeps {A : Type} (p : prog S A) : ends I K anyway p -> keeps p.
Proof. intros Hp s Hs. eapply settles_mono; [|by apply (ends_settles anyway)]. by intros r s' [_ ?]. Qed.

(** Such a prefix of a program. *)
Lemma settles_after {A B : Type} Q (R : result jsval B -> S -> Prop) (f : A -> prog S B) (p : prog S A) s :
  ends I K Q p -> (forall a s', Q (Ok a) -> I s' -> settles R (f a) s') ->
  (forall e s', Q (Exn e) -> I s' -> R (Exn e) s') -> I s -> settles R (p ≫= f) s.
Proof.
  intros Hp Hf He Hs. apply settles_bind. eapply settles_mono; [|by eapply ends_settles].
  intros [a|e] s' [HQ Hs']; auto.
Qed.

Lemma keeps_after {A B : Type} Q (f : A -> prog S B) (p : prog S A) :
  ends I K Q p -> (forall a, Q (Ok a) -> keeps (f a)) -> keeps (p ≫= f).
Proof. intros Hp Hf s Hs. eapply settles_after; [exact Hp| |done|done]. intros a s' Ha. by apply Hf. Qed.

Lemma keeps_bind {A B : Type} (f : A -> prog S B) (p : prog S A) : keeps p -> (forall a, keeps (f a)) -> keeps (p ≫= f).
Proof.
  intros Hp Hf s Hs. apply settles_bind. eapply settles_mono; [|by apply Hp]. intros [a|e] s' Hs'; [by apply Hf|done].
Qed.

Lemma keeps_catch {A : Type} (p : prog S A) h : keeps p -> (forall e, keeps (h e)) -> keeps (prog_catch p h).
Proof.
  intros Hp Hh s Hs. apply settles_catch. eapply settles_mono; [|by apply Hp]. intros [a|e] s' Hs'; [done|by apply Hh].
Qed.

Lemma keeps_spawn (p : prog S unit) : keeps p -> keeps (spawn p).
Proof. intros Hp s Hs. split; [by apply Hp|done]. Qed.

(** *** Pages *)

Lemma ignore_keeps {A : Type} Q (p : prog S A) :
  (forall s, I s -> settles (fun r s' => Q r /\ I s') p s) -> keeps (ignore p).
Proof.
  intros Hp s Hs. apply settles_bind. eapply settles_mono; [|by apply Hp]. by intros [a|e] s' [_ Hs'].
Qed.

(** What is left of a program: its outcome, or a paused program, which does not
    depend on the state it paused in. *)
Definition residual {A : Type} (R : result jsval A -> S -> Prop) (p : prog S A) (s : S) : Prop :=
  match p with
  | Ret a => R (Ok a) s
  | Throw e => R (Exn e) s
  | _ => forall s', I s' -> settles R p s'
  end.

Lemma residual_keeps {A : Type} Q (p : prog S A) s :
  residual (fun r s' => Q r /\ I s') p s -> forall s', I s' -> settles (fun r s'' => Q r /\ I s'') p s'.
Proof. destruct p; cbn; try done; intros [HQ _] s' Hs'; by split. Qed.

Lemma residual_park (p : prog S unit) s : residual (fun _ => I) p s -> Forall keeps (park p).
Proof. unfold park. destruct p; cbn; intros Hp; first [exact (List.Forall_nil _) | by apply Forall_singleton]. Qed.

Lemma advance_settles {A : Type} (p : prog S A) R s s' ps p' :
  (forall r s, R r s -> I s) -> settles R p s -> advance p s = (s', ps, p') ->
  I s' /\ Forall keeps ps /\ residual R p' s'.
Proof.
  revert R s s' ps p'.
  induction p as [A a|A e|A g k IH|A q k IH|A p IHp k IHk|A p IHp q IHq k IHk];
    intros R s s' ps p' HR Hp Ha; simpl in Ha.
  - inv Ha. by split_and!; [eapply HR| |].
  - inv Ha. by split_and!; [eapply HR| |].
  - by eapply IH.
  - inv Ha. destruct Hp as [Hs Hk]. by split_and!.
  - destruct Hp as [Hp Hk]. destruct (advance p s) as [[s1 ps1] r1] eqn:E1.
    destruct (advance k s1) as [[s2 ps2] r2] eqn:E2. inv Ha.
    destruct (IHp _ _ _ _ _ (fun _ _ H => H) Hp E1) as (H1 & H2 & H3).
    destruct (IHk _ _ _ _ _ HR (Hk _ H1) E2) as (H4 & H5 & H6).
    split_and!; [done| |done]. rewrite !Forall_app. split_and!; [done|by eapply residual_park|done].
  - destruct Hp as (Hs & Q1 & Q2 & Hp & Hq & Hok & Hexn). destruct (advance p s) as [[s1 ps1] r1] eqn:E1.
    destruct (advance q s1) as [[s2 ps2] r2] eqn:E2.
    destruct (IHp _ _ _ _ _ (fun _ _ H => proj2 H) (Hp _ Hs) E1) as (H1 & H2 & H3).
    destruct (IHq _ _ _ _ _ (fun _ _ H => proj2 H) (Hq _ H1) E2) as (H4 & H5 & H6).
    pose proof (residual_keeps _ _ _ H3) as K1. pose proof (residual_keeps _ _ _ H6) as K2.
    assert (Hgo : forall r (w : prog S unit) s3 ps3 t, settles R (k r) s2 -> advance (k r) s2 = (s3, ps3, t) ->
      Forall keeps (park w) -> I s3 /\ Forall keeps (ps1 ++ ps2 ++ park w ++ ps3) /\ residual R t s3).
    { intros r w s3 ps3 t Hk Hadv Hw. destruct (IHk _ _ _ _ _ _ HR Hk Hadv) as (? & ? & ?).
      split_and!; [done| |done]. by rewrite !Forall_app. }
    assert (Hstop : I s2 /\ Forall keeps (ps1 ++ ps2) /\ residual R (Par r1 r2 k) s2).
    { split_and!; [done|by apply Forall_app|]. intros s'' Hs''. split; [done|]. exists Q1, Q2. by split_and!. }
    assert (Hig : forall w, (forall s', I s' -> settles (fun _ => I) w s') -> Forall keeps (park w))
      by (intros w Hw; unfold park; destruct (finished w); [exact (List.Forall_nil _)|by apply Forall_singleton]).
    destruct r1 as [a|e| | | |], r2 as [b|e'| | | |]; try (inv Ha; exact Hstop);
      match type of Ha with context [advance (k ?r) s2] =>
        destruct (advance (k r) s2) as [[s3 ps3] t] eqn:E3 end; inv Ha;
      first [ exact (Hgo _ (Ret tt) _ _ _ (Hok _ _ _ (proj1 H3) (proj1 H6) H4) E3 (List.Forall_nil _))
            | exact (Hgo _ (ignore _) _ _ _ (Hexn _ _ (or_introl (proj1 H3)) H4) E3 (Hig _ (ignore_keeps _ _ K2)))
            | exact (Hgo _ (ignore _) _ _ _ (Hexn _ _ (or_intror (proj1 H6)) H4) E3 (Hig _ (ignore_keeps _ _ K1))) ].
Qed.

Lemma resume_settles {A : Type} R n x a (p : prog S A) :
  asks p !! n = Some a -> K a x -> (forall s, I s -> settles R p s) -> forall s, I s -> settles R (resume n x p) s.
Proof.
  intros Ha HK. revert R n Ha. induction p as [| | |A b k IH| |A p IHp q IHq k IHk]; intros R n Ha; simpl in *; try done.
  - destruct n; simplify_eq/=. intros Hp s Hs. by apply (Hp s Hs).
  - intros Hp s Hs. destruct (Hp s Hs) as (_ & Q1 & Q2 & H1 & H2 & H3 & H4).
    destruct (Nat.ltb_spec n (List.length (asks p))) as [Hn|Hn].
    + rewrite lookup_app_l in Ha by done. split; [done|]. exists Q1, Q2. split_and!; eauto.
    + rewrite lookup_app_r in Ha by done. split; [done|]. exists Q1, Q2. split_and!; eauto.
Qed.

(** The invariant holds and every suspended task keeps it. *)
Definition settled (c : config S) : Prop := I (fst c) /\ Forall keeps (snd c).

Lemma start_settled p c : keeps p -> settled c -> settled (start p c).
Proof.
  destruct c as [s pool]. intros Hp [Hs HF]. unfold start. simpl in *. destruct (advance p s) as [[s' ps] p'] eqn:E.
  destruct (advance_settles p _ _ _ _ _ (fun _ _ H => H) (Hp s Hs) E) as (? & ? & ?).
  split; [done|]. simpl. rewrite !Forall_app. split_and!; [done|done|by eapply residual_park].
Qed.

Lemma answering_settled (T : prog S unit -> Prop) c0 c :
  (forall p, T p -> keeps p) -> settled c0 -> answering K T c0 c -> settled c.
Proof.
  intros HT H0. induction 1 as [|p c Hp _ IH|i n x c p q Hi Hq HK _ IH]; [done|eauto using start_settled|].
  destruct c as [s pool], IH as [Hs HF]. simpl in *. rewrite Hi.
  assert (Hp : keeps (resume n x p)) by (intros t; eapply resume_settles; [done..|by eapply Forall_lookup_1 in HF]).
  destruct (advance (resume n x p) s) as [[s' ps] p'] eqn:E.
  destruct (advance_settles _ _ _ _ _ _ (fun _ _ H => H) (Hp s Hs) E) as (? & ? & ?).
  split; [done|]. simpl. rewrite !Forall_app.
  split_and!; [by apply Forall_take|by eapply residual_park|by apply Forall_drop|done].
Qed.
End settles.

(** *** A part of the state *)

(** A program on a part keeps an invariant that consists of one of that part and one
    that does not depend on it. *)
Section zoom.
Context {S T : Type} (I : S -> Prop) (J F : T -> Prop) (K : ask -> reply -> Prop).
Context (get : T -> S) (put : S -> T -> T).
Hypothesis J_parts : forall t, J t <-> I (get t) /\ F t.
Hypothesis get_put : forall s t, get (put s t) = s.
Hypothesis F_put : forall s t, F t -> F (put s t).

Lemma settles_zoom {A : Type} R (p : prog S A) t :
  F t -> settles I K R p (get t) -> settles J K (fun r t' => R r (get t') /\ F t') (zoom get put p) t.
Proof.
  revert R t. induction p as [A a|A e|A g k IH|A q k IH|A p IHp k IHk|A p IHp q IHq k IHk]; intros R t HF; cbn.
  - done.
  - done.
  - intros Hp. apply IH; [by apply F_put|]. by rewrite get_put.
  - intros [Hs Hk]. split; [by apply J_parts|]. intros x t' HK [Hi Hf]%J_parts. by apply IH; [|apply Hk].
  - intros [Hp Hk]. split.
    + eapply settles_mono; [|apply IHp; [exact HF|exact Hp]]. intros r t'. by rewrite J_parts.
    + intros t' [Hi Hf]%J_parts. by apply IHk; [|apply Hk].
  - intros (Hs & Q1 & Q2 & H1 & H2 & H3 & H4). split; [by apply J_parts|]. exists Q1, Q2. split_and!.
    + intros t' [Hi Hf]%J_parts. eapply settles_mono; [|apply IHp; [exact Hf|by apply H1]]. intros r t2. cbn. rewrite J_parts. tauto.
    + intros t' [Hi Hf]%J_parts. eapply settles_mono; [|apply IHq; [exact Hf|by apply H2]]. intros r t2. cbn. rewrite J_parts. tauto.
    + intros a b t' Ha Hb [Hi Hf]%J_parts. apply IHk; auto.
    + intros e t' He [Hi Hf]%J_parts. apply IHk; auto.
Qed.

Lemma keeps_zoom {A : Type} (p : prog S A) : keeps I K p -> keeps J K (zoom get put p).
Proof.
  intros Hp t [Hi Hf]%J_parts. eapply settles_mono; [|apply settles_zoom; [exact Hf|by apply Hp]].
  intros r t'. cbn. by rewrite J_parts.
Qed.
End zoom.

(** Nothing is asked of the state. *)
Lemma ends_trivial {S A : Type} (I : S -> Prop) K (p : prog S A) : (forall s, I s) -> ends I K anyway p.
Proof.
  intros HI. induction p as [A a|A e|A g k IH|A q k IH|A p IHp k IHk|A p IHp q IHq k IHk]; cbn; [done|done|by split|auto|by split|].
  exists anyway, anyway. split_and!; auto.
Qed.
