(* ===== verification/GateView.v ===== *)
(** * [views/GateView.vue]: entering or regenerating the API token *)

From stdpp Require Import base list gmap strings.
From Stdlib Require Import NArith ZArith Lia String SpecFloat.
From S2P Require Import Prelude JsString JsNum JsVal Json Prog State Storage Api Payload Catalog View Form Session.
Local Open Scope js_scope.

(** The component's state. *)
Record state := State_ {
  s_token : jsval;
  s_password : jsval;
  s_error : jsval;
  s_showRegen : jsval;
  s_busy : jsval
}.

Definition set_s_token (v : jsval) (r : state) : state :=
  {| s_token := v; s_password := s_password r; s_error := s_error r; s_showRegen := s_showRegen r; s_busy := s_busy r |}.
Definition set_s_password (v : jsval) (r : state) : state :=
  {| s_token := s_token r; s_password := v; s_error := s_error r; s_showRegen := s_showRegen r; s_busy := s_busy r |}.
Definition set_s_error (v : jsval) (r : state) : state :=
  {| s_token := s_token r; s_password := s_password r; s_error := v; s_showRegen := s_showRegen r; s_busy := s_busy r |}.
Definition set_s_showRegen (v : jsval) (r : state) : state :=
  {| s_token := s_token r; s_password := s_password r; s_error := s_error r; s_showRegen := v; s_busy := s_busy r |}.
Definition set_s_busy (v : jsval) (r : state) : state :=
  {| s_token := s_token r; s_password := s_password r; s_error := s_error r; s_showRegen := s_showRegen r; s_busy := v |}.


(** The state [setup] creates on the page it runs on. *)
Definition setup (p : panel) : state :=
  {| s_token := token (ses p);
     s_password := VStr [];
     s_error := gateMessage (ses p);
     s_showRegen := VBool false;
     s_busy := VBool false |}.

Section handlers.
Context `{Platform}.

Definition continueWithToken : vprog state unit :=
  _ ← upd (set_s_error (VStr []));
  _ ← upd (set_s_busy (VBool true));
  prog_finally
    (prog_catch
      (t ← local s_token;
       _ ← lib (call (submitGateToken t));
       _ ← lib (pub_get (js "/v1/queues"));
       lib startApp)
      (fun e =>
         _ ← lib (call (setToken (VStr [])));
         upd (set_s_error (VStr (errText e)))))
    (upd (set_s_busy (VBool false))).

Definition regen : vprog state unit :=
  _ ← upd (set_s_error (VStr []));
  _ ← upd (set_s_busy (VBool true));
  prog_finally
    (prog_catch
      (pw ← local s_password;
       lib (regenerateToken pw))
      (fun e => upd (set_s_error (VStr (errText e)))))
    (upd (set_s_busy (VBool false))).

(** ** The template *)

Definition render (p : panel) (v : state) : E (list (vnode (panel * state))) :=
  AuthLayout (frag [
    el "div" [at_ "class" "space-y-4"] [
      el "div" [] [
        el "h1" [at_ "class" "text-lg font-semibold"] [txt "API token"];
        el "p" [at_ "class" "mt-1 text-sm text-muted-foreground"] [
          txt " Paste your ";
          el "code" [at_ "class" "font-mono"] [txt "sk_local_…"];
          txt " token, or regenerate one with your panel password. "]];
      Field #"API token" (Ok VUndef) (Ok VUndef) (Ok VUndef) (frag [
        el "Input" [
            model_ "v-model" (Ok (s_token v)) (fun ev => upd (set_s_token ev));
            at_ "type" "password";
            at_ "class" "font-mono";
            at_ "placeholder" "sk_local_…";
            at_ "autocomplete" "off";
            on_ "@keydown.enter" (fun _ => continueWithToken)] []]);
      v_if (Ok (s_error v))
        (el "p" [at_ "class" "text-sm text-destructive"] [interp (Ok (s_error v))])
        none;
      el "Button" [
          at_ "class" "w-full";
          bind_ "disabled" (Ok (s_busy v));
          on_ "@click" (fun _ => continueWithToken)] [txt "Continue"];
      el "Button" [
          at_ "class" "w-full";
          at_ "variant" "ghost";
          on_ "@click" (fun _ => w ← eval_page (fun p v => e_not (Ok (s_showRegen v))); upd (set_s_showRegen w))] [txt "Open Settings"];
      v_if (Ok (s_showRegen v))
        (el "div" [at_ "class" "space-y-3 border-t pt-4"] [
          Field #"Panel password" (Ok VUndef) (Ok VUndef) (Ok VUndef) (frag [
            el "Input" [
                model_ "v-model" (Ok (s_password v)) (fun ev => upd (set_s_password ev));
                at_ "type" "password";
                at_ "autocomplete" "current-password"] []]);
          el "Button" [
              at_ "class" "w-full";
              at_ "variant" "outline";
              bind_ "disabled" (Ok (s_busy v));
              on_ "@click" (fun _ => regen)] [txt "Regenerate token"]])
        none]]).
End handlers.
