(* ===== verification/SetupView.v ===== *)
(** * [views/SetupView.vue]: claiming the broker with a password *)

From stdpp Require Import base list gmap strings.
From Stdlib Require Import NArith ZArith Lia String SpecFloat.
From S2P Require Import Prelude JsString JsNum JsVal Json Prog State Storage Api Payload Catalog View Form Session.
Local Open Scope js_scope.

(** The component's state. *)
Record state := State_ {
  s_p1 : jsval;
  s_p2 : jsval;
  s_error : jsval;
  s_busy : jsval
}.

Definition set_s_p1 (v : jsval) (r : state) : state :=
  {| s_p1 := v; s_p2 := s_p2 r; s_error := s_error r; s_busy := s_busy r |}.
Definition set_s_p2 (v : jsval) (r : state) : state :=
  {| s_p1 := s_p1 r; s_p2 := v; s_error := s_error r; s_busy := s_busy r |}.
Definition set_s_error (v : jsval) (r : state) : state :=
  {| s_p1 := s_p1 r; s_p2 := s_p2 r; s_error := v; s_busy := s_busy r |}.
Definition set_s_busy (v : jsval) (r : state) : state :=
  {| s_p1 := s_p1 r; s_p2 := s_p2 r; s_error := s_error r; s_busy := v |}.


(** [setupHint] as a value. *)
Definition hint (cfg : jsval) : E jsval := s ← setupHint cfg; Ok (VStr s).

(** The state [setup] creates. *)
Definition setup : state :=
  {| s_p1 := VStr [];
     s_p2 := VStr [];
     s_error := VStr [];
     s_busy := VBool false |}.

Section handlers.
Context `{Platform}.

(** The two checks before anything is sent. *)
Definition submit_problem (v : state) : E (option jstring) :=
  short ← (Ok (s_p1 v)) @. "length" .< e_num 12;
  if truthy short then Ok (Some (js "Password must be at least 12 characters."))
  else if negb (strict_eq (s_p1 v) (s_p2 v)) then Ok (Some (js "Passwords do not match."))
  else Ok None.

Definition submit : vprog state unit :=
  _ ← upd (set_s_error (VStr []));
  problem ← eval submit_problem;
  match problem with
  | Some msg => upd (set_s_error (VStr msg))
  | None =>
      _ ← upd (set_s_busy (VBool true));
      prog_finally
        (prog_catch
          (pw ← local s_p1;
           lib (setupPassword pw))
          (fun e => upd (set_s_error (VStr (errText e)))))
        (upd (set_s_busy (VBool false)))
  end.

(** ** The template *)

Definition render (p : panel) (v : state) : E (list (vnode (panel * state))) :=
  AuthLayout (frag [
    el "div" [at_ "class" "space-y-4"] [
      el "div" [] [
        el "h1" [at_ "class" "text-lg font-semibold"] [txt "Secure this broker"];
        el "p" [at_ "class" "mt-1 text-sm text-muted-foreground"] [
          txt " Choose a password (at least 12 characters). You will get an API token once — copy it. "]];
      Field #"Password" (Ok VUndef) (Ok VUndef) (Ok VUndef) (frag [
        el "Input" [
            model_ "v-model" (Ok (s_p1 v)) (fun ev => upd (set_s_p1 ev));
            at_ "type" "password";
            at_ "autocomplete" "new-password"] []]);
      Field #"Confirm" (Ok VUndef) (Ok VUndef) (Ok VUndef) (frag [
        el "Input" [
            model_ "v-model" (Ok (s_p2 v)) (fun ev => upd (set_s_p2 ev));
            at_ "type" "password";
            at_ "autocomplete" "new-password";
            on_ "@keydown.enter" (fun _ => submit)] []]);
      v_if (Ok (s_error v))
        (el "p" [at_ "class" "text-sm text-destructive"] [interp (Ok (s_error v))])
        none;
      el "Button" [
          at_ "class" "w-full";
          bind_ "disabled" (Ok (s_busy v));
          on_ "@click" (fun _ => submit)] [txt "Create API token"];
      el "p" [at_ "class" "text-xs text-muted-foreground"] [interp (e_call hint (Ok (auth (ses p))))]]]).
End handlers.
