(* ===== verification/RevealView.v ===== *)
(** * [views/RevealView.vue]: the token is shown once *)

From stdpp Require Import base list gmap strings.
From Stdlib Require Import NArith ZArith Lia String SpecFloat.
From S2P Require Import Prelude JsString JsNum JsVal Json Prog State Storage Api Payload Catalog View Form Session.
Local Open Scope js_scope.

(** The component's state. *)
Record state := State_ {
  s_copyError : jsval;
  s_copyOk : jsval
}.

Definition set_s_copyError (v : jsval) (r : state) : state :=
  {| s_copyError := v; s_copyOk := s_copyOk r |}.
Definition set_s_copyOk (v : jsval) (r : state) : state :=
  {| s_copyError := s_copyError r; s_copyOk := v |}.


(** The state [setup] creates. *)
Definition setup : state :=
  {| s_copyError := VStr [];
     s_copyOk := VStr [] |}.

Section handlers.
Context `{Platform}.

Definition copy : vprog state unit :=
  _ ← upd (set_s_copyError (VStr []));
  _ ← upd (set_s_copyOk (VStr []));
  prog_catch
    (t ← page (fun p => revealedToken (ses p));
     _ ← lib (copyText t);
     upd (set_s_copyOk (VStr (js "Token copied"))))
    (fun _ => upd (set_s_copyError (VStr (js "Copy failed")))).

(** ** The template *)

Definition render (p : panel) (v : state) : E (list (vnode (panel * state))) :=
  AuthLayout (frag [
    el "div" [at_ "class" "space-y-4"] [
      el "div" [] [
        el "h1" [at_ "class" "text-lg font-semibold"] [txt "Copy your API token"];
        el "p" [at_ "class" "mt-1 text-sm text-muted-foreground"] [
          txt " Shown once. It will not be displayed again. Regenerate from Settings with your password. "]];
      el "pre" [at_ "class" "overflow-x-auto rounded-2xl border bg-muted p-3 font-mono text-xs"] [interp (Ok (revealedToken (ses p)))];
      ActionMessage (Ok (s_copyError v)) (Ok (s_copyOk v)) (Ok VUndef);
      el "Button" [at_ "class" "w-full"; at_ "variant" "outline"; on_ "@click" (fun _ => copy)] [txt "Copy token"];
      el "Button" [at_ "class" "w-full"; on_ "@click" (fun _ => lib finishReveal)] [txt "I saved it — continue"]]]).
End handlers.
