(* ===== verification/SettingsView.v ===== *)
(** * [views/SettingsView.vue]: regenerating the API token *)

From stdpp Require Import base list gmap strings.
From Stdlib Require Import NArith ZArith Lia String SpecFloat.
From S2P Require Import Prelude JsString JsNum JsVal Json Prog State Storage Api Payload Catalog View Form Session.
Local Open Scope js_scope.

(** The component's state. *)
Record state := State_ {
  s_password : jsval;
  s_busy : jsval;
  s_status : status
}.

Definition set_s_password (v : jsval) (r : state) : state :=
  {| s_password := v; s_busy := s_busy r; s_status := s_status r |}.
Definition set_s_busy (v : jsval) (r : state) : state :=
  {| s_password := s_password r; s_busy := v; s_status := s_status r |}.
Definition set_s_status (v : status) (r : state) : state :=
  {| s_password := s_password r; s_busy := s_busy r; s_status := v |}.

Definition on_status (f : status -> status) (v : state) : state := set_s_status (f (s_status v)) v.

(** The state [setup] creates. *)
Definition setup : state :=
  {| s_password := VStr [];
     s_busy := VBool false;
     s_status := useActionStatus |}.

Section handlers.
Context `{Platform}.

Definition regen : vprog state unit :=
  _ ← upd (on_status st_reset);
  _ ← upd (set_s_busy (VBool true));
  prog_finally
    (prog_catch
      (pw ← local s_password;
       _ ← lib (regenerateToken pw);
       _ ← upd (set_s_password (VStr []));
       upd (on_status (st_succeed (VStr (js "API token regenerated")))))
      (fun e => upd (on_status (st_fail e))))
    (upd (set_s_busy (VBool false))).

(** ** The template *)

Definition render (p : panel) (v : state) : E (list (vnode (panel * state))) :=
  el "div" [at_ "class" "space-y-4"] [
    el "div" [] [
      el "h1" [at_ "class" "text-lg font-semibold tracking-tight"] [txt "Settings"];
      el "p" [at_ "class" "text-sm text-muted-foreground"] [txt "Local API token (standalone mode only)"]];
    el "Card" [at_ "class" "max-w-lg"] [
      el "CardHeader" [] [
        el "CardTitle" [] [txt "Regenerate API token"];
        el "CardDescription" [] [txt " Enter your panel password. The new token is shown once — copy it immediately. "]];
      el "CardContent" [] [
        Field #"Panel password" (Ok VUndef) (Ok VUndef) (Ok VUndef) (frag [
          el "Input" [
              model_ "v-model" (Ok (s_password v)) (fun ev => upd (set_s_password ev));
              at_ "type" "password";
              at_ "autocomplete" "current-password"] []])];
      el "CardFooter" [] [
        el "Button" [at_ "size" "sm"; bind_ "disabled" (Ok (s_busy v)); on_ "@click" (fun _ => regen)] [txt "Regenerate token"];
        ActionMessage (Ok (st_error (s_status v))) (Ok (st_ok (s_status v))) (Ok VUndef)]]].
End handlers.
