(* ===== verification/DocsView.v ===== *)
(** * [views/DocsView.vue]: the embedded API reference *)

From stdpp Require Import base list gmap strings.
From Stdlib Require Import NArith ZArith Lia String SpecFloat.
From S2P Require Import Prelude JsString JsNum JsVal Json Prog State Storage Api Payload Catalog View Form Session.
Local Open Scope js_scope.

(** The component has no state of its own. *)
Definition state : Type := unit.

Section handlers.
Context `{Platform}.

Definition docsSrc (p : panel) : jstring := apiBase (ses p) ++ js "/docs?embed=1".
Definition openapi (p : panel) : jstring := apiBase (ses p) ++ js "/openapi.json".

(** ** The template *)

Definition render (p : panel) (v : state) : E (list (vnode (panel * state))) :=
  el "div" [at_ "class" "flex h-[calc(100svh-7rem)] flex-col gap-3"] [
    el "div" [at_ "class" "flex items-end justify-between gap-3"] [
      el "div" [] [
        el "h1" [at_ "class" "text-lg font-semibold tracking-tight"] [txt "API reference"];
        el "p" [at_ "class" "text-sm text-muted-foreground"] [
          txt " OpenAPI 3.1 · ";
          el "a" [
              bind_ "href" (e_replace "?embed=1" "" (e_str (docsSrc p)));
              at_ "target" "_blank";
              at_ "rel" "noopener";
              at_ "class" "underline"] [txt "/docs"];
          txt " · ";
          el "a" [
              bind_ "href" (e_str (openapi p));
              at_ "target" "_blank";
              at_ "rel" "noopener";
              at_ "class" "underline"] [txt "openapi.json"]]]];
    el "Card" [at_ "class" "min-h-0 flex-1 overflow-hidden p-0"] [
      el "iframe" [
          bind_ "src" (e_str (docsSrc p));
          at_ "title" "BetterMQ API reference";
          at_ "class" "h-full w-full border-0";
          at_ "sandbox" "allow-scripts allow-same-origin allow-forms allow-popups"] []]].
End handlers.
