(* ===== verification/EnqueueView.v ===== *)
(** * [views/EnqueueView.vue]: adding a job to a queue *)

From stdpp Require Import base list gmap strings.
From Stdlib Require Import NArith ZArith Lia String SpecFloat.
From S2P Require Import Prelude JsString JsNum JsVal Json Prog State Storage Api Payload Catalog View Form Session.
Local Open Scope js_scope.

(** The reactive [form]. *)
Record form_state := Form_ {
  form_queueId : jsval;
  form_key : jsval;
  form_priority : jsval;
  form_delay : jsval;
  form_idempotency : jsval;
  form_body : jsval
}.

Definition set_form_queueId (v : jsval) (r : form_state) : form_state :=
  {| form_queueId := v; form_key := form_key r; form_priority := form_priority r; form_delay := form_delay r; form_idempotency := form_idempotency r; form_body := form_body r |}.
Definition set_form_key (v : jsval) (r : form_state) : form_state :=
  {| form_queueId := form_queueId r; form_key := v; form_priority := form_priority r; form_delay := form_delay r; form_idempotency := form_idempotency r; form_body := form_body r |}.
Definition set_form_priority (v : jsval) (r : form_state) : form_state :=
  {| form_queueId := form_queueId r; form_key := form_key r; form_priority := v; form_delay := form_delay r; form_idempotency := form_idempotency r; form_body := form_body r |}.
Definition set_form_delay (v : jsval) (r : form_state) : form_state :=
  {| form_queueId := form_queueId r; form_key := form_key r; form_priority := form_priority r; form_delay := v; form_idempotency := form_idempotency r; form_body := form_body r |}.
Definition set_form_idempotency (v : jsval) (r : form_state) : form_state :=
  {| form_queueId := form_queueId r; form_key := form_key r; form_priority := form_priority r; form_delay := form_delay r; form_idempotency := v; form_body := form_body r |}.
Definition set_form_body (v : jsval) (r : form_state) : form_state :=
  {| form_queueId := form_queueId r; form_key := form_key r; form_priority := form_priority r; form_delay := form_delay r; form_idempotency := form_idempotency r; form_body := v |}.

(** The component's state. *)
Record state := State_ {
  s_form : form_state;
  s_status : status
}.

Definition set_s_form (v : form_state) (r : state) : state :=
  {| s_form := v; s_status := s_status r |}.
Definition set_s_status (v : status) (r : state) : state :=
  {| s_form := s_form r; s_status := v |}.

Definition on_form (f : form_state -> form_state) (v : state) : state := set_s_form (f (s_form v)) v.
Definition on_status (f : status -> status) (v : state) : state := set_s_status (f (s_status v)) v.

(** The state [setup] creates. *)
Definition setup : state :=
  {| s_form := {| form_queueId := VStr []; form_key := VStr []; form_priority := VNum (num_of_Z 5); form_delay := VStr []; form_idempotency := VStr []; form_body := VStr (jsq "{'hello':'world'}") |};
     s_status := useActionStatus |}.

Section handlers.
Context `{Platform}.

Definition mounted : vprog state unit := spawn (lib refreshQueues).

(** [parseInt(String(form.delay), 10)] *)
Definition delay_of (f : form_state) : num := parse_int (to_string (form_delay f)).

(** The payload [enqueue] builds, with the error [mergeOutbound] reports. *)
Definition enqueue_payload (ob : outbound_state) (f : form_state) : E (jsval * option jstring) :=
  let payload := VObj ["body" ~> parseBodyField (form_body f);
                       "priority" ~> VNum (number_or (form_priority f) 5)] in
  key ← e_trim (Ok (form_key f));
  let payload := if truthy key then set_prop payload (js "key") key else payload in
  idem ← e_trim (Ok (form_idempotency f));
  let payload := if truthy idem then set_prop payload (js "idempotency_key") idem else payload in
  let delay := delay_of f in
  let payload := if num_ltb (num_of_Z 0) delay then set_prop payload (js "delay") (VNum delay) else payload in
  mergeOutbound ob payload.

Definition enqueue_path (f : form_state) : E jsval :=
  e_template [ #"/v1/queues/"; e_encode (Ok (form_queueId f)); #"/enqueue"].

Definition enqueue_message (f : form_state) (r : jsval) : E jsval :=
  e_template [e_str (if num_ltb (num_of_Z 0) (delay_of f) then js "Delayed " else js "Enqueued ");
              (Ok r) @. "message_id" .|| ((Ok r) @. "scheduled") @? "schedule_id" .|| #"?"].

Definition enqueue : vprog state unit :=
  _ ← upd (on_status st_reset);
  f ← local s_form;
  if negb (truthy (form_queueId f)) then upd (on_status (st_fail (VStr (js "Select a queue first"))))
  else
    ob ← page out;
    m ← pure (enqueue_payload ob f);
    match m with
    | (_, Some headersError) => upd (on_status (st_fail (VStr headersError)))
    | (payload, None) =>
        prog_catch
          (path ← pure (enqueue_path f);
           r ← lib (pub_post (to_string path) (Some payload));
           msg ← pure (enqueue_message f r);
           upd (on_status (st_succeed msg)))
          (fun e => upd (on_status (st_fail e)))
    end.

(** ** The template *)

Definition render (p : panel) (v : state) : E (list (vnode (panel * state))) :=
  el "div" [at_ "class" "space-y-4"] [
    el "div" [] [
      el "h1" [at_ "class" "text-lg font-semibold tracking-tight"] [txt "Enqueue"];
      el "p" [at_ "class" "text-sm text-muted-foreground"] [
        txt " Add a job to a queue. No key = standard (queue parallelism). A key = FIFO for that entity. "];
      el "code" [at_ "class" "mt-1 block font-mono text-xs text-muted-foreground"] [txt "POST /v1/queues/{id}/enqueue"]];
    el "Alert" [] [
      el "AlertDescription" [] [
        txt " Retries and default concurrency come from the queue. Pass a routing key only when this entity must stay in order (for example ";
        el "code" [] [txt "user-42"];
        txt "). "]];
    el "Card" [] [
      el "CardHeader" [] [
        el "CardTitle" [] [txt "Queue"];
        el "CardDescription" [] [txt "Frozen webhook for this job"]];
      el "CardContent" [] [
        Field #"Queue" (Ok VUndef) (Ok VUndef) (Ok VUndef) (frag [
          AppSelect (Ok (form_queueId (s_form v))) (fun ev => upd (on_form (set_form_queueId ev)))
            (e_map (fun q => e_object [("value", queueId q); ("label", (((Ok q) @. "queue") .|| ((Ok q) @. "name")) .|| (queueId q))]) (Ok (queues (cat p)))) #"— create a queue first —" None])]];
    el "Card" [] [
      el "CardHeader" [] [
        el "CardTitle" [] [txt "Message"];
        el "CardDescription" [] [txt "Payload and delivery options"]];
      el "CardContent" [at_ "class" "grid gap-3 sm:grid-cols-2"] [
        Field #"Key" #"Optional. Empty = standard. Set to FIFO this entity (other keys still run in parallel)." (Ok VUndef) (Ok VUndef) (frag [
          el "Input" [
              model_ "v-model" (Ok (form_key (s_form v))) (fun ev => upd (on_form (set_form_key ev)));
              at_ "placeholder" "user-42"] []]);
        Field #"Priority" (Ok VUndef) (Ok VUndef) (Ok VUndef) (frag [
          el "Input" [
              model_ "v-model" (Ok (form_priority (s_form v))) (fun ev => upd (on_form (set_form_priority ev)));
              at_ "type" "number"] []]);
        Field #"Delay (ms)" (Ok VUndef) (Ok VUndef) (Ok VUndef) (frag [
          el "Input" [
              model_ "v-model" (Ok (form_delay (s_form v))) (fun ev => upd (on_form (set_form_delay ev)));
              at_ "type" "number"] []]);
        Field #"Idempotency" (Ok VUndef) (Ok VUndef) (Ok VUndef) (frag [
          el "Input" [
              model_ "v-model" (Ok (form_idempotency (s_form v))) (fun ev => upd (on_form (set_form_idempotency ev)))] []]);
        Field #"Body" (Ok VUndef) (Ok VUndef) #"sm:col-span-2" (frag [
          el "Textarea" [
              model_ "v-model" (Ok (form_body (s_form v))) (fun ev => upd (on_form (set_form_body ev)));
              at_ "class" "font-mono text-xs";
              at_ "rows" "4"] []])]];
    el "div" [at_ "class" "flex items-center gap-2"] [
      el "Button" [at_ "size" "sm"; on_ "@click" (fun _ => enqueue)] [txt "Enqueue"];
      ActionMessage (Ok (st_error (s_status v))) (Ok (st_ok (s_status v))) (Ok VUndef)]].
End handlers.
