(* ===== verification/QueuesView.v ===== *)
(** * [views/QueuesView.vue]: creating, listing and deleting queues *)

From stdpp Require Import base list gmap strings.
From Stdlib Require Import NArith ZArith Lia String SpecFloat.
From S2P Require Import Prelude JsString JsNum JsVal Json Prog State Storage Api Payload Catalog View Form Session.
Local Open Scope js_scope.

(** The reactive [form]. *)
Record form_state := Form_ {
  form_queue : jsval;
  form_url : jsval;
  form_secret : jsval;
  form_parallelism : jsval;
  form_retry : RetryState
}.

Definition set_form_queue (v : jsval) (r : form_state) : form_state :=
  {| form_queue := v; form_url := form_url r; form_secret := form_secret r; form_parallelism := form_parallelism r; form_retry := form_retry r |}.
Definition set_form_url (v : jsval) (r : form_state) : form_state :=
  {| form_queue := form_queue r; form_url := v; form_secret := form_secret r; form_parallelism := form_parallelism r; form_retry := form_retry r |}.
Definition set_form_secret (v : jsval) (r : form_state) : form_state :=
  {| form_queue := form_queue r; form_url := form_url r; form_secret := v; form_parallelism := form_parallelism r; form_retry := form_retry r |}.
Definition set_form_parallelism (v : jsval) (r : form_state) : form_state :=
  {| form_queue := form_queue r; form_url := form_url r; form_secret := form_secret r; form_parallelism := v; form_retry := form_retry r |}.
Definition set_form_retry (v : RetryState) (r : form_state) : form_state :=
  {| form_queue := form_queue r; form_url := form_url r; form_secret := form_secret r; form_parallelism := form_parallelism r; form_retry := v |}.

(** The component's state. *)
Record state := State_ {
  s_form : form_state;
  s_createStatus : status;
  s_listStatus : status
}.

Definition set_s_form (v : form_state) (r : state) : state :=
  {| s_form := v; s_createStatus := s_createStatus r; s_listStatus := s_listStatus r |}.
Definition set_s_createStatus (v : status) (r : state) : state :=
  {| s_form := s_form r; s_createStatus := v; s_listStatus := s_listStatus r |}.
Definition set_s_listStatus (v : status) (r : state) : state :=
  {| s_form := s_form r; s_createStatus := s_createStatus r; s_listStatus := v |}.

Definition on_form (f : form_state -> form_state) (v : state) : state := set_s_form (f (s_form v)) v.
Definition on_createStatus (f : status -> status) (v : state) : state := set_s_createStatus (f (s_createStatus v)) v.
Definition on_listStatus (f : status -> status) (v : state) : state := set_s_listStatus (f (s_listStatus v)) v.

(** The state [setup] creates. *)
Definition setup : state :=
  {| s_form := {| form_queue := VStr (js "jobs"); form_url := VStr (js "https://webhook.site"); form_secret := VStr (js "whsec_demo"); form_parallelism := VStr []; form_retry := defaultRetry |};
     s_createStatus := useActionStatus;
     s_listStatus := useActionStatus |}.

Section handlers.
Context `{Platform}.

Definition mounted : vprog state unit := spawn (lib refreshQueues).

(** The body of the request [create] sends. *)
Definition create_body (f : form_state) : E jsval :=
  body ← mergeRetry (VObj ["queue" ~> form_queue f; "url" ~> form_url f; "secret" ~> form_secret f]) (form_retry f);
  let p := parse_int (to_string (form_parallelism f)) in
  t ← e_trim (Ok (form_parallelism f));
  Ok (if negb (strict_eq t (VStr [])) && num_is_finite p
      then set_prop body (js "parallelism") (VNum (num_max (num_of_Z 0) p)) else body).

Definition create : vprog state unit :=
  _ ← upd (on_createStatus st_reset);
  prog_catch
    (body ← eval (fun v => create_body (s_form v));
     r ← lib (pub_post (js "/v1/queues") (Some body));
     msg ← pure (e_template [ #"Queue "; (Ok r) @. "queue"; #" → "; (Ok r) @. "queue_id"]);
     _ ← upd (on_createStatus (st_succeed msg));
     lib refreshQueues)
    (fun e => upd (on_createStatus (st_fail e))).

Definition remove (q : jsval) : vprog state unit :=
  _ ← upd (on_listStatus st_reset);
  prog_catch
    (path ← pure (e_template [ #"/v1/queues/"; e_encode (queueId q)]);
     _ ← lib (pub_delete (to_string path));
     _ ← upd (on_listStatus (st_succeed (VStr (js "Queue removed"))));
     lib refreshQueues)
    (fun e => upd (on_listStatus (st_fail e))).

(** ** The template *)

Definition render (p : panel) (v : state) : E (list (vnode (panel * state))) :=
  el "div" [at_ "class" "space-y-4"] [
    el "div" [] [
      el "h1" [at_ "class" "text-lg font-semibold tracking-tight"] [txt "Queues"];
      el "p" [at_ "class" "text-sm text-muted-foreground"] [
        txt " Named webhook. Retries and parallelism live here. Enqueue with no key is standard; a key is FIFO for that entity. "];
      el "code" [at_ "class" "mt-1 block font-mono text-xs text-muted-foreground"] [txt "POST /v1/queues"]];
    el "Card" [] [
      el "CardHeader" [] [
        el "CardTitle" [] [txt "Create queue"];
        el "CardDescription" [] [txt "Name, webhook, retries, and how many jobs can run at once"]];
      el "CardContent" [at_ "class" "grid gap-2 sm:grid-cols-2"] [
        Field #"Name" (Ok VUndef) (Ok VUndef) (Ok VUndef) (frag [
          el "Input" [
              model_ "v-model" (Ok (form_queue (s_form v))) (fun ev => upd (on_form (set_form_queue ev)))] []]);
        Field #"HMAC secret" (Ok VUndef) (Ok VUndef) (Ok VUndef) (frag [
          el "Input" [
              model_ "v-model" (Ok (form_secret (s_form v))) (fun ev => upd (on_form (set_form_secret ev)));
              at_ "class" "font-mono"] []]);
        Field #"Webhook URL" (Ok VUndef) (Ok VUndef) #"sm:col-span-2" (frag [
          el "Input" [
              model_ "v-model" (Ok (form_url (s_form v))) (fun ev => upd (on_form (set_form_url ev)));
              at_ "class" "font-mono text-xs"] []]);
        Field #"Parallelism" #"Max in-flight without a key. Empty = unlimited. 1 = the whole queue is serial." (Ok VUndef) (Ok VUndef) (frag [
          el "Input" [
              model_ "v-model" (Ok (form_parallelism (s_form v))) (fun ev => upd (on_form (set_form_parallelism ev)));
              at_ "type" "number";
              at_ "min" "0";
              at_ "placeholder" "unlimited"] []]);
        el "div" [at_ "class" "sm:col-span-2"] [
          RetryFields (form_retry (s_form v)) (fun f => upd (on_form (fun r => set_form_retry (f (form_retry r)) r)))]];
      el "CardFooter" [] [
        el "Button" [at_ "size" "sm"; on_ "@click" (fun _ => create)] [txt "Create"];
        ActionMessage (Ok (st_error (s_createStatus v))) (Ok (st_ok (s_createStatus v))) (Ok VUndef)]];
    el "Card" [] [
      el "CardHeader" [] [el "CardTitle" [] [txt "Registered"]];
      el "CardContent" [] [
        ActionMessage (Ok (st_error (s_listStatus v))) (Ok (st_ok (s_listStatus v))) #"mb-2";
        el "Table" [] [
          el "TableHeader" [] [
            el "TableRow" [] [
              el "TableHead" [] [txt "ID"];
              el "TableHead" [] [txt "Name"];
              el "TableHead" [] [txt "Parallelism"];
              el "TableHead" [] [txt "URL"];
              el "TableHead" [] []]];
          el "TableBody" [] [
            v_for (Ok (queues (cat p))) (fun q =>
              el "TableRow" [bind_ "key" (queueId q)] [
                el "TableCell" [at_ "class" "font-mono text-xs"] [interp (queueId q)];
                el "TableCell" [] [interp (((Ok q) @. "queue") .|| ((Ok q) @. "name"))];
                el "TableCell" [at_ "class" "font-mono text-xs"] [interp (((Ok q) @. "parallelism") .?? #"∞")];
                el "TableCell" [at_ "class" "max-w-xs truncate font-mono text-xs"] [interp ((Ok q) @. "url")];
                el "TableCell" [] [
                  el "Button" [
                      at_ "size" "sm";
                      at_ "variant" "destructive";
                      on_ "@click" (fun _ => remove q)] [txt "Delete"]]])]]]]].
End handlers.
