(* ===== verification/FlowsView.v ===== *)
(** * [views/FlowsView.vue]: flow-control profiles *)

From stdpp Require Import base list gmap strings.
From Stdlib Require Import NArith ZArith Lia String SpecFloat.
From S2P Require Import Prelude JsString JsNum JsVal Json Prog State Storage Api Payload Catalog View Form Session.
Local Open Scope js_scope.

(** The reactive [form]. *)
Record form_state := Form_ {
  form_key : jsval;
  form_parallelism : jsval;
  form_rate : jsval;
  form_period : jsval
}.

Definition set_form_key (v : jsval) (r : form_state) : form_state :=
  {| form_key := v; form_parallelism := form_parallelism r; form_rate := form_rate r; form_period := form_period r |}.
Definition set_form_parallelism (v : jsval) (r : form_state) : form_state :=
  {| form_key := form_key r; form_parallelism := v; form_rate := form_rate r; form_period := form_period r |}.
Definition set_form_rate (v : jsval) (r : form_state) : form_state :=
  {| form_key := form_key r; form_parallelism := form_parallelism r; form_rate := v; form_period := form_period r |}.
Definition set_form_period (v : jsval) (r : form_state) : form_state :=
  {| form_key := form_key r; form_parallelism := form_parallelism r; form_rate := form_rate r; form_period := v |}.

(** The component's state. *)
Record state := State_ {
  s_form : form_state;
  s_createStatus : status;
  s_listStatus : status
}.

Definition set_s_form (v : form_state) (r : state) : state :=
  {| s_form := v; s_createStatus := s_createStatus r; s_listStatus := s_listStatus r |}.
Definition set_s_createStatus (v : status) (r : state) : state :=
  {| s_form := s_form r; s_createStatus := v; s_listStatus := s_listStatus r |}.
Definition set_s_listStatus (v : status) (r : state) : state :=
  {| s_form := s_form r; s_createStatus := s_createStatus r; s_listStatus := v |}.

Definition on_form (f : form_state -> form_state) (v : state) : state := set_s_form (f (s_form v)) v.
Definition on_createStatus (f : status -> status) (v : state) : state := set_s_createStatus (f (s_createStatus v)) v.
Definition on_listStatus (f : status -> status) (v : state) : state := set_s_listStatus (f (s_listStatus v)) v.

(** The state [setup] creates. *)
Definition setup : state :=
  {| s_form := {| form_key := VStr (js "user-1"); form_parallelism := VNum (num_of_Z 1); form_rate := VNum (num_of_Z 100); form_period := VNum (num_of_Z 60) |};
     s_createStatus := useActionStatus;
     s_listStatus := useActionStatus |}.

Section handlers.
Context `{Platform}.

Definition mounted : vprog state unit := spawn (lib refreshFlows).

(** [key], [parallelism], [rate] and [period_secs] of the profile to create. *)
Definition form_flow (f : form_state) : jsval :=
  VObj ["key" ~> form_key f;
        "parallelism" ~> VNum (number_or (form_parallelism f) 1);
        "rate" ~> VNum (number_or (form_rate f) 0);
        "period_secs" ~> VNum (number_or (form_period f) 60)].

(** An existing profile is the same when the key and the three numbers are. *)
Definition same_flow (f : form_state) (fl : jsval) : E bool :=
  v ← ((Ok fl) @. "key" === Ok (form_key f)) .&&
      (e_Number ((Ok fl) @. "parallelism") === Ok (VNum (number_or (form_parallelism f) 1))) .&&
      (e_Number ((Ok fl) @. "rate") === Ok (VNum (number_or (form_rate f) 0))) .&&
      (e_Number ((Ok fl) @. "period_secs") === Ok (VNum (number_or (form_period f) 60)));
  Ok (truthy v).

Definition existing (c : catalog_state) (f : form_state) : E jsval :=
  l ← elements_of (flows c); find_elem (same_flow f) l.

Definition create : vprog state unit :=
  _ ← upd (on_createStatus st_reset);
  f ← local s_form;
  hit ← eval_page (fun p v => existing (cat p) f);
  if truthy hit then
    msg ← pure (e_template [ #"duplicate flow "; flowId hit]);
    upd (on_createStatus (st_fail msg))
  else
    prog_catch
      (r ← lib (pub_post (js "/v1/flows") (Some (form_flow f)));
       msg ← pure (e_template [ #"Flow created "; (Ok r) @. "flow_id"]);
       _ ← upd (on_createStatus (st_succeed msg));
       lib refreshFlows)
      (fun e => upd (on_createStatus (st_fail e))).

Definition remove (f : jsval) : vprog state unit :=
  _ ← upd (on_listStatus st_reset);
  prog_catch
    (path ← pure (e_template [ #"/v1/flows/"; e_encode (flowId f)]);
     _ ← lib (pub_delete (to_string path));
     _ ← upd (on_listStatus (st_succeed (VStr (js "Flow removed"))));
     lib refreshFlows)
    (fun e => upd (on_listStatus (st_fail e))).

(** ** The template *)

Definition render (p : panel) (v : state) : E (list (vnode (panel * state))) :=
  el "div" [at_ "class" "space-y-4"] [
    el "div" [] [
      el "h1" [at_ "class" "text-lg font-semibold tracking-tight"] [txt "Flows"];
      el "p" [at_ "class" "text-sm text-muted-foreground"] [
        txt " Named rate + parallelism limits for Publish (and groups). Queue jobs use the queue’s parallelism or a message key. "];
      el "code" [at_ "class" "mt-1 block font-mono text-xs text-muted-foreground"] [txt "POST /v1/flows"]];
    el "Card" [] [
      el "CardContent" [at_ "class" "grid gap-3 pt-6 sm:grid-cols-4"] [
        Field #"Lane key" #"Usually the publish routing key" (Ok VUndef) (Ok VUndef) (frag [
          el "Input" [
              model_ "v-model" (Ok (form_key (s_form v))) (fun ev => upd (on_form (set_form_key ev)))] []]);
        Field #"Parallelism" (Ok VUndef) (Ok VUndef) (Ok VUndef) (frag [
          el "Input" [
              model_ "v-model" (Ok (form_parallelism (s_form v))) (fun ev => upd (on_form (set_form_parallelism ev)));
              at_ "type" "number";
              at_ "min" "1"] []]);
        Field #"Rate" (Ok VUndef) (Ok VUndef) (Ok VUndef) (frag [
          el "Input" [
              model_ "v-model" (Ok (form_rate (s_form v))) (fun ev => upd (on_form (set_form_rate ev)));
              at_ "type" "number"] []]);
        Field #"Period (sec)" (Ok VUndef) (Ok VUndef) (Ok VUndef) (frag [
          el "Input" [
              model_ "v-model" (Ok (form_period (s_form v))) (fun ev => upd (on_form (set_form_period ev)));
              at_ "type" "number"] []])];
      el "CardFooter" [] [
        el "Button" [at_ "size" "sm"; on_ "@click" (fun _ => create)] [txt "Create profile"];
        ActionMessage (Ok (st_error (s_createStatus v))) (Ok (st_ok (s_createStatus v))) (Ok VUndef)]];
    el "Card" [] [
      el "CardHeader" [] [el "CardTitle" [] [txt "Profiles"]];
      el "CardContent" [] [
        ActionMessage (Ok (st_error (s_listStatus v))) (Ok (st_ok (s_listStatus v))) #"mb-2";
        el "Table" [] [
          el "TableHeader" [] [
            el "TableRow" [] [
              el "TableHead" [] [txt "ID"];
              el "TableHead" [] [txt "Lane"];
              el "TableHead" [] [txt "Par."];
              el "TableHead" [] [txt "Rate"];
              el "TableHead" [] [txt "Period"];
              el "TableHead" [] []]];
          el "TableBody" [] [
            v_for (Ok (flows (cat p))) (fun f =>
              el "TableRow" [bind_ "key" (flowId f)] [
                el "TableCell" [at_ "class" "font-mono text-xs"] [interp (flowId f)];
                el "TableCell" [] [interp ((Ok f) @. "key")];
                el "TableCell" [] [interp ((Ok f) @. "parallelism")];
                el "TableCell" [] [interp ((Ok f) @. "rate")];
                el "TableCell" [] [interp ((Ok f) @. "period_secs")];
                el "TableCell" [] [
                  el "Button" [
                      at_ "size" "sm";
                      at_ "variant" "destructive";
                      on_ "@click" (fun _ => remove f)] [txt "Delete"]]])]]]]].
End handlers.
