(* ===== verification/PublishView.v ===== *)
(** * [views/PublishView.vue]: direct publish, fan-out and pacing *)

From stdpp Require Import base list gmap strings.
From Stdlib Require Import NArith ZArith Lia String SpecFloat.
From S2P Require Import Prelude JsString JsNum JsVal Json Prog State Storage Api Payload Catalog View Form Session.
Local Open Scope js_scope.

(** The reactive [form]. *)
Record form_state := Form_ {
  form_mode : jsval;
  form_secret : jsval;
  form_url : jsval;
  form_groupId : jsval;
  form_key : jsval;
  form_priority : jsval;
  form_delay : jsval;
  form_idempotency : jsval;
  form_body : jsval;
  form_pacing : jsval;
  form_flowId : jsval;
  form_flowPar : jsval;
  form_flowRate : jsval;
  form_flowPeriod : jsval;
  form_retry : RetryState
}.

Definition set_form_mode (v : jsval) (r : form_state) : form_state :=
  {| form_mode := v; form_secret := form_secret r; form_url := form_url r; form_groupId := form_groupId r; form_key := form_key r; form_priority := form_priority r; form_delay := form_delay r; form_idempotency := form_idempotency r; form_body := form_body r; form_pacing := form_pacing r; form_flowId := form_flowId r; form_flowPar := form_flowPar r; form_flowRate := form_flowRate r; form_flowPeriod := form_flowPeriod r; form_retry := form_retry r |}.
Definition set_form_secret (v : jsval) (r : form_state) : form_state :=
  {| form_mode := form_mode r; form_secret := v; form_url := form_url r; form_groupId := form_groupId r; form_key := form_key r; form_priority := form_priority r; form_delay := form_delay r; form_idempotency := form_idempotency r; form_body := form_body r; form_pacing := form_pacing r; form_flowId := form_flowId r; form_flowPar := form_flowPar r; form_flowRate := form_flowRate r; form_flowPeriod := form_flowPeriod r; form_retry := form_retry r |}.
Definition set_form_url (v : jsval) (r : form_state) : form_state :=
  {| form_mode := form_mode r; form_secret := form_secret r; form_url := v; form_groupId := form_groupId r; form_key := form_key r; form_priority := form_priority r; form_delay := form_delay r; form_idempotency := form_idempotency r; form_body := form_body r; form_pacing := form_pacing r; form_flowId := form_flowId r; form_flowPar := form_flowPar r; form_flowRate := form_flowRate r; form_flowPeriod := form_flowPeriod r; form_retry := form_retry r |}.
Definition set_form_groupId (v : jsval) (r : form_state) : form_state :=
  {| form_mode := form_mode r; form_secret := form_secret r; form_url := form_url r; form_groupId := v; form_key := form_key r; form_priority := form_priority r; form_delay := form_delay r; form_idempotency := form_idempotency r; form_body := form_body r; form_pacing := form_pacing r; form_flowId := form_flowId r; form_flowPar := form_flowPar r; form_flowRate := form_flowRate r; form_flowPeriod := form_flowPeriod r; form_retry := form_retry r |}.
Definition set_form_key (v : jsval) (r : form_state) : form_state :=
  {| form_mode := form_mode r; form_secret := form_secret r; form_url := form_url r; form_groupId := form_groupId r; form_key := v; form_priority := form_priority r; form_delay := form_delay r; form_idempotency := form_idempotency r; form_body := form_body r; form_pacing := form_pacing r; form_flowId := form_flowId r; form_flowPar := form_flowPar r; form_flowRate := form_flowRate r; form_flowPeriod := form_flowPeriod r; form_retry := form_retry r |}.
Definition set_form_priority (v : jsval) (r : form_state) : form_state :=
  {| form_mode := form_mode r; form_secret := form_secret r; form_url := form_url r; form_groupId := form_groupId r; form_key := form_key r; form_priority := v; form_delay := form_delay r; form_idempotency := form_idempotency r; form_body := form_body r; form_pacing := form_pacing r; form_flowId := form_flowId r; form_flowPar := form_flowPar r; form_flowRate := form_flowRate r; form_flowPeriod := form_flowPeriod r; form_retry := form_retry r |}.
Definition set_form_delay (v : jsval) (r : form_state) : form_state :=
  {| form_mode := form_mode r; form_secret := form_secret r; form_url := form_url r; form_groupId := form_groupId r; form_key := form_key r; form_priority := form_priority r; form_delay := v; form_idempotency := form_idempotency r; form_body := form_body r; form_pacing := form_pacing r; form_flowId := form_flowId r; form_flowPar := form_flowPar r; form_flowRate := form_flowRate r; form_flowPeriod := form_flowPeriod r; form_retry := form_retry r |}.
Definition set_form_idempotency (v : jsval) (r : form_state) : form_state :=
  {| form_mode := form_mode r; form_secret := form_secret r; form_url := form_url r; form_groupId := form_groupId r; form_key := form_key r; form_priority := form_priority r; form_delay := form_delay r; form_idempotency := v; form_body := form_body r; form_pacing := form_pacing r; form_flowId := form_flowId r; form_flowPar := form_flowPar r; form_flowRate := form_flowRate r; form_flowPeriod := form_flowPeriod r; form_retry := form_retry r |}.
Definition set_form_body (v : jsval) (r : form_state) : form_state :=
  {| form_mode := form_mode r; form_secret := form_secret r; form_url := form_url r; form_groupId := form_groupId r; form_key := form_key r; form_priority := form_priority r; form_delay := form_delay r; form_idempotency := form_idempotency r; form_body := v; form_pacing := form_pacing r; form_flowId := form_flowId r; form_flowPar := form_flowPar r; form_flowRate := form_flowRate r; form_flowPeriod := form_flowPeriod r; form_retry := form_retry r |}.
Definition set_form_pacing (v : jsval) (r : form_state) : form_state :=
  {| form_mode := form_mode r; form_secret := form_secret r; form_url := form_url r; form_groupId := form_groupId r; form_key := form_key r; form_priority := form_priority r; form_delay := form_delay r; form_idempotency := form_idempotency r; form_body := form_body r; form_pacing := v; form_flowId := form_flowId r; form_flowPar := form_flowPar r; form_flowRate := form_flowRate r; form_flowPeriod := form_flowPeriod r; form_retry := form_retry r |}.
Definition set_form_flowId (v : jsval) (r : form_state) : form_state :=
  {| form_mode := form_mode r; form_secret := form_secret r; form_url := form_url r; form_groupId := form_groupId r; form_key := form_key r; form_priority := form_priority r; form_delay := form_delay r; form_idempotency := form_idempotency r; form_body := form_body r; form_pacing := form_pacing r; form_flowId := v; form_flowPar := form_flowPar r; form_flowRate := form_flowRate r; form_flowPeriod := form_flowPeriod r; form_retry := form_retry r |}.
Definition set_form_flowPar (v : jsval) (r : form_state) : form_state :=
  {| form_mode := form_mode r; form_secret := form_secret r; form_url := form_url r; form_groupId := form_groupId r; form_key := form_key r; form_priority := form_priority r; form_delay := form_delay r; form_idempotency := form_idempotency r; form_body := form_body r; form_pacing := form_pacing r; form_flowId := form_flowId r; form_flowPar := v; form_flowRate := form_flowRate r; form_flowPeriod := form_flowPeriod r; form_retry := form_retry r |}.
Definition set_form_flowRate (v : jsval) (r : form_state) : form_state :=
  {| form_mode := form_mode r; form_secret := form_secret r; form_url := form_url r; form_groupId := form_groupId r; form_key := form_key r; form_priority := form_priority r; form_delay := form_delay r; form_idempotency := form_idempotency r; form_body := form_body r; form_pacing := form_pacing r; form_flowId := form_flowId r; form_flowPar := form_flowPar r; form_flowRate := v; form_flowPeriod := form_flowPeriod r; form_retry := form_retry r |}.
Definition set_form_flowPeriod (v : jsval) (r : form_state) : form_state :=
  {| form_mode := form_mode r; form_secret := form_secret r; form_url := form_url r; form_groupId := form_groupId r; form_key := form_key r; form_priority := form_priority r; form_delay := form_delay r; form_idempotency := form_idempotency r; form_body := form_body r; form_pacing := form_pacing r; form_flowId := form_flowId r; form_flowPar := form_flowPar r; form_flowRate := form_flowRate r; form_flowPeriod := v; form_retry := form_retry r |}.
Definition set_form_retry (v : RetryState) (r : form_state) : form_state :=
  {| form_mode := form_mode r; form_secret := form_secret r; form_url := form_url r; form_groupId := form_groupId r; form_key := form_key r; form_priority := form_priority r; form_delay := form_delay r; form_idempotency := form_idempotency r; form_body := form_body r; form_pacing := form_pacing r; form_flowId := form_flowId r; form_flowPar := form_flowPar r; form_flowRate := form_flowRate r; form_flowPeriod := form_flowPeriod r; form_retry := v |}.

(** The component's state. *)
Record state := State_ {
  s_form : form_state;
  s_status : status
}.

Definition set_s_form (v : form_state) (r : state) : state :=
  {| s_form := v; s_status := s_status r |}.
Definition set_s_status (v : status) (r : state) : state :=
  {| s_form := s_form r; s_status := v |}.

Definition on_form (f : form_state -> form_state) (v : state) : state := set_s_form (f (s_form v)) v.
Definition on_status (f : status -> status) (v : state) : state := set_s_status (f (s_status v)) v.

(** The state [setup] creates. *)
Definition setup : state :=
  {| s_form := {| form_mode := VStr (js "url"); form_secret := VStr (js "whsec_demo"); form_url := VStr (js "https://webhook.site"); form_groupId := VStr []; form_key := VStr (js "user-1"); form_priority := VNum (num_of_Z 5); form_delay := VStr []; form_idempotency := VStr []; form_body := VStr (jsq "{'hello':'direct'}"); form_pacing := VStr (js "none"); form_flowId := VStr []; form_flowPar := VStr (js "1"); form_flowRate := VStr (js "0"); form_flowPeriod := VStr (js "60"); form_retry := defaultRetry |};
     s_status := useActionStatus |}.

Section handlers.
Context `{Platform}.

Definition flow_option (f : jsval) : E jsval :=
  e_object [("value", flowId f);
            ("label", e_template [(Ok f) @. "key" .|| flowId f; #" · "; (Ok f) @. "parallelism" .?? e_num 1;
                                  #" in-flight · "; (Ok f) @. "rate" .?? e_num 0; #"/";
                                  (Ok f) @. "period_secs" .?? e_num 60; #"s"])].

Definition flowOptions (c : catalog_state) : E jsval := e_map flow_option (Ok (flows c)).

Definition selectedFlow (c : catalog_state) (f : form_state) : E jsval :=
  l ← elements_of (flows c);
  hit ← find_elem (fun fl => id ← flowId fl; Ok (strict_eq id (form_flowId f))) l;
  Ok (if truthy hit then hit else VNull).

(** [form.mode !== "group" && form.pacing === "profile"] *)
Definition is_group (f : form_state) : bool := strict_eq (form_mode f) (VStr (js "group")).
Definition paced (f : form_state) (mode : string) : bool := strict_eq (form_pacing f) (VStr (js mode)).
Definition hideRoutingKey (f : form_state) : bool := negb (is_group f) && paced f "profile".

Definition mounted : vprog state unit :=
  _ ← spawn (lib refreshGroups);
  spawn (lib refreshFlows).

(** [Number.isFinite(x) && ok(x) ? x : d] of [x = parseInt(String(v), 10)]. *)
Definition int_or (ok : num -> bool) (v : jsval) (d : Z) : jsval :=
  let x := parse_int (to_string v) in
  VNum (if num_is_finite x && ok x then x else num_of_Z d).
Definition positive (x : num) : bool := num_ltb (num_of_Z 0) x.
Definition non_negative (x : num) : bool := num_leb (num_of_Z 0) x.

(** The outcome of the checks of [publish]: a payload, or the message it fails with. *)
Inductive checked := Payload (v : jsval) | Refused (msg : jstring).

(** The routing key: the form's, or the lane of the selected profile. *)
Definition publish_key (c : catalog_state) (f : form_state) : E (jsval + jstring) :=
  key ← e_trim (Ok (form_key f));
  if hideRoutingKey f then
    if negb (truthy (form_flowId f)) then Ok (inr (js "Select a flow profile, or switch pacing to Unlimited"))
    else
      fl ← selectedFlow c f;
      lane ← e_otrim ((Ok fl) @? "key");
      if negb (truthy lane) then Ok (inr (js "That profile has no lane key")) else Ok (inl lane)
  else Ok (inl key).

(** The destination part of the payload. *)
Definition publish_target (f : form_state) (payload : jsval) : jsval + jstring :=
  if is_group f then
    if negb (truthy (form_groupId f)) then inr (js "Select a group first")
    else inl (set_prop payload (js "group_id") (form_groupId f))
  else
    let payload := set_prop (set_prop payload (js "url") (form_url f)) (js "secret") (form_secret f) in
    inl (if paced f "profile" then set_prop payload (js "flow_id") (form_flowId f)
         else if paced f "custom" then
           set_prop payload (js "flowControl")
             (VObj ["parallelism" ~> int_or positive (form_flowPar f) 1;
                    "rate" ~> int_or non_negative (form_flowRate f) 0;
                    "period" ~> int_or positive (form_flowPeriod f) 60])
         else payload).

(** The optional parts: idempotency key, retries, delay, outbound defaults. *)
Definition publish_options (ob : outbound_state) (f : form_state) (payload : jsval) : E checked :=
  idem ← e_trim (Ok (form_idempotency f));
  let payload := if truthy idem then set_prop payload (js "idempotency_key") idem else payload in
  payload ← mergeRetry payload (form_retry f);
  let delay := parse_int (to_string (form_delay f)) in
  let payload := if positive delay then set_prop payload (js "delay") (VNum delay) else payload in
  m ← mergeOutbound ob payload;
  match m with (_, Some msg) => Ok (Refused msg) | (payload, None) => Ok (Payload payload) end.

Definition publish_payload (c : catalog_state) (ob : outbound_state) (f : form_state) : E checked :=
  k ← publish_key c f;
  match k with
  | inr msg => Ok (Refused msg)
  | inl key =>
      let payload := VObj ["key" ~> key; "body" ~> parseBodyField (form_body f);
                           "priority" ~> VNum (number_or (form_priority f) 5)] in
      match publish_target f payload with
      | inr msg => Ok (Refused msg)
      | inl payload => publish_options ob f payload
      end
  end.

Definition publish_message (r : jsval) : E jsval :=
  e_if ((Ok r) @. "group_id")
    (e_template [ #"Group publish accepted "; (Ok r) @. "accepted" .|| e_num 0; #" / ";
                 e_length ((Ok r) @. "deliveries" .|| Ok (VArr []))])
    (e_template [ #"Published "; (Ok r) @. "message_id" .|| ((Ok r) @. "scheduled") @? "schedule_id" .|| #"ok"]).

Definition publish : vprog state unit :=
  _ ← upd (on_status st_reset);
  m ← eval_page (fun p v => publish_payload (cat p) (out p) (s_form v));
  match m with
  | Refused msg => upd (on_status (st_fail (VStr msg)))
  | Payload payload =>
      prog_catch
        (r ← lib (pub_post (js "/v1/publish") (Some payload));
         msg ← pure (publish_message r);
         _ ← upd (on_status (st_succeed msg));
         if truthy (own_get payload (js "flowControl")) then lib refreshFlows else Ret tt)
        (fun e => upd (on_status (st_fail e)))
  end.

(** ** The template *)

Definition render (p : panel) (v : state) : E (list (vnode (panel * state))) :=
  el "div" [at_ "class" "space-y-4"] [
    el "div" [] [
      el "h1" [at_ "class" "text-lg font-semibold tracking-tight"] [txt "Publish"];
      el "p" [at_ "class" "text-sm text-muted-foreground"] [txt "One webhook, or fan-out to every group member."];
      el "code" [at_ "class" "mt-1 block font-mono text-xs text-muted-foreground"] [txt "POST /v1/publish"]];
    el "Alert" [] [
      el "AlertDescription" [] [
        txt " Leave pacing off for a plain webhook. A saved flow already has a lane key — routing key is hidden and taken from the profile. "]];
    el "Card" [] [
      el "CardHeader" [] [
        el "CardTitle" [] [txt "Destination"];
        el "CardDescription" [] [txt "Where this payload is delivered"]];
      el "CardContent" [at_ "class" "grid gap-3 sm:grid-cols-2"] [
        Field #"Mode" (Ok VUndef) (Ok VUndef) (Ok VUndef) (frag [
          AppSelect (Ok (form_mode (s_form v))) (fun ev => upd (on_form (set_form_mode ev)))
            (e_array [e_object [("value", #"url"); ("label", #"URL — one webhook")]; e_object [("value", #"group"); ("label", #"Group — fan-out")]]) (Ok VUndef) None]);
        v_if ((Ok (form_mode (s_form v))) !== #"group")
          (Field #"Secret" (Ok VUndef) (Ok VUndef) (Ok VUndef) (frag [
            el "Input" [
                model_ "v-model" (Ok (form_secret (s_form v))) (fun ev => upd (on_form (set_form_secret ev)));
                at_ "class" "font-mono"] []]))
          none;
        v_if ((Ok (form_mode (s_form v))) !== #"group")
          (Field #"URL" (Ok VUndef) (Ok VUndef) #"sm:col-span-2" (frag [
            el "Input" [
                model_ "v-model" (Ok (form_url (s_form v))) (fun ev => upd (on_form (set_form_url ev)));
                at_ "class" "font-mono text-xs"] []]))
          (Field #"Group" (Ok VUndef) (Ok VUndef) #"sm:col-span-2" (frag [
            AppSelect (Ok (form_groupId (s_form v))) (fun ev => upd (on_form (set_form_groupId ev)))
              (e_map (fun g => e_object [("value", groupId g); ("label", ((Ok g) @. "name") .|| (groupId g))]) (Ok (groups (cat p)))) #"— select group —" None]))]];
    v_if ((Ok (form_mode (s_form v))) !== #"group")
      (el "Card" [] [
        el "CardHeader" [] [
          el "CardTitle" [] [txt "Pacing"];
          el "CardDescription" [] [
            txt " Optional. Limits how fast this routing key is delivered. Group members already have their own limits. "]];
        el "CardContent" [at_ "class" "grid gap-3 sm:grid-cols-2"] [
          Field #"Mode" (Ok VUndef) (Ok VUndef) #"sm:col-span-2" (frag [
            AppSelect (Ok (form_pacing (s_form v))) (fun ev => upd (on_form (set_form_pacing ev)))
              (e_array [e_object [("value", #"none"); ("label", #"Unlimited — deliver as workers allow")]; e_object [("value", #"profile"); ("label", #"Saved flow profile")]; e_object [("value", #"custom"); ("label", #"Custom limits for this routing key")]]) (Ok VUndef) None]);
          v_if ((Ok (form_pacing (s_form v))) === #"profile")
            (frag [
              Field #"Profile" (e_if ((selectedFlow (cat p) (s_form v)) @? "key") (e_template [ #"Lane "; (selectedFlow (cat p) (s_form v)) @. "key"; #" is used as the routing key."]) (Ok VUndef)) (Ok VUndef) #"sm:col-span-2" (frag [
                AppSelect (Ok (form_flowId (s_form v))) (fun ev => upd (on_form (set_form_flowId ev)))
                  (flowOptions (cat p)) #"— select a profile —" None]);
              v_if (e_not ((flowOptions (cat p)) @. "length"))
                (el "p" [at_ "class" "sm:col-span-2 text-xs text-muted-foreground"] [
                  txt " No profiles yet. ";
                  el "RouterLink" [
                      at_ "to" "/flows";
                      at_ "class" "text-primary underline-offset-4 hover:underline"] [txt "Create one on Flows"];
                  txt " , or choose custom limits. "])
                none])
          (v_if ((Ok (form_pacing (s_form v))) === #"custom")
            (frag [
              Field #"Parallelism" #"Max in-flight. 1 = FIFO for this key." (Ok VUndef) (Ok VUndef) (frag [
                el "Input" [
                    model_ "v-model" (Ok (form_flowPar (s_form v))) (fun ev => upd (on_form (set_form_flowPar ev)));
                    at_ "type" "number";
                    at_ "min" "1"] []]);
              Field #"Rate" #"0 = no rate cap" (Ok VUndef) (Ok VUndef) (frag [
                el "Input" [
                    model_ "v-model" (Ok (form_flowRate (s_form v))) (fun ev => upd (on_form (set_form_flowRate ev)));
                    at_ "type" "number";
                    at_ "min" "0"] []]);
              Field #"Period (sec)" #"Window for the rate cap" (Ok VUndef) (Ok VUndef) (frag [
                el "Input" [
                    model_ "v-model" (Ok (form_flowPeriod (s_form v))) (fun ev => upd (on_form (set_form_flowPeriod ev)));
                    at_ "type" "number";
                    at_ "min" "1"] []])])
            none)]])
      none;
    el "Card" [] [
      el "CardHeader" [] [
        el "CardTitle" [] [txt "Message"];
        el "CardDescription" [] [txt "Payload and delivery options"]];
      el "CardContent" [at_ "class" "grid gap-3 sm:grid-cols-2"] [
        v_if (e_not (Ok (VBool (hideRoutingKey (s_form v)))))
          (Field #"Routing key" #"Groups related messages. With custom pacing, this is also the flow lane." (Ok VUndef) (Ok VUndef) (frag [
            el "Input" [
                model_ "v-model" (Ok (form_key (s_form v))) (fun ev => upd (on_form (set_form_key ev)))] []]))
          none;
        Field #"Priority" (Ok VUndef) (Ok VUndef) (Ok VUndef) (frag [
          el "Input" [
              model_ "v-model" (Ok (form_priority (s_form v))) (fun ev => upd (on_form (set_form_priority ev)));
              at_ "type" "number";
              at_ "min" "0";
              at_ "max" "9"] []]);
        Field #"Delay (ms)" #"0 = send now" (Ok VUndef) (Ok VUndef) (frag [
          el "Input" [
              model_ "v-model" (Ok (form_delay (s_form v))) (fun ev => upd (on_form (set_form_delay ev)));
              at_ "type" "number";
              at_ "placeholder" "0"] []]);
        Field #"Idempotency key" #"Optional — same key is a no-op" (Ok VUndef) (Ok VUndef) (frag [
          el "Input" [
              model_ "v-model" (Ok (form_idempotency (s_form v))) (fun ev => upd (on_form (set_form_idempotency ev)))] []]);
        el "div" [at_ "class" "sm:col-span-2"] [
          RetryFields (form_retry (s_form v)) (fun f => upd (on_form (fun r => set_form_retry (f (form_retry r)) r)))];
        Field #"Body (JSON)" (Ok VUndef) (Ok VUndef) #"sm:col-span-2" (frag [
          el "Textarea" [
              model_ "v-model" (Ok (form_body (s_form v))) (fun ev => upd (on_form (set_form_body ev)));
              at_ "class" "font-mono text-xs";
              at_ "rows" "5"] []])]];
    el "div" [at_ "class" "flex items-center gap-2"] [
      el "Button" [at_ "size" "sm"; on_ "@click" (fun _ => publish)] [txt "Publish"];
      ActionMessage (Ok (st_error (s_status v))) (Ok (st_ok (s_status v))) (Ok VUndef)]].
End handlers.
