(* ===== verification/GroupsView.v ===== *)
(** * [views/GroupsView.vue]: groups and their members *)

From stdpp Require Import base list gmap strings.
From Stdlib Require Import NArith ZArith Lia String SpecFloat.
From S2P Require Import Prelude JsString JsNum JsVal Json Prog State Storage Api Payload Catalog View Form Session.
Local Open Scope js_scope.

(** The reactive [member]. *)
Record member_state := Member_ {
  member_name : jsval;
  member_secret : jsval;
  member_url : jsval;
  member_parallelism : jsval;
  member_rate : jsval;
  member_period : jsval
}.

Definition set_member_name (v : jsval) (r : member_state) : member_state :=
  {| member_name := v; member_secret := member_secret r; member_url := member_url r; member_parallelism := member_parallelism r; member_rate := member_rate r; member_period := member_period r |}.
Definition set_member_secret (v : jsval) (r : member_state) : member_state :=
  {| member_name := member_name r; member_secret := v; member_url := member_url r; member_parallelism := member_parallelism r; member_rate := member_rate r; member_period := member_period r |}.
Definition set_member_url (v : jsval) (r : member_state) : member_state :=
  {| member_name := member_name r; member_secret := member_secret r; member_url := v; member_parallelism := member_parallelism r; member_rate := member_rate r; member_period := member_period r |}.
Definition set_member_parallelism (v : jsval) (r : member_state) : member_state :=
  {| member_name := member_name r; member_secret := member_secret r; member_url := member_url r; member_parallelism := v; member_rate := member_rate r; member_period := member_period r |}.
Definition set_member_rate (v : jsval) (r : member_state) : member_state :=
  {| member_name := member_name r; member_secret := member_secret r; member_url := member_url r; member_parallelism := member_parallelism r; member_rate := v; member_period := member_period r |}.
Definition set_member_period (v : jsval) (r : member_state) : member_state :=
  {| member_name := member_name r; member_secret := member_secret r; member_url := member_url r; member_parallelism := member_parallelism r; member_rate := member_rate r; member_period := v |}.

(** The component's state. *)
Record state := State_ {
  s_member : member_state;
  s_name : jsval;
  s_tab : jsval;
  s_selected : jsval;
  s_members : jsval;
  s_createStatus : status;
  s_listStatus : status;
  s_memberStatus : status;
  s_memberListStatus : status
}.

Definition set_s_member (v : member_state) (r : state) : state :=
  {| s_member := v; s_name := s_name r; s_tab := s_tab r; s_selected := s_selected r; s_members := s_members r; s_createStatus := s_createStatus r; s_listStatus := s_listStatus r; s_memberStatus := s_memberStatus r; s_memberListStatus := s_memberListStatus r |}.
Definition set_s_name (v : jsval) (r : state) : state :=
  {| s_member := s_member r; s_name := v; s_tab := s_tab r; s_selected := s_selected r; s_members := s_members r; s_createStatus := s_createStatus r; s_listStatus := s_listStatus r; s_memberStatus := s_memberStatus r; s_memberListStatus := s_memberListStatus r |}.
Definition set_s_tab (v : jsval) (r : state) : state :=
  {| s_member := s_member r; s_name := s_name r; s_tab := v; s_selected := s_selected r; s_members := s_members r; s_createStatus := s_createStatus r; s_listStatus := s_listStatus r; s_memberStatus := s_memberStatus r; s_memberListStatus := s_memberListStatus r |}.
Definition set_s_selected (v : jsval) (r : state) : state :=
  {| s_member := s_member r; s_name := s_name r; s_tab := s_tab r; s_selected := v; s_members := s_members r; s_createStatus := s_createStatus r; s_listStatus := s_listStatus r; s_memberStatus := s_memberStatus r; s_memberListStatus := s_memberListStatus r |}.
Definition set_s_members (v : jsval) (r : state) : state :=
  {| s_member := s_member r; s_name := s_name r; s_tab := s_tab r; s_selected := s_selected r; s_members := v; s_createStatus := s_createStatus r; s_listStatus := s_listStatus r; s_memberStatus := s_memberStatus r; s_memberListStatus := s_memberListStatus r |}.
Definition set_s_createStatus (v : status) (r : state) : state :=
  {| s_member := s_member r; s_name := s_name r; s_tab := s_tab r; s_selected := s_selected r; s_members := s_members r; s_createStatus := v; s_listStatus := s_listStatus r; s_memberStatus := s_memberStatus r; s_memberListStatus := s_memberListStatus r |}.
Definition set_s_listStatus (v : status) (r : state) : state :=
  {| s_member := s_member r; s_name := s_name r; s_tab := s_tab r; s_selected := s_selected r; s_members := s_members r; s_createStatus := s_createStatus r; s_listStatus := v; s_memberStatus := s_memberStatus r; s_memberListStatus := s_memberListStatus r |}.
Definition set_s_memberStatus (v : status) (r : state) : state :=
  {| s_member := s_member r; s_name := s_name r; s_tab := s_tab r; s_selected := s_selected r; s_members := s_members r; s_createStatus := s_createStatus r; s_listStatus := s_listStatus r; s_memberStatus := v; s_memberListStatus := s_memberListStatus r |}.
Definition set_s_memberListStatus (v : status) (r : state) : state :=
  {| s_member := s_member r; s_name := s_name r; s_tab := s_tab r; s_selected := s_selected r; s_members := s_members r; s_createStatus := s_createStatus r; s_listStatus := s_listStatus r; s_memberStatus := s_memberStatus r; s_memberListStatus := v |}.

Definition on_member (f : member_state -> member_state) (v : state) : state := set_s_member (f (s_member v)) v.
Definition on_createStatus (f : status -> status) (v : state) : state := set_s_createStatus (f (s_createStatus v)) v.
Definition on_listStatus (f : status -> status) (v : state) : state := set_s_listStatus (f (s_listStatus v)) v.
Definition on_memberStatus (f : status -> status) (v : state) : state := set_s_memberStatus (f (s_memberStatus v)) v.
Definition on_memberListStatus (f : status -> status) (v : state) : state := set_s_memberListStatus (f (s_memberListStatus v)) v.

(** The state [setup] creates. *)
Definition setup : state :=
  {| s_member := {| member_name := VStr (js "primary"); member_secret := VStr (js "whsec_demo"); member_url := VStr (js "https://webhook.site"); member_parallelism := VNum (num_of_Z 1); member_rate := VNum (num_of_Z 0); member_period := VNum (num_of_Z 60) |};
     s_name := VStr (js "alerts");
     s_tab := VStr (js "list");
     s_selected := VStr [];
     s_members := VArr [];
     s_createStatus := useActionStatus;
     s_listStatus := useActionStatus;
     s_memberStatus := useActionStatus;
     s_memberListStatus := useActionStatus |}.

Section handlers.
Context `{Platform}.

Definition mounted : vprog state unit := spawn (lib refreshGroups).

Definition groupOptions (c : catalog_state) : E jsval :=
  e_map (fun g => e_object [("value", groupId g); ("label", (Ok g) @. "name" .|| groupId g)]) (Ok (groups c)).

Definition loadMembers (gid : jsval) : vprog state unit :=
  if negb (truthy gid) then upd (set_s_members (VArr []))
  else
    prog_catch
      (path ← pure (e_template [ #"/v1/groups/"; e_encode (Ok gid)]);
       d ← lib (pub_get (to_string path));
       ms ← pure (list_field d (js "members"));
       upd (set_s_members ms))
      (fun _ => upd (set_s_members (VArr []))).

Definition create : vprog state unit :=
  _ ← upd (on_createStatus st_reset);
  prog_catch
    (n ← local s_name;
     r ← lib (pub_post (js "/v1/groups") (Some (VObj ["name" ~> n])));
     msg ← pure (e_template [ #"Group "; (Ok r) @. "name"; #" → "; (Ok r) @. "group_id"]);
     _ ← upd (on_createStatus (st_succeed msg));
     _ ← lib refreshGroups;
     gid ← pure ((Ok r) @. "group_id");
     if truthy gid then
       _ ← upd (set_s_selected gid);
       _ ← upd (set_s_tab (VStr (js "members")));
       loadMembers gid
     else Ret tt)
    (fun e => upd (on_createStatus (st_fail (VStr (errText e))))).

Definition member_body (m : member_state) : jsval :=
  VObj ["name" ~> member_name m; "url" ~> member_url m; "secret" ~> member_secret m;
        "parallelism" ~> VNum (number_or (member_parallelism m) 1);
        "rate" ~> VNum (number_or (member_rate m) 0);
        "period_secs" ~> VNum (number_or (member_period m) 60)].

Definition addMember : vprog state unit :=
  _ ← upd (on_memberStatus st_reset);
  sel ← local s_selected;
  if negb (truthy sel) then upd (on_memberStatus (st_fail (VStr (js "Select a group first"))))
  else
    prog_catch
      (path ← pure (e_template [ #"/v1/groups/"; e_encode (Ok sel); #"/members"]);
       m ← local s_member;
       r ← lib (pub_post (to_string path) (Some (member_body m)));
       msg ← pure (e_template [ #"Member "; (Ok r) @. "name"; #" → "; (Ok r) @. "member_id"]);
       _ ← upd (on_memberStatus (st_succeed msg));
       sel ← local s_selected;
       loadMembers sel)
      (fun e => upd (on_memberStatus (st_fail (VStr (errText e))))).

Definition removeGroup (g : jsval) : vprog state unit :=
  _ ← upd (on_listStatus st_reset);
  prog_catch
    (path ← pure (e_template [ #"/v1/groups/"; e_encode (groupId g)]);
     _ ← lib (pub_delete (to_string path));
     _ ← upd (on_listStatus (st_succeed (VStr (js "Group removed"))));
     lib refreshGroups)
    (fun e => upd (on_listStatus (st_fail (VStr (errText e))))).

Definition removeMember (id : jsval) : vprog state unit :=
  _ ← upd (on_memberListStatus st_reset);
  prog_catch
    (path ← eval (fun v => e_template [ #"/v1/groups/"; e_encode (Ok (s_selected v)); #"/members/"; e_encode (Ok id)]);
     _ ← lib (pub_delete (to_string path));
     _ ← upd (on_memberListStatus (st_succeed (VStr (js "Member removed"))));
     sel ← local s_selected;
     loadMembers sel)
    (fun e => upd (on_memberListStatus (st_fail (VStr (errText e))))).

Definition openMembers (g : jsval) : vprog state unit :=
  gid ← pure (groupId g);
  _ ← upd (set_s_selected gid);
  _ ← upd (set_s_tab (VStr (js "members")));
  sel ← local s_selected;
  spawn (loadMembers sel).

(** ** The template *)

Definition render (p : panel) (v : state) : E (list (vnode (panel * state))) :=
  el "div" [at_ "class" "space-y-4"] [
    el "div" [] [
      el "h1" [at_ "class" "text-lg font-semibold tracking-tight"] [txt "Groups"];
      el "p" [at_ "class" "text-sm text-muted-foreground"] [txt "Fan-out one payload to every active member."];
      el "code" [at_ "class" "mt-1 block font-mono text-xs text-muted-foreground"] [txt "POST /v1/publish"]];
    el "Tabs" [
        model_ "v-model" (Ok (s_tab v)) (fun ev => upd (set_s_tab ev));
        at_ "default-value" "list";
        at_ "class" "gap-4"] [
      el "TabsList" [at_ "class" "max-w-sm"] [
        el "TabsTrigger" [at_ "value" "list"] [txt "Groups"];
        el "TabsTrigger" [at_ "value" "members"] [txt "Members"]];
      el "TabsContent" [at_ "value" "list"; at_ "class" "grid gap-3 lg:grid-cols-2"] [
        el "Card" [] [
          el "CardHeader" [] [
            el "CardTitle" [] [txt "Create group"];
            el "CardDescription" [] [txt "Logical fan-out target"]];
          el "CardContent" [] [
            Field #"Name" (Ok VUndef) (Ok VUndef) (Ok VUndef) (frag [
              el "Input" [
                  model_ "v-model" (Ok (s_name v)) (fun ev => upd (set_s_name ev));
                  at_ "placeholder" "alerts"] []])];
          el "CardFooter" [] [
            el "Button" [at_ "size" "sm"; on_ "@click" (fun _ => create)] [txt "Create group"];
            ActionMessage (Ok (st_error (s_createStatus v))) (Ok (st_ok (s_createStatus v))) (Ok VUndef)]];
        el "Card" [] [
          el "CardHeader" [] [
            el "CardTitle" [] [txt "Registered"];
            el "CardDescription" [] [txt "Select a group to manage members"]];
          el "CardContent" [] [
            ActionMessage (Ok (st_error (s_listStatus v))) (Ok (st_ok (s_listStatus v))) #"mb-2";
            el "Table" [] [
              el "TableHeader" [] [
                el "TableRow" [] [
                  el "TableHead" [] [txt "ID"];
                  el "TableHead" [] [txt "Name"];
                  el "TableHead" [] []]];
              el "TableBody" [] [
                v_for (Ok (groups (cat p))) (fun g =>
                  el "TableRow" [bind_ "key" (groupId g)] [
                    el "TableCell" [at_ "class" "font-mono text-xs"] [interp (groupId g)];
                    el "TableCell" [] [interp ((Ok g) @. "name")];
                    el "TableCell" [at_ "class" "space-x-1"] [
                      el "Button" [
                          at_ "size" "sm";
                          at_ "variant" "outline";
                          on_ "@click" (fun _ => openMembers g)] [txt "Members"];
                      el "Button" [
                          at_ "size" "sm";
                          at_ "variant" "destructive";
                          on_ "@click" (fun _ => removeGroup g)] [txt "Delete"]]])]]]]];
      el "TabsContent" [at_ "value" "members"; at_ "class" "space-y-3"] [
        el "Card" [] [
          el "CardHeader" [] [
            el "CardTitle" [] [txt "Members"];
            el "CardDescription" [] [txt "Webhook destinations that receive each group publish"]];
          el "CardContent" [at_ "class" "grid gap-2 sm:grid-cols-2"] [
            Field #"Group" (Ok VUndef) (Ok VUndef) #"sm:col-span-2" (frag [
              AppSelect (Ok (s_selected v)) (fun ev => upd (set_s_selected ev))
                (groupOptions (cat p)) #"— select group —" (Some (fun ev => loadMembers ev))]);
            Field #"Name" (Ok VUndef) (Ok VUndef) (Ok VUndef) (frag [
              el "Input" [
                  model_ "v-model" (Ok (member_name (s_member v))) (fun ev => upd (on_member (set_member_name ev)))] []]);
            Field #"Secret" (Ok VUndef) (Ok VUndef) (Ok VUndef) (frag [
              el "Input" [
                  model_ "v-model" (Ok (member_secret (s_member v))) (fun ev => upd (on_member (set_member_secret ev)));
                  at_ "class" "font-mono"] []]);
            Field #"Webhook URL" (Ok VUndef) (Ok VUndef) #"sm:col-span-2" (frag [
              el "Input" [
                  model_ "v-model" (Ok (member_url (s_member v))) (fun ev => upd (on_member (set_member_url ev)));
                  at_ "class" "font-mono text-xs"] []]);
            Field #"Parallelism" (Ok VUndef) (Ok VUndef) (Ok VUndef) (frag [
              el "Input" [
                  model_ "v-model" (Ok (member_parallelism (s_member v))) (fun ev => upd (on_member (set_member_parallelism ev)));
                  at_ "type" "number";
                  at_ "min" "1"] []]);
            Field #"Rate" #"0 = unlimited" (Ok VUndef) (Ok VUndef) (frag [
              el "Input" [
                  model_ "v-model" (Ok (member_rate (s_member v))) (fun ev => upd (on_member (set_member_rate ev)));
                  at_ "type" "number";
                  at_ "min" "0"] []]);
            Field #"Period (s)" (Ok VUndef) (Ok VUndef) (Ok VUndef) (frag [
              el "Input" [
                  model_ "v-model" (Ok (member_period (s_member v))) (fun ev => upd (on_member (set_member_period ev)));
                  at_ "type" "number";
                  at_ "min" "1"] []])];
          el "CardFooter" [] [
            el "Button" [at_ "size" "sm"; on_ "@click" (fun _ => addMember)] [txt "Add member"];
            ActionMessage (Ok (st_error (s_memberStatus v))) (Ok (st_ok (s_memberStatus v))) (Ok VUndef)]];
        el "Card" [] [
          el "CardHeader" [] [el "CardTitle" [] [txt "Member list"]];
          el "CardContent" [] [
            ActionMessage (Ok (st_error (s_memberListStatus v))) (Ok (st_ok (s_memberListStatus v))) #"mb-2";
            el "Table" [] [
              el "TableHeader" [] [
                el "TableRow" [] [
                  el "TableHead" [] [txt "ID"];
                  el "TableHead" [] [txt "Name"];
                  el "TableHead" [] [txt "URL"];
                  el "TableHead" [] []]];
              el "TableBody" [] [
                v_for (Ok (s_members v)) (fun m =>
                  el "TableRow" [bind_ "key" (((Ok m) @. "member_id") .|| ((Ok m) @. "id"))] [
                    el "TableCell" [at_ "class" "font-mono text-xs"] [interp (((Ok m) @. "member_id") .|| ((Ok m) @. "id"))];
                    el "TableCell" [] [interp ((Ok m) @. "name")];
                    el "TableCell" [at_ "class" "max-w-xs truncate font-mono text-xs"] [interp ((Ok m) @. "url")];
                    el "TableCell" [] [
                      el "Button" [
                          at_ "size" "sm";
                          at_ "variant" "destructive";
                          on_ "@click" (fun _ => w ← pure ((((Ok m) @. "member_id") .|| ((Ok m) @. "id")) .|| #""); removeMember w)] [txt "Delete"]]])]]]]]]].
End handlers.
