(* ===== verification/HttpView.v ===== *)
(** * [views/HttpView.vue]: outbound defaults and blocked destinations *)

From stdpp Require Import base list gmap strings.
From Stdlib Require Import NArith ZArith Lia String SpecFloat.
From S2P Require Import Prelude JsString JsNum JsVal Json Prog State Storage Api Payload Catalog View Form Session.
Local Open Scope js_scope.

(** The component's state. *)
Record state := State_ {
  s_host : jsval;
  s_minutes : jsval;
  s_blocked : jsval;
  s_loadStatus : status;
  s_blockStatus : status
}.

Definition set_s_host (v : jsval) (r : state) : state :=
  {| s_host := v; s_minutes := s_minutes r; s_blocked := s_blocked r; s_loadStatus := s_loadStatus r; s_blockStatus := s_blockStatus r |}.
Definition set_s_minutes (v : jsval) (r : state) : state :=
  {| s_host := s_host r; s_minutes := v; s_blocked := s_blocked r; s_loadStatus := s_loadStatus r; s_blockStatus := s_blockStatus r |}.
Definition set_s_blocked (v : jsval) (r : state) : state :=
  {| s_host := s_host r; s_minutes := s_minutes r; s_blocked := v; s_loadStatus := s_loadStatus r; s_blockStatus := s_blockStatus r |}.
Definition set_s_loadStatus (v : status) (r : state) : state :=
  {| s_host := s_host r; s_minutes := s_minutes r; s_blocked := s_blocked r; s_loadStatus := v; s_blockStatus := s_blockStatus r |}.
Definition set_s_blockStatus (v : status) (r : state) : state :=
  {| s_host := s_host r; s_minutes := s_minutes r; s_blocked := s_blocked r; s_loadStatus := s_loadStatus r; s_blockStatus := v |}.

Definition on_loadStatus (f : status -> status) (v : state) : state := set_s_loadStatus (f (s_loadStatus v)) v.
Definition on_blockStatus (f : status -> status) (v : state) : state := set_s_blockStatus (f (s_blockStatus v)) v.

(** The state [setup] creates. *)
Definition setup : state :=
  {| s_host := VStr [];
     s_minutes := VNum (num_of_Z 30);
     s_blocked := VArr [];
     s_loadStatus := useActionStatus;
     s_blockStatus := useActionStatus |}.

Section handlers.
Context `{Platform}.

(** [Array.isArray(d) ? d : d.hosts || []] *)
Definition hosts_of (d : jsval) : E jsval := if is_array d then Ok d else list_field d (js "hosts").

Definition load : vprog state unit :=
  _ ← upd (on_loadStatus st_reset);
  prog_catch
    (d ← lib (pub_get (js "/v1/destinations/blocked"));
     hs ← pure (hosts_of d);
     upd (set_s_blocked hs))
    (fun e => upd (on_loadStatus (st_fail e))).

Definition mounted : vprog state unit := spawn load.

(** [(Number(minutes) || 30) * 60 * 1000] *)
Definition duration_ms (minutes : jsval) : num :=
  num_mul (num_mul (number_or minutes 30) (num_of_Z 60)) (num_of_Z 1000).

Definition block : vprog state unit :=
  _ ← upd (on_blockStatus st_reset);
  h ← eval (fun v => e_trim (Ok (s_host v)));
  if negb (truthy h) then upd (on_blockStatus (st_fail (VStr (js "Host or URL required"))))
  else
    prog_catch
      (m ← local s_minutes;
       res ← lib (pub_post (js "/v1/destinations/block")
                    (Some (VObj ["host" ~> h; "duration_ms" ~> VNum (duration_ms m)])));
       msg ← eval (fun v => e_template [ #"Blocked "; (Ok res) @. "host" .|| Ok h; #" for "; Ok (s_minutes v); #"m"]);
       _ ← upd (on_blockStatus (st_succeed msg));
       _ ← upd (set_s_host (VStr []));
       load)
      (fun e => upd (on_blockStatus (st_fail e))).

Definition unblock (h : jsval) : vprog state unit :=
  _ ← upd (on_blockStatus st_reset);
  prog_catch
    (_ ← lib (pub_post (js "/v1/destinations/unblock") (Some (VObj ["host" ~> h])));
     msg ← pure (e_template [ #"Unblocked "; Ok h]);
     _ ← upd (on_blockStatus (st_succeed msg));
     load)
    (fun e => upd (on_blockStatus (st_fail e))).

(** [remaining(h)]: seconds below a minute, minutes below an hour, else hours. *)
Definition remaining (h : jsval) : E jsval :=
  ms ← (Ok h) @. "remaining_ms" .?? (Ok h) @. "remaining" .?? e_num 0;
  if negb (truthy ms) then #"—"
  else
    let x := to_number ms in
    let up (d : Z) := VNum (num_ceil (num_div x (num_of_Z d))) in
    if js_ltb ms (VNum (num_of_Z 60000)) then e_template [Ok (up 1000%Z); #"s"]
    else if js_ltb ms (VNum (num_of_Z 3600000)) then e_template [Ok (up 60000%Z); #"m"]
    else e_template [e_str (num_to_fixed1 (num_div x (num_of_Z 3600000))); #"h"].

(** ** The template *)

Definition render (p : panel) (v : state) : E (list (vnode (panel * state))) :=
  el "div" [at_ "class" "space-y-4"] [
    el "div" [] [
      el "h1" [at_ "class" "text-lg font-semibold tracking-tight"] [txt "HTTP"];
      el "p" [at_ "class" "text-sm text-muted-foreground"] [txt "Outbound webhook defaults and delivery circuit-breaker controls."]];
    el "Card" [] [
      el "CardHeader" [] [
        el "CardTitle" [] [txt "Outbound defaults"];
        el "CardDescription" [] [txt "Applied to publish & enqueue from the panel"]];
      el "CardContent" [at_ "class" "grid gap-3 sm:grid-cols-2"] [
        Field #"Method" (Ok VUndef) (Ok VUndef) (Ok VUndef) (frag [
          AppSelect (Ok (ob_method (out p))) (fun ev => upd_page (on_out (set_ob_method ev)))
            (e_map (fun m => e_object [("value", Ok m); ("label", Ok m)]) (e_array [ #"POST"; #"GET"; #"PUT"; #"PATCH"; #"DELETE"])) (Ok VUndef) None]);
        el "div" [at_ "class" "flex items-center gap-2 self-end"] [
          el "Checkbox" [
              at_ "id" "hmac-sign";
              model_ "v-model" (Ok (ob_sign (out p))) (fun ev => upd_page (on_out (set_ob_sign ev)))] [];
          el "Label" [at_ "for" "hmac-sign"; at_ "class" "font-normal text-foreground"] [txt "HMAC signature"]];
        Field #"Headers (JSON)" (Ok VUndef) (Ok VUndef) #"sm:col-span-2" (frag [
          el "Textarea" [
              model_ "v-model" (Ok (ob_headers (out p))) (fun ev => upd_page (on_out (set_ob_headers ev)));
              at_ "class" "font-mono text-xs";
              at_ "rows" "5";
              bind_ "placeholder" (e_str (jsq "{'Authorization':'Bearer …'}"))] []])]];
    el "Card" [] [
      el "CardHeader" [] [
        el "CardTitle" [] [txt "Blocked destinations"];
        el "CardDescription" [] [txt "Hosts paused after transport failures"]];
      el "CardContent" [at_ "class" "space-y-4"] [
        el "div" [at_ "class" "flex flex-wrap items-end gap-3"] [
          Field #"Host or URL" (Ok VUndef) (Ok VUndef) #"min-w-64 flex-1" (frag [
            el "Input" [
                model_ "v-model" (Ok (s_host v)) (fun ev => upd (set_s_host ev));
                at_ "class" "font-mono text-xs";
                at_ "placeholder" "https://api.example.com"] []]);
          Field #"Minutes" (Ok VUndef) (Ok VUndef) (Ok VUndef) (frag [
            el "Input" [
                model_ "v-model" (Ok (s_minutes v)) (fun ev => upd (set_s_minutes ev));
                at_ "type" "number";
                at_ "min" "1"] []]);
          el "Button" [at_ "variant" "warning"; at_ "size" "sm"; on_ "@click" (fun _ => block)] [txt "Block"];
          el "Button" [at_ "variant" "ghost"; at_ "size" "sm"; on_ "@click" (fun _ => load)] [txt "Refresh"];
          ActionMessage ((Ok (st_error (s_blockStatus v))) .|| (Ok (st_error (s_loadStatus v)))) (Ok (st_ok (s_blockStatus v))) (Ok VUndef)];
        el "Table" [] [
          el "TableHeader" [] [
            el "TableRow" [] [
              el "TableHead" [] [txt "Host"];
              el "TableHead" [] [txt "Remaining"];
              el "TableHead" [] []]];
          el "TableBody" [] [
            v_for (Ok (s_blocked v)) (fun h =>
              el "TableRow" [bind_ "key" ((Ok h) @. "host")] [
                el "TableCell" [at_ "class" "font-mono text-xs"] [interp ((Ok h) @. "host")];
                el "TableCell" [] [interp (remaining h)];
                el "TableCell" [] [
                  el "Button" [
                      at_ "size" "sm";
                      at_ "variant" "success";
                      on_ "@click" (fun _ => w ← pure ((Ok h) @. "host"); unblock w)] [txt "Unblock"]]])]]]]].
End handlers.
