(* ===== verification/SchedulesView.v ===== *)
(** * [views/SchedulesView.vue]: cron and interval schedules, delayed jobs *)

From stdpp Require Import base list gmap strings.
From Stdlib Require Import NArith ZArith Lia String SpecFloat.
From S2P Require Import Prelude JsString JsNum JsVal Json Prog State Storage Api Payload Catalog View Form Session.
Local Open Scope js_scope.

(** The reactive [form]. *)
Record form_state := Form_ {
  form_type : jsval;
  form_key : jsval;
  form_url : jsval;
  form_secret : jsval;
  form_priority : jsval;
  form_expr : jsval;
  form_every : jsval;
  form_flowId : jsval;
  form_body : jsval;
  form_retry : RetryState
}.

Definition set_form_type (v : jsval) (r : form_state) : form_state :=
  {| form_type := v; form_key := form_key r; form_url := form_url r; form_secret := form_secret r; form_priority := form_priority r; form_expr := form_expr r; form_every := form_every r; form_flowId := form_flowId r; form_body := form_body r; form_retry := form_retry r |}.
Definition set_form_key (v : jsval) (r : form_state) : form_state :=
  {| form_type := form_type r; form_key := v; form_url := form_url r; form_secret := form_secret r; form_priority := form_priority r; form_expr := form_expr r; form_every := form_every r; form_flowId := form_flowId r; form_body := form_body r; form_retry := form_retry r |}.
Definition set_form_url (v : jsval) (r : form_state) : form_state :=
  {| form_type := form_type r; form_key := form_key r; form_url := v; form_secret := form_secret r; form_priority := form_priority r; form_expr := form_expr r; form_every := form_every r; form_flowId := form_flowId r; form_body := form_body r; form_retry := form_retry r |}.
Definition set_form_secret (v : jsval) (r : form_state) : form_state :=
  {| form_type := form_type r; form_key := form_key r; form_url := form_url r; form_secret := v; form_priority := form_priority r; form_expr := form_expr r; form_every := form_every r; form_flowId := form_flowId r; form_body := form_body r; form_retry := form_retry r |}.
Definition set_form_priority (v : jsval) (r : form_state) : form_state :=
  {| form_type := form_type r; form_key := form_key r; form_url := form_url r; form_secret := form_secret r; form_priority := v; form_expr := form_expr r; form_every := form_every r; form_flowId := form_flowId r; form_body := form_body r; form_retry := form_retry r |}.
Definition set_form_expr (v : jsval) (r : form_state) : form_state :=
  {| form_type := form_type r; form_key := form_key r; form_url := form_url r; form_secret := form_secret r; form_priority := form_priority r; form_expr := v; form_every := form_every r; form_flowId := form_flowId r; form_body := form_body r; form_retry := form_retry r |}.
Definition set_form_every (v : jsval) (r : form_state) : form_state :=
  {| form_type := form_type r; form_key := form_key r; form_url := form_url r; form_secret := form_secret r; form_priority := form_priority r; form_expr := form_expr r; form_every := v; form_flowId := form_flowId r; form_body := form_body r; form_retry := form_retry r |}.
Definition set_form_flowId (v : jsval) (r : form_state) : form_state :=
  {| form_type := form_type r; form_key := form_key r; form_url := form_url r; form_secret := form_secret r; form_priority := form_priority r; form_expr := form_expr r; form_every := form_every r; form_flowId := v; form_body := form_body r; form_retry := form_retry r |}.
Definition set_form_body (v : jsval) (r : form_state) : form_state :=
  {| form_type := form_type r; form_key := form_key r; form_url := form_url r; form_secret := form_secret r; form_priority := form_priority r; form_expr := form_expr r; form_every := form_every r; form_flowId := form_flowId r; form_body := v; form_retry := form_retry r |}.
Definition set_form_retry (v : RetryState) (r : form_state) : form_state :=
  {| form_type := form_type r; form_key := form_key r; form_url := form_url r; form_secret := form_secret r; form_priority := form_priority r; form_expr := form_expr r; form_every := form_every r; form_flowId := form_flowId r; form_body := form_body r; form_retry := v |}.

(** The component's state. *)
Record state := State_ {
  s_form : form_state;
  s_delayed : jsval;
  s_crons : jsval;
  s_loadStatus : status;
  s_createStatus : status;
  s_listStatus : status
}.

Definition set_s_form (v : form_state) (r : state) : state :=
  {| s_form := v; s_delayed := s_delayed r; s_crons := s_crons r; s_loadStatus := s_loadStatus r; s_createStatus := s_createStatus r; s_listStatus := s_listStatus r |}.
Definition set_s_delayed (v : jsval) (r : state) : state :=
  {| s_form := s_form r; s_delayed := v; s_crons := s_crons r; s_loadStatus := s_loadStatus r; s_createStatus := s_createStatus r; s_listStatus := s_listStatus r |}.
Definition set_s_crons (v : jsval) (r : state) : state :=
  {| s_form := s_form r; s_delayed := s_delayed r; s_crons := v; s_loadStatus := s_loadStatus r; s_createStatus := s_createStatus r; s_listStatus := s_listStatus r |}.
Definition set_s_loadStatus (v : status) (r : state) : state :=
  {| s_form := s_form r; s_delayed := s_delayed r; s_crons := s_crons r; s_loadStatus := v; s_createStatus := s_createStatus r; s_listStatus := s_listStatus r |}.
Definition set_s_createStatus (v : status) (r : state) : state :=
  {| s_form := s_form r; s_delayed := s_delayed r; s_crons := s_crons r; s_loadStatus := s_loadStatus r; s_createStatus := v; s_listStatus := s_listStatus r |}.
Definition set_s_listStatus (v : status) (r : state) : state :=
  {| s_form := s_form r; s_delayed := s_delayed r; s_crons := s_crons r; s_loadStatus := s_loadStatus r; s_createStatus := s_createStatus r; s_listStatus := v |}.

Definition on_form (f : form_state -> form_state) (v : state) : state := set_s_form (f (s_form v)) v.
Definition on_loadStatus (f : status -> status) (v : state) : state := set_s_loadStatus (f (s_loadStatus v)) v.
Definition on_createStatus (f : status -> status) (v : state) : state := set_s_createStatus (f (s_createStatus v)) v.
Definition on_listStatus (f : status -> status) (v : state) : state := set_s_listStatus (f (s_listStatus v)) v.

(** The state [setup] creates. *)
Definition setup : state :=
  {| s_form := {| form_type := VStr (js "cron"); form_key := VStr (js "cron-1"); form_url := VStr (js "https://webhook.site"); form_secret := VStr (js "whsec_demo"); form_priority := VNum (num_of_Z 5); form_expr := VStr (js "*/1 * * * *"); form_every := VNum (num_of_Z 10); form_flowId := VStr (js "none"); form_body := VStr (jsq "{'tick':true}"); form_retry := defaultRetry |};
     s_delayed := VArr [];
     s_crons := VArr [];
     s_loadStatus := useActionStatus;
     s_createStatus := useActionStatus;
     s_listStatus := useActionStatus |}.

Section handlers.
Context `{Platform}.

Definition flow_option (f : jsval) : E jsval :=
  e_object [("value", flowId f);
            ("label", e_template [(Ok f) @. "key" .|| flowId f; #" · "; (Ok f) @. "parallelism" .?? e_num 1;
                                  #" in-flight · "; (Ok f) @. "rate" .?? e_num 0; #"/";
                                  (Ok f) @. "period_secs" .?? e_num 60; #"s"])].

Definition flowOptions (c : catalog_state) : E jsval :=
  opts ← e_map flow_option (Ok (flows c));
  l ← elements_of opts;
  Ok (VArr (option_item "none" "— none —" :: l)).

Definition selectedFlow (c : catalog_state) (f : form_state) : E jsval :=
  l ← elements_of (flows c);
  hit ← find_elem (fun fl => id ← flowId fl; Ok (strict_eq id (form_flowId f))) l;
  Ok (if truthy hit then hit else VNull).

(** [const [d, c] = await Promise.all([...])] *)
Definition pair_of (v : jsval) : jsval * jsval :=
  match v with VArr (d :: c :: _) => (d, c) | _ => (VUndef, VUndef) end.

Definition load : vprog state unit :=
  _ ← upd (on_loadStatus st_reset);
  prog_catch
    (v ← lib (promise_array [pub_get (js "/v1/delayed"); pub_get (js "/v1/crons"); discard refreshFlows]);
     let '(d, c) := pair_of v in
     ds ← pure (list_field d (js "delayed"));
     _ ← upd (set_s_delayed ds);
     cs ← pure (list_field c (js "crons"));
     upd (set_s_crons cs))
    (fun e => upd (on_loadStatus (st_fail e))).

Definition mounted : vprog state unit := spawn load.

Inductive checked := Payload (v : jsval) | Refused (msg : jstring).

(** What [create] sends, or the message it fails with. *)
Definition create_payload (ob : outbound_state) (f : form_state) : E checked :=
  url ← e_trim (Ok (form_url f));
  missing ← (if truthy url then s ← e_trim (Ok (form_secret f)); Ok (negb (truthy s)) else Ok true);
  if missing : bool then Ok (Refused (js "Schedule needs destination URL and secret"))
  else
    secret ← e_trim (Ok (form_secret f));
    let payload := VObj ["url" ~> url; "secret" ~> secret; "key" ~> form_key f;
                         "body" ~> parseBodyField (form_body f);
                         "priority" ~> VNum (number_or (form_priority f) 5)] in
    let payload :=
      if strict_eq (form_type f) (VStr (js "interval"))
      then set_prop payload (js "every_seconds") (VNum (number_or (form_every f) 10))
      else set_prop payload (js "cron") (form_expr f) in
    let payload :=
      if truthy (form_flowId f) && negb (strict_eq (form_flowId f) (VStr (js "none")))
      then set_prop payload (js "flow_id") (form_flowId f) else payload in
    payload ← mergeRetry payload (form_retry f);
    m ← mergeOutbound ob payload;
    match m with (_, Some msg) => Ok (Refused msg) | (payload, None) => Ok (Payload payload) end.

Definition create : vprog state unit :=
  _ ← upd (on_createStatus st_reset);
  m ← eval_page (fun p v => create_payload (out p) (s_form v));
  match m with
  | Refused msg => upd (on_createStatus (st_fail (VStr msg)))
  | Payload payload =>
      prog_catch
        (r ← lib (pub_post (js "/v1/crons") (Some payload));
         msg ← pure (e_template [ #"Schedule created "; (Ok r) @. "cron_id"]);
         _ ← upd (on_createStatus (st_succeed msg));
         load)
        (fun e => upd (on_createStatus (st_fail e)))
  end.

(** The request of [act(kind, id)]; an unknown kind sends nothing. *)
Definition act_request (kind id : jsval) : prog panel unit :=
  if strict_eq kind (VStr (js "delayed")) then ignore (pub_delete (js "/v1/delayed/" ++ to_string id))
  else if strict_eq kind (VStr (js "cron-pause")) then
    ignore (pub_post (js "/v1/crons/" ++ to_string id ++ js "/pause") None)
  else if strict_eq kind (VStr (js "cron-resume")) then
    ignore (pub_post (js "/v1/crons/" ++ to_string id ++ js "/resume") None)
  else if strict_eq kind (VStr (js "cron-delete")) then ignore (pub_delete (js "/v1/crons/" ++ to_string id))
  else Ret tt.

Definition act (kind id : jsval) : vprog state unit :=
  _ ← upd (on_listStatus st_reset);
  prog_catch
    (_ ← lib (act_request kind id);
     msg ← pure (e_template [Ok kind; #" ok"]);
     _ ← upd (on_listStatus (st_succeed msg));
     load)
    (fun e => upd (on_listStatus (st_fail e))).

Definition fmt (ms : jsval) : E jsval := if negb (truthy ms) then #"—" else e_str (locale_string ms).

(** ** The template *)

Definition render (p : panel) (v : state) : E (list (vnode (panel * state))) :=
  el "div" [at_ "class" "space-y-4"] [
    el "div" [] [
      el "h1" [at_ "class" "text-lg font-semibold tracking-tight"] [txt "Schedules"];
      el "p" [at_ "class" "text-sm text-muted-foreground"] [
        txt " Recurring jobs — cron (UTC unless you prefix CRON_TZ=) or a fixed interval, delivered as a direct webhook. "];
      el "code" [at_ "class" "mt-1 block font-mono text-xs text-muted-foreground"] [txt "POST /v1/crons"]];
    el "Card" [] [
      el "CardContent" [at_ "class" "grid gap-3 pt-6 sm:grid-cols-2"] [
        Field #"Type" (Ok VUndef) (Ok VUndef) (Ok VUndef) (frag [
          AppSelect (Ok (form_type (s_form v))) (fun ev => upd (on_form (set_form_type ev)))
            (e_array [e_object [("value", #"cron"); ("label", #"Cron")]; e_object [("value", #"interval"); ("label", #"Interval")]]) (Ok VUndef) None]);
        Field #"Routing key" (Ok VUndef) (Ok VUndef) (Ok VUndef) (frag [
          el "Input" [
              model_ "v-model" (Ok (form_key (s_form v))) (fun ev => upd (on_form (set_form_key ev)))] []]);
        Field #"Destination URL" (Ok VUndef) (Ok VUndef) #"sm:col-span-2" (frag [
          el "Input" [
              model_ "v-model" (Ok (form_url (s_form v))) (fun ev => upd (on_form (set_form_url ev)));
              at_ "class" "font-mono text-xs"] []]);
        Field #"Secret" (Ok VUndef) (Ok VUndef) (Ok VUndef) (frag [
          el "Input" [
              model_ "v-model" (Ok (form_secret (s_form v))) (fun ev => upd (on_form (set_form_secret ev)));
              at_ "class" "font-mono"] []]);
        Field #"Priority" (Ok VUndef) (Ok VUndef) (Ok VUndef) (frag [
          el "Input" [
              model_ "v-model" (Ok (form_priority (s_form v))) (fun ev => upd (on_form (set_form_priority ev)));
              at_ "type" "number"] []]);
        v_if ((Ok (form_type (s_form v))) === #"cron")
          (Field #"Cron" #"UTC by default. Prefix CRON_TZ=America/New_York for local time." (Ok VUndef) (Ok VUndef) (frag [
            el "Input" [
                model_ "v-model" (Ok (form_expr (s_form v))) (fun ev => upd (on_form (set_form_expr ev)));
                at_ "class" "font-mono";
                at_ "placeholder" "*/5 * * * *"] []]))
          (Field #"Every (sec)" (Ok VUndef) (Ok VUndef) (Ok VUndef) (frag [
            el "Input" [
                model_ "v-model" (Ok (form_every (s_form v))) (fun ev => upd (on_form (set_form_every ev)));
                at_ "type" "number"] []]));
        Field #"Flow profile (optional)" (e_if ((selectedFlow (cat p) (s_form v)) @? "key") (e_template [ #"Lane "; (selectedFlow (cat p) (s_form v)) @. "key"]) #"Saved rate + parallelism from Flows.") (Ok VUndef) (Ok VUndef) (frag [
          AppSelect (Ok (form_flowId (s_form v))) (fun ev => upd (on_form (set_form_flowId ev)))
            (flowOptions (cat p)) #"— none —" None]);
        v_if (((Ok (flows (cat p))) @. "length") === (e_num 0))
          (el "p" [at_ "class" "text-xs text-muted-foreground"] [
            txt " No profiles yet. ";
            el "RouterLink" [
                at_ "to" "/flows";
                at_ "class" "text-primary underline-offset-4 hover:underline"] [txt "Create one on Flows"]])
          none;
        el "div" [at_ "class" "sm:col-span-2"] [
          RetryFields (form_retry (s_form v)) (fun f => upd (on_form (fun r => set_form_retry (f (form_retry r)) r)))];
        Field #"Body" (Ok VUndef) (Ok VUndef) #"sm:col-span-2" (frag [
          el "Textarea" [
              model_ "v-model" (Ok (form_body (s_form v))) (fun ev => upd (on_form (set_form_body ev)));
              at_ "class" "font-mono text-xs";
              at_ "rows" "3"] []])];
      el "CardFooter" [] [
        el "Button" [at_ "size" "sm"; on_ "@click" (fun _ => create)] [txt "Create schedule"];
        ActionMessage (Ok (st_error (s_createStatus v))) (Ok (st_ok (s_createStatus v))) (Ok VUndef)]];
    el "Card" [] [
      el "CardHeader" [] [el "CardTitle" [] [txt "Jobs"]];
      el "CardContent" [] [
        ActionMessage ((Ok (st_error (s_listStatus v))) .|| (Ok (st_error (s_loadStatus v)))) (Ok (st_ok (s_listStatus v))) #"mb-2";
        el "Table" [] [
          el "TableHeader" [] [
            el "TableRow" [] [
              el "TableHead" [] [txt "Type"];
              el "TableHead" [] [txt "ID"];
              el "TableHead" [] [txt "Target"];
              el "TableHead" [] [txt "Spec"];
              el "TableHead" [] [txt "Status"];
              el "TableHead" [] [txt "Next"];
              el "TableHead" [] []]];
          el "TableBody" [] [
            v_for (Ok (s_delayed v)) (fun d =>
              el "TableRow" [bind_ "key" (((Ok d) @. "schedule_id") .|| ((Ok d) @. "id"))] [
                el "TableCell" [] [el "Badge" [at_ "variant" "outline"] [txt "delayed"]];
                el "TableCell" [at_ "class" "font-mono text-xs"] [interp (((Ok d) @. "schedule_id") .|| ((Ok d) @. "id"))];
                el "TableCell" [at_ "class" "max-w-[12rem] truncate font-mono text-xs"] [interp (((Ok d) @. "url") .|| ((Ok d) @. "queue"))];
                el "TableCell" [] [interp ((Ok d) @. "key")];
                el "TableCell" [] [txt "—"];
                el "TableCell" [] [interp (e_call fmt (((Ok d) @. "deliver_at_ms") .?? ((Ok d) @. "run_at_ms")))];
                el "TableCell" [] [
                  el "Button" [
                      at_ "size" "sm";
                      at_ "variant" "destructive";
                      on_ "@click" (fun _ => w1 ← pure ((((Ok d) @. "schedule_id") .|| ((Ok d) @. "id")) .|| #""); act (VStr (js "delayed")) w1)] [txt "Cancel"]]]);
            v_for (Ok (s_crons v)) (fun c =>
              el "TableRow" [bind_ "key" (((Ok c) @. "cron_id") .|| ((Ok c) @. "id"))] [
                el "TableCell" [] [el "Badge" [at_ "variant" "secondary"] [txt "cron"]];
                el "TableCell" [at_ "class" "font-mono text-xs"] [interp (((Ok c) @. "cron_id") .|| ((Ok c) @. "id"))];
                el "TableCell" [at_ "class" "max-w-[12rem] truncate font-mono text-xs"] [
                  interp ((((Ok c) @. "destination_url") .|| ((Ok c) @. "url")) .|| ((Ok c) @. "queue"))];
                el "TableCell" [at_ "class" "font-mono text-xs"] [
                  interp (((Ok c) @. "cron") .|| (e_if ((Ok c) @. "every_seconds") (e_template [ #"every "; (Ok c) @. "every_seconds"; #"s"]) #""))];
                el "TableCell" [] [interp (e_if ((Ok c) @. "paused") #"paused" #"active")];
                el "TableCell" [] [
                  interp (e_call fmt (((Ok c) @. "next_run_at_ms") .?? ((Ok c) @. "next_run_ms")))];
                el "TableCell" [at_ "class" "space-x-1"] [
                  el "Button" [
                      at_ "size" "sm";
                      bind_ "variant" (e_if ((Ok c) @. "paused") #"success" #"warning");
                      on_ "@click" (fun _ => w ← pure (e_if ((Ok c) @. "paused") #"cron-resume" #"cron-pause"); w1 ← pure ((((Ok c) @. "cron_id") .|| ((Ok c) @. "id")) .|| #""); act w w1)] [interp (e_if ((Ok c) @. "paused") #"Resume" #"Pause")];
                  el "Button" [
                      at_ "size" "sm";
                      at_ "variant" "destructive";
                      on_ "@click" (fun _ => w1 ← pure ((((Ok c) @. "cron_id") .|| ((Ok c) @. "id")) .|| #""); act (VStr (js "cron-delete")) w1)] [txt "Delete"]]])]]]]].
End handlers.
