(* ===== verification/DlqView.v ===== *)
(** * [views/DlqView.vue]: dead letters *)

From stdpp Require Import base list gmap strings.
From Stdlib Require Import NArith ZArith Lia String SpecFloat.
From S2P Require Import Prelude JsString JsNum JsVal Json Prog State Storage Api Payload Catalog View Form Session.
Local Open Scope js_scope.

(** The component's state. *)
Record state := State_ {
  s_sources : jsval;
  s_sourceId : jsval;
  s_limit : jsval;
  s_rows : jsval;
  s_topic : jsval;
  s_bodyOpen : jsval;
  s_bodyText : jsval;
  s_bodyTitle : jsval;
  s_deleteAllOpen : jsval;
  s_loadStatus : status;
  s_copyStatus : status
}.

Definition set_s_sources (v : jsval) (r : state) : state :=
  {| s_sources := v; s_sourceId := s_sourceId r; s_limit := s_limit r; s_rows := s_rows r; s_topic := s_topic r; s_bodyOpen := s_bodyOpen r; s_bodyText := s_bodyText r; s_bodyTitle := s_bodyTitle r; s_deleteAllOpen := s_deleteAllOpen r; s_loadStatus := s_loadStatus r; s_copyStatus := s_copyStatus r |}.
Definition set_s_sourceId (v : jsval) (r : state) : state :=
  {| s_sources := s_sources r; s_sourceId := v; s_limit := s_limit r; s_rows := s_rows r; s_topic := s_topic r; s_bodyOpen := s_bodyOpen r; s_bodyText := s_bodyText r; s_bodyTitle := s_bodyTitle r; s_deleteAllOpen := s_deleteAllOpen r; s_loadStatus := s_loadStatus r; s_copyStatus := s_copyStatus r |}.
Definition set_s_limit (v : jsval) (r : state) : state :=
  {| s_sources := s_sources r; s_sourceId := s_sourceId r; s_limit := v; s_rows := s_rows r; s_topic := s_topic r; s_bodyOpen := s_bodyOpen r; s_bodyText := s_bodyText r; s_bodyTitle := s_bodyTitle r; s_deleteAllOpen := s_deleteAllOpen r; s_loadStatus := s_loadStatus r; s_copyStatus := s_copyStatus r |}.
Definition set_s_rows (v : jsval) (r : state) : state :=
  {| s_sources := s_sources r; s_sourceId := s_sourceId r; s_limit := s_limit r; s_rows := v; s_topic := s_topic r; s_bodyOpen := s_bodyOpen r; s_bodyText := s_bodyText r; s_bodyTitle := s_bodyTitle r; s_deleteAllOpen := s_deleteAllOpen r; s_loadStatus := s_loadStatus r; s_copyStatus := s_copyStatus r |}.
Definition set_s_topic (v : jsval) (r : state) : state :=
  {| s_sources := s_sources r; s_sourceId := s_sourceId r; s_limit := s_limit r; s_rows := s_rows r; s_topic := v; s_bodyOpen := s_bodyOpen r; s_bodyText := s_bodyText r; s_bodyTitle := s_bodyTitle r; s_deleteAllOpen := s_deleteAllOpen r; s_loadStatus := s_loadStatus r; s_copyStatus := s_copyStatus r |}.
Definition set_s_bodyOpen (v : jsval) (r : state) : state :=
  {| s_sources := s_sources r; s_sourceId := s_sourceId r; s_limit := s_limit r; s_rows := s_rows r; s_topic := s_topic r; s_bodyOpen := v; s_bodyText := s_bodyText r; s_bodyTitle := s_bodyTitle r; s_deleteAllOpen := s_deleteAllOpen r; s_loadStatus := s_loadStatus r; s_copyStatus := s_copyStatus r |}.
Definition set_s_bodyText (v : jsval) (r : state) : state :=
  {| s_sources := s_sources r; s_sourceId := s_sourceId r; s_limit := s_limit r; s_rows := s_rows r; s_topic := s_topic r; s_bodyOpen := s_bodyOpen r; s_bodyText := v; s_bodyTitle := s_bodyTitle r; s_deleteAllOpen := s_deleteAllOpen r; s_loadStatus := s_loadStatus r; s_copyStatus := s_copyStatus r |}.
Definition set_s_bodyTitle (v : jsval) (r : state) : state :=
  {| s_sources := s_sources r; s_sourceId := s_sourceId r; s_limit := s_limit r; s_rows := s_rows r; s_topic := s_topic r; s_bodyOpen := s_bodyOpen r; s_bodyText := s_bodyText r; s_bodyTitle := v; s_deleteAllOpen := s_deleteAllOpen r; s_loadStatus := s_loadStatus r; s_copyStatus := s_copyStatus r |}.
Definition set_s_deleteAllOpen (v : jsval) (r : state) : state :=
  {| s_sources := s_sources r; s_sourceId := s_sourceId r; s_limit := s_limit r; s_rows := s_rows r; s_topic := s_topic r; s_bodyOpen := s_bodyOpen r; s_bodyText := s_bodyText r; s_bodyTitle := s_bodyTitle r; s_deleteAllOpen := v; s_loadStatus := s_loadStatus r; s_copyStatus := s_copyStatus r |}.
Definition set_s_loadStatus (v : status) (r : state) : state :=
  {| s_sources := s_sources r; s_sourceId := s_sourceId r; s_limit := s_limit r; s_rows := s_rows r; s_topic := s_topic r; s_bodyOpen := s_bodyOpen r; s_bodyText := s_bodyText r; s_bodyTitle := s_bodyTitle r; s_deleteAllOpen := s_deleteAllOpen r; s_loadStatus := v; s_copyStatus := s_copyStatus r |}.
Definition set_s_copyStatus (v : status) (r : state) : state :=
  {| s_sources := s_sources r; s_sourceId := s_sourceId r; s_limit := s_limit r; s_rows := s_rows r; s_topic := s_topic r; s_bodyOpen := s_bodyOpen r; s_bodyText := s_bodyText r; s_bodyTitle := s_bodyTitle r; s_deleteAllOpen := s_deleteAllOpen r; s_loadStatus := s_loadStatus r; s_copyStatus := v |}.

Definition on_loadStatus (f : status -> status) (v : state) : state := set_s_loadStatus (f (s_loadStatus v)) v.
Definition on_copyStatus (f : status -> status) (v : state) : state := set_s_copyStatus (f (s_copyStatus v)) v.

(** The state [setup] creates. *)
Definition setup : state :=
  {| s_sources := VArr [];
     s_sourceId := VStr [];
     s_limit := VNum (num_of_Z 20);
     s_rows := VArr [];
     s_topic := VStr [];
     s_bodyOpen := VBool false;
     s_bodyText := VStr [];
     s_bodyTitle := VStr [];
     s_deleteAllOpen := VBool false;
     s_loadStatus := useActionStatus;
     s_copyStatus := useActionStatus |}.

Section handlers.
Context `{Platform}.

Definition options (v : state) : E jsval :=
  e_map (fun s => e_object [("value", (Ok s) @. "dlq_topic");
      ("label", e_template [(Ok s) @. "label" .|| (Ok s) @. "dlq_topic"; #" ("; (Ok s) @. "count" .|| e_num 0; #")"])])
    (Ok (s_sources v)).

Definition selectedSource (v : state) : E jsval :=
  l ← elements_of (s_sources v);
  find_elem (field_is (js "dlq_topic") (s_sourceId v)) l.

(** The query of [load]: by queue when the source names one, by topic otherwise. *)
Definition load_query (src dlqTopic limit : jsval) : jstring :=
  let q := oget src (js "queue") in
  search_params
    [if truthy q then (js "queue", to_string q) else (js "dlq_topic", to_string dlqTopic);
     (js "limit", to_string (if truthy limit then limit else VNum (num_of_Z 20)))].

Definition load : vprog state unit :=
  _ ← upd (on_loadStatus st_reset);
  src ← eval selectedSource;
  dlqTopic ← eval (fun v => (Ok src) @? "dlq_topic" .|| Ok (s_sourceId v));
  if negb (truthy dlqTopic) then
    _ ← upd (set_s_rows (VArr []));
    _ ← upd (set_s_topic (VStr []));
    upd (on_loadStatus (st_fail (VStr (js "Select a DLQ source"))))
  else
    qs ← local (fun v => load_query src dlqTopic (s_limit v));
    prog_catch
      (data ← lib (pub_get (js "/v1/dlq?" ++ qs));
       rows ← pure (list_field data (js "messages"));
       _ ← upd (set_s_rows rows);
       t ← pure ((Ok data) @. "dlq_topic" .|| Ok dlqTopic);
       upd (set_s_topic t))
      (fun e => upd (on_loadStatus (st_fail e))).

(** [Array.isArray(data) ? data : data.sources || []] *)
Definition sources_of (data : jsval) : E jsval :=
  if is_array data then Ok data else list_field data (js "sources").

(** [!sourceId.value || !sources.value.some((s) => s.dlq_topic === sourceId.value)] *)
Definition source_lost (v : state) : E bool :=
  if negb (truthy (s_sourceId v)) then Ok true
  else
    l ← elements_of (s_sources v);
    b ← some_elem (field_is (js "dlq_topic") (s_sourceId v)) l;
    Ok (negb b).

Definition first_source (v : state) : E jsval :=
  l ← elements_of (s_sources v);
  (Ok (first_elem l)) @? "dlq_topic" .|| #"".

Definition loadSources : vprog state unit :=
  _ ← upd (on_loadStatus st_reset);
  prog_catch
    (data ← lib (pub_get (js "/v1/dlq/sources"));
     l ← pure (sources_of data);
     _ ← upd (set_s_sources l);
     lost ← eval source_lost;
     _ ← (if lost : bool then id ← eval first_source; upd (set_s_sourceId id) else Ret tt);
     id ← local s_sourceId;
     if truthy id then load
     else
       _ ← upd (set_s_rows (VArr []));
       upd (set_s_topic (VStr [])))
    (fun e => upd (on_loadStatus (st_fail e))).

Definition mounted : vprog state unit := spawn loadSources.

(** [topic.value || selectedSource()?.dlq_topic || sourceId.value] *)
Definition delete_topic (v : state) : E jsval :=
  Ok (s_topic v) .|| (selectedSource v) @? "dlq_topic" .|| Ok (s_sourceId v).

(** The query of [remove(m)]. *)
Definition remove_query (dlqTopic m : jsval) : E jstring :=
  part ← get m (js "partition");
  off ← get m (js "offset");
  Ok (search_params [(js "dlq_topic", to_string dlqTopic); (js "partition", to_string part);
                     (js "offset", to_string off)]).

Definition remove (m : jsval) : vprog state unit :=
  dlqTopic ← eval delete_topic;
  if negb (truthy dlqTopic) then upd (on_loadStatus (st_fail (VStr (js "Select a DLQ source"))))
  else
    qs ← pure (remove_query dlqTopic m);
    _ ← upd (on_loadStatus st_reset);
    prog_catch
      (_ ← lib (pub_delete (js "/v1/dlq?" ++ qs));
       _ ← upd (on_loadStatus (st_succeed (VStr (js "Deleted"))));
       load)
      (fun e => upd (on_loadStatus (st_fail e))).

Definition removeAll : vprog state unit :=
  dlqTopic ← eval delete_topic;
  if negb (truthy dlqTopic) then upd (on_loadStatus (st_fail (VStr (js "Select a DLQ source"))))
  else
    _ ← upd (on_loadStatus st_reset);
    prog_catch
      (data ← lib (pub_delete (js "/v1/dlq?" ++ search_params [(js "dlq_topic", to_string dlqTopic)]));
       _ ← upd (set_s_deleteAllOpen (VBool false));
       msg ← pure (e_template [ #"Deleted "; (Ok data) @. "deleted" .?? e_num 0]);
       _ ← upd (on_loadStatus (st_succeed msg));
       loadSources)
      (fun e => upd (on_loadStatus (st_fail e))).

Definition copyBody : vprog state unit :=
  _ ← upd (on_copyStatus st_reset);
  prog_catch
    (t ← local s_bodyText;
     _ ← lib (copyText t);
     upd (on_copyStatus (st_succeed (VStr (js "Copied")))))
    (fun _ => upd (on_copyStatus (st_fail (VStr (js "Copy failed"))))).

(** The text of the body dialog. *)
Definition body_text_of (m : jsval) : E jsval :=
  try_catch
    (b ← get m (js "body");
     v ← (if is_string b then json_parse (to_string b) else Ok b);
     Ok (match stringify2 0 v with Some t => VStr t | None => VUndef end))
    (fun _ =>
       b ← get m (js "body");
       Ok (VStr (if is_nullish b then [] else to_string b))).

Definition view (m : jsval) : vprog state unit :=
  t ← pure (e_template [ #"DLQ · "; (Ok m) @. "message_id"]);
  _ ← upd (set_s_bodyTitle t);
  b ← pure (body_text_of m);
  _ ← upd (set_s_bodyText b);
  upd (set_s_bodyOpen (VBool true)).

Definition fmt (ms : jsval) : E jsval := if negb (truthy ms) then #"—" else e_str (locale_string ms).

(** ** The template *)

Definition render (p : panel) (v : state) : E (list (vnode (panel * state))) :=
  el "div" [at_ "class" "space-y-4"] [
    el "div" [] [
      el "h1" [at_ "class" "text-lg font-semibold tracking-tight"] [txt "Dead letter queue"];
      el "p" [at_ "class" "text-sm text-muted-foreground"] [
        txt " Failed deliveries land in a per-source DLQ. Auto-expire with ";
        el "code" [at_ "class" "font-mono"] [txt "BETTERMQ_DLQ_RETENTION_DAYS"];
        txt " (unset = keep forever). "];
      el "code" [at_ "class" "mt-1 block font-mono text-xs text-muted-foreground"] [txt "GET /v1/dlq"]];
    el "Alert" [] [
      el "AlertDescription" [] [
        txt " Queue enqueue → jobs.__dlq · Direct publish → __direct.__dlq · Group fan-out → one DLQ per member. "]];
    el "Card" [] [
      el "CardContent" [at_ "class" "flex flex-wrap items-end gap-3 pt-6"] [
        Field #"Source" (Ok VUndef) (Ok VUndef) #"min-w-64 flex-1" (frag [
          AppSelect (Ok (s_sourceId v)) (fun ev => upd (set_s_sourceId ev))
            (options v) #"Select a source" (Some (fun _ => load))]);
        Field #"DLQ topic" (Ok VUndef) (Ok VUndef) (Ok VUndef) (frag [
          el "Input" [
              bind_ "model-value" (Ok (s_topic v));
              at_ "readonly" "";
              at_ "class" "font-mono text-xs"] []]);
        Field #"Limit" (Ok VUndef) (Ok VUndef) (Ok VUndef) (frag [
          el "Input" [
              model_ "v-model" (Ok (s_limit v)) (fun ev => upd (set_s_limit ev));
              at_ "type" "number";
              at_ "min" "1"] []]);
        el "Button" [
            at_ "variant" "outline";
            at_ "size" "sm";
            bind_ "disabled" (e_not (Ok (s_sourceId v)));
            on_ "@click" (fun _ => load)] [txt "Load"];
        el "Button" [
            at_ "variant" "destructive";
            at_ "size" "sm";
            bind_ "disabled" (e_not (Ok (s_sourceId v)));
            on_ "@click" (fun _ => upd (set_s_deleteAllOpen (VBool true)))] [txt "Delete all"];
        ActionMessage (Ok (st_error (s_loadStatus v))) (Ok (st_ok (s_loadStatus v))) (Ok VUndef)]];
    el "Card" [] [
      el "CardHeader" [] [el "CardTitle" [] [txt "Messages"]];
      el "CardContent" [] [
        el "Table" [] [
          el "TableHeader" [] [
            el "TableRow" [] [
              el "TableHead" [] [txt "Message"];
              el "TableHead" [] [txt "Source"];
              el "TableHead" [] [txt "Destination"];
              el "TableHead" [] [txt "Reason"];
              el "TableHead" [] [txt "Published"];
              el "TableHead" [] []]];
          el "TableBody" [] [
            v_if (e_not ((Ok (s_rows v)) @. "length"))
              (el "TableRow" [] [
                el "TableCell" [at_ "colspan" "6"; at_ "class" "text-sm text-muted-foreground"] [
                  interp (e_if (Ok (s_sourceId v)) #"No dead letters for this source." #"Select a source to load messages.")]])
              none;
            v_for (Ok (s_rows v)) (fun m =>
              el "TableRow" [bind_ "key" ((Ok m) @. "message_id")] [
                el "TableCell" [at_ "class" "font-mono text-xs"] [interp ((Ok m) @. "message_id")];
                el "TableCell" [] [interp (((Ok m) @. "source_queue") .|| #"—")];
                el "TableCell" [at_ "class" "max-w-[12rem] truncate font-mono text-xs"] [interp ((Ok m) @. "destination_url")];
                el "TableCell" [at_ "class" "max-w-[12rem] truncate"] [interp ((Ok m) @. "reason")];
                el "TableCell" [] [interp (e_call fmt ((Ok m) @. "published_at_ms"))];
                el "TableCell" [at_ "class" "space-x-1"] [
                  el "Button" [at_ "size" "sm"; at_ "variant" "outline"; on_ "@click" (fun _ => view m)] [txt "View"];
                  el "Button" [
                      at_ "size" "sm";
                      at_ "variant" "destructive";
                      on_ "@click" (fun _ => remove m)] [txt "Delete"]]])]]]];
    el "AlertDialog" [
        bind_ "open" (Ok (s_deleteAllOpen v));
        on_ "@update:open" (fun ev => upd (set_s_deleteAllOpen ev))] [
      el "AlertDialogContent" [] [
        el "AlertDialogHeader" [] [
          el "AlertDialogTitle" [] [txt "Delete all dead letters?"];
          el "AlertDialogDescription" [] [
            txt " This removes every message on ";
            interp (((Ok (s_topic v)) .|| (Ok (s_sourceId v))) .|| #"this DLQ");
            txt ". It cannot be undone. "]];
        el "AlertDialogFooter" [] [
          el "AlertDialogCancel" [] [txt "Cancel"];
          el "AlertDialogAction" [at_ "variant" "destructive"; on_ "@click" (fun _ => removeAll)] [txt "Delete all"]]]];
    el "Dialog" [model_ "v-model:open" (Ok (s_bodyOpen v)) (fun ev => upd (set_s_bodyOpen ev))] [
      el "DialogContent" [at_ "class" "max-w-2xl"] [
        el "DialogHeader" [] [el "DialogTitle" [] [interp (Ok (s_bodyTitle v))]];
        el "pre" [at_ "class" "max-h-96 overflow-auto border bg-muted p-3 font-mono text-xs"] [interp (Ok (s_bodyText v))];
        el "DialogFooter" [] [
          ActionMessage (Ok (st_error (s_copyStatus v))) (Ok (st_ok (s_copyStatus v))) (Ok VUndef);
          el "Button" [at_ "variant" "outline"; at_ "size" "sm"; on_ "@click" (fun _ => copyBody)] [txt "Copy"];
          el "Button" [at_ "size" "sm"; on_ "@click" (fun _ => upd (set_s_bodyOpen (VBool false)))] [txt "Close"]]]]].
End handlers.
