(* ===== verification/OverviewView.v ===== *)
(** * [views/OverviewView.vue]: counts, cluster summary, quick publish *)

From stdpp Require Import base list gmap strings.
From Stdlib Require Import NArith ZArith Lia String SpecFloat.
From S2P Require Import Prelude JsString JsNum JsVal Json Prog State Storage Api Payload Catalog View Form Session.
Local Open Scope js_scope.

(** The reactive [kpis]. *)
Record kpis_state := Kpis_ {
  kpis_queues : jsval;
  kpis_groups : jsval;
  kpis_flows : jsval;
  kpis_schedules : jsval;
  kpis_dlq : jsval
}.

Definition set_kpis_queues (v : jsval) (r : kpis_state) : kpis_state :=
  {| kpis_queues := v; kpis_groups := kpis_groups r; kpis_flows := kpis_flows r; kpis_schedules := kpis_schedules r; kpis_dlq := kpis_dlq r |}.
Definition set_kpis_groups (v : jsval) (r : kpis_state) : kpis_state :=
  {| kpis_queues := kpis_queues r; kpis_groups := v; kpis_flows := kpis_flows r; kpis_schedules := kpis_schedules r; kpis_dlq := kpis_dlq r |}.
Definition set_kpis_flows (v : jsval) (r : kpis_state) : kpis_state :=
  {| kpis_queues := kpis_queues r; kpis_groups := kpis_groups r; kpis_flows := v; kpis_schedules := kpis_schedules r; kpis_dlq := kpis_dlq r |}.
Definition set_kpis_schedules (v : jsval) (r : kpis_state) : kpis_state :=
  {| kpis_queues := kpis_queues r; kpis_groups := kpis_groups r; kpis_flows := kpis_flows r; kpis_schedules := v; kpis_dlq := kpis_dlq r |}.
Definition set_kpis_dlq (v : jsval) (r : kpis_state) : kpis_state :=
  {| kpis_queues := kpis_queues r; kpis_groups := kpis_groups r; kpis_flows := kpis_flows r; kpis_schedules := kpis_schedules r; kpis_dlq := v |}.

(** The reactive [pub]. *)
Record pub_state := Pub_ {
  pub_url : jsval;
  pub_secret : jsval;
  pub_body : jsval
}.

Definition set_pub_url (v : jsval) (r : pub_state) : pub_state :=
  {| pub_url := v; pub_secret := pub_secret r; pub_body := pub_body r |}.
Definition set_pub_secret (v : jsval) (r : pub_state) : pub_state :=
  {| pub_url := pub_url r; pub_secret := v; pub_body := pub_body r |}.
Definition set_pub_body (v : jsval) (r : pub_state) : pub_state :=
  {| pub_url := pub_url r; pub_secret := pub_secret r; pub_body := v |}.

(** The component's state. *)
Record state := State_ {
  s_kpis : kpis_state;
  s_pub : pub_state;
  s_publishStatus : status
}.

Definition set_s_kpis (v : kpis_state) (r : state) : state :=
  {| s_kpis := v; s_pub := s_pub r; s_publishStatus := s_publishStatus r |}.
Definition set_s_pub (v : pub_state) (r : state) : state :=
  {| s_kpis := s_kpis r; s_pub := v; s_publishStatus := s_publishStatus r |}.
Definition set_s_publishStatus (v : status) (r : state) : state :=
  {| s_kpis := s_kpis r; s_pub := s_pub r; s_publishStatus := v |}.

Definition on_kpis (f : kpis_state -> kpis_state) (v : state) : state := set_s_kpis (f (s_kpis v)) v.
Definition on_pub (f : pub_state -> pub_state) (v : state) : state := set_s_pub (f (s_pub v)) v.
Definition on_publishStatus (f : status -> status) (v : state) : state := set_s_publishStatus (f (s_publishStatus v)) v.

(** The state [setup] creates. *)
Definition setup : state :=
  {| s_kpis := {| kpis_queues := VStr (js "—"); kpis_groups := VStr (js "—"); kpis_flows := VStr (js "—"); kpis_schedules := VStr (js "—"); kpis_dlq := VStr (js "—") |};
     s_pub := {| pub_url := VStr (js "https://webhook.site"); pub_secret := VStr (js "whsec_demo"); pub_body := VStr (jsq "{'from':'dashboard'}") |};
     s_publishStatus := useActionStatus |}.

Section handlers.
Context `{Platform}.

Definition fetchJson (path : jstring) : prog panel jsval := pub_get path.

(** [String(l.length)] *)
Definition count_text (l : jsval) : E jsval := e_String (e_length (Ok l)).

(** [String(((d.delayed) || []).length + ((c.crons) || []).length)] *)
Definition schedule_count (d c : jsval) : E jsval :=
  a ← e_length (list_field d (js "delayed"));
  b ← e_length (list_field c (js "crons"));
  e_String (Ok (js_add a b)).

(** [list.reduce((s, x) => s + (x.count || 0), 0)] *)
Fixpoint sum_counts (acc : jsval) (l : list jsval) : E jsval :=
  match l with
  | [] => Ok acc
  | x :: l' => c ← (Ok x) @. "count" .|| e_num 0; sum_counts (js_add acc c) l'
  end.

Definition dlq_count (sources : jsval) : E jsval :=
  src ← (if is_array sources then Ok sources else list_field sources (js "sources"));
  l ← elements_of src;
  e_String (sum_counts (VNum (num_of_Z 0)) l).

Definition mounted : vprog state unit :=
  _ ← lib (promise_array [discard pollHealth; discard pollCluster; discard refreshQueues;
                          discard refreshGroups; discard refreshFlows]);
  q ← eval_page (fun p v => count_text (queues (cat p)));
  _ ← upd (on_kpis (set_kpis_queues q));
  g ← eval_page (fun p v => count_text (groups (cat p)));
  _ ← upd (on_kpis (set_kpis_groups g));
  f ← eval_page (fun p v => count_text (flows (cat p)));
  _ ← upd (on_kpis (set_kpis_flows f));
  _ ← prog_catch
    (dc ← lib (promise_all (fetchJson (js "/v1/delayed")) (fetchJson (js "/v1/crons")));
     n ← pure (schedule_count (fst dc) (snd dc));
     upd (on_kpis (set_kpis_schedules n)))
    (fun _ => upd (on_kpis (set_kpis_schedules (VStr (js "—")))));
  prog_catch
    (sources ← lib (fetchJson (js "/v1/dlq/sources"));
     n ← pure (dlq_count sources);
     upd (on_kpis (set_kpis_dlq n)))
    (fun _ => upd (on_kpis (set_kpis_dlq (VStr (js "—"))))).

Definition publish_payload (p : panel) (f : pub_state) : E (jsval * option jstring) :=
  mergeOutbound (out p)
    (VObj ["url" ~> pub_url f; "secret" ~> pub_secret f;
           "key" ~> VStr (js "dashboard-" ++ num_to_string (num_of_Z (now_ms (br p))));
           "body" ~> parseBodyField (pub_body f); "priority" ~> VNum (num_of_Z 5)]).

Definition quickPublish : vprog state unit :=
  m ← eval_page (fun p v => publish_payload p (s_pub v));
  match m with
  | (_, Some headersError) => upd (on_publishStatus (st_fail (VStr headersError)))
  | (payload, None) =>
      prog_catch
        (r ← lib (pub_post (js "/v1/publish") (Some payload));
         msg ← pure (e_template [ #"Published "; (Ok r) @. "message_id" .|| #"ok"]);
         upd (on_publishStatus (st_succeed msg)))
        (fun e => upd (on_publishStatus (st_fail e)))
  end.

Definition clusterNodes (p : panel) : E jsval := (Ok (cluster (ses p))) @? "nodes" .|| Ok (VArr []).

(** ** The template *)

Definition render (p : panel) (v : state) : E (list (vnode (panel * state))) :=
  el "div" [at_ "class" "space-y-4"] [
    el "div" [] [
      el "h1" [at_ "class" "text-lg font-semibold tracking-tight"] [txt "Overview"];
      el "p" [at_ "class" "text-sm text-muted-foreground"] [txt "Broker health and resource counts"]];
    el "div" [at_ "class" "grid gap-2 sm:grid-cols-2 lg:grid-cols-5"] [
      el "Card" [at_ "size" "sm"] [
        el "CardHeader" [at_ "class" "pb-1"] [
          el "CardDescription" [] [txt "Status"];
          el "CardTitle" [at_ "class" "font-mono text-lg"] [interp (Ok (health (ses p)))]]];
      el "Card" [at_ "size" "sm"] [
        el "CardHeader" [at_ "class" "pb-1"] [
          el "CardDescription" [] [txt "Queues"];
          el "CardTitle" [at_ "class" "text-lg"] [interp (Ok (kpis_queues (s_kpis v)))]]];
      el "Card" [at_ "size" "sm"] [
        el "CardHeader" [at_ "class" "pb-1"] [
          el "CardDescription" [] [txt "Groups"];
          el "CardTitle" [at_ "class" "text-lg"] [interp (Ok (kpis_groups (s_kpis v)))]]];
      el "Card" [at_ "size" "sm"] [
        el "CardHeader" [at_ "class" "pb-1"] [
          el "CardDescription" [] [txt "Schedules"];
          el "CardTitle" [at_ "class" "text-lg"] [interp (Ok (kpis_schedules (s_kpis v)))]]];
      el "Card" [at_ "size" "sm"] [
        el "CardHeader" [at_ "class" "pb-1"] [
          el "CardDescription" [] [txt "DLQ"];
          el "CardTitle" [at_ "class" "text-lg"] [interp (Ok (kpis_dlq (s_kpis v)))]]]];
    v_if (((Ok (cluster (ses p))) @? "enabled") .|| (((clusterNodes p) @. "length") .> (e_num 1)))
      (el "Card" [] [
        el "CardHeader" [] [
          el "CardTitle" [] [txt "Cluster"];
          el "CardDescription" [] [interp (Ok (VStr (clusterLabel (ses p)))); txt " · compact summary"]];
        el "CardContent" [] [
          el "Table" [] [
            el "TableHeader" [] [
              el "TableRow" [] [
                el "TableHead" [] [txt "Node"];
                el "TableHead" [] [txt "Health"];
                el "TableHead" [] [txt "Led shards"]]];
            el "TableBody" [] [
              v_for (clusterNodes p) (fun n =>
                el "TableRow" [bind_ "key" (((Ok n) @. "id") .|| ((Ok n) @. "addr"))] [
                  el "TableCell" [at_ "class" "font-mono text-xs"] [interp (((Ok n) @. "name") .|| ((Ok n) @. "addr"))];
                  el "TableCell" [] [interp (e_if (((Ok n) @. "healthy") === (Ok (VBool false))) #"down" #"ok")];
                  el "TableCell" [at_ "class" "font-mono text-xs"] [interp ((e_join (((Ok n) @. "led_shards") .|| (e_array [])) ", ") .|| #"—")]])]]]])
      none;
    el "div" [at_ "class" "grid gap-3 lg:grid-cols-2"] [
      el "Card" [] [
        el "CardHeader" [] [
          el "CardTitle" [] [txt "Delivery model"];
          el "CardDescription" [] [txt "How messages leave BetterMQ"]];
        el "CardContent" [at_ "class" "space-y-1.5 text-sm"] [
          el "p" [] [el "strong" [] [txt "Publish"]; txt " — one-off webhook."];
          el "p" [] [
            el "strong" [] [txt "Enqueue"];
            txt " — named queue. No key = standard; a key = FIFO for that entity."];
          el "p" [] [el "strong" [] [txt "Groups"]; txt " — fan-out to member webhooks."];
          el "p" [] [el "strong" [] [txt "DLQ"]; txt " — failed deliveries after retries."]]];
      el "Card" [] [
        el "CardHeader" [] [
          el "CardTitle" [] [txt "Quick publish"];
          el "CardDescription" [] [txt "One direct webhook from the console"]];
        el "CardContent" [at_ "class" "grid gap-2"] [
          Field #"URL" (Ok VUndef) (Ok VUndef) (Ok VUndef) (frag [
            el "Input" [
                model_ "v-model" (Ok (pub_url (s_pub v))) (fun ev => upd (on_pub (set_pub_url ev)));
                at_ "class" "font-mono text-xs"] []]);
          Field #"Secret" (Ok VUndef) (Ok VUndef) (Ok VUndef) (frag [
            el "Input" [
                model_ "v-model" (Ok (pub_secret (s_pub v))) (fun ev => upd (on_pub (set_pub_secret ev)));
                at_ "class" "font-mono"] []]);
          Field #"Body" (Ok VUndef) (Ok VUndef) (Ok VUndef) (frag [
            el "Input" [
                model_ "v-model" (Ok (pub_body (s_pub v))) (fun ev => upd (on_pub (set_pub_body ev)));
                at_ "class" "font-mono text-xs"] []])];
        el "CardFooter" [] [
          el "Button" [at_ "size" "sm"; on_ "@click" (fun _ => quickPublish)] [txt "Publish"];
          ActionMessage (Ok (st_error (s_publishStatus v))) (Ok (st_ok (s_publishStatus v))) (Ok VUndef)]]]].
End handlers.
