(* ===== verification/InfraView.v ===== *)
(** * [views/InfraView.vue]: cells, nodes, cluster and storage *)

From stdpp Require Import base list gmap strings.
From Stdlib Require Import NArith ZArith Lia String SpecFloat.
From S2P Require Import Prelude JsString JsNum JsVal Json Prog State Storage Api Payload Catalog View Form Session.
Local Open Scope js_scope.

(** The reactive [cellForm]. *)
Record cellForm_state := Cellform_ {
  cellForm_id : jsval;
  cellForm_region : jsval;
  cellForm_controllerUrl : jsval;
  cellForm_label : jsval
}.

Definition set_cellForm_id (v : jsval) (r : cellForm_state) : cellForm_state :=
  {| cellForm_id := v; cellForm_region := cellForm_region r; cellForm_controllerUrl := cellForm_controllerUrl r; cellForm_label := cellForm_label r |}.
Definition set_cellForm_region (v : jsval) (r : cellForm_state) : cellForm_state :=
  {| cellForm_id := cellForm_id r; cellForm_region := v; cellForm_controllerUrl := cellForm_controllerUrl r; cellForm_label := cellForm_label r |}.
Definition set_cellForm_controllerUrl (v : jsval) (r : cellForm_state) : cellForm_state :=
  {| cellForm_id := cellForm_id r; cellForm_region := cellForm_region r; cellForm_controllerUrl := v; cellForm_label := cellForm_label r |}.
Definition set_cellForm_label (v : jsval) (r : cellForm_state) : cellForm_state :=
  {| cellForm_id := cellForm_id r; cellForm_region := cellForm_region r; cellForm_controllerUrl := cellForm_controllerUrl r; cellForm_label := v |}.

(** The reactive [attach]. *)
Record attach_state := Attach_ {
  attach_profile : jsval;
  attach_name : jsval;
  attach_reach : jsval;
  attach_split : jsval;
  attach_advertise : jsval;
  attach_token : jsval;
  attach_error : jsval
}.

Definition set_attach_profile (v : jsval) (r : attach_state) : attach_state :=
  {| attach_profile := v; attach_name := attach_name r; attach_reach := attach_reach r; attach_split := attach_split r; attach_advertise := attach_advertise r; attach_token := attach_token r; attach_error := attach_error r |}.
Definition set_attach_name (v : jsval) (r : attach_state) : attach_state :=
  {| attach_profile := attach_profile r; attach_name := v; attach_reach := attach_reach r; attach_split := attach_split r; attach_advertise := attach_advertise r; attach_token := attach_token r; attach_error := attach_error r |}.
Definition set_attach_reach (v : jsval) (r : attach_state) : attach_state :=
  {| attach_profile := attach_profile r; attach_name := attach_name r; attach_reach := v; attach_split := attach_split r; attach_advertise := attach_advertise r; attach_token := attach_token r; attach_error := attach_error r |}.
Definition set_attach_split (v : jsval) (r : attach_state) : attach_state :=
  {| attach_profile := attach_profile r; attach_name := attach_name r; attach_reach := attach_reach r; attach_split := v; attach_advertise := attach_advertise r; attach_token := attach_token r; attach_error := attach_error r |}.
Definition set_attach_advertise (v : jsval) (r : attach_state) : attach_state :=
  {| attach_profile := attach_profile r; attach_name := attach_name r; attach_reach := attach_reach r; attach_split := attach_split r; attach_advertise := v; attach_token := attach_token r; attach_error := attach_error r |}.
Definition set_attach_token (v : jsval) (r : attach_state) : attach_state :=
  {| attach_profile := attach_profile r; attach_name := attach_name r; attach_reach := attach_reach r; attach_split := attach_split r; attach_advertise := attach_advertise r; attach_token := v; attach_error := attach_error r |}.
Definition set_attach_error (v : jsval) (r : attach_state) : attach_state :=
  {| attach_profile := attach_profile r; attach_name := attach_name r; attach_reach := attach_reach r; attach_split := attach_split r; attach_advertise := attach_advertise r; attach_token := attach_token r; attach_error := v |}.

(** The reactive [nodeForm]. *)
Record nodeForm_state := Nodeform_ {
  nodeForm_name : jsval;
  nodeForm_publicUrl : jsval
}.

Definition set_nodeForm_name (v : jsval) (r : nodeForm_state) : nodeForm_state :=
  {| nodeForm_name := v; nodeForm_publicUrl := nodeForm_publicUrl r |}.
Definition set_nodeForm_publicUrl (v : jsval) (r : nodeForm_state) : nodeForm_state :=
  {| nodeForm_name := nodeForm_name r; nodeForm_publicUrl := v |}.

(** The reactive [storage]. *)
Record storage_state := Storage_ {
  storage_mode : jsval;
  storage_endpoint : jsval;
  storage_bucket : jsval;
  storage_payloadBucket : jsval;
  storage_accessKey : jsval;
  storage_secretKey : jsval;
  storage_region : jsval;
  storage_test : jsval
}.

Definition set_storage_mode (v : jsval) (r : storage_state) : storage_state :=
  {| storage_mode := v; storage_endpoint := storage_endpoint r; storage_bucket := storage_bucket r; storage_payloadBucket := storage_payloadBucket r; storage_accessKey := storage_accessKey r; storage_secretKey := storage_secretKey r; storage_region := storage_region r; storage_test := storage_test r |}.
Definition set_storage_endpoint (v : jsval) (r : storage_state) : storage_state :=
  {| storage_mode := storage_mode r; storage_endpoint := v; storage_bucket := storage_bucket r; storage_payloadBucket := storage_payloadBucket r; storage_accessKey := storage_accessKey r; storage_secretKey := storage_secretKey r; storage_region := storage_region r; storage_test := storage_test r |}.
Definition set_storage_bucket (v : jsval) (r : storage_state) : storage_state :=
  {| storage_mode := storage_mode r; storage_endpoint := storage_endpoint r; storage_bucket := v; storage_payloadBucket := storage_payloadBucket r; storage_accessKey := storage_accessKey r; storage_secretKey := storage_secretKey r; storage_region := storage_region r; storage_test := storage_test r |}.
Definition set_storage_payloadBucket (v : jsval) (r : storage_state) : storage_state :=
  {| storage_mode := storage_mode r; storage_endpoint := storage_endpoint r; storage_bucket := storage_bucket r; storage_payloadBucket := v; storage_accessKey := storage_accessKey r; storage_secretKey := storage_secretKey r; storage_region := storage_region r; storage_test := storage_test r |}.
Definition set_storage_accessKey (v : jsval) (r : storage_state) : storage_state :=
  {| storage_mode := storage_mode r; storage_endpoint := storage_endpoint r; storage_bucket := storage_bucket r; storage_payloadBucket := storage_payloadBucket r; storage_accessKey := v; storage_secretKey := storage_secretKey r; storage_region := storage_region r; storage_test := storage_test r |}.
Definition set_storage_secretKey (v : jsval) (r : storage_state) : storage_state :=
  {| storage_mode := storage_mode r; storage_endpoint := storage_endpoint r; storage_bucket := storage_bucket r; storage_payloadBucket := storage_payloadBucket r; storage_accessKey := storage_accessKey r; storage_secretKey := v; storage_region := storage_region r; storage_test := storage_test r |}.
Definition set_storage_region (v : jsval) (r : storage_state) : storage_state :=
  {| storage_mode := storage_mode r; storage_endpoint := storage_endpoint r; storage_bucket := storage_bucket r; storage_payloadBucket := storage_payloadBucket r; storage_accessKey := storage_accessKey r; storage_secretKey := storage_secretKey r; storage_region := v; storage_test := storage_test r |}.
Definition set_storage_test (v : jsval) (r : storage_state) : storage_state :=
  {| storage_mode := storage_mode r; storage_endpoint := storage_endpoint r; storage_bucket := storage_bucket r; storage_payloadBucket := storage_payloadBucket r; storage_accessKey := storage_accessKey r; storage_secretKey := storage_secretKey r; storage_region := storage_region r; storage_test := v |}.

(** The component's state. *)
Record state := State_ {
  s_cellForm : cellForm_state;
  s_attach : attach_state;
  s_nodeForm : nodeForm_state;
  s_storage : storage_state;
  s_section : jsval;
  s_selectedNodeKey : jsval;
  s_nodesByCell : jsval;
  s_shardsByCell : jsval;
  s_clusterByCell : jsval;
  s_restartMsg : jsval;
  s_rfMsg : jsval;
  s_infraStatus : jsval;
  s_joinToken : jsval;
  s_createOpen : jsval;
  s_attachOpen : jsval;
  s_attachOk : jsval;
  s_fedStatus : status;
  s_clusterStatus : status;
  s_cellStatus : status;
  s_nodeStatus : status;
  s_storageStatus : status;
  s_detailStatus : status
}.

Definition set_s_cellForm (v : cellForm_state) (r : state) : state :=
  {| s_cellForm := v; s_attach := s_attach r; s_nodeForm := s_nodeForm r; s_storage := s_storage r; s_section := s_section r; s_selectedNodeKey := s_selectedNodeKey r; s_nodesByCell := s_nodesByCell r; s_shardsByCell := s_shardsByCell r; s_clusterByCell := s_clusterByCell r; s_restartMsg := s_restartMsg r; s_rfMsg := s_rfMsg r; s_infraStatus := s_infraStatus r; s_joinToken := s_joinToken r; s_createOpen := s_createOpen r; s_attachOpen := s_attachOpen r; s_attachOk := s_attachOk r; s_fedStatus := s_fedStatus r; s_clusterStatus := s_clusterStatus r; s_cellStatus := s_cellStatus r; s_nodeStatus := s_nodeStatus r; s_storageStatus := s_storageStatus r; s_detailStatus := s_detailStatus r |}.
Definition set_s_attach (v : attach_state) (r : state) : state :=
  {| s_cellForm := s_cellForm r; s_attach := v; s_nodeForm := s_nodeForm r; s_storage := s_storage r; s_section := s_section r; s_selectedNodeKey := s_selectedNodeKey r; s_nodesByCell := s_nodesByCell r; s_shardsByCell := s_shardsByCell r; s_clusterByCell := s_clusterByCell r; s_restartMsg := s_restartMsg r; s_rfMsg := s_rfMsg r; s_infraStatus := s_infraStatus r; s_joinToken := s_joinToken r; s_createOpen := s_createOpen r; s_attachOpen := s_attachOpen r; s_attachOk := s_attachOk r; s_fedStatus := s_fedStatus r; s_clusterStatus := s_clusterStatus r; s_cellStatus := s_cellStatus r; s_nodeStatus := s_nodeStatus r; s_storageStatus := s_storageStatus r; s_detailStatus := s_detailStatus r |}.
Definition set_s_nodeForm (v : nodeForm_state) (r : state) : state :=
  {| s_cellForm := s_cellForm r; s_attach := s_attach r; s_nodeForm := v; s_storage := s_storage r; s_section := s_section r; s_selectedNodeKey := s_selectedNodeKey r; s_nodesByCell := s_nodesByCell r; s_shardsByCell := s_shardsByCell r; s_clusterByCell := s_clusterByCell r; s_restartMsg := s_restartMsg r; s_rfMsg := s_rfMsg r; s_infraStatus := s_infraStatus r; s_joinToken := s_joinToken r; s_createOpen := s_createOpen r; s_attachOpen := s_attachOpen r; s_attachOk := s_attachOk r; s_fedStatus := s_fedStatus r; s_clusterStatus := s_clusterStatus r; s_cellStatus := s_cellStatus r; s_nodeStatus := s_nodeStatus r; s_storageStatus := s_storageStatus r; s_detailStatus := s_detailStatus r |}.
Definition set_s_storage (v : storage_state) (r : state) : state :=
  {| s_cellForm := s_cellForm r; s_attach := s_attach r; s_nodeForm := s_nodeForm r; s_storage := v; s_section := s_section r; s_selectedNodeKey := s_selectedNodeKey r; s_nodesByCell := s_nodesByCell r; s_shardsByCell := s_shardsByCell r; s_clusterByCell := s_clusterByCell r; s_restartMsg := s_restartMsg r; s_rfMsg := s_rfMsg r; s_infraStatus := s_infraStatus r; s_joinToken := s_joinToken r; s_createOpen := s_createOpen r; s_attachOpen := s_attachOpen r; s_attachOk := s_attachOk r; s_fedStatus := s_fedStatus r; s_clusterStatus := s_clusterStatus r; s_cellStatus := s_cellStatus r; s_nodeStatus := s_nodeStatus r; s_storageStatus := s_storageStatus r; s_detailStatus := s_detailStatus r |}.
Definition set_s_section (v : jsval) (r : state) : state :=
  {| s_cellForm := s_cellForm r; s_attach := s_attach r; s_nodeForm := s_nodeForm r; s_storage := s_storage r; s_section := v; s_selectedNodeKey := s_selectedNodeKey r; s_nodesByCell := s_nodesByCell r; s_shardsByCell := s_shardsByCell r; s_clusterByCell := s_clusterByCell r; s_restartMsg := s_restartMsg r; s_rfMsg := s_rfMsg r; s_infraStatus := s_infraStatus r; s_joinToken := s_joinToken r; s_createOpen := s_createOpen r; s_attachOpen := s_attachOpen r; s_attachOk := s_attachOk r; s_fedStatus := s_fedStatus r; s_clusterStatus := s_clusterStatus r; s_cellStatus := s_cellStatus r; s_nodeStatus := s_nodeStatus r; s_storageStatus := s_storageStatus r; s_detailStatus := s_detailStatus r |}.
Definition set_s_selectedNodeKey (v : jsval) (r : state) : state :=
  {| s_cellForm := s_cellForm r; s_attach := s_attach r; s_nodeForm := s_nodeForm r; s_storage := s_storage r; s_section := s_section r; s_selectedNodeKey := v; s_nodesByCell := s_nodesByCell r; s_shardsByCell := s_shardsByCell r; s_clusterByCell := s_clusterByCell r; s_restartMsg := s_restartMsg r; s_rfMsg := s_rfMsg r; s_infraStatus := s_infraStatus r; s_joinToken := s_joinToken r; s_createOpen := s_createOpen r; s_attachOpen := s_attachOpen r; s_attachOk := s_attachOk r; s_fedStatus := s_fedStatus r; s_clusterStatus := s_clusterStatus r; s_cellStatus := s_cellStatus r; s_nodeStatus := s_nodeStatus r; s_storageStatus := s_storageStatus r; s_detailStatus := s_detailStatus r |}.
Definition set_s_nodesByCell (v : jsval) (r : state) : state :=
  {| s_cellForm := s_cellForm r; s_attach := s_attach r; s_nodeForm := s_nodeForm r; s_storage := s_storage r; s_section := s_section r; s_selectedNodeKey := s_selectedNodeKey r; s_nodesByCell := v; s_shardsByCell := s_shardsByCell r; s_clusterByCell := s_clusterByCell r; s_restartMsg := s_restartMsg r; s_rfMsg := s_rfMsg r; s_infraStatus := s_infraStatus r; s_joinToken := s_joinToken r; s_createOpen := s_createOpen r; s_attachOpen := s_attachOpen r; s_attachOk := s_attachOk r; s_fedStatus := s_fedStatus r; s_clusterStatus := s_clusterStatus r; s_cellStatus := s_cellStatus r; s_nodeStatus := s_nodeStatus r; s_storageStatus := s_storageStatus r; s_detailStatus := s_detailStatus r |}.
Definition set_s_shardsByCell (v : jsval) (r : state) : state :=
  {| s_cellForm := s_cellForm r; s_attach := s_attach r; s_nodeForm := s_nodeForm r; s_storage := s_storage r; s_section := s_section r; s_selectedNodeKey := s_selectedNodeKey r; s_nodesByCell := s_nodesByCell r; s_shardsByCell := v; s_clusterByCell := s_clusterByCell r; s_restartMsg := s_restartMsg r; s_rfMsg := s_rfMsg r; s_infraStatus := s_infraStatus r; s_joinToken := s_joinToken r; s_createOpen := s_createOpen r; s_attachOpen := s_attachOpen r; s_attachOk := s_attachOk r; s_fedStatus := s_fedStatus r; s_clusterStatus := s_clusterStatus r; s_cellStatus := s_cellStatus r; s_nodeStatus := s_nodeStatus r; s_storageStatus := s_storageStatus r; s_detailStatus := s_detailStatus r |}.
Definition set_s_clusterByCell (v : jsval) (r : state) : state :=
  {| s_cellForm := s_cellForm r; s_attach := s_attach r; s_nodeForm := s_nodeForm r; s_storage := s_storage r; s_section := s_section r; s_selectedNodeKey := s_selectedNodeKey r; s_nodesByCell := s_nodesByCell r; s_shardsByCell := s_shardsByCell r; s_clusterByCell := v; s_restartMsg := s_restartMsg r; s_rfMsg := s_rfMsg r; s_infraStatus := s_infraStatus r; s_joinToken := s_joinToken r; s_createOpen := s_createOpen r; s_attachOpen := s_attachOpen r; s_attachOk := s_attachOk r; s_fedStatus := s_fedStatus r; s_clusterStatus := s_clusterStatus r; s_cellStatus := s_cellStatus r; s_nodeStatus := s_nodeStatus r; s_storageStatus := s_storageStatus r; s_detailStatus := s_detailStatus r |}.
Definition set_s_restartMsg (v : jsval) (r : state) : state :=
  {| s_cellForm := s_cellForm r; s_attach := s_attach r; s_nodeForm := s_nodeForm r; s_storage := s_storage r; s_section := s_section r; s_selectedNodeKey := s_selectedNodeKey r; s_nodesByCell := s_nodesByCell r; s_shardsByCell := s_shardsByCell r; s_clusterByCell := s_clusterByCell r; s_restartMsg := v; s_rfMsg := s_rfMsg r; s_infraStatus := s_infraStatus r; s_joinToken := s_joinToken r; s_createOpen := s_createOpen r; s_attachOpen := s_attachOpen r; s_attachOk := s_attachOk r; s_fedStatus := s_fedStatus r; s_clusterStatus := s_clusterStatus r; s_cellStatus := s_cellStatus r; s_nodeStatus := s_nodeStatus r; s_storageStatus := s_storageStatus r; s_detailStatus := s_detailStatus r |}.
Definition set_s_rfMsg (v : jsval) (r : state) : state :=
  {| s_cellForm := s_cellForm r; s_attach := s_attach r; s_nodeForm := s_nodeForm r; s_storage := s_storage r; s_section := s_section r; s_selectedNodeKey := s_selectedNodeKey r; s_nodesByCell := s_nodesByCell r; s_shardsByCell := s_shardsByCell r; s_clusterByCell := s_clusterByCell r; s_restartMsg := s_restartMsg r; s_rfMsg := v; s_infraStatus := s_infraStatus r; s_joinToken := s_joinToken r; s_createOpen := s_createOpen r; s_attachOpen := s_attachOpen r; s_attachOk := s_attachOk r; s_fedStatus := s_fedStatus r; s_clusterStatus := s_clusterStatus r; s_cellStatus := s_cellStatus r; s_nodeStatus := s_nodeStatus r; s_storageStatus := s_storageStatus r; s_detailStatus := s_detailStatus r |}.
Definition set_s_infraStatus (v : jsval) (r : state) : state :=
  {| s_cellForm := s_cellForm r; s_attach := s_attach r; s_nodeForm := s_nodeForm r; s_storage := s_storage r; s_section := s_section r; s_selectedNodeKey := s_selectedNodeKey r; s_nodesByCell := s_nodesByCell r; s_shardsByCell := s_shardsByCell r; s_clusterByCell := s_clusterByCell r; s_restartMsg := s_restartMsg r; s_rfMsg := s_rfMsg r; s_infraStatus := v; s_joinToken := s_joinToken r; s_createOpen := s_createOpen r; s_attachOpen := s_attachOpen r; s_attachOk := s_attachOk r; s_fedStatus := s_fedStatus r; s_clusterStatus := s_clusterStatus r; s_cellStatus := s_cellStatus r; s_nodeStatus := s_nodeStatus r; s_storageStatus := s_storageStatus r; s_detailStatus := s_detailStatus r |}.
Definition set_s_joinToken (v : jsval) (r : state) : state :=
  {| s_cellForm := s_cellForm r; s_attach := s_attach r; s_nodeForm := s_nodeForm r; s_storage := s_storage r; s_section := s_section r; s_selectedNodeKey := s_selectedNodeKey r; s_nodesByCell := s_nodesByCell r; s_shardsByCell := s_shardsByCell r; s_clusterByCell := s_clusterByCell r; s_restartMsg := s_restartMsg r; s_rfMsg := s_rfMsg r; s_infraStatus := s_infraStatus r; s_joinToken := v; s_createOpen := s_createOpen r; s_attachOpen := s_attachOpen r; s_attachOk := s_attachOk r; s_fedStatus := s_fedStatus r; s_clusterStatus := s_clusterStatus r; s_cellStatus := s_cellStatus r; s_nodeStatus := s_nodeStatus r; s_storageStatus := s_storageStatus r; s_detailStatus := s_detailStatus r |}.
Definition set_s_createOpen (v : jsval) (r : state) : state :=
  {| s_cellForm := s_cellForm r; s_attach := s_attach r; s_nodeForm := s_nodeForm r; s_storage := s_storage r; s_section := s_section r; s_selectedNodeKey := s_selectedNodeKey r; s_nodesByCell := s_nodesByCell r; s_shardsByCell := s_shardsByCell r; s_clusterByCell := s_clusterByCell r; s_restartMsg := s_restartMsg r; s_rfMsg := s_rfMsg r; s_infraStatus := s_infraStatus r; s_joinToken := s_joinToken r; s_createOpen := v; s_attachOpen := s_attachOpen r; s_attachOk := s_attachOk r; s_fedStatus := s_fedStatus r; s_clusterStatus := s_clusterStatus r; s_cellStatus := s_cellStatus r; s_nodeStatus := s_nodeStatus r; s_storageStatus := s_storageStatus r; s_detailStatus := s_detailStatus r |}.
Definition set_s_attachOpen (v : jsval) (r : state) : state :=
  {| s_cellForm := s_cellForm r; s_attach := s_attach r; s_nodeForm := s_nodeForm r; s_storage := s_storage r; s_section := s_section r; s_selectedNodeKey := s_selectedNodeKey r; s_nodesByCell := s_nodesByCell r; s_shardsByCell := s_shardsByCell r; s_clusterByCell := s_clusterByCell r; s_restartMsg := s_restartMsg r; s_rfMsg := s_rfMsg r; s_infraStatus := s_infraStatus r; s_joinToken := s_joinToken r; s_createOpen := s_createOpen r; s_attachOpen := v; s_attachOk := s_attachOk r; s_fedStatus := s_fedStatus r; s_clusterStatus := s_clusterStatus r; s_cellStatus := s_cellStatus r; s_nodeStatus := s_nodeStatus r; s_storageStatus := s_storageStatus r; s_detailStatus := s_detailStatus r |}.
Definition set_s_attachOk (v : jsval) (r : state) : state :=
  {| s_cellForm := s_cellForm r; s_attach := s_attach r; s_nodeForm := s_nodeForm r; s_storage := s_storage r; s_section := s_section r; s_selectedNodeKey := s_selectedNodeKey r; s_nodesByCell := s_nodesByCell r; s_shardsByCell := s_shardsByCell r; s_clusterByCell := s_clusterByCell r; s_restartMsg := s_restartMsg r; s_rfMsg := s_rfMsg r; s_infraStatus := s_infraStatus r; s_joinToken := s_joinToken r; s_createOpen := s_createOpen r; s_attachOpen := s_attachOpen r; s_attachOk := v; s_fedStatus := s_fedStatus r; s_clusterStatus := s_clusterStatus r; s_cellStatus := s_cellStatus r; s_nodeStatus := s_nodeStatus r; s_storageStatus := s_storageStatus r; s_detailStatus := s_detailStatus r |}.
Definition set_s_fedStatus (v : status) (r : state) : state :=
  {| s_cellForm := s_cellForm r; s_attach := s_attach r; s_nodeForm := s_nodeForm r; s_storage := s_storage r; s_section := s_section r; s_selectedNodeKey := s_selectedNodeKey r; s_nodesByCell := s_nodesByCell r; s_shardsByCell := s_shardsByCell r; s_clusterByCell := s_clusterByCell r; s_restartMsg := s_restartMsg r; s_rfMsg := s_rfMsg r; s_infraStatus := s_infraStatus r; s_joinToken := s_joinToken r; s_createOpen := s_createOpen r; s_attachOpen := s_attachOpen r; s_attachOk := s_attachOk r; s_fedStatus := v; s_clusterStatus := s_clusterStatus r; s_cellStatus := s_cellStatus r; s_nodeStatus := s_nodeStatus r; s_storageStatus := s_storageStatus r; s_detailStatus := s_detailStatus r |}.
Definition set_s_clusterStatus (v : status) (r : state) : state :=
  {| s_cellForm := s_cellForm r; s_attach := s_attach r; s_nodeForm := s_nodeForm r; s_storage := s_storage r; s_section := s_section r; s_selectedNodeKey := s_selectedNodeKey r; s_nodesByCell := s_nodesByCell r; s_shardsByCell := s_shardsByCell r; s_clusterByCell := s_clusterByCell r; s_restartMsg := s_restartMsg r; s_rfMsg := s_rfMsg r; s_infraStatus := s_infraStatus r; s_joinToken := s_joinToken r; s_createOpen := s_createOpen r; s_attachOpen := s_attachOpen r; s_attachOk := s_attachOk r; s_fedStatus := s_fedStatus r; s_clusterStatus := v; s_cellStatus := s_cellStatus r; s_nodeStatus := s_nodeStatus r; s_storageStatus := s_storageStatus r; s_detailStatus := s_detailStatus r |}.
Definition set_s_cellStatus (v : status) (r : state) : state :=
  {| s_cellForm := s_cellForm r; s_attach := s_attach r; s_nodeForm := s_nodeForm r; s_storage := s_storage r; s_section := s_section r; s_selectedNodeKey := s_selectedNodeKey r; s_nodesByCell := s_nodesByCell r; s_shardsByCell := s_shardsByCell r; s_clusterByCell := s_clusterByCell r; s_restartMsg := s_restartMsg r; s_rfMsg := s_rfMsg r; s_infraStatus := s_infraStatus r; s_joinToken := s_joinToken r; s_createOpen := s_createOpen r; s_attachOpen := s_attachOpen r; s_attachOk := s_attachOk r; s_fedStatus := s_fedStatus r; s_clusterStatus := s_clusterStatus r; s_cellStatus := v; s_nodeStatus := s_nodeStatus r; s_storageStatus := s_storageStatus r; s_detailStatus := s_detailStatus r |}.
Definition set_s_nodeStatus (v : status) (r : state) : state :=
  {| s_cellForm := s_cellForm r; s_attach := s_attach r; s_nodeForm := s_nodeForm r; s_storage := s_storage r; s_section := s_section r; s_selectedNodeKey := s_selectedNodeKey r; s_nodesByCell := s_nodesByCell r; s_shardsByCell := s_shardsByCell r; s_clusterByCell := s_clusterByCell r; s_restartMsg := s_restartMsg r; s_rfMsg := s_rfMsg r; s_infraStatus := s_infraStatus r; s_joinToken := s_joinToken r; s_createOpen := s_createOpen r; s_attachOpen := s_attachOpen r; s_attachOk := s_attachOk r; s_fedStatus := s_fedStatus r; s_clusterStatus := s_clusterStatus r; s_cellStatus := s_cellStatus r; s_nodeStatus := v; s_storageStatus := s_storageStatus r; s_detailStatus := s_detailStatus r |}.
Definition set_s_storageStatus (v : status) (r : state) : state :=
  {| s_cellForm := s_cellForm r; s_attach := s_attach r; s_nodeForm := s_nodeForm r; s_storage := s_storage r; s_section := s_section r; s_selectedNodeKey := s_selectedNodeKey r; s_nodesByCell := s_nodesByCell r; s_shardsByCell := s_shardsByCell r; s_clusterByCell := s_clusterByCell r; s_restartMsg := s_restartMsg r; s_rfMsg := s_rfMsg r; s_infraStatus := s_infraStatus r; s_joinToken := s_joinToken r; s_createOpen := s_createOpen r; s_attachOpen := s_attachOpen r; s_attachOk := s_attachOk r; s_fedStatus := s_fedStatus r; s_clusterStatus := s_clusterStatus r; s_cellStatus := s_cellStatus r; s_nodeStatus := s_nodeStatus r; s_storageStatus := v; s_detailStatus := s_detailStatus r |}.
Definition set_s_detailStatus (v : status) (r : state) : state :=
  {| s_cellForm := s_cellForm r; s_attach := s_attach r; s_nodeForm := s_nodeForm r; s_storage := s_storage r; s_section := s_section r; s_selectedNodeKey := s_selectedNodeKey r; s_nodesByCell := s_nodesByCell r; s_shardsByCell := s_shardsByCell r; s_clusterByCell := s_clusterByCell r; s_restartMsg := s_restartMsg r; s_rfMsg := s_rfMsg r; s_infraStatus := s_infraStatus r; s_joinToken := s_joinToken r; s_createOpen := s_createOpen r; s_attachOpen := s_attachOpen r; s_attachOk := s_attachOk r; s_fedStatus := s_fedStatus r; s_clusterStatus := s_clusterStatus r; s_cellStatus := s_cellStatus r; s_nodeStatus := s_nodeStatus r; s_storageStatus := s_storageStatus r; s_detailStatus := v |}.

Definition on_cellForm (f : cellForm_state -> cellForm_state) (v : state) : state := set_s_cellForm (f (s_cellForm v)) v.
Definition on_attach (f : attach_state -> attach_state) (v : state) : state := set_s_attach (f (s_attach v)) v.
Definition on_nodeForm (f : nodeForm_state -> nodeForm_state) (v : state) : state := set_s_nodeForm (f (s_nodeForm v)) v.
Definition on_storage (f : storage_state -> storage_state) (v : state) : state := set_s_storage (f (s_storage v)) v.
Definition on_fedStatus (f : status -> status) (v : state) : state := set_s_fedStatus (f (s_fedStatus v)) v.
Definition on_clusterStatus (f : status -> status) (v : state) : state := set_s_clusterStatus (f (s_clusterStatus v)) v.
Definition on_cellStatus (f : status -> status) (v : state) : state := set_s_cellStatus (f (s_cellStatus v)) v.
Definition on_nodeStatus (f : status -> status) (v : state) : state := set_s_nodeStatus (f (s_nodeStatus v)) v.
Definition on_storageStatus (f : status -> status) (v : state) : state := set_s_storageStatus (f (s_storageStatus v)) v.
Definition on_detailStatus (f : status -> status) (v : state) : state := set_s_detailStatus (f (s_detailStatus v)) v.

(** ** Constant options *)

Definition section_item (id label : string) : jsval := VObj ["id" ~> VStr (js id); "label" ~> VStr (js label)].

Definition sections : jsval :=
  VArr [section_item "overview" "Overview"; section_item "nodes" "Nodes"; section_item "cells" "Cells";
        section_item "cluster" "Cluster"; section_item "this-node" "This node"; section_item "storage" "Storage"].

Definition profileOptions : jsval :=
  VArr [option_item "all" "all — broker + local dispatch";
        option_item "broker" "broker";
        option_item "controller" "controller (health only)";
        option_item "dispatch" "dispatch fleet";
        option_item "gateway" "gateway";
        option_item "panel" "panel"].

Definition storageOptions : jsval :=
  VArr [option_item "local" "Local disk (WAL + RocksDB)"; option_item "slate" "SlateDB (S3 / MinIO / R2)"].

Definition hints : jsval :=
  VObj ["all" ~> VStr (js "Joins the replica set (WAL). Extra all nodes add shard capacity after 3, not RF=4.");
        "broker" ~> VStr (js "Joins the replica set. Pair with a dispatch fleet for delivery.");
        "controller" ~> VStr (js "Registered for health only — controller voter APIs are separate.");
        "dispatch" ~> VStr (js "Fleet worker. Not a replica. Process must use --profile dispatch.");
        "gateway" ~> VStr (js "Ingest router. Not a replica. Process must use --profile gateway.");
        "panel" ~> VStr (js "Registers another management URL. Does not join Raft.")].

Definition local_cell : jsval :=
  VObj ["id" ~> VStr (js "local"); "region" ~> VStr (js "local"); "controllerUrl" ~> VStr []; "label" ~> VStr (js "local")].

(** The state [setup] creates. *)
Definition setup : state :=
  {| s_cellForm := {| cellForm_id := VStr []; cellForm_region := VStr []; cellForm_controllerUrl := VStr []; cellForm_label := VStr [] |};
     s_attach := {| attach_profile := VStr (js "all"); attach_name := VStr []; attach_reach := VStr []; attach_split := VBool false; attach_advertise := VStr []; attach_token := VStr []; attach_error := VStr [] |};
     s_nodeForm := {| nodeForm_name := VStr []; nodeForm_publicUrl := VStr [] |};
     s_storage := {| storage_mode := VStr (js "local"); storage_endpoint := VStr []; storage_bucket := VStr []; storage_payloadBucket := VStr []; storage_accessKey := VStr []; storage_secretKey := VStr []; storage_region := VStr (js "auto"); storage_test := VStr [] |};
     s_section := VStr (js "overview");
     s_selectedNodeKey := VStr [];
     s_nodesByCell := VObj [];
     s_shardsByCell := VObj [];
     s_clusterByCell := VObj [];
     s_restartMsg := VStr [];
     s_rfMsg := VStr [];
     s_infraStatus := VNull;
     s_joinToken := VStr [];
     s_createOpen := VBool false;
     s_attachOpen := VBool false;
     s_attachOk := VStr [];
     s_fedStatus := useActionStatus;
     s_clusterStatus := useActionStatus;
     s_cellStatus := useActionStatus;
     s_nodeStatus := useActionStatus;
     s_storageStatus := useActionStatus;
     s_detailStatus := useActionStatus |}.

Section handlers.
Context `{Platform}.

(** ** Computed values *)

Definition profileHint (v : state) : E jsval :=
  e_index (Ok hints) (Ok (attach_profile (s_attach v))) .|| #"".

Definition needsToken (v : state) : E jsval :=
  (Ok (attach_profile (s_attach v)) === #"all") .|| (Ok (attach_profile (s_attach v)) === #"broker").

(** [Object.values(o)[0]] and [Object.keys(o)[0]] *)
Definition first_value (o : jsval) : jsval :=
  match o with VObj l => match own_entries l with (_, x) :: _ => x | [] => VUndef end | _ => VUndef end.
Definition first_key (o : jsval) : jsval :=
  match o with VObj l => match own_entries l with (k, _) :: _ => VStr k | [] => VUndef end | _ => VUndef end.

(** [byCell[cell.id]] of the selected cell, when there is one and it is truthy. *)
Definition of_selected (p : panel) (byCell : jsval) : E jsval :=
  cell ← selectedCell (ses p);
  if truthy cell then e_index (Ok byCell) ((Ok cell) @. "id") else Ok VNull.

Definition currentCluster (p : panel) (v : state) : E jsval :=
  c ← of_selected p (s_clusterByCell v);
  if truthy c then Ok c
  else Ok (let x := first_value (s_clusterByCell v) in if truthy x then x else VNull).

Definition shardRows (p : panel) (v : state) : E jsval :=
  c ← of_selected p (s_shardsByCell v);
  if truthy c then Ok c
  else
    let first := first_key (s_shardsByCell v) in
    if truthy first then e_index (Ok (s_shardsByCell v)) (Ok first) .|| Ok (VArr []) else Ok (VArr []).

Definition rfBanner (p : panel) (v : state) : E jsval :=
  ov ← currentCluster p v;
  if negb (truthy ov) then #""
  else
    n ← (Ok ov) @. "nodeCount" .|| e_num 0;
    rf ← (Ok ov) @. "replicationFactor" .|| e_num 0;
    if strict_eq n (VNum (num_of_Z 2)) then
      #"RF=2 / minISR=2 — both nodes must be up. Add a third broker for HA."
    else if js_geb n (num_of_Z 3) && js_ltb rf (VNum (num_of_Z 3)) then #"Expanding replicas to RF=3…"
    else if js_geb n (num_of_Z 4) && strict_eq rf (VNum (num_of_Z 3)) then
      #"RF stays 3. Extra brokers add shard capacity, not a fourth copy."
    else #"".

Definition listedCells (p : panel) : E jsval :=
  e_if (e_length (Ok (cells (ses p)))) (Ok (cells (ses p))) (Ok (VArr [local_cell])).

Definition shortId (id : jsval) : E jsval :=
  if negb (truthy id) then #""
  else e_if ((Ok id) @. "length" .> e_num 8)
         (str_method (js "slice") id (fun s => VStr (take 8 s)))
         (Ok id).

(** [(x || "").replace(/\/$/, "")] *)
Definition trimmed_url (x : E jsval) : E jsval :=
  v ← x .|| #""; str_method (js "replace") v (fun s => VStr (strip_slash s)).

Definition broker_row (cell n : jsval) : E jsval :=
  e_object [
    ("key", e_template [ #"broker:"; (Ok cell) @. "id"; #":";
                        (Ok n) @. "id" .|| (Ok n) @. "addr" .|| (Ok n) @. "name"]);
    ("name", (Ok n) @. "name" .|| e_call shortId ((Ok n) @. "id") .|| (Ok n) @. "addr" .|| #"broker");
    ("role", #"broker");
    ("addr", (Ok n) @. "addr" .|| #"");
    ("healthy", (Ok n) @. "alive" .?? (Ok n) @. "healthy" .?? Ok (VBool true));
    ("self", b ← (Ok n) @. "self" .?? (Ok n) @. "is_self"; Ok (VBool (truthy b)));
    ("cellId", (Ok cell) @. "id");
    ("cellLabel", (Ok cell) @. "label" .|| (Ok cell) @. "id");
    ("broker", Ok n)].

Definition member_row (cell m : jsval) : E jsval :=
  e_object [
    ("key", e_template [ #"member:"; (Ok cell) @. "id"; #":"; (Ok m) @. "name"; #":"; (Ok m) @. "reachUrl"]);
    ("name", (Ok m) @. "name" .|| (Ok m) @. "profile");
    ("role", (Ok m) @. "profile");
    ("addr", (Ok m) @. "reachUrl");
    ("healthy", Ok (VBool true));
    ("self", Ok (VBool false));
    ("cellId", (Ok cell) @. "id");
    ("cellLabel", (Ok cell) @. "label" .|| (Ok cell) @. "id");
    ("member", Ok m)].

(** The rows of a cell's brokers and the set [seen] of their addresses. *)
Fixpoint broker_rows (cell : jsval) (seen : list jsval) (ns : list jsval) : E (list jsval * list jsval) :=
  match ns with
  | [] => Ok ([], seen)
  | n :: ns' =>
      addr ← trimmed_url ((Ok n) @. "addr");
      let seen := if truthy addr then addr :: seen else seen in
      row ← broker_row cell n;
      r ← broker_rows cell seen ns';
      Ok (row :: fst r, snd r)
  end.

(** The rows of a cell's members, without those already listed as brokers. *)
Fixpoint member_rows (cell : jsval) (seen : list jsval) (ms : list jsval) : E (list jsval) :=
  match ms with
  | [] => Ok []
  | m :: ms' =>
      url ← trimmed_url ((Ok m) @. "reachUrl");
      if truthy url && existsb (strict_eq url) seen then member_rows cell seen ms'
      else
        row ← member_row cell m;
        rows ← member_rows cell seen ms';
        Ok (row :: rows)
  end.

(** [l.filter(f)] *)
Fixpoint filter_elems (f : jsval -> E bool) (l : list jsval) : E (list jsval) :=
  match l with
  | [] => Ok []
  | x :: l' => b ← f x; r ← filter_elems f l'; Ok (if (b : bool) then x :: r else r)
  end.

Definition cell_rows (p : panel) (v : state) (cell : jsval) : E (list jsval) :=
  brokers ← e_index (Ok (s_nodesByCell v)) ((Ok cell) @. "id") .|| Ok (VArr []);
  ns ← elements_of brokers;
  rs ← broker_rows cell [] ns;
  ms ← elements_of (members (ses p));
  ms ← filter_elems (fun member => a ← (Ok member) @. "cellId"; b ← (Ok cell) @. "id"; Ok (strict_eq a b)) ms;
  mrows ← member_rows cell (snd rs) ms;
  Ok (fst rs ++ mrows).

Definition nodeRows (p : panel) (v : state) : E jsval :=
  cs ← listedCells p;
  l ← elements_of cs;
  rows ← result_seq (map (cell_rows p v) l);
  Ok (VArr (List.concat rows)).

Definition selectedRow (p : panel) (v : state) : E jsval :=
  rows ← nodeRows p v;
  l ← elements_of rows;
  hit ← find_elem (field_is (js "key") (s_selectedNodeKey v)) l;
  Ok (if truthy hit then hit else VNull).

(** [String(infraStatus.value?.k || "—")] *)
Definition kpi (k : string) (v : state) : E jsval := e_String ((Ok (s_infraStatus v)) @? k .|| #"—").
Definition kpiNode : state -> E jsval := kpi "node_name".
Definition kpiUrl : state -> E jsval := kpi "public_url".
Definition kpiStorage : state -> E jsval := kpi "active_storage".

(** ** Loading *)

(** [for (const row of res.ok || []) byCell[row.cell] = f(row)], after emptying [byCell]. *)
Definition fill_cells (set : (jsval -> jsval) -> state -> state) (f : jsval -> E jsval) (res : jsval) : vprog state unit :=
  _ ← upd (set (fun _ => VObj []));
  ok ← pure ((Ok res) @. "ok" .|| Ok (VArr []));
  rows ← pure (elements_of ok);
  for_each rows (fun row =>
    k ← pure ((Ok row) @. "cell");
    d ← pure (f row);
    upd (set (fun o => set_prop o (to_string k) d))).

Definition on_nodesByCell (f : jsval -> jsval) (v : state) : state := set_s_nodesByCell (f (s_nodesByCell v)) v.
Definition on_shardsByCell (f : jsval -> jsval) (v : state) : state := set_s_shardsByCell (f (s_shardsByCell v)) v.
Definition on_clusterByCell (f : jsval -> jsval) (v : state) : state := set_s_clusterByCell (f (s_clusterByCell v)) v.

Definition triple_of (v : jsval) : jsval * jsval * jsval :=
  match v with VArr [a; b; c] => (a, b, c) | _ => (VUndef, VUndef, VUndef) end.

(** [[...(a.failed || []), ...(b.failed || []), ...(c.failed || [])]] *)
Definition failed_of (a b c : jsval) : E (list jsval) :=
  x ← list_field a (js "failed"); x ← elements_of x;
  y ← list_field b (js "failed"); y ← elements_of y;
  z ← list_field c (js "failed"); z ← elements_of z;
  Ok (x ++ y ++ z).

Definition loadFed : vprog state unit :=
  _ ← upd (on_fedStatus st_reset);
  prog_catch
    (res ← lib (promise_array [queryCells QNodes; queryCells QShards; queryCells QCluster]);
     let '(nodes, shards, cluster) := triple_of res in
     _ ← fill_cells on_nodesByCell (fun row => ((Ok row) @. "data") @. "nodes" .|| Ok (VArr [])) nodes;
     _ ← fill_cells on_shardsByCell (fun row => ((Ok row) @. "data") @. "shards" .|| Ok (VArr [])) shards;
     _ ← fill_cells on_clusterByCell (fun row => (Ok row) @. "data") cluster;
     failed ← pure (failed_of nodes shards cluster);
     _ ← match failed with
         | [] => Ret tt
         | f :: _ =>
             msg ← pure (e_template [ #"Federated query failed: "; (Ok f) @. "cell"; #" — "; (Ok f) @. "error"]);
             upd (on_fedStatus (st_fail msg))
         end;
     cell ← eval_page (fun p v => selectedCell (ses p));
     if truthy cell then
       ov ← pure (e_call (dataForCell cluster) ((Ok cell) @. "id"));
       if truthy ov then upd (set_s_rfMsg (VStr [])) else Ret tt
     else Ret tt)
    (fun e => upd (on_fedStatus (st_fail e))).

(** The first half of [loadInfra]: the node's status. *)
Definition load_status : vprog state unit :=
  prog_catch
    (st ← lib (pub_get (js "/v1/infra/status"));
     _ ← upd (set_s_infraStatus st);
     seed ← pure ((Ok st) @. "is_cluster_seed");
     _ ← upd_page (on_ses (set_isSeed (truthy seed)));
     restart ← pure ((Ok st) @. "needs_restart");
     if truthy restart then
       msg ← pure (e_template [ #"Pending "; (Ok st) @. "pending_storage" .|| #"config"; #" storage — restart broker to apply."]);
       upd (set_s_restartMsg msg)
     else upd (set_s_restartMsg (VStr [])))
    (fun _ => upd (set_s_infraStatus VNull)).

(** [storage.k = cfg.storage.s3.k || d] *)
Definition load_s3 (cfg : jsval) (k d : string) (set : jsval -> storage_state -> storage_state) : vprog state unit :=
  x ← pure ((((Ok cfg) @. "storage") @. "s3") @. k .|| #d);
  upd (on_storage (set x)).

(** The second half: the node's configuration, into the two forms. *)
Definition load_config : vprog state unit :=
  prog_catch
    (cfg ← lib (pub_get (js "/v1/infra/config"));
     n ← pure (((Ok cfg) @. "node") @? "name" .|| #"");
     _ ← upd (on_nodeForm (set_nodeForm_name n));
     u ← pure (((Ok cfg) @. "node") @? "publicUrl" .|| #"");
     _ ← upd (on_nodeForm (set_nodeForm_publicUrl u));
     slate ← pure ((((Ok cfg) @. "storage") @? "mode" === #"slate") .&& ((Ok cfg) @. "storage") @. "s3");
     if truthy slate then
       _ ← upd (on_storage (set_storage_mode (VStr (js "slate"))));
       _ ← load_s3 cfg "endpoint" "" set_storage_endpoint;
       _ ← load_s3 cfg "bucket" "" set_storage_bucket;
       _ ← load_s3 cfg "payloadBucket" "" set_storage_payloadBucket;
       _ ← load_s3 cfg "accessKey" "" set_storage_accessKey;
       load_s3 cfg "region" "auto" set_storage_region
     else upd (on_storage (set_storage_mode (VStr (js "local")))))
    (fun _ => Ret tt).

Definition loadInfra : vprog state unit :=
  _ ← load_status;
  load_config.

(** [!nodeRows.value.some((row) => row.key === selectedNodeKey.value)] *)
Definition selection_lost (p : panel) (v : state) : E bool :=
  if truthy (s_selectedNodeKey v) then
    rows ← nodeRows p v;
    l ← elements_of rows;
    b ← some_elem (field_is (js "key") (s_selectedNodeKey v)) l;
    Ok (negb b)
  else Ok false.

Definition load : vprog state unit :=
  _ ← lib refreshCells;
  _ ← promise_array [discard loadFed; discard loadInfra];
  lost ← eval_page selection_lost;
  if lost : bool then upd (set_s_selectedNodeKey (VStr [])) else Ret tt.

Definition mounted : vprog state unit := spawn load.

(** ** Actions *)

(** [if (res.needs_restart) restartMsg.value = res.message || d] *)
Definition note_restart (res : jsval) (d : string) : vprog state unit :=
  b ← pure ((Ok res) @. "needs_restart");
  if truthy b then msg ← pure ((Ok res) @. "message" .|| #d); upd (set_s_restartMsg msg) else Ret tt.

Definition cell_body (f : cellForm_state) : jsval :=
  VObj ["id" ~> cellForm_id f; "region" ~> cellForm_region f; "controllerUrl" ~> cellForm_controllerUrl f;
        "label" ~> (if truthy (cellForm_label f) then cellForm_label f else VUndef)].

Definition createCell : vprog state unit :=
  _ ← upd (on_cellStatus st_reset);
  prog_catch
    (f ← local s_cellForm;
     _ ← lib (adm_post (js "/cells") (Some (cell_body f)));
     msg ← eval (fun v => e_template [ #"Registered cell "; Ok (cellForm_id (s_cellForm v))]);
     _ ← upd (on_cellStatus (st_succeed msg));
     _ ← upd (set_s_createOpen (VBool false));
     _ ← upd (on_cellForm (fun _ => {| cellForm_id := VStr []; cellForm_region := VStr [];
                                       cellForm_controllerUrl := VStr []; cellForm_label := VStr [] |}));
     load)
    (fun e => upd (on_cellStatus (st_fail e))).

Definition probe : vprog state unit :=
  _ ← upd (on_attach (set_attach_error (VStr [])));
  _ ← upd (set_s_attachOk (VStr []));
  prog_catch
    (url ← local (fun v => attach_reach (s_attach v));
     res ← lib (adm_post (js "/probe") (Some (VObj ["reachUrl" ~> url])));
     ok ← pure ((Ok res) @. "ok");
     if truthy ok then
       msg ← pure (e_template [ #"Reachable ("; (Ok res) @. "profileHint" .|| #"unknown"; #")";
                               e_if ((Ok res) @. "ready") #", ready" #", not ready"]);
       upd (set_s_attachOk msg)
     else
       msg ← pure ((Ok res) @. "error" .|| #"not reachable");
       upd (on_attach (set_attach_error msg)))
    (fun e => upd (on_attach (set_attach_error (VStr (errText e))))).

(** [attach.split && attach.advertise.trim() ? attach.advertise.trim() : attach.reach] *)
Definition advertise_url (a : attach_state) : E jsval :=
  e_if (Ok (attach_split a) .&& e_trim (Ok (attach_advertise a))) (e_trim (Ok (attach_advertise a))) (Ok (attach_reach a)).

Definition attach_body (p : panel) (v : state) (cell advertise : jsval) : E jsval :=
  e_object [
    ("profile", Ok (attach_profile (s_attach v)));
    ("reachUrl", Ok (attach_reach (s_attach v)));
    ("advertiseUrl", Ok advertise);
    ("nodeName", Ok (attach_name (s_attach v)));
    ("joinToken", Ok (attach_token (s_attach v)) .|| Ok (s_joinToken v));
    ("seedUrl", Ok (nodeForm_publicUrl (s_nodeForm v)) .|| e_str (apiBase (ses p)));
    ("cellId", (Ok cell) @? "id" .|| #"local")].

Definition attachNode : vprog state unit :=
  _ ← upd (on_attach (set_attach_error (VStr [])));
  _ ← upd (set_s_attachOk (VStr []));
  cell ← eval_page (fun p v => selectedCell (ses p));
  advertise ← eval (fun v => advertise_url (s_attach v));
  prog_catch
    (body ← eval_page (fun p v => attach_body p v cell advertise);
     res ← lib (adm_post (js "/attach") (Some body));
     msg ← pure (e_if ((Ok res) @. "joined") (e_template [ #"Joined "; (Ok res) @. "profile"])
                   (e_template [ #"Registered "; (Ok res) @. "profile"]));
     _ ← upd (set_s_attachOk msg);
     w ← pure (((Ok res) @. "expand") @? "warning");
     _ ← (if truthy w then upd (set_s_rfMsg w) else Ret tt);
     r ← pure (((Ok res) @. "enroll") @? "needs_restart");
     _ ← (if truthy r then
            msg ← pure (((Ok res) @. "enroll") @. "message" .|| #"Restart cluster nodes after join.");
            upd (set_s_restartMsg msg)
          else Ret tt);
     _ ← upd (set_s_attachOpen (VBool false));
     _ ← upd (on_attach (set_attach_split (VBool false)));
     _ ← upd (on_attach (set_attach_advertise (VStr [])));
     load)
    (fun e => upd (on_attach (set_attach_error (VStr (errText e))))).

Definition createCluster : vprog state unit :=
  _ ← upd (on_clusterStatus st_reset);
  prog_catch
    (res ← lib (pub_post (js "/v1/infra/cluster/create") (Some (VObj [])));
     t ← pure ((Ok res) @. "join_token" .|| #"");
     _ ← upd (set_s_joinToken t);
     _ ← upd (on_attach (set_attach_token t));
     _ ← upd_page (on_ses (set_joinToken t));
     msg ← pure ((Ok res) @. "message" .|| #"Cluster created");
     _ ← upd (on_clusterStatus (st_succeed msg));
     _ ← note_restart res "Restart required.";
     load)
    (fun e => upd (on_clusterStatus (st_fail e))).

Definition syncCluster : vprog state unit :=
  _ ← upd (on_clusterStatus st_reset);
  prog_catch
    (res ← lib (pub_post (js "/v1/infra/cluster/sync") (Some (VObj [])));
     msg ← pure (e_template [ #"Synced "; e_length ((Ok res) @. "nodes" .|| Ok (VArr [])); #" nodes from seed"]);
     _ ← upd (on_clusterStatus (st_succeed msg));
     _ ← upd (set_s_restartMsg (VStr (js "Restart recommended after sync.")));
     load)
    (fun e => upd (on_clusterStatus (st_fail e))).

(** [confirm(msg)] *)
Definition confirm (msg : jstring) : vprog state bool :=
  Wait (AskConfirm msg) (fun x => match x with Answered b => Ret b | _ => Ret false end).

Definition removeNode (name : jsval) : vprog state unit :=
  yes ← confirm (js "Remove " ++ to_string name ++ js " from the cluster?");
  if negb yes then Ret tt
  else
    _ ← upd (on_detailStatus st_reset);
    prog_catch
      (res ← lib (pub_post (js "/v1/infra/cluster/remove-node") (Some (VObj ["node_name" ~> name])));
       msg ← pure ((Ok res) @. "message" .|| #"Removed");
       _ ← upd (on_detailStatus (st_succeed msg));
       _ ← note_restart res "Restart required.";
       _ ← upd (set_s_selectedNodeKey (VStr []));
       load)
      (fun e => upd (on_detailStatus (st_fail e))).

Definition saveNode : vprog state unit :=
  _ ← upd (on_nodeStatus st_reset);
  prog_catch
    (f ← local s_nodeForm;
     res ← lib (pub_put (js "/v1/infra/node")
                  (Some (VObj ["name" ~> nodeForm_name f; "public_url" ~> nodeForm_publicUrl f;
                               "listen" ~> VStr (js "0.0.0.0:8080")])));
     msg ← pure ((Ok res) @. "message" .|| #"Node settings saved");
     _ ← upd (on_nodeStatus (st_succeed msg));
     _ ← note_restart res "Restart required.";
     loadInfra)
    (fun e => upd (on_nodeStatus (st_fail e))).

(** [storage.secretKey || "••••••••"] *)
Definition secret_or_mask (f : storage_state) : jsval :=
  if truthy (storage_secretKey f) then storage_secretKey f else VStr (js "••••••••").

Definition test_body (f : storage_state) : jsval :=
  VObj ["endpoint" ~> storage_endpoint f; "bucket" ~> storage_bucket f; "access_key" ~> storage_accessKey f;
        "secret_key" ~> secret_or_mask f; "region" ~> storage_region f].

Definition testS3 : vprog state unit :=
  _ ← upd (on_storageStatus st_reset);
  prog_catch
    (f ← local s_storage;
     res ← lib (pub_post (js "/v1/infra/storage/test") (Some (test_body f)));
     msg ← pure ((Ok res) @. "message" .|| #"");
     _ ← upd (on_storage (set_storage_test msg));
     ok ← pure ((Ok res) @. "ok");
     t ← local (fun v => storage_test (s_storage v));
     if truthy ok then upd (on_storageStatus (st_succeed t)) else upd (on_storageStatus (st_fail t)))
    (fun e =>
       _ ← upd (on_storage (set_storage_test (VStr (errText e))));
       t ← local (fun v => storage_test (s_storage v));
       upd (on_storageStatus (st_fail t))).

Definition storage_body (f : storage_state) : jsval :=
  if strict_eq (storage_mode f) (VStr (js "slate")) then
    VObj ["mode" ~> storage_mode f;
          "s3" ~> VObj ["endpoint" ~> storage_endpoint f; "bucket" ~> storage_bucket f;
                        "payloadBucket" ~> (if truthy (storage_payloadBucket f) then storage_payloadBucket f else VNull);
                        "accessKey" ~> storage_accessKey f; "secretKey" ~> secret_or_mask f;
                        "region" ~> storage_region f]]
  else VObj ["mode" ~> storage_mode f].

Definition saveStorage : vprog state unit :=
  _ ← upd (on_storageStatus st_reset);
  body ← local (fun v => storage_body (s_storage v));
  prog_catch
    (res ← lib (pub_put (js "/v1/infra/storage") (Some body));
     msg ← pure ((Ok res) @. "message" .|| #"Saved");
     _ ← upd (on_storageStatus (st_succeed msg));
     _ ← note_restart res "Restart required.";
     loadInfra)
    (fun e => upd (on_storageStatus (st_fail e))).

Definition selectNode (row : jsval) : vprog state unit :=
  k ← pure ((Ok row) @. "key");
  _ ← upd (set_s_selectedNodeKey k);
  upd (on_detailStatus st_reset).

Definition openAddNode : vprog state unit :=
  _ ← upd (set_s_section (VStr (js "nodes")));
  upd (set_s_attachOpen (VBool true)).

(** ** The template *)

Definition section_overview (p : panel) (v : state) : E (list (vnode (panel * state))) :=
  frag [
    el "div" [at_ "class" "grid gap-3 sm:grid-cols-3"] [
      el "Card" [] [
        el "CardHeader" [at_ "class" "pb-2"] [el "CardDescription" [] [txt "This node"]; el "CardTitle" [] [interp (kpiNode v)]];
        el "CardContent" [at_ "class" "truncate font-mono text-xs text-muted-foreground"] [interp (kpiUrl v)]];
      el "Card" [] [
        el "CardHeader" [at_ "class" "pb-2"] [
          el "CardDescription" [] [txt "Storage"];
          el "CardTitle" [at_ "class" "capitalize"] [interp (kpiStorage v)]]];
      el "Card" [] [
        el "CardHeader" [at_ "class" "pb-2"] [
          el "CardDescription" [] [txt "Cluster"];
          el "CardTitle" [] [interp (Ok (VStr (clusterLabel (ses p))))]];
        el "CardContent" [at_ "class" "text-xs text-muted-foreground"] [
          interp ((nodeRows p v) @. "length");
          txt " node";
          interp (e_if (((nodeRows p v) @. "length") === (e_num 1)) #"" #"s");
          txt " ";
          v_if (currentCluster p v)
            (el "span" [] [txt " · RF "; interp (((currentCluster p v) @. "replicationFactor") .|| #"—")])
            none]]];
    el "Card" [] [
      el "CardHeader" [] [
        el "CardTitle" [] [txt "Nodes"];
        el "CardDescription" [] [txt "Select a node for details, or open the Nodes section."]];
      el "CardContent" [] [
        el "Table" [] [
          el "TableHeader" [] [
            el "TableRow" [] [
              el "TableHead" [] [txt "Name"];
              el "TableHead" [] [txt "Role"];
              el "TableHead" [] [txt "Health"];
              el "TableHead" [] [txt "Address"]]];
          el "TableBody" [] [
            v_if (e_not ((nodeRows p v) @. "length"))
              (el "TableRow" [] [
                el "TableCell" [at_ "colspan" "4"; at_ "class" "whitespace-normal text-muted-foreground"] [txt " No brokers registered yet. Add a node to this cell. "]])
              none;
            v_for (nodeRows p v) (fun row =>
              el "TableRow" [
                  bind_ "key" ((Ok row) @. "key");
                  at_ "class" "cursor-pointer";
                  on_ "@click" (fun _ => _ ← selectNode row; upd (set_s_section (VStr (js "nodes"))))] [
                el "TableCell" [] [
                  interp ((Ok row) @. "name");
                  txt " ";
                  v_if ((Ok row) @. "self")
                    (el "Badge" [at_ "variant" "secondary"; at_ "class" "ml-1"] [txt "this"])
                    none];
                el "TableCell" [at_ "class" "capitalize"] [interp ((Ok row) @. "role")];
                el "TableCell" [] [
                  el "Badge" [bind_ "variant" (e_if ((Ok row) @. "healthy") #"outline" #"destructive")] [interp (e_if ((Ok row) @. "healthy") #"Healthy" #"Down")]];
                el "TableCell" [at_ "class" "max-w-[16rem] truncate font-mono text-xs"] [interp (((Ok row) @. "addr") .|| #"—")]])]]]]].

Definition node_details (p : panel) (v : state) : E (list (vnode (panel * state))) :=
  el "Card" [] [
    v_if (selectedRow p v)
      (frag [
        el "CardHeader" [] [
          el "CardTitle" [] [interp ((selectedRow p v) @. "name")];
          el "CardDescription" [at_ "class" "capitalize"] [
            interp ((selectedRow p v) @. "role");
            txt " · ";
            interp ((selectedRow p v) @. "cellLabel")]];
        el "CardContent" [at_ "class" "space-y-3 text-sm"] [
          el "div" [] [
            el "p" [at_ "class" "text-xs text-muted-foreground"] [txt "Address"];
            el "p" [at_ "class" "break-all font-mono text-xs"] [interp (((selectedRow p v) @. "addr") .|| #"—")]];
          el "div" [] [
            el "p" [at_ "class" "text-xs text-muted-foreground"] [txt "Health"];
            el "p" [] [interp (e_if ((selectedRow p v) @. "healthy") #"Healthy" #"Down")]];
          v_if (((selectedRow p v) @. "broker") @? "id")
            (el "div" [] [
              el "p" [at_ "class" "text-xs text-muted-foreground"] [txt "Node ID"];
              el "p" [at_ "class" "break-all font-mono text-xs"] [interp (((selectedRow p v) @. "broker") @. "id")]])
            none;
          v_if ((((selectedRow p v) @. "broker") @? "led_shards") @? "length")
            (el "div" [] [
              el "p" [at_ "class" "text-xs text-muted-foreground"] [txt "Led shards"];
              el "p" [at_ "class" "font-mono text-xs"] [interp (e_join (((selectedRow p v) @. "broker") @. "led_shards") ", ")]])
            none;
          v_if ((shardRows p v) @. "length")
            (el "div" [] [
              el "p" [at_ "class" "text-xs text-muted-foreground"] [txt "Shards"];
              el "p" [at_ "class" "text-xs text-muted-foreground"] [interp ((shardRows p v) @. "length"); txt " in this cell"]])
            none];
        v_if (((Ok (VBool (isSeed (ses p)))) .&& ((selectedRow p v) @. "broker")) .&& (e_not ((selectedRow p v) @. "self")))
          (el "CardFooter" [at_ "class" "flex-wrap"] [
            ActionMessage (Ok (st_error (s_detailStatus v))) (Ok (st_ok (s_detailStatus v))) (Ok VUndef);
            el "Button" [
                at_ "variant" "destructive";
                at_ "size" "sm";
                on_ "@click" (fun _ => w ← eval_page (fun p v => ((((selectedRow p v) @. "broker") @. "name") .|| (((selectedRow p v) @. "broker") @. "addr")) .|| ((selectedRow p v) @. "name")); removeNode w)] [txt " Remove "]])
          none])
      (el "CardHeader" [] [
        el "CardTitle" [] [txt "Details"];
        el "CardDescription" [] [txt "Select a node to see address, health, and shards."]])].

Definition section_nodes (p : panel) (v : state) : E (list (vnode (panel * state))) :=
  frag [
    el "div" [at_ "class" "flex flex-wrap items-center justify-between gap-2"] [
      el "div" [] [
        el "h2" [at_ "class" "text-base font-medium"] [txt "Nodes"];
        el "p" [at_ "class" "text-sm text-muted-foreground"] [txt "Brokers and other processes in this deployment"]];
      el "Button" [at_ "size" "sm"; on_ "@click" (fun _ => openAddNode)] [txt "Add node"]];
    el "div" [at_ "class" "grid gap-4 xl:grid-cols-[minmax(0,1fr)_20rem]"] [
      el "Card" [] [
        el "CardContent" [at_ "class" "pt-4"] [
          el "Table" [] [
            el "TableHeader" [] [
              el "TableRow" [] [
                el "TableHead" [] [txt "Name"];
                el "TableHead" [] [txt "Role"];
                el "TableHead" [] [txt "Cell"];
                el "TableHead" [] [txt "Health"]]];
            el "TableBody" [] [
              v_if (e_not ((nodeRows p v) @. "length"))
                (el "TableRow" [] [
                  el "TableCell" [at_ "colspan" "4"; at_ "class" "whitespace-normal text-muted-foreground"] [txt " No nodes yet. Add a node after the process is listening. "]])
                none;
              v_for (nodeRows p v) (fun row =>
                el "TableRow" [
                    bind_ "key" ((Ok row) @. "key");
                    bind_ "class" (e_class [ #"cursor-pointer"; e_if ((Ok (s_selectedNodeKey v)) === ((Ok row) @. "key")) #"bg-muted/70" #""]);
                    on_ "@click" (fun _ => selectNode row)] [
                  el "TableCell" [] [
                    interp ((Ok row) @. "name");
                    txt " ";
                    v_if ((Ok row) @. "self")
                      (el "Badge" [at_ "variant" "secondary"; at_ "class" "ml-1"] [txt "this"])
                      none];
                  el "TableCell" [at_ "class" "capitalize"] [interp ((Ok row) @. "role")];
                  el "TableCell" [] [interp ((Ok row) @. "cellLabel")];
                  el "TableCell" [] [
                    el "Badge" [
                        bind_ "variant" (e_if ((Ok row) @. "healthy") #"outline" #"destructive")] [interp (e_if ((Ok row) @. "healthy") #"Healthy" #"Down")]]])]]]];
      node_details p v]].

Definition section_cells (p : panel) (v : state) : E (list (vnode (panel * state))) :=
  frag [
    el "div" [at_ "class" "flex flex-wrap items-center justify-between gap-2"] [
      el "div" [] [
        el "h2" [at_ "class" "text-base font-medium"] [txt "Cells"];
        el "p" [at_ "class" "text-sm text-muted-foreground"] [txt "Register another region’s controller. This does not start VMs."]];
      el "Button" [at_ "size" "sm"; on_ "@click" (fun _ => upd (set_s_createOpen (VBool true)))] [txt "Create cell"]];
    el "Card" [] [
      el "CardContent" [at_ "class" "pt-4"] [
        el "Table" [] [
          el "TableHeader" [] [
            el "TableRow" [] [
              el "TableHead" [] [txt "ID"];
              el "TableHead" [] [txt "Label"];
              el "TableHead" [] [txt "Region"];
              el "TableHead" [] [txt "Controller"]]];
          el "TableBody" [] [
            v_for (listedCells p) (fun cell =>
              el "TableRow" [bind_ "key" ((Ok cell) @. "id")] [
                el "TableCell" [at_ "class" "font-mono text-xs"] [interp ((Ok cell) @. "id")];
                el "TableCell" [] [interp (((Ok cell) @. "label") .|| #"—")];
                el "TableCell" [] [interp (((Ok cell) @. "region") .|| #"—")];
                el "TableCell" [at_ "class" "max-w-[16rem] truncate font-mono text-xs"] [interp (((Ok cell) @. "controllerUrl") .|| #"—")]])]]]]].

Definition section_cluster (p : panel) (v : state) : E (list (vnode (panel * state))) :=
  frag [
    el "Card" [] [
      el "CardHeader" [] [
        el "CardTitle" [] [txt "Cluster"];
        el "CardDescription" [] [txt "Create a seed, then add brokers from Nodes."]];
      el "CardContent" [at_ "class" "space-y-3"] [
        el "p" [at_ "class" "text-sm text-muted-foreground"] [
          txt " Status: ";
          interp (Ok (VStr (clusterLabel (ses p))));
          txt " ";
          v_if (currentCluster p v)
            (el "span" [] [
              txt " · ";
              interp (((currentCluster p v) @. "nodeCount") .|| (e_num 0));
              txt " nodes · RF ";
              interp (((currentCluster p v) @. "replicationFactor") .|| #"—")])
            none];
        el "div" [at_ "class" "flex flex-wrap items-center gap-2"] [
          el "Button" [at_ "size" "sm"; on_ "@click" (fun _ => createCluster)] [txt "Create cluster"];
          el "Button" [at_ "size" "sm"; at_ "variant" "outline"; on_ "@click" (fun _ => syncCluster)] [txt "Re-sync"];
          ActionMessage (Ok (st_error (s_clusterStatus v))) (Ok (st_ok (s_clusterStatus v))) (Ok VUndef)]];
      v_if (Ok (s_joinToken v))
        (el "CardFooter" [at_ "class" "block space-y-2"] [
          el "p" [at_ "class" "text-sm font-medium"] [txt "Join token — 1 hour"];
          el "pre" [at_ "class" "overflow-x-auto rounded-2xl border bg-muted p-3 font-mono text-xs"] [interp (Ok (s_joinToken v))]])
        none]].

Definition section_this_node (p : panel) (v : state) : E (list (vnode (panel * state))) :=
  frag [
    el "Card" [] [
      el "CardHeader" [] [
        el "CardTitle" [] [txt "This node"];
        el "CardDescription" [] [txt "Name and URL other brokers use to reach this process"]];
      el "CardContent" [at_ "class" "grid gap-3"] [
        Field #"Node name" (Ok VUndef) (Ok VUndef) (Ok VUndef) (frag [
          el "Input" [
              model_ "v-model" (Ok (nodeForm_name (s_nodeForm v))) (fun ev => upd (on_nodeForm (set_nodeForm_name ev)));
              at_ "placeholder" "broker1"] []]);
        Field #"Public URL" (Ok VUndef) (Ok VUndef) (Ok VUndef) (frag [
          el "Input" [
              model_ "v-model" (Ok (nodeForm_publicUrl (s_nodeForm v))) (fun ev => upd (on_nodeForm (set_nodeForm_publicUrl ev)));
              at_ "class" "font-mono";
              at_ "placeholder" "http://localhost:8080"] []])];
      el "CardFooter" [] [
        el "Button" [at_ "size" "sm"; on_ "@click" (fun _ => saveNode)] [txt "Save node"];
        ActionMessage (Ok (st_error (s_nodeStatus v))) (Ok (st_ok (s_nodeStatus v))) (Ok VUndef)]]].

Definition section_storage (p : panel) (v : state) : E (list (vnode (panel * state))) :=
  frag [
    el "Card" [] [
      el "CardHeader" [] [
        el "CardTitle" [] [txt "Storage"];
        el "CardDescription" [] [txt "WAL backend for this broker"]];
      el "CardContent" [at_ "class" "grid gap-3"] [
        Field #"Mode" (Ok VUndef) (Ok VUndef) (Ok VUndef) (frag [
          AppSelect (Ok (storage_mode (s_storage v))) (fun ev => upd (on_storage (set_storage_mode ev)))
            (Ok storageOptions) (Ok VUndef) None]);
        v_if ((Ok (storage_mode (s_storage v))) === #"slate")
          (frag [
            Field #"Endpoint" (Ok VUndef) (Ok VUndef) (Ok VUndef) (frag [
              el "Input" [
                  model_ "v-model" (Ok (storage_endpoint (s_storage v))) (fun ev => upd (on_storage (set_storage_endpoint ev)));
                  at_ "class" "font-mono text-xs"] []]);
            Field #"Bucket" (Ok VUndef) (Ok VUndef) (Ok VUndef) (frag [
              el "Input" [
                  model_ "v-model" (Ok (storage_bucket (s_storage v))) (fun ev => upd (on_storage (set_storage_bucket ev)));
                  at_ "class" "font-mono"] []]);
            Field #"Payload bucket" (Ok VUndef) (Ok VUndef) (Ok VUndef) (frag [
              el "Input" [
                  model_ "v-model" (Ok (storage_payloadBucket (s_storage v))) (fun ev => upd (on_storage (set_storage_payloadBucket ev)));
                  at_ "class" "font-mono"] []]);
            Field #"Access key" (Ok VUndef) (Ok VUndef) (Ok VUndef) (frag [
              el "Input" [
                  model_ "v-model" (Ok (storage_accessKey (s_storage v))) (fun ev => upd (on_storage (set_storage_accessKey ev)));
                  at_ "class" "font-mono"] []]);
            Field #"Secret key" (Ok VUndef) (Ok VUndef) (Ok VUndef) (frag [
              el "Input" [
                  model_ "v-model" (Ok (storage_secretKey (s_storage v))) (fun ev => upd (on_storage (set_storage_secretKey ev)));
                  at_ "type" "password";
                  at_ "placeholder" "leave blank to keep"] []]);
            Field #"Region" (Ok VUndef) (Ok VUndef) (Ok VUndef) (frag [
              el "Input" [
                  model_ "v-model" (Ok (storage_region (s_storage v))) (fun ev => upd (on_storage (set_storage_region ev)));
                  at_ "class" "font-mono"] []])])
          none;
        v_if (Ok (storage_test (s_storage v)))
          (el "p" [at_ "class" "text-xs text-muted-foreground"] [interp (Ok (storage_test (s_storage v)))])
          none];
      el "CardFooter" [at_ "class" "gap-2"] [
        v_if ((Ok (storage_mode (s_storage v))) === #"slate")
          (el "Button" [at_ "variant" "outline"; at_ "size" "sm"; on_ "@click" (fun _ => testS3)] [txt "Test connection"])
          none;
        el "Button" [at_ "size" "sm"; on_ "@click" (fun _ => saveStorage)] [txt "Save storage"];
        ActionMessage (Ok (st_error (s_storageStatus v))) (Ok (st_ok (s_storageStatus v))) (Ok VUndef)]]].

Definition dialog_create (p : panel) (v : state) : E (list (vnode (panel * state))) :=
  el "Dialog" [model_ "v-model:open" (Ok (s_createOpen v)) (fun ev => upd (set_s_createOpen ev))] [
    el "DialogContent" [] [
      el "DialogHeader" [] [
        el "DialogTitle" [] [txt "Create cell"];
        el "DialogDescription" [] [txt " Register another region’s controller. This does not start VMs or join Raft. "]];
      el "div" [at_ "class" "grid gap-3"] [
        Field #"ID" (Ok VUndef) (Ok VUndef) (Ok VUndef) (frag [
          el "Input" [
              model_ "v-model" (Ok (cellForm_id (s_cellForm v))) (fun ev => upd (on_cellForm (set_cellForm_id ev)));
              at_ "placeholder" "eu-west"] []]);
        Field #"Region" (Ok VUndef) (Ok VUndef) (Ok VUndef) (frag [
          el "Input" [
              model_ "v-model" (Ok (cellForm_region (s_cellForm v))) (fun ev => upd (on_cellForm (set_cellForm_region ev)));
              at_ "placeholder" "eu-west"] []]);
        Field #"Controller URL" (Ok VUndef) (Ok VUndef) (Ok VUndef) (frag [
          el "Input" [
              model_ "v-model" (Ok (cellForm_controllerUrl (s_cellForm v))) (fun ev => upd (on_cellForm (set_cellForm_controllerUrl ev)));
              at_ "class" "font-mono text-xs";
              at_ "placeholder" "http://10.0.0.9:8090"] []]);
        Field #"Label" (Ok VUndef) (Ok VUndef) (Ok VUndef) (frag [
          el "Input" [
              model_ "v-model" (Ok (cellForm_label (s_cellForm v))) (fun ev => upd (on_cellForm (set_cellForm_label ev)));
              at_ "placeholder" "EU"] []])];
      el "DialogFooter" [] [
        ActionMessage (Ok (st_error (s_cellStatus v))) (Ok (st_ok (s_cellStatus v))) (Ok VUndef);
        el "Button" [
            at_ "variant" "outline";
            at_ "size" "sm";
            on_ "@click" (fun _ => upd (set_s_createOpen (VBool false)))] [txt "Cancel"];
        el "Button" [at_ "size" "sm"; on_ "@click" (fun _ => createCell)] [txt "Register"]]]].

Definition sheet_attach (p : panel) (v : state) : E (list (vnode (panel * state))) :=
  el "Sheet" [model_ "v-model:open" (Ok (s_attachOpen v)) (fun ev => upd (set_s_attachOpen ev))] [
    el "SheetContent" [at_ "class" "overflow-y-auto sm:max-w-md"] [
      el "SheetHeader" [] [
        el "SheetTitle" [] [txt "Add node"];
        el "SheetDescription" [] [txt " Start the new broker, then paste the URL this panel can open. "]];
      el "div" [at_ "class" "grid gap-3 px-4"] [
        Field #"Role" (Ok VUndef) (Ok VUndef) (Ok VUndef) (frag [
          AppSelect (Ok (attach_profile (s_attach v))) (fun ev => upd (on_attach (set_attach_profile ev)))
            (Ok profileOptions) (Ok VUndef) None]);
        Field #"Name" (Ok VUndef) (Ok VUndef) (Ok VUndef) (frag [
          el "Input" [
              model_ "v-model" (Ok (attach_name (s_attach v))) (fun ev => upd (on_attach (set_attach_name ev)));
              at_ "placeholder" "broker2"] []]);
        Field #"This panel connects here" (Ok VUndef) (Ok VUndef) (Ok VUndef) (frag [
          el "Input" [
              model_ "v-model" (Ok (attach_reach (s_attach v))) (fun ev => upd (on_attach (set_attach_reach ev)));
              at_ "class" "font-mono text-xs";
              at_ "placeholder" "http://127.0.0.1:8082"] []]);
        el "div" [at_ "class" "flex items-start gap-2"] [
          el "Checkbox" [
              at_ "id" "attach-split";
              model_ "v-model" (Ok (attach_split (s_attach v))) (fun ev => upd (on_attach (set_attach_split ev)))] [];
          el "Label" [at_ "for" "attach-split"; at_ "class" "font-normal leading-5 text-foreground"] [txt " Other brokers cannot use that URL "]];
        v_if (Ok (attach_split (s_attach v)))
          (Field #"Other brokers connect here" #"Compose DNS, not localhost." (Ok VUndef) (Ok VUndef) (frag [
            el "Input" [
                model_ "v-model" (Ok (attach_advertise (s_attach v))) (fun ev => upd (on_attach (set_attach_advertise ev)));
                at_ "class" "font-mono text-xs";
                at_ "placeholder" "http://broker2:8080"] []]))
          none;
        v_if (needsToken v)
          (Field #"Join token" (Ok VUndef) (Ok VUndef) (Ok VUndef) (frag [
            el "Input" [
                model_ "v-model" (Ok (attach_token (s_attach v))) (fun ev => upd (on_attach (set_attach_token ev)));
                at_ "class" "font-mono";
                at_ "placeholder" "from Create cluster"] []]))
          none;
        el "p" [at_ "class" "text-xs text-muted-foreground"] [interp (profileHint v)];
        ActionMessage (Ok (attach_error (s_attach v))) (Ok (s_attachOk v)) (Ok VUndef)];
      el "SheetFooter" [] [
        el "Button" [at_ "variant" "outline"; at_ "size" "sm"; on_ "@click" (fun _ => probe)] [txt "Test connection"];
        el "Button" [at_ "size" "sm"; on_ "@click" (fun _ => attachNode)] [txt "Add node"]]]].

Definition render (p : panel) (v : state) : E (list (vnode (panel * state))) :=
  frag [
    el "div" [at_ "class" "space-y-4"] [
    el "div" [] [
      el "h1" [at_ "class" "text-lg font-semibold tracking-tight"] [txt "Infrastructure"];
      el "p" [at_ "class" "text-sm text-muted-foreground"] [txt "Cells, brokers, storage, and replication"]];
    v_if (Ok (s_restartMsg v))
      (el "Alert" [] [
        el "AlertTitle" [] [txt "Restart required"];
        el "AlertDescription" [] [interp (Ok (s_restartMsg v))]])
      none;
    v_if ((rfBanner p v) .|| (Ok (s_rfMsg v)))
      (el "Alert" [] [
        el "AlertTitle" [] [txt "Replication"];
        el "AlertDescription" [] [interp ((Ok (s_rfMsg v)) .|| (rfBanner p v))]])
      none;
    ActionMessage (Ok (st_error (s_fedStatus v))) (Ok VUndef) (Ok VUndef);
    el "div" [at_ "class" "flex flex-col gap-6 lg:flex-row"] [
      el "nav" [
          at_ "class" "flex gap-1 overflow-x-auto lg:w-44 lg:shrink-0 lg:flex-col lg:overflow-visible"] [
        v_for (Ok sections) (fun item =>
          el "button" [
              bind_ "key" ((Ok item) @. "id");
              at_ "type" "button";
              bind_ "class" (e_class [ #"shrink-0 rounded-xl px-3 py-1.5 text-left text-sm transition-colors"; e_if ((Ok (s_section v)) === ((Ok item) @. "id")) #"bg-muted font-medium text-foreground" #"text-muted-foreground hover:bg-muted/60 hover:text-foreground"]);
              on_ "@click" (fun _ => w ← pure ((Ok item) @. "id"); upd (set_s_section w))] [interp ((Ok item) @. "label")])];
      el "div" [at_ "class" "min-w-0 flex-1 space-y-4"] [
        v_if ((Ok (s_section v)) === #"overview")
          (section_overview p v)
        (v_if ((Ok (s_section v)) === #"nodes")
          (section_nodes p v)
        (v_if ((Ok (s_section v)) === #"cells")
          (section_cells p v)
        (v_if ((Ok (s_section v)) === #"cluster")
          (section_cluster p v)
        (v_if ((Ok (s_section v)) === #"this-node")
          (section_this_node p v)
          (section_storage p v)))))]]];
    dialog_create p v;
    sheet_attach p v].
End handlers.
