(* ===== verification/AppHeader.v ===== *)
(** * [components/layout/AppHeader.vue]: health, cluster size and the refresh button *)

From stdpp Require Import base list gmap strings.
From Stdlib Require Import NArith ZArith Lia String SpecFloat.
From S2P Require Import Prelude JsString JsNum JsVal Json Prog State Storage Api Payload Catalog View Form Session.
Local Open Scope js_scope.

(** The component's state. *)
Record state := State_ {
  s_refreshStatus : status
}.

Definition set_s_refreshStatus (v : status) (r : state) : state :=
  {| s_refreshStatus := v |}.

Definition on_refreshStatus (f : status -> status) (v : state) : state := set_s_refreshStatus (f (s_refreshStatus v)) v.

(** The state [setup] creates. *)
Definition setup : state :=
  {| s_refreshStatus := useActionStatus |}.

Section handlers.
Context `{Platform}.

(** The six refreshes run concurrently. *)
Definition refresh_tasks : list (prog panel jsval) :=
  [discard pollHealth; discard pollCluster; discard refreshCells;
   discard refreshQueues; discard refreshGroups; discard refreshFlows].

Definition refreshAll : vprog state unit :=
  _ ← upd (on_refreshStatus st_reset);
  prog_catch
    (_ ← lib (promise_array refresh_tasks);
     upd (on_refreshStatus (st_succeed (VStr (js "Refreshed")))))
    (fun e => upd (on_refreshStatus (st_fail e))).

(** ** The template *)

Definition render (p : panel) (v : state) : E (list (vnode (panel * state))) :=
  el "header" [at_ "class" "flex h-12 shrink-0 items-center gap-2 border-b px-4"] [
    el "SidebarTrigger" [] [];
    el "Badge" [at_ "variant" "outline"; at_ "class" "font-mono text-xs"] [txt "0.4.0"];
    el "Badge" [
        bind_ "variant" (e_if (Ok (VBool (healthOk (ses p)))) #"outline" #"destructive");
        bind_ "class" (e_class [ #"text-xs"; e_if (Ok (VBool (healthOk (ses p)))) #"border-transparent bg-success/15 text-success" #""])] [interp (e_if (Ok (VBool (healthOk (ses p)))) #"Healthy" #"down")];
    el "Badge" [at_ "variant" "secondary"; at_ "class" "font-mono text-xs"] [interp (Ok (VStr (clusterLabel (ses p))))];
    el "div" [at_ "class" "ml-auto flex items-center gap-2"] [
      ActionMessage (Ok (st_error (s_refreshStatus v))) (Ok (st_ok (s_refreshStatus v))) (Ok VUndef);
      el "Button" [
          at_ "variant" "ghost";
          at_ "size" "icon-sm";
          at_ "title" "Refresh";
          on_ "@click" (fun _ => refreshAll)] [el "RefreshCw" [] []]]].
End handlers.
