(* ===== verification/CellSwitcher.v ===== *)
(** * [components/layout/CellSwitcher.vue]: the cell drop-down *)

From stdpp Require Import base list gmap strings.
From Stdlib Require Import NArith ZArith Lia String SpecFloat.
From S2P Require Import Prelude JsString JsNum JsVal Json Prog State Storage Api Payload Catalog View Form Session.
Local Open Scope js_scope.

(** The component has no state of its own. *)
Definition state : Type := unit.

(** [@click="setCellId(id)"] *)
Definition select (id : jsval) : vprog state unit := upd_page (setCellId id).

Section handlers.
Context `{Platform}.

(** The registered cells, or a stand-in for the local one. *)
Definition local_cell : jsval :=
  VObj ["id" ~> VStr (js "local"); "region" ~> VStr (js "local"); "controllerUrl" ~> VStr []; "label" ~> VStr (js "local")].

Definition cells (p : panel) : E jsval :=
  e_if (e_length (Ok (State.cells (ses p)))) (Ok (State.cells (ses p))) (Ok (VArr [local_cell])).

Definition current (p : panel) : E jsval :=
  cs ← cells p;
  l ← elements_of cs;
  hit ← find_elem (field_is (js "id") (selectedCellId (ses p))) l;
  Ok (if truthy hit then hit else first_elem l).

Definition title (c : jsval) : E jsval := (Ok c) @. "label" .|| (Ok c) @. "id".

Definition subtitle (c : jsval) : E jsval :=
  e_if ((Ok c) @. "region" .&& ((Ok c) @. "region" !== (Ok c) @. "id") .&& ((Ok c) @. "region" !== (Ok c) @. "label"))
    (e_template [(Ok c) @. "id"; #" · "; (Ok c) @. "region"])
    ((Ok c) @. "id").

(** [glassAvatar(seed)] in the template; filling the cache does not show. *)
Definition avatar_src (p : panel) (seed : jsval) : E jsval :=
  str_method (js "trim") seed (fun s => VStr (fst (glassAvatar s (avatars p)))).

(** ** The template *)

Definition render (p : panel) (v : state) : E (list (vnode (panel * state))) :=
  el "DropdownMenu" [] [
    el "DropdownMenuTrigger" [at_ "as-child" ""] [
      el "button" [
          at_ "type" "button";
          at_ "class" "flex w-full items-center gap-2 overflow-hidden rounded-2xl p-1.5 text-left ring-1 ring-sidebar-border/80 transition-colors hover:bg-sidebar-accent group-data-[collapsible=icon]:size-8 group-data-[collapsible=icon]:justify-center group-data-[collapsible=icon]:p-0 group-data-[collapsible=icon]:ring-0"] [
        el "span" [at_ "class" "glass-frost size-8 shrink-0 overflow-hidden rounded-2xl"] [
          el "img" [
              bind_ "src" (e_call (avatar_src p) (((current p) @? "id") .|| #"local"));
              bind_ "alt" (e_if (current p) (e_call title (current p)) #"cell");
              at_ "class" "size-full"] []];
        el "span" [at_ "class" "min-w-0 flex-1 group-data-[collapsible=icon]:hidden"] [
          el "span" [at_ "class" "block truncate text-sm font-medium leading-tight"] [interp (e_if (current p) (e_call title (current p)) #"local")];
          el "span" [at_ "class" "block truncate text-xs text-muted-foreground"] [interp (e_if (current p) (e_call subtitle (current p)) #"local")]];
        el "ChevronsUpDown" [
            at_ "class" "size-4 shrink-0 text-muted-foreground group-data-[collapsible=icon]:hidden"] []]];
    el "DropdownMenuContent" [at_ "class" "w-56"; at_ "align" "start"; at_ "side" "bottom"] [
      el "DropdownMenuLabel" [at_ "class" "text-xs text-muted-foreground"] [txt "Cell"];
      v_for (cells p) (fun c =>
        el "DropdownMenuItem" [
            bind_ "key" ((Ok c) @. "id");
            at_ "class" "gap-2 rounded-xl";
            on_ "@click" (fun _ => w ← pure ((Ok c) @. "id"); select w)] [
          el "span" [at_ "class" "glass-frost size-7 overflow-hidden rounded-xl"] [
            el "img" [
                bind_ "src" (e_call (avatar_src p) ((Ok c) @. "id"));
                bind_ "alt" (title c);
                at_ "class" "size-full"] []];
          el "span" [at_ "class" "min-w-0 flex-1"] [
            el "span" [at_ "class" "block truncate text-sm font-medium"] [interp (title c)];
            el "span" [at_ "class" "block truncate text-xs text-muted-foreground"] [interp (subtitle c)]]])]].
End handlers.
