(* ===== verification/AppSidebar.v ===== *)
(** * [components/layout/AppSidebar.vue]: navigation and theme

    [route.path] is the router's current path; icons appear by name. *)

From stdpp Require Import base list gmap strings.
From Stdlib Require Import NArith ZArith Lia String SpecFloat.
From S2P Require Import Prelude JsString JsNum JsVal Json Prog State Storage Api Payload Catalog View Form Session.
Local Open Scope js_scope.

(** The component's state. *)
Record state := State_ {
  s_route : jsval
}.

Definition set_s_route (v : jsval) (r : state) : state :=
  {| s_route := v |}.


Definition nav_item (to label icon : string) : jsval :=
  VObj ["to" ~> VStr (js to); "label" ~> VStr (js label); "icon" ~> VStr (js icon)].

Definition nav_items : list jsval :=
  [nav_item "/" "Overview" "LayoutDashboard";
   nav_item "/infra" "Infrastructure" "Server";
   nav_item "/queues" "Queues" "Layers";
   nav_item "/groups" "Groups" "Users";
   nav_item "/publish" "Publish" "Send";
   nav_item "/enqueue" "Enqueue" "Plus";
   nav_item "/flows" "Flows" "Share2";
   nav_item "/schedules" "Schedules" "Clock";
   nav_item "/dlq" "DLQ" "TriangleAlert";
   nav_item "/http" "HTTP" "Globe";
   nav_item "/docs" "Docs" "BookOpen"].

Definition settingsItem : jsval := nav_item "/settings" "Settings" "Settings".

Definition theme_item (m : ThemeMode) (label icon : string) : jsval :=
  VObj ["id" ~> VStr (theme_name m); "label" ~> VStr (js label); "icon" ~> VStr (js icon)].

Definition themes : jsval :=
  VArr [theme_item TSystem "System" "Monitor"; theme_item TLight "Light" "Sun"; theme_item TDark "Dark" "Moon"].

(** The mode a theme button names. *)
Definition theme_of (id : jsval) : ThemeMode :=
  if strict_eq id (VStr (js "dark")) then TDark
  else if strict_eq id (VStr (js "light")) then TLight
  else TSystem.

(** [@click="setTheme(t.id)"] *)
Definition pick_theme (id : jsval) : vprog state unit := upd_page (setTheme (theme_of id)).

(** The state [setup] creates. *)
Definition setup : state :=
  {| s_route := VStr (js "/") |}.

Section handlers.
Context `{Platform}.

(** ** The template *)

Definition render (p : panel) (v : state) : E (list (vnode (panel * state))) :=
  el "Sidebar" [at_ "variant" "inset"; at_ "collapsible" "icon"] [
    el "SidebarHeader" [at_ "class" "gap-2 px-2 py-2"] [
      el "RouterLink" [
          at_ "to" "/";
          at_ "class" "flex items-center gap-2 overflow-hidden rounded-2xl px-1 py-0.5"] [
        el "span" [
            at_ "class" "flex size-8 shrink-0 items-center justify-center rounded-2xl bg-primary/10 ring-1 ring-primary/20"] [el "img" [bind_ "src" (e_str iconBrand); at_ "alt" ""; at_ "class" "size-5"] []];
        el "span" [
            at_ "class" "truncate text-sm font-semibold tracking-tight group-data-[collapsible=icon]:hidden"] [txt " betterMQ "]];
      el "CellSwitcher" [] []];
    el "SidebarContent" [] [
      el "SidebarGroup" [] [
        el "SidebarGroupLabel" [at_ "class" "text-xs tracking-widest uppercase"] [txt "Navigate"];
        el "SidebarGroupContent" [] [
          el "SidebarMenu" [] [
            v_for (Ok (VArr nav_items)) (fun item =>
              el "SidebarMenuItem" [bind_ "key" ((Ok item) @. "to")] [
                el "SidebarMenuButton" [
                    at_ "as-child" "";
                    bind_ "is-active" ((Ok (s_route v)) === ((Ok item) @. "to"));
                    bind_ "tooltip" ((Ok item) @. "label")] [
                  el "RouterLink" [bind_ "to" ((Ok item) @. "to")] [
                    el "component" [bind_ "is" ((Ok item) @. "icon")] [];
                    el "span" [] [interp ((Ok item) @. "label")]]]]);
            v_if (e_not (Ok (VBool (isExternalAuth (br p)))))
              (el "SidebarMenuItem" [] [
                el "SidebarMenuButton" [
                    at_ "as-child" "";
                    bind_ "is-active" ((Ok (s_route v)) === ((Ok settingsItem) @. "to"));
                    bind_ "tooltip" ((Ok settingsItem) @. "label")] [
                  el "RouterLink" [bind_ "to" ((Ok settingsItem) @. "to")] [
                    el "component" [bind_ "is" ((Ok settingsItem) @. "icon")] [];
                    el "span" [] [interp ((Ok settingsItem) @. "label")]]]])
              none]]]];
    el "SidebarFooter" [] [
      el "div" [
          at_ "class" "grid grid-cols-3 gap-0.5 rounded-2xl bg-muted p-1 group-data-[collapsible=icon]:hidden"] [
        v_for (Ok themes) (fun t =>
          el "button" [
              bind_ "key" ((Ok t) @. "id");
              at_ "type" "button";
              bind_ "class" (e_class [ #"flex h-7 items-center justify-center gap-1 rounded-xl text-xs font-medium transition-colors"; e_if ((Ok (VStr (theme_name (themeMode (ses p))))) === ((Ok t) @. "id")) #"bg-background text-primary shadow-sm" #"text-muted-foreground hover:text-foreground"]);
              on_ "@click" (fun _ => w ← pure ((Ok t) @. "id"); pick_theme w)] [
            el "component" [bind_ "is" ((Ok t) @. "icon"); at_ "class" "size-3.5"] [];
            txt " ";
            interp ((Ok t) @. "label")])]];
    el "SidebarRail" [] []].
End handlers.
