(* ===== verification/App.v ===== *)
(** * [App.vue], [AppShell.vue] and [router/index.ts]

    Which component the page shows, by authentication phase and by route.
    Components with a state of their own appear as nodes under their name. *)

From stdpp Require Import base list gmap strings.
From Stdlib Require Import NArith ZArith Lia String SpecFloat.
From S2P Require Import Prelude JsString JsNum JsVal Json Prog State Storage Api Payload Catalog View Form Session.
Local Open Scope js_scope.

(** ** The router *)

(** A route record: a path with the view it shows, or a redirect. *)
Record route := Route { path : jstring; name : jstring; component : jstring }.

Definition mk_route (p n c : string) : route := {| path := js p; name := js n; component := js c |}.

Definition base : jstring := js "/panel/".

Definition routes : list route :=
  [mk_route "/" "overview" "OverviewView";
   mk_route "/infra" "infra" "InfraView";
   mk_route "/queues" "queues" "QueuesView";
   mk_route "/groups" "groups" "GroupsView";
   mk_route "/publish" "publish" "PublishView";
   mk_route "/enqueue" "enqueue" "EnqueueView";
   mk_route "/flows" "flows" "FlowsView";
   mk_route "/schedules" "schedules" "SchedulesView";
   mk_route "/dlq" "dlq" "DlqView";
   mk_route "/http" "http" "HttpView";
   mk_route "/docs" "docs" "DocsView";
   mk_route "/settings" "settings" "SettingsView"].

(** [/:pathMatch( .* )*] redirects everything else. *)
Definition redirect : jstring := js "/".

Definition find_route (p : jstring) : option route := List.find (fun r => bool_decide (path r = p)) routes.

(** The view shown at [p]. *)
Definition resolve (p : jstring) : option jstring :=
  match find_route p with
  | Some r => Some (component r)
  | None => component <$> find_route redirect
  end.

(** ** The page *)

Definition AppShell (p : panel) : E (list (vnode panel)) :=
  el "SidebarProvider" [] [
    el "AppSidebar" [] [];
    el "SidebarInset" [] [
      v_if (Ok (VBool (splitAuth (ses p))))
        (el "Alert" [at_ "variant" "destructive"; at_ "class" "m-2"] [
          el "AlertTitle" [] [txt "Split auth across brokers"];
          el "AlertDescription" [] [
            txt " This API URL hits nodes with different local auth. Use one broker for dev, or complete panel setup on each cluster node. "]])
        none;
      el "AppHeader" [] [];
      el "div" [at_ "class" "flex-1 overflow-auto p-4"] [el "router-view" [] []]]].

Definition App (p : panel) : E (list (vnode panel)) :=
  el "TooltipProvider" [] [
    v_if ((Ok (VStr (phase_name (phase (ses p))))) === #"loading")
      (el "div" [
          at_ "class" "flex min-h-svh items-center justify-center text-sm text-muted-foreground"] [txt " Connecting… "])
    (v_if ((Ok (VStr (phase_name (phase (ses p))))) === #"setup")
      (el "SetupView" [] [])
    (v_if ((Ok (VStr (phase_name (phase (ses p))))) === #"reveal")
      (el "RevealView" [] [])
    (v_if ((Ok (VStr (phase_name (phase (ses p))))) === #"gate")
      (el "GateView" [] [])
      (el "AppShell" [] []))))].
