(* ===== verification/Components.v ===== *)
(** * The components' tasks, and that each stays on the page's origin

    For every component: the programs it may start (mounting and its handlers with
    any argument), as an instance of [Component]. *)

From stdpp Require Import base list gmap strings.
From Stdlib Require Import NArith ZArith Lia String SpecFloat.
From S2P Require Import Prelude JsString JsNum JsVal Json Prog State Storage Api Payload Catalog Session View Form Net.
From S2P Require Import GateView SetupView RevealView SettingsView DocsView EnqueueView QueuesView FlowsView.
From S2P Require Import PublishView GroupsView HttpView SchedulesView DlqView OverviewView InfraView.
From S2P Require Import AppHeader CellSwitcher AppSidebar.

(** A page update that rewrites part of the browser but not its origin, admin
    root or request log. *)
Lemma vsafe_page_frame `{Platform} {V : Type} b0 (f : panel -> panel) :
  (forall p, net_frame (br p) (br (f p)) /\ tm (f p) = tm p /\ avatars (f p) = avatars p) ->
  safe (vconfined (V:=V) b0) (upd_page f).
Proof.
  intros Hf. apply safe_modify. intros [p v] ((N1 & N2 & N3) & Hs & Ht & Ha).
  destruct (Hf p) as ([(F1 & F2 & F3) F4] & Ft & Fa). unfold vconfined, confined. simpl in *.
  split_and!; [split_and!; congruence| | |]; by rewrite ?F4, ?Ft, ?Fa.
Qed.

(** The handlers of the components, and the functions they share. *)
Ltac unfold_handlers :=
  unfold GateView.continueWithToken, GateView.regen, SetupView.submit, RevealView.copy, SettingsView.regen,
    EnqueueView.mounted, EnqueueView.enqueue, EnqueueView.enqueue_path,
    QueuesView.mounted, QueuesView.create, QueuesView.remove, FlowsView.mounted, FlowsView.create, FlowsView.remove,
    PublishView.mounted, PublishView.publish,
    GroupsView.mounted, GroupsView.create, GroupsView.addMember, GroupsView.removeGroup, GroupsView.removeMember,
    GroupsView.openMembers, GroupsView.loadMembers,
    HttpView.mounted, HttpView.block, HttpView.unblock, HttpView.load,
    SchedulesView.mounted, SchedulesView.create, SchedulesView.act, SchedulesView.load, SchedulesView.act_request,
    DlqView.mounted, DlqView.remove, DlqView.removeAll, DlqView.copyBody, DlqView.view, DlqView.loadSources, DlqView.load,
    OverviewView.mounted, OverviewView.quickPublish, OverviewView.fetchJson,
    InfraView.mounted, InfraView.createCell, InfraView.probe, InfraView.attachNode, InfraView.createCluster,
    InfraView.syncCluster, InfraView.removeNode, InfraView.confirm, InfraView.saveNode, InfraView.testS3,
    InfraView.saveStorage, InfraView.selectNode, InfraView.openAddNode, InfraView.note_restart, InfraView.load,
    InfraView.loadInfra, InfraView.loadFed, InfraView.load_status, InfraView.load_config, InfraView.load_s3,
    InfraView.fill_cells,
    AppHeader.refreshAll, AppHeader.refresh_tasks, CellSwitcher.select, AppSidebar.pick_theme,
    setupPassword, regenerateToken.

Section tasks.
Context `{Platform}.

(** Loading the infrastructure page, which its other handlers end with. *)
Lemma infra_load_confined b0 : served b0 ->
  safe (vconfined b0) InfraView.load /\ safe (vconfined b0) InfraView.loadInfra.
Proof.
  intros Hs. unfold InfraView.load, InfraView.loadInfra, InfraView.loadFed, InfraView.load_status,
    InfraView.load_config, InfraView.load_s3, InfraView.fill_cells.
  split; vnet; apply vsafe_lib, safe_promise_array; forall_list; try by apply net_queryCells.
Qed.

Inductive gate_task : vprog GateView.state unit -> Prop :=
| gate_continue : gate_task GateView.continueWithToken
| gate_regen : gate_task GateView.regen.

Lemma gate_confined b0 p : served b0 -> gate_task p -> safe (vconfined b0) p.
Proof.
  intros Hs. destruct 1; unfold GateView.continueWithToken, GateView.regen, regenerateToken; vnet.
Qed.
#[export] Instance gate_component : Component GateView.state :=
  {| tasks := gate_task; tasks_confined := gate_confined |}.

Inductive setup_task : vprog SetupView.state unit -> Prop :=
| setup_submit : setup_task SetupView.submit.

Lemma setup_confined b0 p : served b0 -> setup_task p -> safe (vconfined b0) p.
Proof.
  intros Hs. destruct 1; unfold SetupView.submit, setupPassword; vnet.
Qed.
#[export] Instance setup_component : Component SetupView.state :=
  {| tasks := setup_task; tasks_confined := setup_confined |}.

Inductive reveal_task : vprog RevealView.state unit -> Prop :=
| reveal_copy : reveal_task RevealView.copy
| reveal_finish : reveal_task (lib finishReveal).

Lemma reveal_confined b0 p : served b0 -> reveal_task p -> safe (vconfined b0) p.
Proof.
  intros Hs. destruct 1; unfold RevealView.copy; vnet.
Qed.
#[export] Instance reveal_component : Component RevealView.state :=
  {| tasks := reveal_task; tasks_confined := reveal_confined |}.

Inductive settings_task : vprog SettingsView.state unit -> Prop :=
| settings_regen : settings_task SettingsView.regen.

Lemma settings_confined b0 p : served b0 -> settings_task p -> safe (vconfined b0) p.
Proof.
  intros Hs. destruct 1; unfold SettingsView.regen, regenerateToken; vnet.
Qed.
#[export] Instance settings_component : Component SettingsView.state :=
  {| tasks := settings_task; tasks_confined := settings_confined |}.

Inductive enqueue_task : vprog EnqueueView.state unit -> Prop :=
| enqueue_mounted : enqueue_task EnqueueView.mounted
| enqueue_enqueue : enqueue_task EnqueueView.enqueue.

Lemma enqueue_confined b0 p : served b0 -> enqueue_task p -> safe (vconfined b0) p.
Proof.
  intros Hs. destruct 1; unfold EnqueueView.mounted, EnqueueView.enqueue, EnqueueView.enqueue_path; vnet.
Qed.
#[export] Instance enqueue_component : Component EnqueueView.state :=
  {| tasks := enqueue_task; tasks_confined := enqueue_confined |}.

Inductive queues_task : vprog QueuesView.state unit -> Prop :=
| queues_mounted : queues_task QueuesView.mounted
| queues_create : queues_task QueuesView.create
| queues_remove q : queues_task (QueuesView.remove q).

Lemma queues_confined b0 p : served b0 -> queues_task p -> safe (vconfined b0) p.
Proof.
  intros Hs. destruct 1; unfold QueuesView.mounted, QueuesView.create, QueuesView.remove; vnet.
Qed.
#[export] Instance queues_component : Component QueuesView.state :=
  {| tasks := queues_task; tasks_confined := queues_confined |}.

Inductive flows_task : vprog FlowsView.state unit -> Prop :=
| flows_mounted : flows_task FlowsView.mounted
| flows_create : flows_task FlowsView.create
| flows_remove f : flows_task (FlowsView.remove f).

Lemma flows_confined b0 p : served b0 -> flows_task p -> safe (vconfined b0) p.
Proof.
  intros Hs. destruct 1; unfold FlowsView.mounted, FlowsView.create, FlowsView.remove; vnet.
Qed.
#[export] Instance flows_component : Component FlowsView.state :=
  {| tasks := flows_task; tasks_confined := flows_confined |}.

Inductive publish_task : vprog PublishView.state unit -> Prop :=
| publish_mounted : publish_task PublishView.mounted
| publish_publish : publish_task PublishView.publish.

Lemma publish_confined b0 p : served b0 -> publish_task p -> safe (vconfined b0) p.
Proof.
  intros Hs. destruct 1; unfold PublishView.mounted, PublishView.publish; vnet.
Qed.
#[export] Instance publish_component : Component PublishView.state :=
  {| tasks := publish_task; tasks_confined := publish_confined |}.

Inductive groups_task : vprog GroupsView.state unit -> Prop :=
| groups_mounted : groups_task GroupsView.mounted
| groups_create : groups_task GroupsView.create
| groups_load g : groups_task (GroupsView.loadMembers g)
| groups_add : groups_task GroupsView.addMember
| groups_remove_group g : groups_task (GroupsView.removeGroup g)
| groups_remove_member m : groups_task (GroupsView.removeMember m)
| groups_open g : groups_task (GroupsView.openMembers g).

Lemma groups_confined b0 p : served b0 -> groups_task p -> safe (vconfined b0) p.
Proof.
  intros Hs. destruct 1; unfold GroupsView.mounted, GroupsView.create, GroupsView.addMember, GroupsView.removeGroup, GroupsView.removeMember, GroupsView.openMembers, GroupsView.loadMembers; vnet.
Qed.
#[export] Instance groups_component : Component GroupsView.state :=
  {| tasks := groups_task; tasks_confined := groups_confined |}.

Inductive http_task : vprog HttpView.state unit -> Prop :=
| http_mounted : http_task HttpView.mounted
| http_load : http_task HttpView.load
| http_block : http_task HttpView.block
| http_unblock h : http_task (HttpView.unblock h)
| http_outbound f : http_task (upd_page (on_out f)).

Lemma http_confined b0 p : served b0 -> http_task p -> safe (vconfined b0) p.
Proof.
  intros Hs. destruct 1; unfold HttpView.mounted, HttpView.block, HttpView.unblock, HttpView.load; vnet.
Qed.
#[export] Instance http_component : Component HttpView.state :=
  {| tasks := http_task; tasks_confined := http_confined |}.

Inductive schedules_task : vprog SchedulesView.state unit -> Prop :=
| schedules_mounted : schedules_task SchedulesView.mounted
| schedules_create : schedules_task SchedulesView.create
| schedules_act k i : schedules_task (SchedulesView.act k i).

Lemma schedules_confined b0 p : served b0 -> schedules_task p -> safe (vconfined b0) p.
Proof.
  intros Hs. destruct 1; unfold SchedulesView.mounted, SchedulesView.create, SchedulesView.act, SchedulesView.load; vnet.
  all: try (unfold SchedulesView.act_request; apply vsafe_lib; vnet).
Qed.
#[export] Instance schedules_component : Component SchedulesView.state :=
  {| tasks := schedules_task; tasks_confined := schedules_confined |}.

Inductive dlq_task : vprog DlqView.state unit -> Prop :=
| dlq_mounted : dlq_task DlqView.mounted
| dlq_load : dlq_task DlqView.load
| dlq_remove m : dlq_task (DlqView.remove m)
| dlq_remove_all : dlq_task DlqView.removeAll
| dlq_copy : dlq_task DlqView.copyBody
| dlq_view m : dlq_task (DlqView.view m).

Lemma dlq_confined b0 p : served b0 -> dlq_task p -> safe (vconfined b0) p.
Proof.
  intros Hs. destruct 1; unfold DlqView.mounted, DlqView.remove, DlqView.removeAll, DlqView.copyBody, DlqView.view, DlqView.loadSources, DlqView.load; vnet.
Qed.
#[export] Instance dlq_component : Component DlqView.state :=
  {| tasks := dlq_task; tasks_confined := dlq_confined |}.

Inductive overview_task : vprog OverviewView.state unit -> Prop :=
| overview_mounted : overview_task OverviewView.mounted
| overview_publish : overview_task OverviewView.quickPublish.

Lemma overview_confined b0 p : served b0 -> overview_task p -> safe (vconfined b0) p.
Proof.
  intros Hs. destruct 1; unfold OverviewView.mounted, OverviewView.quickPublish, OverviewView.fetchJson; vnet.
  - apply vsafe_lib, safe_promise_array; forall_list; auto with net.
  - apply vsafe_lib, safe_promise_all; auto with net.
Qed.
#[export] Instance overview_component : Component OverviewView.state :=
  {| tasks := overview_task; tasks_confined := overview_confined |}.

Inductive infra_task : vprog InfraView.state unit -> Prop :=
| infra_mounted : infra_task InfraView.mounted
| infra_create_cell : infra_task InfraView.createCell
| infra_probe : infra_task InfraView.probe
| infra_attach : infra_task InfraView.attachNode
| infra_create_cluster : infra_task InfraView.createCluster
| infra_sync : infra_task InfraView.syncCluster
| infra_remove_node n : infra_task (InfraView.removeNode n)
| infra_save_node : infra_task InfraView.saveNode
| infra_test : infra_task InfraView.testS3
| infra_save_storage : infra_task InfraView.saveStorage
| infra_select r : infra_task (InfraView.selectNode r)
| infra_open_add : infra_task InfraView.openAddNode.

Lemma infra_confined b0 p : served b0 -> infra_task p -> safe (vconfined b0) p.
Proof.
  intros Hs. destruct (infra_load_confined b0 Hs) as [Hl Hi].
  destruct 1; unfold InfraView.mounted, InfraView.createCell, InfraView.probe, InfraView.attachNode,
    InfraView.createCluster, InfraView.syncCluster, InfraView.removeNode, InfraView.confirm, InfraView.saveNode,
    InfraView.testS3, InfraView.saveStorage, InfraView.selectNode, InfraView.openAddNode, InfraView.note_restart;
    repeat first [assumption | vnet_step | solve [auto with net]].
Qed.
#[export] Instance infra_component : Component InfraView.state :=
  {| tasks := infra_task; tasks_confined := infra_confined |}.

Inductive header_task : vprog AppHeader.state unit -> Prop :=
| header_refresh : header_task AppHeader.refreshAll.

Lemma header_confined b0 p : served b0 -> header_task p -> safe (vconfined b0) p.
Proof.
  intros Hs. destruct 1; unfold AppHeader.refreshAll, AppHeader.refresh_tasks; vnet.
  all: try (apply vsafe_lib, safe_promise_array; forall_list; auto with net).
Qed.
#[export] Instance header_component : Component AppHeader.state :=
  {| tasks := header_task; tasks_confined := header_confined |}.

Inductive switcher_task : vprog CellSwitcher.state unit -> Prop :=
| switcher_select c : switcher_task (CellSwitcher.select c).

Lemma switcher_confined b0 p : served b0 -> switcher_task p -> safe (vconfined b0) p.
Proof.
  intros Hs. destruct 1. unfold CellSwitcher.select. by apply vsafe_page_frame.
Qed.
#[export] Instance switcher_component : Component CellSwitcher.state :=
  {| tasks := switcher_task; tasks_confined := switcher_confined |}.

Inductive sidebar_task : vprog AppSidebar.state unit -> Prop :=
| sidebar_theme t : sidebar_task (AppSidebar.pick_theme t).

Lemma sidebar_confined b0 p : served b0 -> sidebar_task p -> safe (vconfined b0) p.
Proof.
  intros Hs. destruct 1. unfold AppSidebar.pick_theme. by apply vsafe_page_frame.
Qed.
#[export] Instance sidebar_component : Component AppSidebar.state :=
  {| tasks := sidebar_task; tasks_confined := sidebar_confined |}.

Inductive docs_task : vprog DocsView.state unit -> Prop := .

Lemma docs_confined b0 p : served b0 -> docs_task p -> safe (vconfined b0) p.
Proof. intros Hs. destruct 1. Qed.
#[export] Instance docs_component : Component DocsView.state :=
  {| tasks := docs_task; tasks_confined := docs_confined |}.

End tasks.
