(* ===== verification/RenderRules.v ===== *)
(** * When template expressions and nodes do not throw

    An expression throws when it reads a property of [undefined] or [null], or
    calls a method of another type.  One rule per construct, shared by the proofs
    about the views' templates and those about [components/ui]. *)

From stdpp Require Import base list gmap strings.
From Stdlib Require Import NArith ZArith Lia String SpecFloat.
From S2P Require Import Prelude JsString JsNum JsVal Json Types Prog State Payload View.
Local Open Scope js_scope.

(** ** Expressions *)

Section expressions.

Lemma ok_or a b : is_ok a -> is_ok b -> is_ok (e_or a b).
Proof. destruct a as [v|]; [|done]. cbn. by destruct (truthy v). Qed.
Lemma ok_and a b : is_ok a -> is_ok b -> is_ok (e_and a b).
Proof. destruct a as [v|]; [|done]. cbn. by destruct (truthy v). Qed.
Lemma ok_coalesce a b : is_ok a -> is_ok b -> is_ok (e_coalesce a b).
Proof. destruct a as [v|]; [|done]. cbn. by destruct (is_nullish v). Qed.
Lemma ok_not a : is_ok a -> is_ok (e_not a).
Proof. by destruct a. Qed.
Lemma ok_seq a b : is_ok a -> is_ok b -> is_ok (e_seq a b).
Proof. by destruct a, b. Qed.
Lemma ok_sne a b : is_ok a -> is_ok b -> is_ok (e_sne a b).
Proof. by destruct a, b. Qed.
Lemma ok_gt a b : is_ok a -> is_ok b -> is_ok (e_gt a b).
Proof. by destruct a, b. Qed.
Lemma ok_if {A} c (a b : E A) : is_ok c -> is_ok a -> is_ok b -> is_ok (e_if c a b).
Proof. destruct c as [v|]; [|done]. cbn. by destruct (truthy v). Qed.
(** [v?.k ? a : b] *)
Lemma ok_if_oget {A} v k (a b : E A) :
  (is_nullish v = false -> is_ok a) -> is_ok b -> is_ok (e_if (e_oget (Ok v) k) a b).
Proof.
  unfold e_if, e_oget, oget. cbn [mbind result_bind]. destruct (is_nullish v); [done|]. intros Ha Hb.
  destruct (truthy _); auto.
Qed.
Lemma ok_String a : is_ok a -> is_ok (e_String a).
Proof. by destruct a. Qed.
Lemma ok_oget a k : is_ok a -> is_ok (e_oget a k).
Proof. by destruct a. Qed.
Lemma ok_get v k : is_nullish v = false -> is_ok (e_get (Ok v) k).
Proof. unfold e_get, get. cbn. by intros ->. Qed.
Lemma ok_template l : Forall is_ok l -> is_ok (e_template l).
Proof.
  induction 1 as [|e l He _ IH]; [done|]. cbn [e_template]. destruct e; [|done].
  cbn [mbind result_bind]. by destruct (e_template l).
Qed.
Lemma ok_seq_list {A} (l : list (E A)) : Forall is_ok l -> is_ok (result_seq l).
Proof.
  induction 1 as [|e l He _ IH]; [done|]. cbn [result_seq]. destruct e; [|done].
  cbn [mbind result_bind]. by destruct (result_seq l).
Qed.
Lemma ok_object l : Forall (fun ke => is_ok (snd ke)) l -> exists o, e_object l = Ok (VObj o).
Proof.
  induction 1 as [|[k e] l He _ [o IH]]; [by eexists|]. cbn [e_object]. destruct e; [|done].
  cbn [mbind result_bind]. rewrite IH. by eexists.
Qed.
Lemma ok_class l : Forall is_ok l -> is_ok (e_class l).
Proof. intros Hl. unfold e_class. pose proof (ok_seq_list l Hl) as Hs. by destruct (result_seq l). Qed.
Lemma ok_call {A} (f : jsval -> E A) a : is_ok a -> (forall v, a = Ok v -> is_ok (f v)) -> is_ok (e_call f a).
Proof. destruct a as [v|]; [|done]. intros _ Hf. by apply Hf. Qed.

Lemma typed_not_nullish fields v : has_type (TObject fields) v = true -> is_nullish v = false.
Proof. intros (o & ->)%typed_object. done. Qed.
End expressions.

(** ** Nodes *)

Section nodes.
Context {S : Type}.
Implicit Types n : E (list (vnode S)).

Lemma ok_frag (l : list (E (list (vnode S)))) : Forall is_ok l -> is_ok (frag l).
Proof. intros Hl. unfold frag. pose proof (ok_seq_list l Hl) as Hs. by destruct (result_seq l). Qed.
Lemma ok_el tag (attrs : list (E (jstring * attr S))) kids :
  Forall is_ok attrs -> Forall is_ok kids -> is_ok (el tag attrs kids).
Proof.
  intros Ha Hk. unfold el. pose proof (ok_seq_list attrs Ha) as H1. pose proof (ok_frag kids Hk) as H2.
  destruct (result_seq attrs); [|done]. cbn [mbind result_bind]. by destruct (frag kids).
Qed.
Lemma ok_v_if c n1 n2 : is_ok c -> is_ok n1 -> is_ok n2 -> is_ok (v_if c n1 n2).
Proof. apply ok_if. Qed.
(** The branches may rely on the condition. *)
Lemma ok_v_if_cond v n1 n2 :
  (truthy v = true -> is_ok n1) -> (truthy v = false -> is_ok n2) -> is_ok (v_if (Ok v) n1 n2).
Proof. unfold v_if, e_if. cbn. destruct (truthy v); auto. Qed.
Lemma ok_interp e : is_ok e -> is_ok (interp (S:=S) e).
Proof. by destruct e. Qed.
Lemma ok_bind_ k e : is_ok e -> is_ok (bind_ (S:=S) k e).
Proof. by destruct e. Qed.
Lemma ok_model k e (set : jsval -> prog S unit) : is_ok e -> is_ok (model_ k e set).
Proof. by destruct e. Qed.
Lemma ok_v_for v (f : jsval -> E (list (vnode S))) :
  Forall (fun x => is_ok (f x)) (v_for_items v) -> is_ok (v_for (Ok v) f).
Proof. intros Hf. unfold v_for. cbn [mbind result_bind]. apply ok_frag. by rewrite Forall_map. Qed.
Lemma ok_v_for_typed t v (f : jsval -> E (list (vnode S))) :
  has_type (TArray t) v = true -> (forall x, has_type t x = true -> is_ok (f x)) -> is_ok (v_for (Ok v) f).
Proof.
  intros (l & -> & Hl)%typed_array Hf. apply ok_v_for. cbn [v_for_items].
  eapply Forall_impl; [exact Hl|]. exact Hf.
Qed.
End nodes.
