(* ===== verification/Kit.v ===== *)
(** * Component instances: how Vue applies the wrappers of [components/ui]

    The views use the components of [components/ui] as elements with attributes,
    listeners and [v-model]s.  This file models what happens to them there:
    attributes whose name a component declares become props (with their defaults
    and the casting of booleans), declared events are taken by the component, and
    everything else ([$attrs]) falls through to the root of its template, where
    [mergeProps] joins it with the attributes written there.  Where a root binds
    [$attrs] itself this adds nothing, since a listener is not added twice.

    What the wrappers take from [reka-ui], [@vueuse/core] and
    [class-variance-authority] is the class [UiLibs]; [HandlerLaws] states the
    documented behaviour the theorems rely on: the helpers that forward events
    forward every one of them.  Elements of those libraries appear under their
    package's name. *)

From stdpp Require Import base list gmap strings.
From Stdlib Require Import NArith ZArith Lia String SpecFloat.
From S2P Require Import Prelude JsString JsNum JsVal Json Prog State Payload View Form.
Local Open Scope js_scope.

(** ** Names *)

Definition is_word (c : N) : bool := is_alnum c || (c =? 95)%N.
Definition upper_unit (c : N) : N := if (97 <=? c)%N && (c <=? 122)%N then (c - 32)%N else c.

(** [camelize]: [-x] becomes [X]. *)
Fixpoint camelize (s : jstring) : jstring :=
  match s with
  | [] => []
  | c :: s' =>
      match s' with
      | d :: s'' => if (c =? 45)%N && is_word d then upper_unit d :: camelize s'' else c :: camelize s'
      | [] => [c]
      end
  end.

(** [hyphenate], for the camel-case names of props. *)
Definition hyphenate (s : jstring) : jstring :=
  flat_map (fun c => if (65 <=? c)%N && (c <=? 90)%N then [45; (c + 32)]%N else [c]) s.

(** The listener [@e] as the event [e] (modifiers left off), a listener of a compiled
    template as [on:e], and the event and the prop of [v-model] and [v-model:x]. *)
Fixpoint until_dot (s : jstring) : jstring :=
  match s with
  | [] => []
  | c :: s' => if (c =? 46)%N then [] else c :: until_dot s'
  end.

Definition listener_event (k : jstring) : jstring :=
  if starts_with (js "on:") k then drop 3 k else camelize (until_dot (drop 1 k)).
Definition model_prop (k : jstring) : jstring :=
  if decide (k = js "v-model") then js "modelValue" else camelize (drop 8 k).
Definition update_of (prop : jstring) : jstring := js "update:" ++ prop.

(** ** Classes *)

(** [normalizeClass] *)
Fixpoint normalizeClass (v : jsval) : jstring :=
  match v with
  | VStr s => trim s
  | VArr l => join (js " ") (filter (fun s => s <> []) (map normalizeClass l))
  | VObj o => join (js " ") (map fst (filter (fun kv => truthy (snd kv) = true) (own_entries o)))
  | _ => []
  end.

(** [normalizeStyle([a, b])] on style objects. *)
Definition merge_style (a b : jsval) : jsval :=
  match a, b with
  | VObj o, VObj o' => VObj (fold_left (fun acc kv => assoc_set (fst kv) (snd kv) acc) o' o)
  | _, _ => VArr [a; b]
  end.

(** ** Attributes *)

Section attributes.
Context {S : Type}.
Notation attrs := (list (jstring * attr S)).
Notation nodes := (E (list (vnode S))).

(** The events an attribute list handles, with their handlers. *)
Definition handlers (a : attrs) : list (jstring * (jsval -> prog S unit)) :=
  flat_map (fun kx => match snd kx with
    | AVal _ => []
    | AOn h => [(listener_event (fst kx), h)]
    | AModel _ set => [(update_of (model_prop (fst kx)), set)]
    end) a.

Definition merged_value (k : jstring) (old new : jsval) : jsval :=
  if decide (k = js "class") then (if strict_eq old new then old else VStr (normalizeClass (VArr [old; new])))
  else if decide (k = js "style") then merge_style old new
  else new.

(** [mergeProps(a, {k: x})]: a value replaces the one of the same key, classes and
    styles are joined, listeners are added to those there are. *)
Fixpoint merge_value (k : jstring) (v : jsval) (a : attrs) : attrs :=
  match a with
  | [] => [(k, AVal v)]
  | (k', AVal v') :: a' =>
      if decide (k = k') then (k, AVal (merged_value k v' v)) :: a' else (k', AVal v') :: merge_value k v a'
  | kx :: a' => kx :: merge_value k v a'
  end.

Definition merge_one (a : attrs) (kx : jstring * attr S) : attrs :=
  match snd kx with
  | AVal v => merge_value (fst kx) v a
  | _ => a ++ [kx]
  end.

Definition merge_props (a b : attrs) : attrs := fold_left merge_one b a.

(** The parts of an element's attributes: static, bound, listeners, [v-model] and
    [v-bind] with an object. *)
Notation part := (E attrs).
Definition part_of (x : E (jstring * attr S)) : part := kx ← x; Ok [kx].
Definition sat (k v : string) : part := part_of (at_ k v).
Definition bat (k : string) (e : E jsval) : part := part_of (bind_ k e).
Definition lat (k : string) (h : jsval -> prog S unit) : part := part_of (on_ k h).
Definition v_bind (o : list (jstring * jsval)) : part := Ok (prod_map id AVal <$> o).
Definition bind_attrs (a : attrs) : part := Ok a.

(** [v-bind="{ ...a, ...b }"]: what [b] has replaces what [a] has, listeners too. *)
Definition replaced (b : attrs) (kx : jstring * attr S) : bool :=
  match handlers [kx] with
  | (e, _) :: _ => bool_decide (e ∈ fst <$> handlers b)
  | [] => bool_decide (fst kx ∈ fst <$> b)
  end.
Definition spread (a b : attrs) : part := Ok (filter (fun kx => replaced b kx = false) a ++ b).

Definition merge_parts (ps : list part) : part := l ← result_seq ps; Ok (fold_left merge_props l []).

Definition kel (tag : string) (ps : list part) (kids : list nodes) : nodes :=
  a ← merge_parts ps; k ← frag kids; Ok [Elem (js tag) a k].

(** ** Instances *)

(** Declared props (with the boolean ones marked), their defaults, and declared
    events. *)
Record decls := Decls {
  d_props : list (string * bool);
  d_defaults : list (string * jsval);
  d_emits : list string
}.

Record instance := Instance {
  props : list (jstring * jsval);
  own : attrs;
  rest : attrs;
  content : list (vnode S)
}.

(** What becomes of one attribute: what the component takes, and what stays in
    [$attrs].  [key] and [ref] are Vue's. *)
Definition place (d : decls) (kx : jstring * attr S) : attrs * attrs :=
  let declared k := bool_decide (k ∈ (js ∘ fst) <$> d_props d) in
  let emitted e := bool_decide (e ∈ js <$> d_emits d) in
  let '(k, x) := kx in
  match x with
  | AVal _ => if bool_decide (k = js "key" \/ k = js "ref") then ([], [])
              else if declared (camelize k) then ([kx], []) else ([], [kx])
  | AOn _ => if emitted (listener_event k) then ([kx], []) else ([], [kx])
  | AModel v set =>
      match declared (model_prop k), emitted (update_of (model_prop k)) with
      | true, true => ([kx], [])
      | false, false => ([], [kx])
      | true, false => ([(model_prop k, AVal v)], [(js "on:" ++ update_of (model_prop k), AOn set)])
      | false, true => ([(js "on:" ++ update_of (model_prop k), AOn set)], [(model_prop k, AVal v)])
      end
  end.

(** The value given for a prop. *)
Definition given_value (k : jstring) (kx : jstring * attr S) : option jsval :=
  match snd kx with
  | AVal v => if decide (camelize (fst kx) = k) then Some v else None
  | AModel v _ => if decide (model_prop (fst kx) = k) then Some v else None
  | AOn _ => None
  end.

Definition default_of (d : decls) (k : string) : option jsval :=
  snd <$> List.find (fun kv => String.eqb (fst kv) k) (d_defaults d).

(** [resolvePropValue] *)
Definition prop_value (d : decls) (a : attrs) (kb : string * bool) : jsval :=
  let '(k, boolean) := kb in
  match head (omap (given_value (js k)) a), default_of d k with
  | None, Some v | Some VUndef, Some v => v
  | None, None => if (boolean : bool) then VBool false else VUndef
  | Some v, _ =>
      if boolean && (strict_eq v (VStr []) || strict_eq v (VStr (hyphenate (js k)))) then VBool true else v
  end.

Definition instance_of (d : decls) (a : attrs) (kids : list (vnode S)) : instance :=
  {| props := map (fun kb => (js (fst kb), prop_value d a kb)) (d_props d);
     own := flat_map (fun kx => fst (place d kx)) a;
     rest := flat_map (fun kx => snd (place d kx)) a;
     content := kids |}.

(** A component, used as an element is. *)
Definition component := list part -> list nodes -> nodes.

Definition define (d : decls) (template : instance -> nodes) : component := fun ps kids =>
  a ← merge_parts ps; k ← frag kids; template (instance_of d a k).

Definition prop (i : instance) (k : string) : E jsval := Ok (default VUndef (assoc (js k) (props i))).

(** [typeof v === 'string'] *)
Definition e_is_string (a : E jsval) : E jsval := v ← a; Ok (VBool (is_string v)).

(** [forwarded.x] and [$attrs.x] *)
Definition field_of (a : attrs) (k : string) : E jsval := Ok (default VUndef (head (omap (given_value (js k)) a))).
Definition attr_value (i : instance) (k : string) : E jsval := field_of (rest i) k.

(** [<slot>fallback</slot>] *)
Definition slot_or (i : instance) (fallback : nodes) : nodes :=
  match content i with [] => fallback | l => Ok l end.
Definition slot_ (i : instance) : nodes := Ok (content i).

(** [cn(...)] in a template. *)
Definition cn_ `{Platform} (l : list (E jsval)) : E jsval := vs ← result_seq l; Ok (VStr (cn vs)).
End attributes.

Arguments component : clear implicits.
Arguments instance : clear implicits.

Definition any (k : string) : string * bool := (k, false).
Definition flag (k : string) : string * bool := (k, true).

(** ** The libraries *)

(** [cva(base, { variants, defaultVariants })] *)
Record cva_config := Cva {
  cva_base : string;
  cva_variants : list (string * list (string * string));
  cva_defaults : list (string * string)
}.

Class UiLibs := {
  (** The props and events of [reka-ui]'s exported types, by name. *)
  lib_props : string -> list (string * bool);
  lib_emits : string -> list string;
  cva : cva_config -> list (jstring * jsval) -> jstring;
  reactiveOmit : list (jstring * jsval) -> list string -> list (jstring * jsval);
  useForwardProps : list jstring -> list (jstring * jsval) -> list (jstring * jsval);
  useForwardPropsEmits : forall {S}, list (jstring * attr S) -> list (jstring * jsval) -> list (jstring * attr S);
  useVModel : forall {S}, list (jstring * attr S) -> list (jstring * jsval) -> string -> jsval -> list (jstring * attr S)
}.

(** Forwarding emits loses no event, and a field bound with [useVModel] reports to
    the component's own handlers for the update. *)
Class HandlerLaws `{UiLibs} := {
  forward_handlers : forall S (own : list (jstring * attr S)) ps,
    handlers (useForwardPropsEmits own ps) = handlers own;
  vmodel_handler : forall S (own : list (jstring * attr S)) ps k d h,
    In (update_of (js k), h) (handlers own) -> In (update_of (js k), h) (handlers (useVModel own ps k d))
}.

Section libs.
Context `{UiLibs} {S : Type}.

(** The keys given in the parent's template: what [useForwardProps] looks at. *)
Definition given_keys (i : instance S) : list jstring := fst <$> own i.
Definition forward_props (i : instance S) (ps : list (jstring * jsval)) : list (jstring * jsval) :=
  useForwardProps (given_keys i) ps.
Definition forward_emits (i : instance S) (ps : list (jstring * jsval)) : list (jstring * attr S) :=
  useForwardPropsEmits (own i) ps.

(** [xVariants({ variant, size })] *)
Definition variants_ (c : cva_config) (l : list (string * E jsval)) : E jsval :=
  vs ← result_seq (map (fun kv => v ← snd kv; Ok (js (fst kv), v)) l); Ok (VStr (cva c vs)).

(** [<input v-model="modelValue">] on a model of [useVModel]: the field's value and
    what its input does. *)
Definition model_part (i : instance S) (k : string) (d : E jsval) : E (list (jstring * attr S)) :=
  v ← d; Ok (useVModel (own i) (props i) k v).
End libs.
