(* ===== verification/Expand.v ===== *)
(** * Expanding the kit in a rendered tree

    [expand] replaces every element of [components/ui] in a tree by what its
    component renders.  A component [keeps] what it is given if it renders
    whatever its props are, attaches every listener and [v-model] it receives to
    an element, and shows its slot (unless it has none).  The rules below prove
    that of a component from its template. *)

From stdpp Require Import base list gmap strings.
From Stdlib Require Import NArith ZArith Lia String SpecFloat.
From S2P Require Import Prelude JsString JsNum JsVal Json Prog State Payload View RenderRules Form Kit.
Local Open Scope js_scope.

Section trees.
Context {S : Type}.
Notation attrs := (list (jstring * attr S)).
Notation nodes := (E (list (vnode S))).
Notation handler := (jstring * (jsval -> prog S unit))%type.
Implicit Types (h : handler) (a : attrs).

(** The handlers and the texts of a tree, in document order. *)
Fixpoint node_handlers (n : vnode S) : list handler :=
  match n with
  | Text _ => []
  | Elem _ a kids => handlers a ++ List.concat (map node_handlers kids)
  end.

Fixpoint node_texts (n : vnode S) : list jstring :=
  match n with
  | Text s => [s]
  | Elem _ _ kids => List.concat (map node_texts kids)
  end.

Definition tree_handlers (ns : list (vnode S)) : list handler := List.concat (map node_handlers ns).
Definition tree_texts (ns : list (vnode S)) : list jstring := List.concat (map node_texts ns).

(** ** Attributes *)

Lemma handlers_app a b : handlers (a ++ b) = handlers a ++ handlers b.
Proof. apply flat_map_app. Qed.

Lemma merge_value_handlers k v a : handlers (merge_value k v a) = handlers a.
Proof.
  induction a as [|[k' [v'|f|v' f]] a IH]; [done|..]; cbn [merge_value].
  - case_decide; [done|]. cbn. exact IH.
  - unfold handlers in *. cbn [flat_map]. by rewrite IH.
  - unfold handlers in *. cbn [flat_map]. by rewrite IH.
Qed.

Lemma merge_one_handlers a kx : handlers (merge_one a kx) = handlers a ++ handlers [kx].
Proof.
  destruct kx as [k [v|f|v f]]; unfold merge_one; cbn [snd fst].
  - rewrite merge_value_handlers. cbn. by rewrite app_nil_r.
  - apply handlers_app.
  - apply handlers_app.
Qed.

Lemma merge_props_handlers a b : handlers (merge_props a b) = handlers a ++ handlers b.
Proof.
  revert a. induction b as [|kx b IH]; intros a; [by rewrite app_nil_r|].
  cbn [merge_props fold_left]. fold (merge_props (merge_one a kx) b). rewrite IH, merge_one_handlers.
  rewrite <- app_assoc. f_equal. by rewrite <- handlers_app.
Qed.

(** Values alone handle nothing. *)
Lemma values_handlers (o : list (jstring * jsval)) : handlers (prod_map id (@AVal S) <$> o) = [].
Proof. induction o as [|[k v] o IH]; [done|]. exact IH. Qed.

(** A handler goes to the component if its event is declared, else to [$attrs]. *)
Lemma on_event (e : jstring) : listener_event (js "on:" ++ e) = e.
Proof. done. Qed.

Lemma place_handlers d kx h : In h (handlers [kx]) ->
  if bool_decide (fst h ∈ js <$> d_emits d) then In h (handlers (fst (place d kx)))
  else In h (handlers (snd (place d kx))).
Proof.
  destruct kx as [k [v|f|v f]]; cbn [handlers flat_map snd fst app]; [done|..]; intros [<-|[]]; cbn [fst place].
  - destruct (bool_decide _); by left.
  - case_bool_decide as He; destruct (bool_decide (model_prop k ∈ _)); cbn [fst snd]; by left.
Qed.

Lemma place_own d kx h : In h (handlers (fst (place d kx))) -> fst h ∈ js <$> d_emits d.
Proof.
  destruct kx as [k [v|f|v f]]; cbn [place].
  - destruct (bool_decide _); [done|]. by destruct (bool_decide _).
  - case_bool_decide as He; [|done]. by intros [<-|[]].
  - case_bool_decide as Hp; case_bool_decide as He; try done; by intros [<-|[]].
Qed.

Lemma place_rest d kx h : In h (handlers (snd (place d kx))) -> fst h ∉ js <$> d_emits d.
Proof.
  destruct kx as [k [v|f|v f]]; cbn [place].
  - destruct (bool_decide _); [done|]. by destruct (bool_decide _).
  - case_bool_decide as He; [done|]. by intros [<-|[]].
  - case_bool_decide as Hp; case_bool_decide as He; try done; by intros [<-|[]].
Qed.

Lemma handlers_flat (f : jstring * attr S -> attrs) a h :
  In h (handlers (flat_map f a)) <-> exists kx, In kx a /\ In h (handlers (f kx)).
Proof.
  unfold handlers. rewrite in_flat_map. setoid_rewrite in_flat_map. split.
  - intros (y & (kx & H1 & H2) & H3). by eauto.
  - intros (kx & H1 & y & H2 & H3). by eauto.
Qed.

Lemma handlers_in a h : In h (handlers a) <-> exists kx, In kx a /\ In h (handlers [kx]).
Proof.
  rewrite <- (handlers_flat (fun kx => [kx])). f_equiv. f_equal. induction a as [|kx a IH]; [done|]. cbn. by rewrite <- IH.
Qed.

Lemma instance_handlers d a k h : In h (handlers a) ->
  if bool_decide (fst h ∈ js <$> d_emits d) then In h (handlers (own (instance_of d a k)))
  else In h (handlers (rest (instance_of d a k))).
Proof.
  intros Hh. apply handlers_in in Hh as (kx & Hkx & Hh). apply (place_handlers d) in Hh.
  destruct (bool_decide _); apply handlers_flat; eauto.
Qed.

Lemma instance_cases d a k h : In h (handlers a) ->
  (In h (handlers (own (instance_of d a k))) /\ fst h ∈ js <$> d_emits d) \/ In h (handlers (rest (instance_of d a k))).
Proof. intros Hh%(instance_handlers d _ k). case_bool_decide; auto. Qed.

Lemma own_events d a k h : In h (handlers (own (instance_of d a k))) -> fst h ∈ js <$> d_emits d.
Proof. intros Hh. apply handlers_flat in Hh as (kx & _ & Hh). by apply place_own in Hh. Qed.

Lemma rest_events d a k h : In h (handlers (rest (instance_of d a k))) -> fst h ∉ js <$> d_emits d.
Proof. intros Hh. apply handlers_flat in Hh as (kx & _ & Hh). by apply place_rest in Hh. Qed.

Lemma spread_right a b s h : spread a b = Ok s -> In h (handlers b) -> In h (handlers s).
Proof. intros [= <-] Hh. rewrite handlers_app. apply in_or_app. by right. Qed.

Lemma spread_left a b s h : spread a b = Ok s -> In h (handlers a) -> fst h ∉ fst <$> handlers b -> In h (handlers s).
Proof.
  intros [= <-] Hh Hb. rewrite handlers_app. apply in_or_app. left.
  apply handlers_in in Hh as (kx & Hkx & Hh). apply handlers_in. exists kx. split; [|done].
  apply list_elem_of_In, list_elem_of_filter. split; [|by apply list_elem_of_In]. unfold replaced.
  destruct (handlers [kx]) as [|[e f] l] eqn:E; [done|]. apply bool_decide_eq_false.
  destruct kx as [k [v|g|v g]]; cbn in E; simplify_eq; by destruct Hh as [<-|[]].
Qed.

(** ** Observations of a rendered tree *)

(** A property of trees that holds of a larger tree around one where it holds. *)
Record monotone (Q : list (vnode S) -> Prop) : Prop := {
  mono_elem : forall t a ns, Q ns -> Q [Elem t a ns];
  mono_app : forall l ns r, Q ns -> Q (l ++ ns ++ r)
}.

Definition obs (Q : list (vnode S) -> Prop) (m : nodes) : Prop := exists ns, m = Ok ns /\ Q ns.
Definition handles h (ns : list (vnode S)) : Prop := In h (tree_handlers ns).
Definition shows (ts : list jstring) (ns : list (vnode S)) : Prop := sublist ts (tree_texts ns).

Lemma handles_mono h : monotone (handles h).
Proof.
  unfold handles, tree_handlers. split.
  - intros t a ns Hh. cbn. rewrite app_nil_r. apply in_or_app. by right.
  - intros l ns r Hh. rewrite !map_app, !concat_app. apply in_or_app. right. apply in_or_app. by left.
Qed.

Lemma shows_mono ts : monotone (shows ts).
Proof.
  unfold shows, tree_texts. split.
  - intros t a ns Hs. cbn. by rewrite app_nil_r.
  - intros l ns r Hs. rewrite !map_app, !concat_app. etrans; [exact Hs|].
    etrans; [apply (sublist_inserts_r (List.concat (map node_texts r)))|]; [done|]. by apply sublist_inserts_l.
Qed.

Lemma frag_obs Q (l : list nodes) : monotone Q -> Forall is_ok l -> Exists (obs Q) l -> obs Q (frag l).
Proof.
  intros HQ Hl He. unfold frag. induction He as [m l (ns & -> & Hns)|m l He IH]; inversion Hl as [|? ? Hm Hl']; subst.
  - pose proof (ok_seq_list l Hl') as Hs. cbn [result_seq mbind result_bind]. destruct (result_seq l) as [ls|]; [|done].
    cbn [mbind result_bind List.concat]. eexists. split; [done|]. by apply (mono_app Q HQ []).
  - destruct m as [ms|]; [|done]. destruct (IH Hl') as (ns & He' & Hns). cbn [result_seq mbind result_bind] in *.
    destruct (result_seq l) as [ls|]; [|done]. cbn [mbind result_bind] in *. injection He' as <-.
    eexists. split; [done|]. cbn [List.concat]. rewrite <- (app_nil_r (List.concat ls)). by apply (mono_app Q HQ).
Qed.

(** ** Parts *)

Definition part_handles h (p : E attrs) : Prop := exists a, p = Ok a /\ In h (handlers a).

Lemma merge_all_handlers (l : list attrs) a :
  handlers (fold_left merge_props l a) = handlers a ++ List.concat (map handlers l).
Proof.
  revert a. induction l as [|b l IH]; intros a; cbn [fold_left map List.concat]; [by rewrite app_nil_r|].
  by rewrite IH, merge_props_handlers, app_assoc.
Qed.

Lemma merge_parts_ok ps : Forall is_ok ps -> is_ok (merge_parts (S:=S) ps).
Proof. intros Hp. unfold merge_parts. pose proof (ok_seq_list ps Hp). by destruct (result_seq ps). Qed.

Lemma merge_parts_handles h ps : Forall is_ok ps -> Exists (part_handles h) ps -> part_handles h (merge_parts ps).
Proof.
  intros Hp He. unfold merge_parts.
  assert (exists l, result_seq ps = Ok l /\ In h (List.concat (map handlers l))) as (l & -> & Hl).
  { induction He as [p ps (a & -> & Ha)|p ps He IH]; inversion Hp as [|? ? Hm Hp']; subst.
    - pose proof (ok_seq_list ps Hp') as Hs. cbn [result_seq mbind result_bind]. destruct (result_seq ps) as [l|]; [|done].
      eexists. split; [done|]. cbn [map List.concat]. apply in_or_app. by left.
    - destruct p as [a|]; [|done]. destruct (IH Hp') as (l & Hl1 & Hl). exists (a :: l). split.
      + cbn [result_seq mbind result_bind]. by rewrite Hl1.
      + cbn [map List.concat]. apply in_or_app. by right. }
  eexists. split; [done|]. by rewrite merge_all_handlers.
Qed.

(** ** Elements *)

Lemma kel_ok tag ps (kids : list nodes) : Forall is_ok ps -> Forall is_ok kids -> is_ok (kel tag ps kids).
Proof.
  intros Hp Hk. unfold kel. pose proof (merge_parts_ok ps Hp). pose proof (ok_frag kids Hk).
  destruct (merge_parts ps); [|done]. cbn. by destruct (frag kids).
Qed.

Lemma kel_handles h tag ps (kids : list nodes) : Forall is_ok ps -> Forall is_ok kids ->
  Exists (part_handles h) ps -> obs (handles h) (kel tag ps kids).
Proof.
  intros Hp Hk He. unfold kel. destruct (merge_parts_handles h ps Hp He) as (a & -> & Ha).
  pose proof (ok_frag kids Hk). destruct (frag kids) as [k|]; [|done]. eexists. split; [done|].
  unfold handles, tree_handlers. cbn. rewrite app_nil_r. apply in_or_app. by left.
Qed.

Lemma kel_obs Q tag ps (kids : list nodes) : monotone Q -> Forall is_ok ps -> Forall is_ok kids ->
  Exists (obs Q) kids -> obs Q (kel tag ps kids).
Proof.
  intros HQ Hp Hk He. unfold kel. pose proof (merge_parts_ok ps Hp). destruct (merge_parts ps) as [a|]; [|done].
  destruct (frag_obs Q kids HQ Hk He) as (ns & -> & Hns). eexists. split; [done|]. by apply (mono_elem Q HQ).
Qed.

Lemma v_if_obs Q c (m1 m2 : nodes) : is_ok c -> obs Q m1 -> obs Q m2 -> obs Q (v_if c m1 m2).
Proof. destruct c as [v|]; [|done]. unfold v_if, e_if. cbn. by destruct (truthy v). Qed.

(** ** Components *)

(** [slotted] components show their slot. *)
Record keeps (slotted : bool) (c : component S) : Prop := {
  keeps_ok : forall ps ks, Forall is_ok ps -> Forall is_ok ks -> is_ok (c ps ks);
  keeps_handlers : forall ps ks h, Forall is_ok ps -> Forall is_ok ks ->
    Exists (part_handles h) ps -> obs (handles h) (c ps ks);
  keeps_slot : slotted = true -> forall ps ks Q, Forall is_ok ps -> Forall is_ok ks ->
    monotone Q -> Exists (obs Q) ks -> obs Q (c ps ks)
}.

Lemma keeps_define slotted d (t : instance S -> nodes) :
  (forall i, is_ok (t i)) ->
  (forall a k h, In h (handlers a) -> obs (handles h) (t (instance_of d a k))) ->
  (slotted = true -> forall i Q, monotone Q -> Q (content i) -> obs Q (t i)) ->
  keeps slotted (define d t).
Proof.
  intros Hok Hh Hs. split.
  - intros ps ks Hp Hk. unfold define. pose proof (merge_parts_ok ps Hp). destruct (merge_parts ps) as [a|]; [|done].
    pose proof (ok_frag ks Hk). cbn. destruct (frag ks) as [k|]; [|done]. apply Hok.
  - intros ps ks h Hp Hk He. unfold define. destruct (merge_parts_handles h ps Hp He) as (a & -> & Ha).
    pose proof (ok_frag ks Hk). cbn. destruct (frag ks) as [k|]; [|done]. by apply Hh.
  - intros Hb ps ks Q Hp Hk HQ He. unfold define. pose proof (merge_parts_ok ps Hp). destruct (merge_parts ps) as [a|]; [|done].
    destruct (frag_obs Q ks HQ Hk He) as (ns & -> & Hns). cbn. by apply Hs.
Qed.
End trees.
