(* ===== verification/Offered.v ===== *)
(** * What a rendered tree offers to the user

    A click, an input or any other event on a rendered tree starts one of the
    handlers found in it.  [covered T p]: starting [p] has the effect of starting
    finitely many programs of [T] one after the other, on every page.  For every
    template of the panel, all handlers of every tree it renders are covered by the
    tasks of its component and edits of its own state that leave its [guarded]
    fields alone, for every value of the event.  So the tasks of [Components] leave
    no user action out. *)

From stdpp Require Import base list gmap strings.
From Stdlib Require Import NArith ZArith Lia String SpecFloat.
From S2P Require Import Prelude JsString JsNum JsVal Json Prog State Storage Api Payload Catalog Session View Form Net.
From S2P Require Import GateView SetupView RevealView SettingsView DocsView EnqueueView QueuesView FlowsView.
From S2P Require Import PublishView GroupsView HttpView SchedulesView DlqView OverviewView InfraView.
From S2P Require Import AppHeader CellSwitcher AppSidebar Components Kit Expand.
Local Open Scope js_scope.

(** ** Starting programs one after the other *)

Section starts.
Context {S : Type}.
Implicit Types (p q : prog S unit) (c : config S).

Definition starts (qs : list (prog S unit)) c : config S := fold_left (fun c q => start q c) qs c.

(** What a start does does not depend on what waits. *)
Definition join_pool (pool : list (prog S unit)) c : config S := (fst c, pool ++ snd c).

Lemma start_frame p pool c : start p (join_pool pool c) = join_pool pool (start p c).
Proof.
  destruct c as [s l]. unfold start, join_pool. cbn [fst snd].
  destruct (advance p s) as [[s' ps] p']. cbn [fst snd]. by rewrite <- app_assoc.
Qed.

Lemma starts_cons q qs c : starts (q :: qs) c = starts qs (start q c).
Proof. done. Qed.

Lemma starts_frame qs pool c : starts qs (join_pool pool c) = join_pool pool (starts qs c).
Proof. revert c. induction qs as [|q qs IH]; intros c; [done|]. by rewrite !starts_cons, start_frame. Qed.

Lemma starts_app qs qs' c : starts (qs ++ qs') c = starts qs' (starts qs c).
Proof. apply fold_left_app. Qed.

Definition covered (T : prog S unit -> Prop) p : Prop :=
  forall s, exists qs, Forall T qs /\ start p (s, []) = starts qs (s, []).

Lemma covered_at T p c : covered T p -> exists qs, Forall T qs /\ start p c = starts qs c.
Proof.
  intros Hp. destruct c as [s pool]. destruct (Hp s) as (qs & Hq & He). exists qs. split; [done|].
  assert (Hc : (s, pool) = join_pool pool (s, [])) by (unfold join_pool; cbn; by rewrite app_nil_r).
  by rewrite Hc, start_frame, starts_frame, He.
Qed.

Lemma covered_task (T : prog S unit -> Prop) p : T p -> covered T p.
Proof. intros Hp s. exists [p]. split; [by constructor|done]. Qed.

Lemma covered_idle T p : (forall s, start p (s, []) = (s, [])) -> covered T p.
Proof. intros Hp s. exists []. split; [constructor|apply Hp]. Qed.

Lemma covered_weaken (T T' : prog S unit -> Prop) p :
  (forall q, T q -> covered T' q) -> covered T p -> covered T' p.
Proof.
  intros HT Hp s. destruct (Hp s) as (qs & Hq & ->). clear Hp.
  assert (Hc : forall c, exists rs, Forall T' rs /\ starts qs c = starts rs c).
  { induction Hq as [|q qs Hq _ IH]; intros c; [by exists []|].
    destruct (covered_at T' q c (HT q Hq)) as (r1 & H1 & E1). destruct (IH (start q c)) as (r2 & H2 & E2).
    exists (r1 ++ r2). split; [by apply Forall_app|]. by rewrite starts_cons, starts_app, <- E1, <- E2. }
  apply Hc.
Qed.

(** A program that never waits: [p] and what follows it run in one go. *)
Fixpoint instant {A : Type} (p : prog S A) : Prop :=
  match p with
  | Ret _ | Throw _ => True
  | Act f k => forall s, instant (k s)
  | _ => False
  end.

Lemma instant_bind {A B : Type} (p : prog S A) (k : A -> prog S B) :
  instant p -> (forall a, instant (k a)) -> instant (p ≫= k).
Proof. intros Hp Hk. unfold mbind, prog_mbind. induction p; cbn in *; auto. Qed.

Lemma start_instant {A : Type} (p : prog S A) (k : A -> prog S unit) s :
  instant p ->
  (exists a, start (p ≫= k) (s, []) = start (k a) (start (ignore p) (s, []))) \/
  start (p ≫= k) (s, []) = start (ignore p) (s, []).
Proof.
  unfold mbind, prog_mbind, ignore. revert s. induction p as [A a|A e|A f k' IH| | |]; intros s Hp; try done.
  - left. by exists a.
  - by right.
  - apply (IH s k (f s)), Hp.
Qed.

Lemma covered_bind {A : Type} T (p : prog S A) (k : A -> prog S unit) :
  instant p -> covered T (ignore p) -> (forall a, covered T (k a)) -> covered T (p ≫= k).
Proof.
  intros Hi Hp Hk s. destruct (Hp s) as (qs & Hq & Eq). destruct (start_instant p k s Hi) as [[a ->]| ->]; rewrite Eq.
  - destruct (covered_at T (k a) (starts qs (s, [])) (Hk a)) as (rs & Hr & ->).
    exists (qs ++ rs). split; [by apply Forall_app|by rewrite starts_app].
  - by exists qs.
Qed.

Lemma covered_pure_bind {A : Type} T (r : E A) (k : A -> prog S unit) :
  (forall a, covered T (k a)) -> covered T (pure r ≫= k).
Proof. intros Hk. apply covered_bind; [by destruct r| |done]. apply covered_idle. by destruct r. Qed.

Lemma covered_ret T : covered T (Ret tt).
Proof. by apply covered_idle. Qed.
End starts.

(** A program on a part of the state. *)
Section zoom.
Context {S T : Type} (get : T -> S) (put : S -> T -> T).
Hypothesis get_put : forall s t, get (put s t) = s.
Hypothesis put_put : forall s s' t, put s' (put s t) = put s' t.
Hypothesis put_get : forall t, put (get t) t = t.

Definition lift (t : T) (c : config S) : config T := (put (fst c) t, zoom get put <$> snd c).

Lemma start_zoom p t c : start (zoom get put p) (lift t c) = lift t (start p c).
Proof.
  destruct c as [s pool]. unfold start, lift. cbn [fst snd].
  rewrite (advance_zoom get put get_put put_put put_get), get_put.
  destruct (advance p s) as [[s' ps] p']. cbn [fst snd]. by rewrite put_put, !fmap_app, zoom_park.
Qed.

Lemma starts_zoom qs t c : starts (zoom get put <$> qs) (lift t c) = lift t (starts qs c).
Proof. revert c. induction qs as [|q qs IH]; intros c; [done|]. by rewrite fmap_cons, !starts_cons, start_zoom, IH. Qed.

Lemma covered_zoom (A : prog S unit -> Prop) (B : prog T unit -> Prop) p :
  (forall q, A q -> covered B (zoom get put q)) -> covered A p -> covered B (zoom get put p).
Proof.
  intros HAB Hp. apply (covered_weaken (fun r => exists q, A q /\ r = zoom get put q)); [by intros r (q & Hq & ->); apply HAB|].
  intros t. assert (Ht : (t, []) = lift t (get t, [])) by (unfold lift; cbn; by rewrite put_get).
  destruct (Hp (get t)) as (qs & Hq & Eq). exists (zoom get put <$> qs). split.
  - apply Forall_fmap. eapply Forall_impl; [exact Hq|]. intros q Hq'. by exists q.
  - by rewrite Ht, start_zoom, starts_zoom, Eq.
Qed.
End zoom.

(** ** Trees *)

Section trees.
Context {S : Type} (P : prog S unit -> Prop).
Notation nodes := (E (list (vnode S))).
Notation attribute := (E (jstring * attr S)).

(** All handlers of the tree, on every event, are in [P]. *)
Definition offers (t : nodes) : Prop :=
  forall ns, t = Ok ns -> Forall (fun h => forall x, P (snd h x)) (tree_handlers ns).
Definition attr_offers (a : attribute) : Prop :=
  forall kx, a = Ok kx -> Forall (fun h => forall x, P (snd h x)) (handlers [kx]).

Lemma offers_bind {A : Type} (e : E A) (f : A -> nodes) : (forall a, e = Ok a -> offers (f a)) -> offers (e ≫= f).
Proof. intros Hf. destruct e as [a|x]; [by apply Hf|by intros ns]. Qed.

Lemma tree_handlers_app (l1 l2 : list (vnode S)) : tree_handlers (l1 ++ l2) = tree_handlers l1 ++ tree_handlers l2.
Proof. unfold tree_handlers. by rewrite map_app, concat_app. Qed.

Lemma offers_frag l : Forall offers l -> offers (frag l).
Proof.
  induction 1 as [|t l Ht _ IH]; [by intros ns [= <-]|]. intros ns Hn. unfold frag in *. cbn [result_seq] in Hn.
  destruct t as [n|e]; [|done]. cbn in Hn. destruct (result_seq l) as [ls|e]; [|done]. injection Hn as <-.
  cbn [List.concat]. rewrite tree_handlers_app. apply Forall_app. split; [by apply Ht|by apply IH].
Qed.

Lemma offers_attrs (l : list attribute) a : Forall attr_offers l -> result_seq l = Ok a ->
  Forall (fun h => forall x, P (snd h x)) (handlers a).
Proof.
  intros Hl. revert a. induction Hl as [|t l Ht _ IH]; intros a Ha; cbn [result_seq] in Ha; [by injection Ha as <-|].
  destruct t as [kx|e]; [|done]. cbn in Ha. destruct (result_seq l) as [ls|e]; [|done]. injection Ha as <-.
  change (kx :: ls) with ([kx] ++ ls). rewrite handlers_app. apply Forall_app. split; [by apply Ht|by apply IH].
Qed.

Lemma offers_el tag (attrs : list attribute) kids :
  Forall attr_offers attrs -> Forall offers kids -> offers (el tag attrs kids).
Proof.
  intros Ha Hk. unfold el. apply offers_bind. intros a Ea. apply offers_bind. intros k Ek ns [= <-].
  unfold tree_handlers. cbn [map node_handlers List.concat]. rewrite app_nil_r. apply Forall_app. split.
  - by eapply offers_attrs.
  - by apply (offers_frag kids Hk).
Qed.

Lemma offers_txt s : offers (txt s).
Proof. intros ns [= <-]. constructor. Qed.
Lemma offers_none : offers none.
Proof. intros ns [= <-]. constructor. Qed.
Lemma offers_interp e : offers (interp e).
Proof. apply offers_bind. intros v _ ns [= <-]. constructor. Qed.
Lemma offers_v_if c a b : offers a -> offers b -> offers (v_if c a b).
Proof. intros Ha Hb. apply offers_bind. intros v _. by destruct (truthy v). Qed.
Lemma offers_v_for e f : (forall x, offers (f x)) -> offers (v_for e f).
Proof. intros Hf. apply offers_bind. intros v _. apply offers_frag, Forall_map, Forall_forall. intros x _. apply Hf. Qed.
Lemma offers_call f e : (forall x, offers (f x)) -> offers (e_call f e).
Proof. intros Hf. apply offers_bind. intros v _. apply Hf. Qed.

Lemma attr_at k v : attr_offers (at_ k v).
Proof. intros kx [= <-]. constructor. Qed.
Lemma attr_bind k e : attr_offers (bind_ k e).
Proof. intros kx Hk. unfold bind_ in Hk. destruct e; [|done]. injection Hk as <-. constructor. Qed.
Lemma attr_on k h : (forall x, P (h x)) -> attr_offers (on_ k h).
Proof. intros Hh kx [= <-]. by repeat constructor. Qed.
Lemma attr_model k e set : (forall x, P (set x)) -> attr_offers (model_ k e set).
Proof. intros Hs kx Hk. unfold model_ in Hk. destruct e; [|done]. injection Hk as <-. by repeat constructor. Qed.
End trees.

Create HintDb offers discriminated.
#[export] Hint Resolve offers_txt offers_none offers_interp attr_at attr_bind : offers.

(** Decompose a template; what is left are the handlers. *)
Ltac offers_step :=
  lazymatch goal with
  | |- offers _ (el _ _ _) => apply offers_el
  | |- offers _ (frag _) => apply offers_frag
  | |- offers _ (v_if _ _ _) => apply offers_v_if
  | |- offers _ (v_for _ _) => apply offers_v_for; intros
  | |- attr_offers _ (on_ _ _) => apply attr_on; intros
  | |- attr_offers _ (model_ _ _ _) => apply attr_model; intros
  | |- Forall _ [] => apply Forall_nil_2
  | |- Forall _ (_ :: _) => apply Forall_cons_2
  | |- offers _ (mbind _ _) => apply offers_bind; intros
  | |- _ => solve [auto with offers nocore]
  end.

Section form.
Context `{Platform} {S : Type} (P : prog S unit -> Prop).

Lemma offers_ActionMessage e o c : offers P (ActionMessage e o c).
Proof. unfold ActionMessage. repeat offers_step. Qed.

Lemma offers_Field l h e c t : offers P t -> offers P (Field l h e c t).
Proof. intros Ht. unfold Field. repeat first [exact Ht | offers_step]. Qed.

Lemma offers_AppSelect m set os ph after :
  (forall x, P (_ ← set x; match after with Some h => h x | None => Ret tt end)) ->
  offers P (AppSelect m set os ph after).
Proof. intros Hs. unfold AppSelect. repeat first [apply Hs | offers_step]. Qed.

Lemma offers_RetryFields r mod_ : (forall f, P (mod_ f)) -> (forall f, P (_ ← mod_ f; Ret tt)) ->
  offers P (RetryFields r mod_).
Proof.
  intros Hm Hm'. unfold RetryFields.
  repeat first [apply Hm | apply offers_Field | apply offers_AppSelect; intros; apply Hm' | offers_step].
Qed.

Lemma offers_AuthLayout t : offers P t -> offers P (AuthLayout t).
Proof. intros Ht. unfold AuthLayout. repeat first [exact Ht | offers_step]. Qed.
End form.
#[export] Hint Resolve offers_ActionMessage : offers.

(** ** The views *)

(** What no field or listener of a view writes directly: the lists its handlers load
    from the broker and the flags that disable its buttons. *)
Class Guarded (V : Type) := guarded : V -> list jsval.

#[export] Instance gate_guarded : Guarded GateView.state := fun v => [GateView.s_busy v].
#[export] Instance setup_guarded : Guarded SetupView.state := fun v => [SetupView.s_busy v].
#[export] Instance reveal_guarded : Guarded RevealView.state := fun _ => [].
#[export] Instance settings_guarded : Guarded SettingsView.state := fun v => [SettingsView.s_busy v].
#[export] Instance docs_guarded : Guarded DocsView.state := fun _ => [].
#[export] Instance enqueue_guarded : Guarded EnqueueView.state := fun _ => [].
#[export] Instance queues_guarded : Guarded QueuesView.state := fun _ => [].
#[export] Instance flows_guarded : Guarded FlowsView.state := fun _ => [].
#[export] Instance publish_guarded : Guarded PublishView.state := fun _ => [].
#[export] Instance groups_guarded : Guarded GroupsView.state := fun v => [GroupsView.s_members v].
#[export] Instance http_guarded : Guarded HttpView.state := fun v => [HttpView.s_blocked v].
#[export] Instance schedules_guarded : Guarded SchedulesView.state :=
  fun v => [SchedulesView.s_delayed v; SchedulesView.s_crons v].
#[export] Instance dlq_guarded : Guarded DlqView.state := fun v => [DlqView.s_sources v; DlqView.s_rows v; DlqView.s_topic v].
#[export] Instance overview_guarded : Guarded OverviewView.state := fun _ => [].
#[export] Instance infra_guarded : Guarded InfraView.state :=
  fun v => [InfraView.s_nodesByCell v; InfraView.s_shardsByCell v; InfraView.s_clusterByCell v].
#[export] Instance header_guarded : Guarded AppHeader.state := fun _ => [].
#[export] Instance sidebar_guarded : Guarded AppSidebar.state := fun _ => [].
#[export] Instance switcher_guarded : Guarded CellSwitcher.state := fun _ => [].

Section views.
Context `{Platform}.

(** The tasks of a component, and edits of its own state. *)
Inductive own_task {V : Type} `{!Component V, !Guarded V} : vprog V unit -> Prop :=
| own_handler p : tasks p -> own_task p
| own_edit f : (forall v, guarded (f v) = guarded v) -> own_task (upd f).

Lemma covered_upd {V : Type} `{!Component V, !Guarded V} f :
  (forall v, guarded (f v) = guarded v) -> covered own_task (upd (V:=V) f).
Proof. intros Hf. by apply covered_task, own_edit. Qed.

Lemma covered_upd_bind {V : Type} `{!Component V, !Guarded V} f (k : unit -> vprog V unit) :
  (forall v, guarded (f v) = guarded v) -> covered own_task (k tt) -> covered own_task (upd f ≫= k).
Proof. intros Hf Hk. apply covered_bind; [done|by apply covered_upd|by intros []]. Qed.

Lemma covered_eval_page {V A : Type} `{!Component V, !Guarded V} (e : panel -> V -> E A) (k : A -> vprog V unit) :
  (forall a, covered own_task (k a)) -> covered own_task (eval_page e ≫= k).
Proof.
  intros Hk. apply covered_bind; [| |done].
  - unfold eval_page. apply instant_bind; [done|]. by intros [].
  - apply covered_idle. intros s. unfold start, eval_page, ignore, mbind, prog_mbind. cbn. by destruct (e _ _).
Qed.

Lemma covered_tasks {V : Type} `{!Component V, !Guarded V} (p : vprog V unit) : tasks p -> covered own_task p.
Proof. intros Hp. by apply covered_task, own_handler. Qed.

Lemma covered_infra (p : vprog InfraView.state unit) : infra_task p -> covered own_task p.
Proof. exact (covered_tasks p). Qed.

(** A row of the overview selects its node, then shows the section. *)
Lemma covered_select_node row (k : unit -> vprog InfraView.state unit) :
  covered own_task (k tt) -> covered own_task (selectNode row ≫= k).
Proof.
  intros Hk. apply covered_bind; [| |by intros []].
  - unfold selectNode. apply instant_bind; [by destruct (e_get _ _)|done].
  - assert (He : ignore (selectNode row) = selectNode row) by (unfold selectNode; by destruct (e_get _ _)).
    rewrite He. apply covered_tasks. apply infra_select.
Qed.
End views.

Ltac covered_step :=
  lazymatch goal with
  | |- covered _ (Ret tt) => apply covered_ret
  | |- covered _ (upd _) => apply covered_upd; done
  | |- covered _ (upd _ ≫= _) => apply covered_upd_bind; [done|]
  | |- covered _ (pure _ ≫= _) => apply covered_pure_bind; intros
  | |- covered _ (eval_page _ ≫= _) => apply covered_eval_page; intros
  | |- covered _ (selectNode _ ≫= _) => apply covered_select_node
  | |- covered _ syncCluster => exact (covered_infra _ infra_sync)
  | |- covered _ _ => apply covered_tasks; constructor
  end.
Ltac unfold_templates :=
  unfold GateView.render, SetupView.render, RevealView.render, SettingsView.render, DocsView.render, EnqueueView.render,
    QueuesView.render, FlowsView.render, PublishView.render, GroupsView.render, HttpView.render, SchedulesView.render,
    DlqView.render, OverviewView.render, AppHeader.render, CellSwitcher.render, AppSidebar.render, InfraView.render,
    section_overview, section_nodes, node_details, section_cells, section_cluster, section_this_node, section_storage,
    dialog_create, sheet_attach.

(** Into a template with its form components; [leaf] proves the handlers. *)
Ltac offered_by leaf :=
  repeat first
    [ leaf
    | lazymatch goal with
      | |- offers _ (Field _ _ _ _ _) => apply offers_Field
      | |- offers _ (AppSelect _ _ _ _ _) => apply offers_AppSelect; intros; cbv beta match
      | |- offers _ (RetryFields _ _) => apply offers_RetryFields; intros
      | |- offers _ (AuthLayout _) => apply offers_AuthLayout
      end
    | offers_step ].
Ltac offered := offered_by ltac:(idtac; covered_step).

Section templates.
Context `{Platform}.
Notation own_offers t := (offers (covered own_task) t).

Lemma gate_offers p v : own_offers (GateView.render p v).
Proof. unfold_templates. offered. Qed.
Lemma setup_offers p v : own_offers (SetupView.render p v).
Proof. unfold_templates. offered. Qed.
Lemma reveal_offers p v : own_offers (RevealView.render p v).
Proof. unfold_templates. offered. Qed.
Lemma settings_offers p v : own_offers (SettingsView.render p v).
Proof. unfold_templates. offered. Qed.
Lemma docs_offers p v : offers (covered (@own_task _ _ docs_component _)) (DocsView.render p v).
Proof. unfold_templates. offered. Qed.
Lemma enqueue_offers p v : own_offers (EnqueueView.render p v).
Proof. unfold_templates. offered. Qed.
Lemma queues_offers p v : own_offers (QueuesView.render p v).
Proof. unfold_templates. offered. Qed.
Lemma flows_offers p v : own_offers (FlowsView.render p v).
Proof. unfold_templates. offered. Qed.
Lemma publish_offers p v : own_offers (PublishView.render p v).
Proof. unfold_templates. offered. Qed.
Lemma groups_offers p v : own_offers (GroupsView.render p v).
Proof. unfold_templates. offered. Qed.
Lemma schedules_offers p v : own_offers (SchedulesView.render p v).
Proof. unfold_templates. offered. Qed.
Lemma overview_offers p v : own_offers (OverviewView.render p v).
Proof. unfold_templates. offered. Qed.
Lemma header_offers p v : own_offers (AppHeader.render p v).
Proof. unfold_templates. offered. Qed.
Lemma sidebar_offers p v : own_offers (AppSidebar.render p v).
Proof. unfold_templates. offered. Qed.
Lemma switcher_offers p v : offers (covered (@own_task _ _ switcher_component _)) (CellSwitcher.render p v).
Proof. unfold_templates. offered. Qed.
Lemma http_offers p v : own_offers (HttpView.render p v).
Proof. unfold_templates. offered. Qed.
Lemma dlq_offers p v : own_offers (DlqView.render p v).
Proof. unfold_templates. offered. Qed.

Lemma infra_offers p v : own_offers (InfraView.render p v).
Proof. unfold_templates. offered. Qed.
End templates.
