(* ===== verification/Liveness.v ===== *)
(** * Termination and liveness of pages

    Two theories over the programs of [Prog].

    The first shows that a page always comes to rest: with no new task, every
    order and content of replies empties the pool of suspended programs after
    finitely many deliveries, and as long as the pool is not empty there is a
    request to answer.  [inevitably] is the "on every path, eventually" of this.

    The second is about a flag of the state (a spinner, a disabled button): if
    every task that raises it owes to lower it, then a page at rest has it down. *)

From stdpp Require Import base list gmap strings.
From Stdlib Require Import Lia.
From S2P Require Import Prelude JsString JsNum JsVal Prog.

(** ** Suspended programs *)

Section rest.
Context {S : Type}.

Definition throws {A : Type} (p : prog S A) : bool := match p with Throw _ => true | _ => false end.

(** What [advance] leaves behind: finished, or nothing to do before a reply. *)
Fixpoint suspended {A : Type} (p : prog S A) : bool :=
  match p with
  | Ret _ | Throw _ | Wait _ _ => true
  | Act _ _ | Spawn _ _ => false
  | Par p q _ => suspended p && suspended q && negb (throws p) && negb (throws q) && negb (finished p && finished q)
  end.

Definition waiting {A : Type} (p : prog S A) : bool := suspended p && negb (finished p).

Lemma advance_suspended_id {A : Type} (p : prog S A) s : suspended p = true -> advance p s = (s, [], p).
Proof.
  revert s. induction p as [A a|A e|A g k IH|A q k IH|A p _ k IH|A p IHp q IHq k IHk]; intros s Hp; simpl in *; try done.
  rewrite !andb_true_iff, !negb_true_iff in Hp. destruct Hp as ((((H1 & H2) & H3) & H4) & H5).
  rewrite IHp, IHq by done. by destruct p, q.
Qed.

Lemma waiting_park (p : prog S unit) : suspended p = true -> Forall (fun q => waiting q = true) (park p).
Proof.
  intros Hp. unfold park. destruct (finished p) eqn:E; [constructor|]. constructor; [|constructor].
  unfold waiting. by rewrite Hp, E.
Qed.

Lemma suspended_bind {A B : Type} (f : A -> prog S B) (p : prog S A) :
  waiting p = true -> suspended (prog_bind f p) = true.
Proof. unfold waiting. destruct p; try done. simpl. by rewrite andb_true_r. Qed.

Lemma suspended_ignore {A : Type} (p : prog S A) : suspended p = true -> suspended (ignore p) = true.
Proof. destruct p; try done. Qed.

Lemma advance_suspended {A : Type} (p : prog S A) s s' ps p' :
  advance p s = (s', ps, p') -> suspended p' = true /\ Forall (fun q => waiting q = true) ps.
Proof.
  revert s s' ps p'. induction p as [A a|A e|A g k IH|A q k IH|A p IHp k IHk|A p IHp q IHq k IHk];
    intros s s' ps p' Ha; simpl in Ha.
  - by inv Ha.
  - by inv Ha.
  - by apply IH in Ha.
  - by inv Ha.
  - destruct (advance p s) as [[s1 ps1] r1] eqn:E1. destruct (advance k s1) as [[s2 ps2] r2] eqn:E2. inv Ha.
    apply IHp in E1 as [H1 H2]. apply IHk in E2 as [H3 H4]. split; [done|]. rewrite !Forall_app. eauto using waiting_park.
  - destruct (advance p s) as [[s1 ps1] r1] eqn:E1. destruct (advance q s1) as [[s2 ps2] r2] eqn:E2.
    apply IHp in E1 as [H1 H2]. apply IHq in E2 as [H3 H4].
    assert (Hgo : forall r (w : prog S unit) s3 ps3 t, advance (k r) s2 = (s3, ps3, t) -> suspended w = true ->
      suspended t = true /\ Forall (fun q => waiting q = true) (ps1 ++ ps2 ++ park w ++ ps3)).
    { intros r w s3 ps3 t Hadv Hw. apply IHk in Hadv as [? ?]. split; [done|]. rewrite !Forall_app. eauto using waiting_park. }
    assert (Hstop : suspended (Par r1 r2 k) = true -> suspended (Par r1 r2 k) = true /\
      Forall (fun q => waiting q = true) (ps1 ++ ps2)) by (intros; split; [done|by apply Forall_app]).
    destruct r1 as [a|e| | | |], r2 as [b|e'| | | |]; try done;
      try (inv Ha; apply Hstop; simpl in *; by rewrite ?H1, ?H3);
      match type of Ha with context [advance (k ?r) s2] =>
        destruct (advance (k r) s2) as [[s3 ps3] t] eqn:E3 end; inv Ha;
      first [ exact (Hgo _ (Ret tt) _ _ _ E3 eq_refl)
            | exact (Hgo _ (ignore _) _ _ _ E3 (suspended_ignore _ H3))
            | exact (Hgo _ (ignore _) _ _ _ E3 (suspended_ignore _ H1)) ].
Qed.

(** A program that waits has a request to answer. *)
Lemma waiting_asks {A : Type} (p : prog S A) : waiting p = true -> (0 < List.length (asks p))%nat.
Proof.
  unfold waiting. induction p as [A a|A e|A g k IH|A q k IH|A p _ k IH|A p IHp q IHq k IHk]; simpl; try done; [lia|].
  rewrite !andb_true_iff, !negb_true_iff. intros (((((H1 & H2) & _) & _) & H5) & _). rewrite length_app.
  rewrite andb_false_iff in H5. destruct H5 as [H5|H5].
  - assert (0 < List.length (asks p))%nat by (apply IHp; by rewrite H1, H5). lia.
  - assert (0 < List.length (asks q))%nat by (apply IHq; by rewrite H2, H5). lia.
Qed.

Lemma advance_bind {A B : Type} (f : A -> prog S B) (p : prog S A) s :
  advance (prog_bind f p) s =
  let '(s1, ps1, p1) := advance p s in
  match p1 with
  | Ret a => let '(s2, ps2, r) := advance (f a) s1 in (s2, ps1 ++ ps2, r)
  | Throw e => (s1, ps1, Throw e)
  | _ => (s1, ps1, prog_bind f p1)
  end.
Proof.
  revert s. induction p as [A a|A e|A g k IH|A q k IH|A p IHp k IHk|A p IHp q IHq k IHk]; intros s; simpl; try done.
  - by destruct (advance (f a) s) as [[? ?] ?].
  - destruct (advance p s) as [[s1 ps1] r1]. rewrite IHk. destruct (advance k s1) as [[s2 ps2] r2].
    destruct r2; try done. destruct (advance (f a) s2) as [[? ?] ?]. by rewrite <- !app_assoc.
  - destruct (advance p s) as [[s1 ps1] r1]. destruct (advance q s1) as [[s2 ps2] r2].
    assert (Hgo : forall r (w : list (prog S unit)),
      (let '(s3, ps3, t) := advance (prog_bind f (k r)) s2 in (s3, ps1 ++ ps2 ++ w ++ ps3, t)) =
      (let '(s3, ps3, t) := advance (k r) s2 in
       match t with
       | Ret a => let '(s4, ps4, u) := advance (f a) s3 in (s4, (ps1 ++ ps2 ++ w ++ ps3) ++ ps4, u)
       | Throw e => (s3, ps1 ++ ps2 ++ w ++ ps3, Throw e)
       | _ => (s3, ps1 ++ ps2 ++ w ++ ps3, prog_bind f t)
       end)).
    { intros r w. rewrite IHk. destruct (advance (k r) s2) as [[s3 ps3] t]. destruct t; try done.
      destruct (advance (f a) s3) as [[? ?] ?]. by rewrite <- !app_assoc. }
    destruct r1, r2; try done;
      match goal with |- context [advance (k ?r) s2] =>
        first [ pose proof (Hgo r []) as Hr; cbn [app] in Hr; rewrite Hr
              | match goal with |- context [park ?w] => rewrite (Hgo r (park w)) end ] end;
      by destruct (advance (k _) s2) as [[? ?] []].
Qed.
End rest.

(** ** Every program settles *)

Section settles.
Context {S : Type}.

(** Whatever is answered, in whatever state, the program and all it spawns come
    to an end. *)
Inductive settles {A : Type} (p : prog S A) : Prop :=
| settle :
    (forall n x s s' ps p', (n < List.length (asks p))%nat -> advance (resume n x p) s = (s', ps, p') -> settles p') ->
    (forall n x s s' ps p' (q : prog S unit), (n < List.length (asks p))%nat ->
      advance (resume n x p) s = (s', ps, p') -> q ∈ ps -> settles q) ->
    settles p.

(** The same from the start of the program. *)
Definition settling {A : Type} (p : prog S A) : Prop :=
  forall s s' ps p', advance p s = (s', ps, p') -> settles p' /\ forall q, q ∈ ps -> settles q.

Lemma settles_finished {A : Type} (p : prog S A) : finished p = true -> settles p.
Proof.
  intros Hf. assert (Ha : asks p = []) by (by destruct p).
  constructor; intros n x; intros; rewrite Ha in *; by exfalso; apply (Nat.nlt_0_r n).
Qed.

Lemma settles_step {A : Type} (p : prog S A) n x :
  settles p -> (n < List.length (asks p))%nat -> settling (resume n x p).
Proof. intros [H1 H2] Hn s s' ps p' Ha. split; [by eapply H1|]. intros q. by eapply H2. Qed.

Lemma settles_intro {A : Type} (p : prog S A) :
  (forall n x, (n < List.length (asks p))%nat -> settling (resume n x p)) -> settles p.
Proof.
  intros Hp. constructor; intros n x s s' ps p'; [|intros q]; intros Hn Ha; destruct (Hp n x Hn _ _ _ _ Ha); eauto.
Qed.

Lemma settles_park (p : prog S unit) q : settles p -> q ∈ park p -> settles q.
Proof. unfold park. destruct (finished p); [by intros _ ?%not_elem_of_nil|]. by intros ? ->%list_elem_of_singleton. Qed.

(** Forgetting the value of a program that waits. *)
Lemma settles_ignore {A : Type} (p : prog S A) : settles p -> suspended p = true -> settles (ignore p).
Proof.
  induction 1 as [A p H1 IH1 H2 IH2]. intros Hs.
  destruct (finished p) eqn:Ef; [apply settles_finished; by destruct p|].
  assert (Ha : asks (ignore p) = asks p) by (by destruct p).
  assert (Hr : forall n x, resume n x (ignore p) = ignore (resume n x p)).
  { intros n x. destruct p; try done. simpl. by destruct (n <? _)%nat. }
  apply settles_intro. intros n x Hn s s' ps r Had. rewrite Ha in Hn. rewrite Hr in Had. unfold ignore in Had.
  rewrite advance_bind in Had. destruct (advance (resume n x p) s) as [[s1 ps1] p1] eqn:E1.
  pose proof (proj1 (advance_suspended _ _ _ _ _ E1)) as Hs1. pose proof (IH1 _ _ _ _ _ _ Hn E1 Hs1) as Hi.
  destruct p1; simpl in Had; inv Had; rewrite ?app_nil_r; split; eauto using settles_finished.
Qed.

(** [Promise.all]: when both branches have come to rest, it goes on or waits. *)
Lemma par_settling {A : Type} (p q : prog S jsval) (k : result jsval (jsval * jsval) -> prog S A) :
  settling p -> settling q -> (forall r, settling (k r)) ->
  (forall s s1 ps1 r1 s2 ps2 r2, advance p s = (s1, ps1, r1) -> advance q s1 = (s2, ps2, r2) -> settles (Par r1 r2 k)) ->
  settling (Par p q k).
Proof.
  intros Hp Hq Hk Hpar s s' ps p' Ha. simpl in Ha.
  destruct (advance p s) as [[s1 ps1] r1] eqn:E1. destruct (advance q s1) as [[s2 ps2] r2] eqn:E2.
  pose proof (Hpar _ _ _ _ _ _ _ E1 E2) as Hstop. clear Hpar.
  destruct (Hp _ _ _ _ E1) as [H1 Hps1], (Hq _ _ _ _ E2) as [H2 Hps2].
  apply advance_suspended in E1 as [Hs1 _], E2 as [Hs2 _].
  assert (Hgo : forall r (w : prog S unit) s3 ps3 t, advance (k r) s2 = (s3, ps3, t) -> settles w ->
    settles t /\ forall q, q ∈ ps1 ++ ps2 ++ park w ++ ps3 -> settles q).
  { intros r w s3 ps3 t Hadv Hw. destruct (Hk _ _ _ _ _ Hadv) as [? ?]. split; [assumption|]. intros u.
    rewrite !elem_of_app. intros [?|[?|[?|?]]]; eauto using settles_park. }
  assert (Hboth : forall u, u ∈ ps1 ++ ps2 -> settles u) by (intros u [?|?]%elem_of_app; eauto).
  destruct r1 as [a|e| | | |], r2 as [b|e'| | | |]; try discriminate Hs1; try discriminate Hs2;
    try (inv Ha; split; [exact Hstop|exact Hboth]);
    match type of Ha with context [advance (k ?r) s2] =>
      destruct (advance (k r) s2) as [[s3 ps3] t] eqn:E3 end; inv Ha;
    first [ exact (Hgo _ (Ret tt) _ _ _ E3 (settles_finished _ eq_refl))
          | exact (Hgo _ (ignore _) _ _ _ E3 (settles_ignore _ H2 Hs2))
          | exact (Hgo _ (ignore _) _ _ _ E3 (settles_ignore _ H1 Hs1)) ].
Qed.

Lemma settling_suspended {A : Type} (p : prog S A) : suspended p = true -> settles p -> settling p.
Proof.
  intros Hs Hp s s' ps p' Ha. rewrite advance_suspended_id in Ha by done. inv Ha.
  split; [assumption|]. by intros q ?%not_elem_of_nil.
Qed.

(** [p'] is what is left of [p] after one reply. *)
Definition left_of {A : Type} (p' p : prog S A) : Prop :=
  exists n x s s' ps, (n < List.length (asks p))%nat /\ advance (resume n x p) s = (s', ps, p').

Lemma settles_acc {A : Type} (p : prog S A) : settles p -> Acc left_of p.
Proof. induction 1 as [A p _ IH _ _]. constructor. intros p' (n & x & s & s' & ps & Hn & Ha). by eapply IH. Qed.

Lemma settles_par {A : Type} (p q : prog S jsval) (k : result jsval (jsval * jsval) -> prog S A) :
  settles p -> suspended p = true -> settles q -> suspended q = true -> (forall r, settling (k r)) ->
  settles (Par p q k).
Proof.
  intros Hp Hsp Hq Hsq Hk. pose proof (settles_acc p Hp) as Hap. revert q Hp Hsp Hq Hsq.
  induction Hap as [p _ IHp]. intros q Hp Hsp Hq Hsq. pose proof (settles_acc q Hq) as Haq.
  induction Haq as [q _ IHq].
  pose proof (settling_suspended _ Hsp Hp) as Hsetp. pose proof (settling_suspended _ Hsq Hq) as Hsetq.
  apply settles_intro. intros n x Hn. simpl in Hn |- *. rewrite length_app in Hn.
  destruct (Nat.ltb_spec n (List.length (asks p))) as [Hlt|Hge].
  - pose proof (settles_step p n x Hp Hlt) as Hstep. apply par_settling; [assumption..|].
    intros s s1 ps1 r1 s2 ps2 r2 E1 E2. rewrite advance_suspended_id in E2 by done. injection E2 as <- <- <-.
    apply IHp; [|apply (Hstep _ _ _ _ E1)|apply (advance_suspended _ _ _ _ _ E1)|assumption|assumption].
    by exists n, x, s, s1, ps1.
  - assert (Hn' : (n - List.length (asks p) < List.length (asks q))%nat) by lia.
    pose proof (settles_step q _ x Hq Hn') as Hstep. apply par_settling; [assumption..|].
    intros s s1 ps1 r1 s2 ps2 r2 E1 E2. rewrite advance_suspended_id in E1 by done. injection E1 as <- <- <-.
    apply IHq; [|apply (Hstep _ _ _ _ E2)|apply (advance_suspended _ _ _ _ _ E2)].
    by exists (n - List.length (asks p))%nat, x, s, s2, ps2.
Qed.

Lemma all_settle {A : Type} (p : prog S A) : settling p.
Proof.
  induction p as [A a|A e|A g k IH|A q k IH|A p IHp k IHk|A p IHp q IHq k IHk].
  - apply settling_suspended; [done|apply settles_finished; done].
  - apply settling_suspended; [done|apply settles_finished; done].
  - intros s s' ps p' Ha. eapply IH. exact Ha.
  - apply settling_suspended; [done|]. apply settles_intro. intros n x _. apply IH.
  - intros s s' ps p' Ha. simpl in Ha. destruct (advance p s) as [[s1 ps1] r1] eqn:E1.
    destruct (advance k s1) as [[s2 ps2] r2] eqn:E2. inv Ha.
    destruct (IHp _ _ _ _ E1) as [H1 H2], (IHk _ _ _ _ E2) as [H3 H4]. split; [assumption|].
    intros u. rewrite !elem_of_app. intros [?|[?|?]]; eauto using settles_park.
  - apply par_settling; [assumption..|]. intros s s1 ps1 r1 s2 ps2 r2 E1 E2.
    apply settles_par; [eapply IHp; exact E1|exact (proj1 (advance_suspended _ _ _ _ _ E1))|eapply IHq; exact E2|exact (proj1 (advance_suspended _ _ _ _ _ E2))|assumption].
Qed.
End settles.

(** ** Every pool drains *)

Section drain.
Context {S : Type}.

(** One reply, up to the order of the pool. *)
Definition pool_step (ps' ps : list (prog S unit)) : Prop :=
  exists l p r n x s s' new p', ps = l ++ p :: r /\ (n < List.length (asks p))%nat /\
    advance (resume n x p) s = (s', new, p') /\ ps' ≡ₚ l ++ r ++ park p' ++ new.

Lemma pool_step_perm ps qs ps' : ps ≡ₚ qs -> pool_step ps' qs -> pool_step ps' ps.
Proof.
  intros Hp (l & p & r & n & x & s & s' & new & p' & -> & Hn & Ha & Hps').
  assert (Hin : p ∈ ps) by (rewrite Hp; set_solver).
  apply list_elem_of_split in Hin as (l1 & r1 & ->). exists l1, p, r1, n, x, s, s', new, p'.
  split_and!; [done..|]. rewrite Hps'. apply Permutation_sym in Hp.
  rewrite !(app_assoc _ _ (park p' ++ new)). f_equiv. by apply Permutation_app_inv in Hp.
Qed.

Lemma acc_perm ps qs : ps ≡ₚ qs -> Acc pool_step ps -> Acc pool_step qs.
Proof. intros Hp [Ha]. constructor. intros ps' Hs. apply Ha. by eapply pool_step_perm. Qed.

Lemma acc_app ps qs : Acc pool_step ps -> Acc pool_step qs -> Acc pool_step (ps ++ qs).
Proof.
  intros Hp. revert qs. induction Hp as [ps Hps IHp]. intros qs Hq. induction Hq as [qs Hqs IHq].
  constructor. intros ps' (l & p & r & n & x & s & s' & new & p' & He & Hn & Ha & Hps').
  assert (Hin : p ∈ ps ++ qs) by (rewrite He; set_solver). apply elem_of_app in Hin as [Hin|Hin];
    apply list_elem_of_split in Hin as (l1 & r1 & Hl).
  - eapply acc_perm; [|apply (IHp (l1 ++ r1 ++ park p' ++ new)); [|by constructor]].
    + rewrite Hps'. assert (Hlr : l ++ r ≡ₚ (l1 ++ r1) ++ qs).
      { apply (Permutation_cons_inv (a:=p)). rewrite Permutation_middle, <- He, Hl. by rewrite <- Permutation_middle. }
      rewrite (app_assoc l r), Hlr. solve_Permutation.
    + exists l1, p, r1, n, x, s, s', new, p'. by split_and!.
  - eapply acc_perm; [|apply (IHq (l1 ++ r1 ++ park p' ++ new))].
    + rewrite Hps'. assert (Hlr : l ++ r ≡ₚ ps ++ (l1 ++ r1)).
      { apply (Permutation_cons_inv (a:=p)). rewrite Permutation_middle, <- He, Hl. by rewrite <- !Permutation_middle. }
      rewrite (app_assoc l r), Hlr. solve_Permutation.
    + exists l1, p, r1, n, x, s, s', new, p'. by split_and!.
Qed.

Lemma acc_list ps : (forall p, p ∈ ps -> Acc pool_step [p]) -> Acc pool_step ps.
Proof.
  induction ps as [|p ps IH]; intros Hp.
  - constructor. intros ps' (l & p & r & n & x & s & s' & new & p' & He & _). by destruct l.
  - apply (acc_app [p] ps); [apply Hp; left|]. apply IH. intros q Hq. apply Hp. by right.
Qed.

Lemma acc_single (p : prog S unit) : settles p -> Acc pool_step [p].
Proof.
  enough (Hgen : forall (A : Type) (q : prog S A), settles q -> forall e : (unit : Type) = A, Acc pool_step [eq_rect_r (prog S) q e])
    by (intros Hp; exact (Hgen unit p Hp eq_refl)).
  induction 1 as [A q _ IH1 _ IH2]. intros e. revert q IH1 IH2. destruct e. intros q IH1 IH2.
  constructor. intros ps' (l & p0 & r & n & x & s & s' & new & p' & He & Hn & Ha & Hps').
  assert (l = [] /\ r = [] /\ p0 = q) as (-> & -> & ->) by (destruct l as [|? [|]], r; by inv He).
  cbn [app] in Hps'. eapply acc_perm; [by symmetry|]. apply acc_list. intros u [Hu|Hu]%elem_of_app.
  - unfold park in Hu. destruct (finished p'); [by apply not_elem_of_nil in Hu|].
    apply list_elem_of_singleton in Hu as ->. exact (IH1 _ _ _ _ _ _ Hn Ha eq_refl).
  - exact (IH2 _ _ _ _ _ _ _ Hn Ha Hu eq_refl).
Qed.

(** ** Inevitability

    [inevitably P c]: without new tasks, on every sequence of replies the page
    gets to a configuration in [P], and until then there is a reply to wait for. *)
Inductive inevitably (P : config S -> Prop) (c : config S) : Prop :=
| inev_now : P c -> inevitably P c
| inev_later :
    (exists i n p, snd c !! i = Some p /\ (n < List.length (asks p))%nat) ->
    (forall i n x p, snd c !! i = Some p -> (n < List.length (asks p))%nat -> inevitably P (deliver i n x c)) ->
    inevitably P c.

Definition resting (c : config S) : Prop := snd c = [].

(** Every suspended program waits for a reply. *)
Definition well_parked (c : config S) : Prop := Forall (fun p => waiting p = true) (snd c).

Lemma start_parked p c : well_parked c -> well_parked (start p c).
Proof.
  destruct c as [s pool]. unfold well_parked, start. simpl. intros Hc.
  destruct (advance p s) as [[s' ps] p'] eqn:E. apply advance_suspended in E as [? ?]. simpl.
  rewrite !Forall_app. eauto using waiting_park.
Qed.

Lemma deliver_parked i n x c : well_parked c -> well_parked (deliver i n x c).
Proof.
  destruct c as [s pool]. unfold well_parked, deliver. simpl. intros Hc. destruct (pool !! i) as [p|]; [|done].
  destruct (advance (resume n x p) s) as [[s' ps] p'] eqn:E. apply advance_suspended in E as [? ?]. simpl.
  rewrite !Forall_app. split_and!; [by apply Forall_take|by apply waiting_park|by apply Forall_drop|done].
Qed.

Lemma reachable_parked (T : prog S unit -> Prop) s c : reachable T (s, []) c -> well_parked c.
Proof. induction 1; [by constructor|by apply start_parked|by apply deliver_parked]. Qed.

Lemma deliver_step i n x s pool p :
  pool !! i = Some p -> (n < List.length (asks p))%nat -> pool_step (snd (deliver i n x (s, pool))) pool.
Proof.
  intros Hi Hn. unfold deliver. rewrite Hi. destruct (advance (resume n x p) s) as [[s' ps] p'] eqn:E. simpl.
  exists (take i pool), p, (drop (i + 1) pool), n, x, s, s', ps, p'.
  split_and!; [rewrite Nat.add_1_r; by rewrite take_drop_middle|done..|].
  rewrite !app_assoc. f_equiv. rewrite <- !app_assoc. by rewrite (Permutation_app_comm (park p')).
Qed.

(** From any page, whatever is answered and in whatever order, everything ends. *)
Lemma drains c : well_parked c -> inevitably resting c.
Proof.
  intros Hc. destruct c as [s pool].
  assert (Ha : Acc pool_step pool).
  { apply acc_list. intros p Hp. apply acc_single. unfold well_parked in Hc. rewrite Forall_forall in Hc.
    assert (Hs : suspended p = true) by (specialize (Hc p Hp); unfold waiting in Hc; by destruct (suspended p)).
    exact (proj1 (all_settle p s _ _ _ (advance_suspended_id p s Hs))). }
  revert s Hc. induction Ha as [pool _ IH]. intros s Hc. destruct pool as [|p pool]; [by apply inev_now|].
  apply inev_later.
  - exists 0%nat, 0%nat, p. split; [done|]. apply waiting_asks. by inversion Hc.
  - intros i n x q Hi Hn. pose proof (deliver_step i n x s (p :: pool) q Hi Hn) as Hstep.
    pose proof (deliver_parked i n x _ Hc) as Hd. destruct (deliver i n x (s, p :: pool)) as [s' pool'].
    apply IH; [exact Hstep|exact Hd].
Qed.

(** The configurations on the way satisfy what deliveries preserve. *)
Lemma inevitably_inv (J P : config S -> Prop) c :
  (forall i n x c, J c -> J (deliver i n x c)) -> J c -> inevitably P c -> inevitably (fun c => P c /\ J c) c.
Proof. intros HJ Hc. induction 1; [by apply inev_now|]. apply inev_later; [assumption|]. eauto. Qed.

Lemma inevitably_weaken (P Q : config S -> Prop) c :
  (forall c, P c -> Q c) -> inevitably P c -> inevitably Q c.
Proof. intros HPQ. induction 1; [apply inev_now; auto|]. apply inev_later; eauto. Qed.

Lemma reachable_drains (T : prog S unit -> Prop) s c :
  reachable T (s, []) c -> inevitably (fun c' => resting c' /\ reachable T (s, []) c') c.
Proof.
  intros Hr. apply inevitably_inv; [intros; by apply reach_deliver|done|]. by eapply drains, reachable_parked.
Qed.
End drain.

(** ** Flags that are lowered

    [B] tells whether the flag is up.  [tidy R T owes p]: whatever is answered, a
    flag that [p] raises is lowered before [p] ends, and so is, if [owes], a flag
    that is up now; except that [p] may pass the debt on when it returns (if [R])
    or when it throws (if [T]).  What [p] spawns looks after itself. *)
Section flag.
Context {S : Type} (B : S -> bool).

Fixpoint tidy {A : Type} (R T owes : bool) (p : prog S A) : Prop :=
  match p with
  | Ret _ => owes = true -> R = true
  | Throw _ => owes = true -> T = true
  | Act f k => forall s, tidy R T (if B (f s) then if B s then owes else true else false) (k s)
  | Wait _ k => forall x, tidy R T owes (k x)
  | Spawn p k => tidy false false false p /\ tidy R T owes k
  | Par p q k => exists op oq ok, tidy false false op p /\ tidy false false oq q /\ (forall r, tidy R T ok (k r)) /\
      (owes = true -> op || oq || ok = true)
  end.

(** A program that never raises the flag. *)
Fixpoint quiet {A : Type} (p : prog S A) : Prop :=
  match p with
  | Ret _ | Throw _ => True
  | Act f k => forall s, (B (f s) = true -> B s = true) /\ quiet (k s)
  | Wait _ k => forall x, quiet (k x)
  | Spawn p k => quiet p /\ quiet k
  | Par p q k => quiet p /\ quiet q /\ forall r, quiet (k r)
  end.

Lemma tidy_less {A : Type} R T (p : prog S A) o : tidy R T true p -> tidy R T o p.
Proof.
  destruct o; [done|]. induction p as [A a|A e|A g k IH|A q k IH|A p _ k IH|A p _ q _ k IH]; simpl; try done.
  - intros Hp s. specialize (Hp s). destruct (B (g s)); [|done]. destruct (B s); eauto.
  - eauto.
  - naive_solver.
  - intros (op & oq & ok & ? & ? & ? & _). by exists op, oq, ok.
Qed.

Lemma tidy_to {A : Type} R T (p : prog S A) o o' : tidy R T o p -> (o' = true -> o = true) -> tidy R T o' p.
Proof. destruct o, o'; try done; [by intros; apply tidy_less|]. intros _ Ho. by specialize (Ho eq_refl). Qed.

Lemma quiet_tidy {A : Type} (p : prog S A) R T o :
  quiet p -> (o = true -> R = true /\ T = true) -> tidy R T o p.
Proof.
  revert R T o. induction p as [A a|A e|A g k IH|A q k IH|A p IHp k IH|A p IHp q IHq k IH]; intros R T o; simpl.
  - naive_solver.
  - naive_solver.
  - intros Hp Ho s. destruct (Hp s) as [Hb Hk]. apply IH; [done|].
    destruct (B (g s)); [|done]. by rewrite (Hb eq_refl).
  - eauto.
  - intros [Hp Hk] Ho. split; [by apply IHp|by apply IH].
  - intros (Hp & Hq & Hk) Ho. exists false, false, o. split_and!; [by apply IHp|by apply IHq| |by destruct o].
    intros r. by apply IH.
Qed.

(** *** Sequencing *)

Lemma tidy_bind {A C : Type} R T M o (f : A -> prog S C) (p : prog S A) :
  tidy M T o p -> (forall a, tidy R T M (f a)) -> tidy R T o (prog_bind f p).
Proof.
  intros Hp Hf. revert o Hp. induction p as [A a|A e|A g k IH|A q k IH|A p _ k IH|A p _ q _ k IH]; intros o Hp; simpl in *.
  - by eapply tidy_to.
  - done.
  - eauto.
  - eauto.
  - naive_solver.
  - destruct Hp as (op & oq & ok & H1 & H2 & H3 & H4). exists op, oq, ok. naive_solver.
Qed.

Lemma tidy_catch {A : Type} R T M o (p : prog S A) h :
  tidy R M o p -> (forall e, tidy R T M (h e)) -> tidy R T o (prog_catch p h).
Proof.
  intros Hp Hf. revert o Hp. induction p as [A a|A e|A g k IH|A q k IH|A p _ k IH|A p _ q _ k IH]; intros o Hp; simpl in *.
  - done.
  - by eapply tidy_to.
  - eauto.
  - eauto.
  - naive_solver.
  - destruct Hp as (op & oq & ok & H1 & H2 & H3 & H4). exists op, oq, ok. naive_solver.
Qed.

(** [finally { flag = false }] pays every debt of the block. *)
Lemma tidy_finally {A : Type} R T o (p : prog S A) g :
  tidy true true false p -> (forall s, B (g s) = false) -> tidy R T o (prog_finally p (modify g)).
Proof.
  intros Hp Hg. revert o Hp. induction p as [A a|A e|A f k IH|A q k IH|A p _ k IH|A p _ q _ k IH]; intros o Hp; simpl in *.
  - intros s. by rewrite Hg.
  - intros s. by rewrite Hg.
  - intros s. apply IH. by eapply tidy_to.
  - eauto.
  - naive_solver.
  - destruct Hp as (op & oq & ok & H1 & H2 & H3 & _). exists op, oq, true.
    split_and!; [done..| |intros _; by rewrite !orb_true_r]. intros r. apply IH. by eapply tidy_to.
Qed.

(** Raising and lowering it. *)
Lemma tidy_raise {C : Type} R T o (g : S -> S) (f : unit -> prog S C) :
  tidy R T true (f tt) -> tidy R T o (prog_bind f (modify g)).
Proof. intros Hf s. simpl. by eapply tidy_less. Qed.
Lemma tidy_lower {C : Type} R T o (g : S -> S) (f : unit -> prog S C) :
  (forall s, B (g s) = false) -> tidy R T false (f tt) -> tidy R T o (prog_bind f (modify g)).
Proof. intros Hg Hf s. simpl. by rewrite Hg. Qed.
Lemma tidy_lower_last R T o (g : S -> S) : (forall s, B (g s) = false) -> tidy R T o (modify g).
Proof. intros Hg s. simpl. by rewrite Hg. Qed.

(** A step that keeps the flag; the debt stays. *)
Lemma tidy_quiet {A C : Type} R T o (f : A -> prog S C) (p : prog S A) :
  quiet p -> (o = true -> T = true) -> (forall a, tidy R T o (f a)) -> tidy R T o (prog_bind f p).
Proof. intros Hp Ho Hf. apply tidy_bind with o; [|done]. apply quiet_tidy; auto. Qed.

(** *** The quiet programs *)

Lemma quiet_bind {A C : Type} (f : A -> prog S C) (p : prog S A) :
  quiet p -> (forall a, quiet (f a)) -> quiet (prog_bind f p).
Proof. intros Hp Hf. induction p; simpl in *; naive_solver. Qed.
Lemma quiet_catch {A : Type} (p : prog S A) h : quiet p -> (forall e, quiet (h e)) -> quiet (prog_catch p h).
Proof. intros Hp Hh. induction p; simpl in *; naive_solver. Qed.
Lemma quiet_finally {A : Type} (p : prog S A) f : quiet p -> quiet f -> quiet (prog_finally p f).
Proof. intros Hp Hf. induction p; simpl in *; try naive_solver; by apply quiet_bind. Qed.
Lemma quiet_modify (f : S -> S) : (forall s, B (f s) = true -> B s = true) -> quiet (modify f).
Proof. intros Hf s. by split; [apply Hf|]. Qed.
Lemma quiet_read {A : Type} (g : S -> A) : quiet (read g).
Proof. by intros s. Qed.
Lemma quiet_pure {A : Type} (r : E A) : quiet (pure r).
Proof. by destruct r. Qed.
Lemma quiet_call {A : Type} (m : sync S A) : (forall s, B (snd (m s)) = true -> B s = true) -> quiet (call m).
Proof. intros Hm s. split; [apply Hm|]. by destruct (fst (m s)). Qed.
Lemma quiet_promise_array ps : Forall quiet ps -> quiet (promise_array ps).
Proof. induction 1; [done|]. split_and!; [done..|]. intros r. apply quiet_pure. Qed.
Lemma quiet_promise_all p q : quiet p -> quiet q -> quiet (promise_all p q).
Proof. intros Hp Hq. split_and!; [done..|]. intros r. apply quiet_pure. Qed.

Lemma quiet_park (p : prog S unit) : quiet p -> Forall quiet (park p).
Proof. intros Hp. unfold park. destruct (finished p); by repeat constructor. Qed.
Lemma quiet_ignore {A : Type} (p : prog S A) : quiet p -> quiet (ignore p).
Proof. intros Hp. by apply quiet_bind. Qed.

Lemma advance_quiet {A : Type} (p : prog S A) s s' ps p' :
  quiet p -> advance p s = (s', ps, p') -> (B s' = true -> B s = true) /\ Forall quiet ps /\ quiet p'.
Proof.
  revert s s' ps p'. induction p as [A a|A e|A g k IH|A q k IH|A p IHp k IHk|A p IHp q IHq k IHk];
    intros s s' ps p' Hp Ha; simpl in Ha.
  - inv Ha. by split_and!.
  - inv Ha. by split_and!.
  - destruct (Hp s) as [Hg Hk]. destruct (IH _ _ _ _ _ Hk Ha) as (H1 & H2 & H3). split_and!; auto.
  - inv Ha. by split_and!.
  - destruct Hp as [Hp Hk]. destruct (advance p s) as [[s1 ps1] r1] eqn:E1. destruct (advance k s1) as [[s2 ps2] r2] eqn:E2.
    inv Ha. destruct (IHp _ _ _ _ Hp E1) as (H1 & H2 & H3). destruct (IHk _ _ _ _ Hk E2) as (H4 & H5 & H6).
    split_and!; [auto| |done]. rewrite !Forall_app. auto using quiet_park.
  - destruct Hp as (Hp & Hq & Hk). destruct (advance p s) as [[s1 ps1] r1] eqn:E1.
    destruct (advance q s1) as [[s2 ps2] r2] eqn:E2.
    destruct (IHp _ _ _ _ Hp E1) as (H1 & H2 & H3). destruct (IHq _ _ _ _ Hq E2) as (H4 & H5 & H6).
    assert (Hgo : forall r (w : prog S unit) s3 ps3 t, advance (k r) s2 = (s3, ps3, t) -> quiet w ->
      (B s3 = true -> B s = true) /\ Forall quiet (ps1 ++ ps2 ++ park w ++ ps3) /\ quiet t).
    { intros r w s3 ps3 t Hadv Hw. destruct (IHk _ _ _ _ _ (Hk r) Hadv) as (H7 & H8 & H9).
      split_and!; [auto| |done]. rewrite !Forall_app. auto using quiet_park. }
    assert (Hstop : (B s2 = true -> B s = true) /\ Forall quiet (ps1 ++ ps2) /\ quiet (Par r1 r2 k))
      by (split_and!; [auto|by apply Forall_app|by split_and!]).
    destruct r1 as [a|e| | | |], r2 as [b|e'| | | |]; try (inv Ha; exact Hstop);
      match type of Ha with context [advance (k ?r) s2] =>
        destruct (advance (k r) s2) as [[s3 ps3] t] eqn:E3 end; inv Ha;
      first [ exact (Hgo _ (Ret tt) _ _ _ E3 Logic.I)
            | exact (Hgo _ (ignore _) _ _ _ E3 (quiet_ignore _ H6))
            | exact (Hgo _ (ignore _) _ _ _ E3 (quiet_ignore _ H3)) ].
Qed.

Lemma resume_quiet {A : Type} n x (p : prog S A) : quiet p -> quiet (resume n x p).
Proof.
  revert n. induction p as [| | | | |A p IHp q IHq k IHk]; intros n; simpl; try done.
  intros (H1 & H2 & H3). destruct (n <? _)%nat; split_and!; auto.
Qed.

(** *** Pools *)

(** While the flag is up, some suspended program owes to lower it. *)
Definition flag_inv (c : config S) : Prop :=
  Forall (tidy false false false) (snd c) /\ (B (fst c) = true -> Exists (tidy false false true) (snd c)).

Lemma tidy_unpaid {A : Type} o (p : prog S A) : tidy false false o p -> finished p = true -> o = false.
Proof. destruct p; try done; simpl; destruct o; naive_solver. Qed.

Lemma tidy_park o (p : prog S unit) : tidy false false o p ->
  Forall (tidy false false false) (park p) /\ (o = true -> Exists (tidy false false true) (park p)).
Proof.
  intros Hp. unfold park. destruct (finished p) eqn:E.
  - split; [constructor|]. intros ->. by apply tidy_unpaid in Hp.
  - split; [repeat constructor; by eapply tidy_to|]. intros ->. by constructor.
Qed.

Lemma tidy_ignore {A : Type} o (p : prog S A) : tidy false false o p -> tidy false false o (ignore p).
Proof. intros Hp. by apply tidy_bind with false. Qed.

Lemma advance_tidy {A : Type} (p : prog S A) R T o s s' ps p' :
  tidy R T o p -> advance p s = (s', ps, p') ->
  exists o', tidy R T o' p' /\ Forall (tidy false false false) ps /\
    (B s' = true -> o' = true \/ Exists (tidy false false true) ps \/ (B s = true /\ o = false)).
Proof.
  revert R T o s s' ps p'.
  induction p as [A a|A e|A g k IH|A q k IH|A p IHp k IHk|A p IHp q IHq k IHk]; intros R T o s s' ps p' Hp Ha; simpl in Ha.
  - inv Ha. exists o. split_and!; [done|constructor|destruct o; auto].
  - inv Ha. exists o. split_and!; [done|constructor|destruct o; auto].
  - destruct (IH _ _ _ _ _ _ _ _ (Hp s) Ha) as (o' & H1 & H2 & H3). exists o'. split_and!; [done..|].
    intros Hb. destruct (H3 Hb) as [?|[?|[H4 H5]]]; [auto..|]. rewrite H4 in H5. destruct (B s); [auto|done].
  - inv Ha. exists o. split_and!; [done|constructor|destruct o; auto].
  - destruct Hp as [Hp Hk]. destruct (advance p s) as [[s1 ps1] r1] eqn:E1. destruct (advance k s1) as [[s2 ps2] r2] eqn:E2.
    inv Ha. destruct (IHp _ _ _ _ _ _ _ Hp E1) as (o1 & H1 & H2 & H3). destruct (IHk _ _ _ _ _ _ _ Hk E2) as (o2 & H4 & H5 & H6).
    destruct (tidy_park _ _ H1) as [H7 H8]. exists o2. split_and!; [done|by rewrite !Forall_app|].
    rewrite !Exists_app. intros Hb. destruct (H6 Hb) as [?|[?|[Hb1 Ho]]]; [auto 6..|]. destruct (H3 Hb1) as [?|[?|[? _]]]; auto 6.
  - destruct Hp as (op & oq & ok & Hp & Hq & Hk & Ho). destruct (advance p s) as [[s1 ps1] r1] eqn:E1.
    destruct (advance q s1) as [[s2 ps2] r2] eqn:E2.
    destruct (IHp _ _ _ _ _ _ _ Hp E1) as (o1 & H1 & H2 & H3). destruct (IHq _ _ _ _ _ _ _ Hq E2) as (o2 & H4 & H5 & H6).
    assert (Hup : B s2 = true -> o1 = true \/ o2 = true \/ Exists (tidy false false true) (ps1 ++ ps2) \/
      (B s = true /\ op = false /\ oq = false)).
    { rewrite Exists_app. intros Hb. destruct (H6 Hb) as [?|[?|[Hb1 ?]]]; [auto..|]. destruct (H3 Hb1) as [?|[?|[? ?]]]; auto 6. }
    assert (Hgo : forall r ow (w : prog S unit) s3 ps3 t, advance (k r) s2 = (s3, ps3, t) -> tidy false false ow w ->
      (o1 = true \/ o2 = true -> ow = true) ->
      exists o', tidy R T o' t /\ Forall (tidy false false false) (ps1 ++ ps2 ++ park w ++ ps3) /\
        (B s3 = true -> o' = true \/ Exists (tidy false false true) (ps1 ++ ps2 ++ park w ++ ps3) \/ (B s = true /\ o = false))).
    { intros r ow w s3 ps3 t Hadv Hw How. destruct (IHk _ _ _ _ _ _ _ _ (Hk r) Hadv) as (o3 & H7 & H8 & H9).
      destruct (tidy_park _ _ Hw) as [H10 H11]. exists o3. split_and!; [done|by rewrite !Forall_app|].
      rewrite !Exists_app. rewrite Exists_app in Hup. intros Hb. destruct (H9 Hb) as [?|[?|[Hb2 ?]]]; [auto 7..|].
      pose proof (fun h => H11 (How h)) as Hpk.
      destruct (Hup Hb2) as [?|[?|[[?|?]|(? & -> & ->)]]]; [auto 8..|]. subst ok. destruct o; [|auto]. by specialize (Ho eq_refl). }
    assert (Hstop : exists o', tidy R T o' (Par r1 r2 k) /\ Forall (tidy false false false) (ps1 ++ ps2) /\
      (B s2 = true -> o' = true \/ Exists (tidy false false true) (ps1 ++ ps2) \/ (B s = true /\ o = false))).
    { exists (o1 || o2 || ok). split_and!; [by exists o1, o2, ok|by apply Forall_app|].
      intros Hb. destruct (Hup Hb) as [->|[->|[?|(? & -> & ->)]]]; rewrite ?orb_true_r; auto.
      destruct ok; rewrite ?orb_true_r; [auto|]. destruct o; [|auto]. by specialize (Ho eq_refl). }
    pose proof (tidy_unpaid _ _ H1) as Hu1. pose proof (tidy_unpaid _ _ H4) as Hu2.
    destruct r1 as [a|e| | | |], r2 as [b|e'| | | |]; try (inv Ha; exact Hstop);
      match type of Ha with context [advance (k ?r) s2] =>
        destruct (advance (k r) s2) as [[s3 ps3] t] eqn:E3 end; inv Ha;
      first [ apply (Hgo _ false (Ret tt) _ _ _ E3 (fun h => h)); naive_solver
            | apply (Hgo _ o2 (ignore _) _ _ _ E3 (tidy_ignore _ _ H4)); naive_solver
            | apply (Hgo _ o1 (ignore _) _ _ _ E3 (tidy_ignore _ _ H1)); naive_solver ].
Qed.

Lemma flag_start p c : tidy false false false p -> flag_inv c -> flag_inv (start p c).
Proof.
  destruct c as [s pool]. intros Hp [H1 H2]. unfold flag_inv, start in *. simpl in *.
  destruct (advance p s) as [[s' ps] p'] eqn:E. destruct (advance_tidy _ _ _ _ _ _ _ _ Hp E) as (o' & H3 & H4 & H5).
  destruct (tidy_park _ _ H3) as [H6 H7]. simpl. split; [by rewrite !Forall_app|]. rewrite !Exists_app.
  intros Hb. destruct (H5 Hb) as [?|[?|[? _]]]; auto.
Qed.

Lemma resume_tidy {A : Type} R T o n x (p : prog S A) : tidy R T o p -> tidy R T o (resume n x p).
Proof.
  revert R T o n. induction p as [| | | | |A p IHp q IHq k IHk]; intros R T o n; simpl; try done.
  intros (op & oq & ok & H1 & H2 & H3 & H4). destruct (n <? _)%nat; exists op, oq, ok; split_and!; auto.
Qed.

Lemma flag_deliver i n x c : flag_inv c -> flag_inv (deliver i n x c).
Proof.
  destruct c as [s pool]. unfold flag_inv, deliver. simpl. intros [H1 H2]. destruct (pool !! i) as [p|] eqn:Hi; [|done].
  rewrite <- (take_drop_middle pool i p Hi) in H1, H2. rewrite <- Nat.add_1_r in H1, H2.
  rewrite Forall_app, Forall_cons in H1. destruct H1 as (Hl & Hp & Hr). rewrite Exists_app, Exists_cons in H2.
  assert (Hower : exists o, tidy false false o p /\ (B s = true -> o = false ->
    Exists (tidy false false true) (take i pool) \/ Exists (tidy false false true) (drop (i + 1) pool))).
  { destruct (B s); [|by exists false]. destruct (H2 eq_refl) as [?|[?|?]];
      [exists false; auto|exists true; by split|exists false; auto]. }
  destruct Hower as (o & Ho & Hothers). destruct (advance (resume n x p) s) as [[s' ps] p'] eqn:E.
  destruct (advance_tidy _ _ _ _ _ _ _ _ (resume_tidy _ _ _ n x p Ho) E) as (o' & H3 & H4 & H5).
  destruct (tidy_park _ _ H3) as [H6 H7]. simpl. split; [by rewrite !Forall_app|]. rewrite !Exists_app.
  intros Hb. destruct (H5 Hb) as [?|[?|[Hs Hf]]]; auto. destruct (Hothers Hs Hf); auto.
Qed.

(** A task that lowers the flag in any case. *)
Lemma flag_start_owing p s pool :
  tidy false false true p -> Forall (tidy false false false) pool -> flag_inv (start p (s, pool)).
Proof.
  intros Hp Hpool. unfold flag_inv, start. destruct (advance p s) as [[s' ps] p'] eqn:E.
  destruct (advance_tidy _ _ _ _ _ _ _ _ Hp E) as (o' & H3 & H4 & H5). destruct (tidy_park _ _ H3) as [H6 H7]. simpl.
  split; [by rewrite !Forall_app|]. rewrite !Exists_app. intros Hb. destruct (H5 Hb) as [?|[?|[_ [=]]]]; auto.
Qed.

(** If every task that may start is tidy, a page at rest has the flag down. *)
Lemma reachable_lowered (T : prog S unit -> Prop) c0 c :
  (forall p, T p -> tidy false false false p) -> flag_inv c0 -> reachable T c0 c -> flag_inv c.
Proof. intros HT H0. induction 1; eauto using flag_start, flag_deliver. Qed.

Lemma resting_lowered c : flag_inv c -> resting c -> B (fst c) = false.
Proof.
  intros [_ H2] Hr. destruct (B (fst c)); [|done]. rewrite Hr in H2. by specialize (H2 eq_refl) as ?%Exists_nil.
Qed.
End flag.

(** A program on a part of the state that decides the flag, or on another part. *)
Lemma quiet_zoom {S T A : Type} (B : S -> bool) (get : T -> S) (put : S -> T -> T) (p : prog S A) :
  (forall s t, get (put s t) = s) -> quiet B p -> quiet (fun t => B (get t)) (zoom get put p).
Proof.
  intros Hgp. induction p as [A a|A e|A g k IH|A q k IH|A p IHp k IH|A p IHp q IHq k IH]; simpl; auto.
  - intros Hp t. rewrite Hgp. destruct (Hp (get t)). auto.
  - intros [? ?]. auto.
  - intros (? & ? & ?). auto.
Qed.

Lemma tidy_zoom {S T A : Type} (B : S -> bool) (get : T -> S) (put : S -> T -> T) R Th o (p : prog S A) :
  (forall s t, get (put s t) = s) -> tidy B R Th o p -> tidy (fun t => B (get t)) R Th o (zoom get put p).
Proof.
  intros Hgp. revert R Th o. induction p as [A a|A e|A g k IH|A q k IH|A p IHp k IH|A p IHp q IHq k IH];
    intros R Th o; simpl; try done.
  - intros Hp s. rewrite Hgp. apply IH. apply Hp.
  - eauto.
  - naive_solver.
  - intros (op & oq & ok & H1 & H2 & H3 & H4). exists op, oq, ok. naive_solver.
Qed.

Lemma quiet_elsewhere {S T A : Type} (B : T -> bool) (get : T -> S) (put : S -> T -> T) (p : prog S A) :
  (forall s t, B (put s t) = B t) -> quiet B (zoom get put p).
Proof.
  intros Hput. induction p as [A a|A e|A g k IH|A q k IH|A p IHp k IH|A p IHp q IHq k IH]; simpl; auto.
  intros t. rewrite Hput. auto.
Qed.

(** Starting a task that only spawns another is starting the other. *)
Lemma start_spawn {S : Type} (p : prog S unit) c : start (spawn p) c = start p c.
Proof.
  destruct c as [s pool]. unfold start, spawn. simpl. destruct (advance p s) as [[s1 ps1] p'].
  by rewrite !app_nil_r.
Qed.
