(* ===== verification/Page.v ===== *)
(** * The running panel

    The panel as [main.ts] mounts it.  [App.vue] shows a component per
    authentication phase, the shell shows the view of the current route, and both
    change while handlers are suspended.  Every time a
    component is mounted it gets a new state of its own: a handler of an earlier
    instance that is still waiting goes on writing to that instance, not to the one
    on the screen.  [instances] is the store of all component states ever created,
    a [slot] names one of them.

    A [ui] is the running panel as the user sees it: the page with its suspended
    handlers, the instances that are mounted, and the router's path.  [ui_step] is
    what can happen to it: an event on a listener or field of a tree that is on the
    screen, a reply, a tick of an interval that is set, a navigation, a change of
    the system theme and the passing of time; after each the panel renders again
    ([rerender]), which unmounts and mounts components.

    The open system of [page_task]s, where handlers of any instance may start at
    any time, covers all of it ([session_runs]).  [K] says which replies are
    considered. *)

From stdpp Require Import base list gmap strings.
From Stdlib Require Import NArith ZArith Lia String SpecFloat FunctionalExtensionality.
From S2P Require Import Prelude JsString JsNum JsVal Json Prog State Storage Api Payload Catalog Session View Form Net Keeps.
From S2P Require Import GateView SetupView RevealView SettingsView DocsView EnqueueView QueuesView FlowsView.
From S2P Require Import PublishView GroupsView HttpView SchedulesView DlqView OverviewView InfraView.
From S2P Require Import AppHeader CellSwitcher AppSidebar App Components Kit Expand Offered.

(** ** Components and their instances *)

Inductive routed :=
| ROverview | RInfra | RQueues | RGroups | RPublish | REnqueue | RFlows | RSchedules | RDlq | RHttp | RDocs | RSettings.

Definition routed_state (r : routed) : Type :=
  match r with
  | ROverview => OverviewView.state | RInfra => InfraView.state | RQueues => QueuesView.state
  | RGroups => GroupsView.state | RPublish => PublishView.state | REnqueue => EnqueueView.state
  | RFlows => FlowsView.state | RSchedules => SchedulesView.state | RDlq => DlqView.state
  | RHttp => HttpView.state | RDocs => DocsView.state | RSettings => SettingsView.state
  end.

Inductive place := PlSetup | PlGate | PlReveal | PlHeader | PlSidebar | PlSwitcher | PlView (r : routed).

#[export] Instance routed_eq : EqDecision routed.
Proof. solve_decision. Defined.
#[export] Instance place_eq : EqDecision place.
Proof. solve_decision. Defined.

Definition place_state (k : place) : Type :=
  match k with
  | PlSetup => SetupView.state
  | PlGate => GateView.state
  | PlReveal => RevealView.state
  | PlHeader => AppHeader.state
  | PlSidebar => AppSidebar.state
  | PlSwitcher => CellSwitcher.state
  | PlView r => routed_state r
  end.

Definition slot : Type := place * nat.
Definition instances : Type := forall sl : slot, place_state (fst sl).

Definition put_instance (sl : slot) (x : place_state (fst sl)) (w : instances) : instances := fun sl' =>
  match decide (sl = sl') with
  | Specif.left e => eq_rect sl (fun i => place_state (fst i)) x sl' e
  | Specif.right _ => w sl'
  end.

Lemma put_same sl x w : put_instance sl x w sl = x.
Proof. unfold put_instance. by rewrite (decide_True_pi eq_refl). Qed.
Lemma put_other sl x w sl' : sl <> sl' -> put_instance sl x w sl' = w sl'.
Proof. intros Hn. unfold put_instance. by destruct (decide (sl = sl')). Qed.
Lemma put_again sl x y w : put_instance sl y (put_instance sl x w) = put_instance sl y w.
Proof. apply functional_extensionality_dep. intros sl'. unfold put_instance. by destruct (decide (sl = sl')). Qed.
Lemma put_id sl w : put_instance sl (w sl) w = w.
Proof.
  apply functional_extensionality_dep. intros sl'. unfold put_instance. by destruct (decide (sl = sl')) as [<-|].
Qed.

(** A handler of one instance, on the whole panel. *)
Definition at_slot {A : Type} (sl : slot) (p : vprog (place_state (fst sl)) A) : vprog instances A :=
  zoom (fun t => (fst t, snd t sl)) (fun s t => (fst s, put_instance sl (snd s) (snd t))) p.

Section panel.
Context `{Platform}.

#[export] Instance routed_component (r : routed) : Component (routed_state r) :=
  match r with
  | ROverview => overview_component | RInfra => infra_component | RQueues => queues_component
  | RGroups => groups_component | RPublish => publish_component | REnqueue => enqueue_component
  | RFlows => flows_component | RSchedules => schedules_component | RDlq => dlq_component
  | RHttp => http_component | RDocs => docs_component | RSettings => settings_component
  end.

Definition place_component (k : place) : Component (place_state k) :=
  match k with
  | PlSetup => setup_component
  | PlGate => gate_component
  | PlReveal => reveal_component
  | PlHeader => header_component
  | PlSidebar => sidebar_component
  | PlSwitcher => switcher_component
  | PlView r => routed_component r
  end.
#[export] Existing Instance place_component.

#[export] Instance routed_guarded (r : routed) : Guarded (routed_state r) :=
  match r with
  | ROverview => overview_guarded | RInfra => infra_guarded | RQueues => queues_guarded
  | RGroups => groups_guarded | RPublish => publish_guarded | REnqueue => enqueue_guarded
  | RFlows => flows_guarded | RSchedules => schedules_guarded | RDlq => dlq_guarded
  | RHttp => http_guarded | RDocs => docs_guarded | RSettings => settings_guarded
  end.

#[export] Instance place_guarded (k : place) : Guarded (place_state k) :=
  match k with
  | PlSetup => setup_guarded
  | PlGate => gate_guarded
  | PlReveal => reveal_guarded
  | PlHeader => header_guarded
  | PlSidebar => sidebar_guarded
  | PlSwitcher => switcher_guarded
  | PlView r => routed_guarded r
  end.

(** ** What is on the screen *)

Definition routed_render (r : routed) : panel -> routed_state r -> E (list (vnode (panel * routed_state r))) :=
  match r with
  | ROverview => OverviewView.render | RInfra => InfraView.render | RQueues => QueuesView.render
  | RGroups => GroupsView.render | RPublish => PublishView.render | REnqueue => EnqueueView.render
  | RFlows => FlowsView.render | RSchedules => SchedulesView.render | RDlq => DlqView.render
  | RHttp => HttpView.render | RDocs => DocsView.render | RSettings => SettingsView.render
  end.

Definition place_render (k : place) : panel -> place_state k -> E (list (vnode (panel * place_state k))) :=
  match k with
  | PlSetup => SetupView.render
  | PlGate => GateView.render
  | PlReveal => RevealView.render
  | PlHeader => AppHeader.render
  | PlSidebar => AppSidebar.render
  | PlSwitcher => CellSwitcher.render
  | PlView r => routed_render r
  end.

(** The component a tag names; [router-view] is the view of the current route. *)
Definition view_named (n : jstring) : option routed :=
  List.find (fun r => bool_decide (n = match r with
    | ROverview => js "OverviewView" | RInfra => js "InfraView" | RQueues => js "QueuesView"
    | RGroups => js "GroupsView" | RPublish => js "PublishView" | REnqueue => js "EnqueueView"
    | RFlows => js "FlowsView" | RSchedules => js "SchedulesView" | RDlq => js "DlqView"
    | RHttp => js "HttpView" | RDocs => js "DocsView" | RSettings => js "SettingsView" end))
    [ROverview; RInfra; RQueues; RGroups; RPublish; REnqueue; RFlows; RSchedules; RDlq; RHttp; RDocs; RSettings].

Definition route_place (path : option jstring) : option place :=
  p ← path; c ← resolve p; r ← view_named c; Some (PlView r).

Definition place_named (view : option place) (n : jstring) : option place :=
  if decide (n = js "router-view") then view
  else if decide (n = js "SetupView") then Some PlSetup
  else if decide (n = js "GateView") then Some PlGate
  else if decide (n = js "RevealView") then Some PlReveal
  else if decide (n = js "AppHeader") then Some PlHeader
  else if decide (n = js "AppSidebar") then Some PlSidebar
  else if decide (n = js "CellSwitcher") then Some PlSwitcher
  else None.

Definition tree_tags {S : Type} (t : E (list (vnode S))) : list jstring :=
  match t with Ok ns => (fun x => fst (fst x)) <$> List.concat (map elements ns) | Exn _ => [] end.

(** [route.path]: [/] until the first navigation is through. *)
Definition route_path (path : option jstring) : jstring := default (js "/") path.

(** The components in the tree of [App.vue], with those in the trees of the shell
    and of the sidebar. *)
Definition shown (p : panel) (path : option jstring) : list place :=
  let root := tree_tags (App p) in
  let shell := if decide (js "AppShell" ∈ root) then tree_tags (AppShell p) else [] in
  let side := if decide (js "AppSidebar" ∈ shell)
    then tree_tags (AppSidebar.render p {| s_route := VStr (route_path path) |}) else [] in
  omap (place_named (route_place path)) (root ++ shell ++ side).

Lemma app_tags p : tree_tags (App p) = [js "TooltipProvider";
  match phase (ses p) with
  | PLoading => js "div" | PSetup => js "SetupView" | PReveal => js "RevealView" | PGate => js "GateView"
  | PApp => js "AppShell"
  end].
Proof. unfold App. by destruct (phase (ses p)). Qed.

Lemma shown_phase p path : shown p path =
  match phase (ses p) with
  | PLoading => []
  | PSetup => [PlSetup]
  | PReveal => [PlReveal]
  | PGate => [PlGate]
  | PApp => [PlSidebar; PlHeader] ++ option_list (route_place path) ++ [PlSwitcher]
  end.
Proof.
  unfold shown. generalize (route_place path) (route_path path). intros view r. rewrite app_tags.
  destruct (phase (ses p)); [by vm_compute..|]. unfold AppShell, AppSidebar.render.
  destruct (splitAuth (ses p)), (isExternalAuth (br p)), (themeMode (ses p)), view; by vm_compute.
Qed.

(** The state [setup] creates, and the [onMounted] hook. *)
Definition place_setup (k : place) (p : panel) (path : option jstring) : place_state k :=
  match k with
  | PlSetup => SetupView.setup
  | PlGate => GateView.setup p
  | PlReveal => RevealView.setup
  | PlHeader => AppHeader.setup
  | PlSidebar => {| s_route := VStr (route_path path) |}
  | PlSwitcher => tt
  | PlView r =>
      match r with
      | ROverview => OverviewView.setup | RInfra => InfraView.setup | RQueues => QueuesView.setup
      | RGroups => GroupsView.setup | RPublish => PublishView.setup | REnqueue => EnqueueView.setup
      | RFlows => FlowsView.setup | RSchedules => SchedulesView.setup | RDlq => DlqView.setup
      | RHttp => HttpView.setup | RDocs => tt | RSettings => SettingsView.setup
      end
  end.

Definition place_mounted (k : place) : vprog (place_state k) unit :=
  match k with
  | PlView r =>
      match r with
      | ROverview => OverviewView.mounted | RInfra => InfraView.mounted | RQueues => QueuesView.mounted
      | RGroups => GroupsView.mounted | RPublish => PublishView.mounted | REnqueue => EnqueueView.mounted
      | RFlows => FlowsView.mounted | RSchedules => SchedulesView.mounted | RDlq => DlqView.mounted
      | RHttp => HttpView.mounted | RDocs => Ret tt | RSettings => Ret tt
      end
  | _ => Ret tt
  end.

(** ** The open system *)

(** What can happen once the panel is mounted when handlers of any instance of the
    components in [on] may start at any time. *)
Inductive ui_task (on : place -> Prop) : vprog instances unit -> Prop :=
| on_handler sl p : on (fst sl) -> tasks p -> ui_task on (at_slot sl p)
| on_edit f : (forall w sl, guarded (f w sl) = guarded (w sl)) -> ui_task on (upd f)
| on_setup sl p path : ui_task on (upd (put_instance sl (place_setup (fst sl) p path)))
| on_health : ui_task on (lib pollHealth)
| on_cluster : ui_task on (lib pollCluster)
| on_theme dark :
    ui_task on (upd_page (fun p => system_theme_changed (set_br (set_prefers_dark dark (br p)) p)))
| on_clock t : ui_task on (upd_page (fun p => set_br (set_now_ms t (br p)) p)).

(** With mounting itself and with [setApiBase], which the session exports and no
    component calls. *)
Inductive page_task (on : place -> Prop) : vprog instances unit -> Prop :=
| on_ui p : ui_task on p -> page_task on p
| on_mount : page_task on (lib app_mounted)
| on_api_base base : page_task on (lib (setApiBase base)).

(** ** The running panel *)

Record ui := Ui {
  ui_page : config (panel * instances);
  ui_live : list slot;
  ui_next : nat;
  ui_path : option jstring
}.

Definition ui_panel (u : ui) : panel := fst (fst (ui_page u)).
Definition ui_states (u : ui) : instances := snd (fst (ui_page u)).
Definition set_ui_page (c : config (panel * instances)) (u : ui) : ui :=
  {| ui_page := c; ui_live := ui_live u; ui_next := ui_next u; ui_path := ui_path u |}.
Definition set_ui_live (l : list slot) (u : ui) : ui :=
  {| ui_page := ui_page u; ui_live := l; ui_next := ui_next u; ui_path := ui_path u |}.
Definition ui_start (p : vprog instances unit) (u : ui) : ui := set_ui_page (start p (ui_page u)) u.

(** A new instance: its [setup] runs, then its [onMounted] hook. *)
Definition mount (u : ui) (k : place) : ui :=
  let sl : slot := (k, ui_next u) in
  let u := ui_start (upd (put_instance sl (place_setup k (ui_panel u) (ui_path u)))) u in
  ui_start (at_slot sl (place_mounted k))
    {| ui_page := ui_page u; ui_live := ui_live u ++ [sl]; ui_next := S (ui_next u); ui_path := ui_path u |}.

(** Components that are no longer in the tree are unmounted, new ones mounted. *)
Definition rerender (u : ui) : ui :=
  let now := shown (ui_panel u) (ui_path u) in
  let kept := filter (fun sl => fst sl ∈ now) (ui_live u) in
  fold_left mount (filter (fun k => k ∉ fst <$> kept) now) (set_ui_live kept u).

(** The handlers of the tree of a mounted instance. *)
Definition slot_handlers (u : ui) (sl : slot) : list (jsval -> vprog (place_state (fst sl)) unit) :=
  match place_render (fst sl) (ui_panel u) (ui_states u sl) with
  | Ok ns => snd <$> tree_handlers ns
  | Exn _ => []
  end.

Definition page_start (b : browser) : config (panel * instances) :=
  (init_panel b, fun sl => place_setup (fst sl) (init_panel b) None, []).

(** [App.vue] is mounted. *)
Definition mounted_page (b : browser) : config (panel * instances) := start (lib app_mounted) (page_start b).

(** [createApp(App).use(router).mount("#app")] *)
Definition main (b : browser) : ui :=
  rerender {| ui_page := mounted_page b; ui_live := []; ui_next := 0; ui_path := None |}.

(** A navigation is through: the router's path, which [route.path] of the sidebar
    follows.  An unknown path redirects. *)
Definition landing (path : jstring) : jstring :=
  match find_route path with Some _ => path | None => redirect end.

Definition follow (path : jstring) (w : instances) : instances := fun sl =>
  match sl as sl return place_state (fst sl) -> place_state (fst sl) with
  | (PlSidebar, _) => set_s_route (VStr path)
  | _ => id
  end (w sl).

Definition navigate (path : jstring) (u : ui) : ui :=
  let u := ui_start (upd (follow (landing path))) u in
  {| ui_page := ui_page u; ui_live := ui_live u; ui_next := ui_next u; ui_path := Some (landing path) |}.

Definition tick (k : timer_kind) : prog panel unit :=
  match k with THealth => pollHealth | TCluster => pollCluster end.

Inductive ui_step (K : ask -> reply -> Prop) (u : ui) : ui -> Prop :=
| ui_event sl h x : sl ∈ ui_live u -> h ∈ slot_handlers u sl -> ui_step K u (rerender (ui_start (at_slot sl (h x)) u))
| ui_reply i n x q : outstanding (ui_page u) i n = Some q -> K q x ->
    ui_step K u (rerender (set_ui_page (deliver i n x (ui_page u)) u))
| ui_tick id k : (id, k) ∈ intervals (tm (ui_panel u)) -> ui_step K u (rerender (ui_start (lib (tick k)) u))
| ui_navigate path : ui_step K u (rerender (navigate path u))
| ui_theme dark : ui_step K u (rerender (ui_start
    (upd_page (fun p => system_theme_changed (set_br (set_prefers_dark dark (br p)) p))) u))
| ui_clock t : ui_step K u (rerender (ui_start (upd_page (fun p => set_br (set_now_ms t (br p)) p)) u)).

(** What can become of the panel loaded in browser [b], with replies in [K]. *)
Inductive session_of (K : ask -> reply -> Prop) (b : browser) : ui -> Prop :=
| session_main : session_of K b (main b)
| session_step u u' : session_of K b u -> ui_step K u u' -> session_of K b u'.

(** Any reply at all. *)
Definition any_reply (_ : ask) (_ : reply) : Prop := True.

(** ** The open system covers every session *)

Lemma answering_covered {S : Type} K (T : prog S unit -> Prop) p c0 c :
  covered T p -> answering K T c0 c -> answering K T c0 (start p c).
Proof.
  intros Hp Hr. destruct (covered_at T p c Hp) as (qs & Hq & ->). clear Hp p. revert c Hr.
  induction Hq as [|q qs Hq _ IH]; intros c Hr; [done|]. rewrite starts_cons. apply IH. by apply ans_start.
Qed.

Lemma at_slot_covered (on : place -> Prop) sl p : on (fst sl) -> covered own_task p -> covered (ui_task on) (at_slot sl p).
Proof.
  intros Hon. apply covered_zoom.
  - intros [p' x] [q w]. cbn. by rewrite put_same.
  - intros [p' x] [q y] [r w]. cbn. by rewrite put_again.
  - intros [q w]. cbn. by rewrite put_id.
  - intros q [r Hr|f Hf]; apply covered_task; [by apply on_handler|].
    apply (on_edit on (fun w => put_instance sl (f (w sl)) w)). intros w sl'.
    destruct (decide (sl = sl')) as [<-|Hn]; [by rewrite put_same|by rewrite put_other].
Qed.

Lemma place_offers k p v : offers (covered own_task) (place_render k p v).
Proof.
  destruct k as [| | | | | |[]]; [apply setup_offers|apply gate_offers|apply reveal_offers|apply header_offers
    |apply sidebar_offers|apply switcher_offers|apply overview_offers|apply infra_offers|apply queues_offers
    |apply groups_offers|apply publish_offers|apply enqueue_offers|apply flows_offers|apply schedules_offers
    |apply dlq_offers|apply http_offers|apply docs_offers|apply settings_offers].
Qed.

Lemma slot_handlers_covered u sl h x : h ∈ slot_handlers u sl -> covered own_task (h x).
Proof.
  unfold slot_handlers. pose proof (place_offers (fst sl) (ui_panel u) (ui_states u sl)) as Ho.
  destruct (place_render _ _ _) as [ns|e]; [|by intros ?%not_elem_of_nil].
  intros ([k h'] & -> & Hin)%list_elem_of_fmap. specialize (Ho ns eq_refl). rewrite Forall_forall in Ho. exact (Ho _ Hin x).
Qed.

Lemma place_mounted_covered k : covered own_task (place_mounted k).
Proof. destruct k as [| | | | | |[]]; cbn [place_mounted]; first [apply covered_ret | apply covered_tasks; constructor]. Qed.

(** [I] holds on the pages of the open system restricted to [on], and on such pages
    only components in [on] are shown: then a session never leaves that system. *)
Section sessions.
Context (K : ask -> reply -> Prop) (b : browser) (on : place -> Prop) (I : panel -> Prop).
Notation runs := (answering K (ui_task on) (mounted_page b)).
Hypothesis runs_inv : forall c, runs c -> I (fst (fst c)).
Hypothesis shown_on : forall p path k, I p -> k ∈ shown p path -> on k.

Definition tame (u : ui) : Prop := runs (ui_page u) /\ Forall (fun sl => on (fst sl)) (ui_live u).

Lemma ui_start_tame p u : covered (ui_task on) p -> tame u -> tame (ui_start p u).
Proof. intros Hp [Hu Hl]. split; [|done]. by apply answering_covered. Qed.

Lemma mount_tame u k : on k -> tame u -> tame (mount u k).
Proof.
  intros Hk Hu. unfold mount. apply ui_start_tame; [by apply at_slot_covered, place_mounted_covered|].
  assert (Hs : tame (ui_start (upd (put_instance (k, ui_next u) (place_setup k (ui_panel u) (ui_path u)))) u))
    by (apply ui_start_tame; [exact (covered_task _ _ (on_setup on (k, ui_next u) _ _))|done]).
  destruct Hs as [Hr Hl]. split; [exact Hr|]. apply Forall_app. split; [exact Hl|by repeat constructor].
Qed.

Lemma rerender_tame u : runs (ui_page u) -> tame (rerender u).
Proof.
  intros Hu. unfold rerender. set (now := shown _ _).
  assert (Hnow : Forall on now) by (apply Forall_forall; intros k; apply shown_on, runs_inv, Hu).
  assert (Hl : Forall on (filter (fun k => k ∉ fst <$> filter (fun sl => fst sl ∈ now) (ui_live u)) now))
    by (apply Forall_forall; intros k [_ Hk]%list_elem_of_filter; by eapply Forall_forall in Hnow).
  assert (Hk : tame (set_ui_live (filter (fun sl => fst sl ∈ now) (ui_live u)) u)).
  { split; [exact Hu|]. apply Forall_forall. intros sl [Hs _]%list_elem_of_filter. by eapply Forall_forall in Hnow. }
  revert Hk. generalize (set_ui_live (filter (fun sl => fst sl ∈ now) (ui_live u)) u).
  induction Hl as [|k l Hon _ IH]; intros v Hv; [done|]. cbn [fold_left]. by apply IH, mount_tame.
Qed.

Lemma ui_step_tame u u' : ui_step K u u' -> tame u -> tame u'.
Proof.
  intros Hst [Hu Hl]. destruct Hst as [sl h x Hsl Hh|i n x q Hq HK|id k _|path|dark|t]; apply rerender_tame.
  - apply answering_covered; [|done]. apply at_slot_covered; [by eapply Forall_forall in Hl|by eapply slot_handlers_covered].
  - apply ans_answer; [by rewrite Hq|done].
  - apply answering_covered; [|done]. apply covered_task. destruct k; constructor.
  - apply (answering_covered K (ui_task on) (upd (follow (landing path)))); [|done].
    apply covered_task, on_edit. by intros w [[] ?].
  - apply answering_covered; [|done]. apply covered_task, on_theme.
  - apply answering_covered; [|done]. apply covered_task, on_clock.
Qed.

Lemma session_tame u : session_of K b u -> tame u.
Proof.
  induction 1 as [|u u' _ IH Hst]; [|by eapply ui_step_tame].
  apply rerender_tame, ans_init.
Qed.
End sessions.

Definition everywhere (_ : place) : Prop := True.

Lemma session_runs K b u : session_of K b u -> answering K (ui_task everywhere) (mounted_page b) (ui_page u).
Proof. intros Hu. by apply (session_tame K b everywhere (fun _ => True)) in Hu as [Hr _]. Qed.

Lemma ui_task_page K on b c :
  answering K (ui_task on) (mounted_page b) c -> answering K (page_task on) (page_start b) c.
Proof.
  intros Hr. apply answering_trans with (mounted_page b); [apply ans_start; [apply on_mount|apply ans_init]|].
  revert Hr. apply answering_mono. apply on_ui.
Qed.

Lemma session_answering K b u : session_of K b u -> answering K (page_task everywhere) (page_start b) (ui_page u).
Proof. intros Hu. by apply ui_task_page, session_runs. Qed.

(** ** Invariants of the open system *)

(** An invariant of the panel and one of each kind of component, kept by the
    components' handlers. *)
Lemma page_task_ends K (on : place -> Prop) (I : panel -> Prop) (J : forall k, place_state k -> Prop) p :
  (forall k q, on k -> tasks q -> ends (vinv I (J k)) K anyway q) ->
  (forall k v v', guarded v' = guarded v -> J k v -> J k v') ->
  (forall k p path, J k (place_setup k p path)) ->
  (forall q, In q [app_mounted; pollHealth; pollCluster] -> ends I K anyway q) ->
  (forall base, ends I K anyway (setApiBase base)) ->
  (forall dark q, I q -> I (system_theme_changed (set_br (set_prefers_dark dark (br q)) q))) ->
  (forall t q, I q -> I (set_br (set_now_ms t (br q)) q)) ->
  page_task on p -> ends (vinv I (fun w => forall sl, J (fst sl) (w sl))) K anyway p.
Proof.
  intros Hh He Hs Hl Hb Ht Hc. destruct 1 as [p [sl q Hon Hp|f Hf|sl q path| | |dark|t]| |base].
  - eapply ends_zoom; [| |exact (Hh (fst sl) q Hon Hp)].
    + intros s t [_ Hw] [Hi Hj]. split; [exact Hi|]. intros sl'. cbn [snd].
      destruct (decide (sl = sl')) as [<-|Hn]; [by rewrite put_same|by rewrite put_other].
    + intros t [Hi Hw]. split; [exact Hi|apply Hw].
  - apply vends_upd. intros w Hw sl. eapply He; [apply Hf|apply Hw].
  - apply vends_upd. intros w Hw sl'. destruct (decide (sl = sl')) as [<-|Hn]; [rewrite put_same; apply Hs|by rewrite put_other].
  - apply vends_lib, Hl. right. by left.
  - apply vends_lib, Hl. right. right. by left.
  - apply vends_upd_page, Ht.
  - apply vends_upd_page, Hc.
  - apply vends_lib, Hl. by left.
  - apply vends_lib, Hb.
Qed.

Lemma page_task_confined on b0 p : served b0 -> page_task on p -> safe (vconfined b0) p.
Proof.
  intros Hs. destruct 1 as [p [sl q _ Hp|f _|sl q path| | |dark|t]| |base].
  - apply (tasks_confined b0) in Hp; [|done].
    apply (safe_zoom (vconfined b0) (fun t : panel * instances => (fst t, snd t sl))); [|exact Hp].
    intros [s x] [t w]. cbn. by rewrite put_same.
  - apply vsafe_upd.
  - apply vsafe_upd.
  - auto with net.
  - auto with net.
  - apply vsafe_page_frame. intros q. unfold system_theme_changed. by case_decide.
  - by apply vsafe_page_frame.
  - apply vsafe_lib. unfold app_mounted. apply safe_spawn. auto with net.
  - auto with net.
Qed.

(** The page invariant holds when the modules are loaded and from then on. *)
Lemma init_confined b : sent b = [] -> confined b (init_panel b).
Proof.
  intros Hb. unfold init_panel. pose proof (frame_loadSavedToken (apiBase (init_session b)) b) as Hf.
  destruct (loadSavedToken (apiBase (init_session b)) b) as [t b']. destruct Hf as [(F1 & F2 & F3) F4].
  simpl in *. split_and!; simpl; [done| |by left|apply map_Forall_empty].
  rewrite F4, Hb. constructor.
Qed.

Lemma page_invariant K on b c :
  served b -> sent b = [] -> answering K (page_task on) (page_start b) c -> confined b (fst (fst c)).
Proof.
  intros Hs Hb Hr%answering_reachable. revert Hr. apply (reachable_safe (vconfined b)); [|by apply init_confined].
  intros p. by apply page_task_confined.
Qed.
End panel.
