(* ===== verification/PageProps.v ===== *)
(** * What holds in every session *)

From stdpp Require Import base list gmap strings.
From Stdlib Require Import NArith ZArith Lia String.
From S2P Require Import Prelude JsString JsNum JsVal Json Prog State Demo Storage Api Payload Catalog Session View Net.
From S2P Require Import GateView RevealView Components Kit Expand Page.

(** C1: Confinement.  On a page served over HTTP, whatever the user does, wherever
    they navigate, whichever screens the replies lead to and however handlers,
    timers and replies interleave, every request the panel has sent went to the
    page's own origin or to the configured admin root, and carried no header but
    the bearer token and the JSON content type. *)
Theorem requests_confined `{Platform} b u rq :
  served b -> sent b = [] -> session_of any_reply b u -> rq ∈ sent (br (ui_panel u)) ->
  allowed b (rq_url rq) /\ Forall plain_header (rq_headers rq).
Proof.
  intros Hs Hb Hr%session_answering Hin. destruct (page_invariant _ _ b _ Hs Hb Hr) as (_ & Hsent & _).
  rewrite Forall_forall in Hsent. by apply Hsent.
Qed.

(** The panel of the demo browser, right after it is mounted: one request for the
    auth configuration.  Two answers without a password set lead to the setup. *)
Definition demo_ui : ui := @main demo_platform demo_browser.
Definition unconfigured : reply := ok_reply (jsq "{'mode':'control_plane','configured':false}").
Definition demo_reply (i : nat) (x : reply) (u : ui) : ui :=
  @rerender demo_platform (set_ui_page (deliver i 0 x (ui_page u)) u).
Definition demo_setup : ui := demo_reply 0 unconfigured (demo_reply 0 unconfigured demo_ui).

Lemma demo_served : served demo_browser.
Proof. split; [done|done|by right]. Qed.

(** The first request a task of the session waits for is answered. *)
Lemma demo_reply_session K b i x u : session_of (H:=demo_platform) K b u ->
  match outstanding (ui_page u) i 0 with Some q => K q x | None => False end ->
  session_of (H:=demo_platform) K b (demo_reply i x u).
Proof.
  intros Hu. destruct (outstanding (ui_page u) i 0) as [q|] eqn:E; [|done]. intros HK.
  eapply session_step; [exact Hu|]. by eapply ui_reply.
Qed.

Lemma demo_setup_session : session_of (H:=demo_platform) any_reply demo_browser demo_setup.
Proof.
  apply demo_reply_session; [apply demo_reply_session; [exact (@session_main demo_platform any_reply demo_browser)|]|];
    by vm_compute.
Qed.

(** The [n]-th handler of a mounted instance runs on event value [x]. *)
Definition demo_event (sl : slot) (n : nat) (x : jsval) (u : ui) : ui :=
  match @slot_handlers demo_platform u sl !! n with
  | Some h => @rerender demo_platform (ui_start (at_slot sl (h x)) u)
  | None => u
  end.

Lemma demo_event_session K b sl n x u : session_of (H:=demo_platform) K b u ->
  bool_decide (sl ∈ ui_live u) = true -> session_of (H:=demo_platform) K b (demo_event sl n x u).
Proof.
  intros Hu Hl%bool_decide_eq_true. unfold demo_event. destruct (_ !! n) as [h|] eqn:E; [|done].
  eapply session_step; [exact Hu|]. apply ui_event; [done|]. by apply list_elem_of_lookup_2 in E.
Qed.

(** The setup form of the demo session with two passwords typed in, submitted. *)
Definition demo_submitted : ui :=
  let sl : slot := (PlSetup, 0%nat) in
  demo_event sl 3 VUndef (demo_event sl 1 (VStr (js "correct horse")) (demo_event sl 0 (VStr (js "correct horse")) demo_setup)).

Lemma demo_submitted_session : session_of (H:=demo_platform) any_reply demo_browser demo_submitted.
Proof. do 3 (apply demo_event_session; [|by vm_compute]). exact demo_setup_session. Qed.

Lemma requests_confined_witness :
  exists rq, rq ∈ sent (br (ui_panel demo_setup)) /\ allowed demo_browser (rq_url rq) /\
    rq_url rq = js "http://localhost:8080/v1/auth/config".
Proof.
  exists (get_plain (js "http://localhost:8080/v1/auth/config")).
  assert (Hin : get_plain (js "http://localhost:8080/v1/auth/config") ∈ sent (br (ui_panel demo_setup)))
    by (vm_compute; left).
  split; [done|]. split; [|done].
  exact (proj1 (@requests_confined demo_platform demo_browser demo_setup _ demo_served eq_refl demo_setup_session Hin)).
Defined.

(** C13: Timers.  However often the application is started, no more than one
    health interval and one cluster interval are ever alive, and each live one is
    the one the session remembers and will clear. *)
Theorem one_timer_per_kind `{Platform} b u k :
  served b -> sent b = [] -> session_of any_reply b u ->
  let t := tm (ui_panel u) in
  (List.length (filter (fun e => snd e = k) (intervals t)) <= 1)%nat /\
  (forall id, (id, k) ∈ intervals t ->
    (k = THealth /\ healthTimer t = Some id) \/ (k = TCluster /\ clusterTimer t = Some id)).
Proof.
  intros Hs Hb Hr%session_answering t. destruct (page_invariant _ _ b _ Hs Hb Hr) as (_ & _ & Ht & _).
  change (tm (fst (fst (ui_page u)))) with t in Ht.
  destruct Ht as [(H1 & H2 & H3)|(h & cl & H1 & H2 & _ & H3)]; rewrite H3.
  - split; [simpl; lia|]. intros id Hin. by apply not_elem_of_nil in Hin.
  - split; [destruct k; vm_compute; lia|].
    intros id [[= -> ->]|[[= -> ->]|Hin%not_elem_of_nil]%elem_of_cons]%elem_of_cons; [by left|by right|done].
Qed.

(** With external authentication the application starts after two answers. *)
Definition demo_external : browser := set_g_external_auth true demo_browser.
Definition demo_started : ui := demo_reply 0 unconfigured (demo_reply 0 unconfigured (@main demo_platform demo_external)).

Lemma demo_started_session : session_of (H:=demo_platform) any_reply demo_external demo_started.
Proof.
  apply demo_reply_session; [apply demo_reply_session; [exact (@session_main demo_platform any_reply demo_external)|]|];
    by vm_compute.
Qed.

Lemma one_timer_per_kind_witness :
  intervals (tm (ui_panel demo_started)) = [(1, THealth); (2, TCluster)]%nat /\
  (List.length (filter (fun e => snd e = THealth) (intervals (tm (ui_panel demo_started)))) <= 1)%nat.
Proof.
  split; [by vm_compute|].
  exact (proj1 (@one_timer_per_kind demo_platform demo_external demo_started THealth
    ltac:(split; [done|done|by right]) eq_refl demo_started_session)).
Defined.
