(* ===== verification/Phases.v ===== *)
(** * Which handlers move the authentication phase, and where to

    A program that is [quiet (at_phase ph)] never enters phase [ph].  The handlers of
    the setup form and the settings only enter [PReveal], confirming a revealed
    token only [PApp], those of the gate either, and no other handler, hook or timer
    enters any phase ([targets]). *)

From stdpp Require Import base list gmap strings.
From Stdlib Require Import NArith ZArith Lia String SpecFloat.
From S2P Require Import Prelude JsString JsNum JsVal Json Prog State Storage Api Payload Catalog Session View Form Net Liveness.
From S2P Require Import GateView SetupView RevealView SettingsView DocsView EnqueueView QueuesView FlowsView.
From S2P Require Import PublishView GroupsView HttpView SchedulesView DlqView OverviewView InfraView.
From S2P Require Import AppHeader CellSwitcher AppSidebar App Components Kit Expand Offered Page.

Definition at_phase (ph : AuthPhase) (p : panel) : bool := bool_decide (phase (ses p) = ph).

(** Updates outside the session's phase. *)
Definition off_phase (f : panel -> panel) : Prop := forall p, phase (ses (f p)) = phase (ses p).

Section quiet_lib.
Context `{Platform} (ph : AuthPhase).

Lemma quiet_off_phase f : off_phase f -> quiet (at_phase ph) (modify f).
Proof. intros Hf. apply quiet_modify. intros p. unfold at_phase. by rewrite Hf. Qed.

Lemma quiet_on_br {A : Type} (m : sync browser A) : quiet (at_phase ph) (call (on_br m)).
Proof. apply quiet_call. intros p. unfold on_br, szoom, at_phase. by destruct (m (br p)). Qed.

Lemma quiet_fetch rq : quiet (at_phase ph) (fetch rq).
Proof. intros p. split; [done|]. by intros []. Qed.

Lemma quiet_request m url body : quiet (at_phase ph) (request m url body).
Proof.
  apply quiet_bind; [apply quiet_on_br|]. intros rq. apply quiet_bind; [apply quiet_fetch|]. intros r. apply quiet_pure.
Qed.

Lemma quiet_setToken t : quiet (at_phase ph) (call (setToken t)).
Proof.
  apply quiet_call. intros p. unfold setToken, mbind, sync_mbind, smod, sget, on_br, szoom, at_phase. simpl.
  by destruct (saveToken _ t (br p)) as [[] b].
Qed.

Lemma quiet_submit raw : quiet (at_phase ph) (call (submitGateToken raw)).
Proof.
  apply quiet_call. intros p. unfold submitGateToken, mbind, sync_mbind, spure.
  destruct (e_trim (Ok raw)) as [t|]; [|done]. destruct t as [| | | |[|c s]| | |]; try done.
  destruct (starts_with _ _); [|done]. intros Hl. exact (proj1 (quiet_setToken _ p) Hl).
Qed.

Lemma quiet_set_phase y : y <> ph -> quiet (at_phase ph) (modify (on_ses (set_phase y))).
Proof. intros Hn. apply quiet_modify. intros p. unfold at_phase. simpl. by rewrite bool_decide_eq_true. Qed.
End quiet_lib.

Ltac quiet_step :=
  lazymatch goal with
  | |- quiet _ (prog_catch _ _) => apply quiet_catch; [|intro]
  | |- quiet _ (prog_finally _ _) => apply quiet_finally
  | |- quiet _ (request _ _ _) => apply quiet_request
  | |- quiet _ (fetch _) => apply quiet_fetch
  | |- quiet _ (call (setToken _)) => apply quiet_setToken
  | |- quiet _ (call (submitGateToken _)) => apply quiet_submit
  | |- quiet _ (_ ≫= _) => apply quiet_bind; [|intro]
  | |- quiet _ (pure _) => apply quiet_pure
  | |- quiet _ (public _) => apply quiet_read
  | |- quiet _ (admin _) => apply quiet_read
  | |- quiet _ (read _) => apply quiet_read
  | |- quiet _ (local _) => apply quiet_read
  | |- quiet _ (page _) => apply quiet_read
  | |- quiet _ (spawn _) => split; [|exact Logic.I]
  | |- quiet _ (promise_array _) => apply quiet_promise_array; forall_list
  | |- quiet _ (promise_all _ _) => apply quiet_promise_all
  | |- quiet _ (discard _) => apply quiet_bind; [|intro]
  | |- quiet _ (ignore _) => apply quiet_bind; [|intro]
  | |- quiet _ (Ret _) => exact Logic.I
  | |- quiet _ (Throw _) => exact Logic.I
  | |- quiet _ (Wait _ _) => intros ?
  | |- quiet _ (if ?b then _ else _) => destruct b
  | |- quiet _ (match ?r with _ => _ end) => destruct r
  end.

Create HintDb quiet discriminated.
#[export] Hint Extern 0 (_ <> _) => congruence : quiet.
Ltac quiet_lib := repeat first [solve [auto with quiet] | quiet_step | apply quiet_off_phase; done | apply quiet_set_phase; congruence].

Section session.
Context `{Platform} (ph : AuthPhase).

Lemma quiet_pub_get path : quiet (at_phase ph) (pub_get path).
Proof. unfold pub_get, apiGet. quiet_lib. Qed.
Lemma quiet_pub_delete path : quiet (at_phase ph) (pub_delete path).
Proof. unfold pub_delete, apiDelete. quiet_lib. Qed.
Lemma quiet_pub_post path d : quiet (at_phase ph) (pub_post path d).
Proof. unfold pub_post, apiPost. quiet_lib. Qed.
Lemma quiet_pub_put path d : quiet (at_phase ph) (pub_put path d).
Proof. unfold pub_put, apiPut. quiet_lib. Qed.
Lemma quiet_adm_post path d : quiet (at_phase ph) (adm_post path d).
Proof. unfold adm_post, apiPost. quiet_lib. Qed.
Lemma quiet_refreshQueues : quiet (at_phase ph) refreshQueues.
Proof. unfold refreshQueues, apiGet. quiet_lib. Qed.
Lemma quiet_refreshGroups : quiet (at_phase ph) refreshGroups.
Proof. unfold refreshGroups, apiGet. quiet_lib. Qed.
Lemma quiet_refreshFlows : quiet (at_phase ph) refreshFlows.
Proof. unfold refreshFlows, apiGet. quiet_lib. Qed.
Lemma quiet_refreshCells : quiet (at_phase ph) refreshCells.
Proof. unfold refreshCells, apiGet. quiet_lib. Qed.
Lemma quiet_pollHealth : quiet (at_phase ph) pollHealth.
Proof. unfold pollHealth. quiet_lib. Qed.
Lemma quiet_pollCluster : quiet (at_phase ph) pollCluster.
Proof. unfold pollCluster, apiGet. quiet_lib. Qed.
#[local] Hint Resolve quiet_refreshQueues quiet_refreshGroups quiet_refreshFlows quiet_refreshCells
  quiet_pollHealth quiet_pollCluster : quiet.
Lemma quiet_startApp : ph <> PApp -> quiet (at_phase ph) startApp.
Proof. intros Hn. unfold startApp. quiet_lib. Qed.
Lemma quiet_password path pw : ph <> PReveal -> quiet (at_phase ph) (password_flow path pw).
Proof. intros Hn. unfold password_flow, apiPost. quiet_lib. Qed.
Lemma quiet_finishReveal : ph <> PApp -> quiet (at_phase ph) finishReveal.
Proof. intros Hn. unfold finishReveal. quiet_lib. by apply quiet_startApp. Qed.
Lemma quiet_queryCells k : quiet (at_phase ph) (queryCells k).
Proof. unfold queryCells, apiGet. quiet_lib. Qed.
Lemma quiet_copyText t : quiet (at_phase ph) (copyText t).
Proof. unfold copyText. quiet_lib. Qed.

End session.

#[export] Hint Resolve quiet_refreshQueues quiet_refreshGroups quiet_refreshFlows quiet_refreshCells
  quiet_pollHealth quiet_pollCluster quiet_pub_get quiet_pub_delete quiet_pub_post quiet_pub_put quiet_adm_post quiet_startApp
  quiet_password quiet_finishReveal quiet_queryCells quiet_copyText quiet_setToken quiet_submit : quiet.

(** ** Components *)

(** Where the handlers of a component may move the phase. *)
Definition targets (k : place) : list AuthPhase :=
  match k with
  | PlSetup | PlView RSettings => [PReveal]
  | PlGate => [PReveal; PApp]
  | PlReveal => [PApp]
  | _ => []
  end.


Definition vat {V : Type} (ph : AuthPhase) (t : panel * V) : bool := at_phase ph (fst t).

Section views.
Context `{Platform} {V : Type} (ph : AuthPhase).

Lemma vquiet_lib {A : Type} (p : prog panel A) : quiet (at_phase ph) p -> quiet (vat (V:=V) ph) (lib p).
Proof. intros Hp. by apply (quiet_zoom (at_phase ph)). Qed.
Lemma vquiet_upd f : quiet (vat (V:=V) ph) (upd f).
Proof. by apply quiet_modify. Qed.
Lemma vquiet_upd_page f : off_phase f -> quiet (vat (V:=V) ph) (upd_page f).
Proof. intros Hf. apply quiet_modify. intros t. unfold vat, at_phase. simpl. by rewrite Hf. Qed.
Lemma vquiet_eval {A : Type} (e : V -> E A) : quiet (vat ph) (eval e).
Proof. apply quiet_bind; [apply quiet_read|intros r; apply quiet_pure]. Qed.
Lemma vquiet_eval_page {A : Type} (e : panel -> V -> E A) : quiet (vat ph) (eval_page e).
Proof. apply quiet_bind; [apply quiet_read|intros r; apply quiet_pure]. Qed.
Lemma vquiet_for_each l (f : jsval -> vprog V unit) : (forall x, quiet (vat ph) (f x)) -> quiet (vat ph) (for_each l f).
Proof. intros Hf. induction l; [done|]. by apply quiet_bind. Qed.
End views.

Ltac vquiet_step :=
  lazymatch goal with
  | |- quiet _ (eval _) => apply vquiet_eval
  | |- quiet _ (eval_page _) => apply vquiet_eval_page
  | |- quiet _ (upd _) => apply vquiet_upd
  | |- quiet _ (upd_page _) => apply vquiet_upd_page; done
  | |- quiet _ (for_each _ _) => apply vquiet_for_each; intros ?
  | |- quiet _ (lib _) => apply vquiet_lib
  | _ => quiet_step
  end.
Ltac vquiet := repeat first [solve [auto with quiet] | vquiet_step | apply quiet_off_phase; done].

Section tasks.
Context `{Platform} (ph : AuthPhase).

Lemma gate_quiet p : ph ∉ [PReveal; PApp] -> gate_task p -> quiet (vat ph) p.
Proof.
  intros Hn. assert (ph <> PReveal) by set_solver. assert (ph <> PApp) by set_solver.
  destruct 1; unfold_handlers; vquiet.
Qed.
Lemma setup_quiet p : ph ∉ [PReveal] -> setup_task p -> quiet (vat ph) p.
Proof.
  intros Hn. assert (ph <> PReveal) by set_solver.
  destruct 1; unfold_handlers; vquiet.
Qed.
Lemma reveal_quiet p : ph ∉ [PApp] -> reveal_task p -> quiet (vat ph) p.
Proof.
  intros Hn. assert (ph <> PApp) by set_solver.
  destruct 1; unfold_handlers; vquiet.
Qed.
Lemma settings_quiet p : ph ∉ [PReveal] -> settings_task p -> quiet (vat ph) p.
Proof.
  intros Hn. assert (ph <> PReveal) by set_solver.
  destruct 1; unfold_handlers; vquiet.
Qed.
Lemma enqueue_quiet p : enqueue_task p -> quiet (vat ph) p.
Proof. destruct 1; unfold_handlers; vquiet. Qed.
Lemma queues_quiet p : queues_task p -> quiet (vat ph) p.
Proof. destruct 1; unfold_handlers; vquiet. Qed.
Lemma flows_quiet p : flows_task p -> quiet (vat ph) p.
Proof. destruct 1; unfold_handlers; vquiet. Qed.
Lemma publish_quiet p : publish_task p -> quiet (vat ph) p.
Proof. destruct 1; unfold_handlers; vquiet. Qed.
Lemma groups_quiet p : groups_task p -> quiet (vat ph) p.
Proof. destruct 1; unfold_handlers; vquiet. Qed.
Lemma http_quiet p : http_task p -> quiet (vat ph) p.
Proof. destruct 1; unfold_handlers; vquiet. Qed.
Lemma schedules_quiet p : schedules_task p -> quiet (vat ph) p.
Proof. destruct 1; unfold_handlers; vquiet. Qed.
Lemma dlq_quiet p : dlq_task p -> quiet (vat ph) p.
Proof. destruct 1; unfold_handlers; vquiet. Qed.
Lemma overview_quiet p : overview_task p -> quiet (vat ph) p.
Proof. destruct 1; unfold_handlers; vquiet. Qed.
Lemma infra_quiet p : infra_task p -> quiet (vat ph) p.
Proof. destruct 1; unfold_handlers; vquiet. Qed.
Lemma header_quiet p : header_task p -> quiet (vat ph) p.
Proof. destruct 1; unfold_handlers; vquiet. Qed.
Lemma switcher_quiet p : switcher_task p -> quiet (vat ph) p.
Proof. destruct 1; unfold_handlers; vquiet. Qed.
Lemma sidebar_quiet p : sidebar_task p -> quiet (vat ph) p.
Proof. destruct 1; unfold_handlers; vquiet. Qed.
Lemma docs_quiet p : docs_task p -> quiet (vat ph) p.
Proof. destruct 1. Qed.

Lemma place_quiet k (p : vprog (place_state k) unit) : ph ∉ targets k -> tasks p -> quiet (vat ph) p.
Proof.
  destruct k as [| | | | | |[]]; cbn [targets]; [apply setup_quiet|apply gate_quiet|apply reveal_quiet|intros _..|apply settings_quiet];
    [apply header_quiet|apply sidebar_quiet|apply switcher_quiet|apply overview_quiet|apply infra_quiet|apply queues_quiet
    |apply groups_quiet|apply publish_quiet|apply enqueue_quiet|apply flows_quiet|apply schedules_quiet|apply dlq_quiet
    |apply http_quiet|apply docs_quiet].
Qed.

Lemma hook_quiet k : quiet (vat ph) (place_mounted k).
Proof. destruct k as [| | | | | |[]]; cbn [place_mounted]; unfold_handlers; vquiet. Qed.
End tasks.

(** ** Trees *)

Ltac quiet_leaf := lazymatch goal with |- quiet _ _ => solve [unfold_handlers; vquiet] end.
Ltac quiet_offers := unfold_templates; offered_by ltac:(idtac; quiet_leaf).

Section trees.
Context `{Platform} (ph : AuthPhase).

Lemma routed_offers_quiet r p v : ph ∉ targets (PlView r) -> offers (quiet (vat ph)) (routed_render r p v).
Proof.
  intros Hn. assert (Hs : r = RSettings -> ph <> PReveal) by (intros ->; cbn in Hn; set_solver).
  destruct r; cbn [routed_render]; clear Hn; try specialize (Hs eq_refl); quiet_offers.
Qed.

Lemma place_offers_quiet k p v : ph ∉ targets k -> offers (quiet (vat ph)) (place_render k p v).
Proof.
  intros Hn. destruct k as [| | | | | |r]; [| | | | | |by apply routed_offers_quiet]; cbn [place_render targets] in *.
  - assert (ph <> PReveal) by set_solver. quiet_offers.
  - assert (ph <> PReveal) by set_solver. assert (ph <> PApp) by set_solver. quiet_offers.
  - assert (ph <> PApp) by set_solver. quiet_offers.
  - quiet_offers.
  - quiet_offers.
  - quiet_offers.
Qed.
End trees.
