(* ===== verification/Mounting.v ===== *)
(** * Mounting

    What is mounted is what is shown: rendering again leaves one instance of every
    component in the tree mounted, and no other.  The [onMounted] hooks and the
    requests they start never touch the authentication phase, so rendering once
    is enough. *)

From stdpp Require Import base list gmap strings.
From Stdlib Require Import NArith ZArith Lia String SpecFloat.
From S2P Require Import Prelude JsString JsNum JsVal Json Prog State Demo Storage Api Payload Catalog Session View Form Net Liveness.
From S2P Require Import GateView SetupView RevealView SettingsView DocsView EnqueueView QueuesView FlowsView.
From S2P Require Import PublishView GroupsView HttpView SchedulesView DlqView OverviewView InfraView.
From S2P Require Import AppHeader CellSwitcher AppSidebar App Components Offered Page PageProps Phases.

(** ** The phase *)

Lemma start_hook_phase `{Platform} sl c :
  phase (ses (fst (fst (start (at_slot sl (place_mounted (fst sl))) c)))) = phase (ses (fst (fst c))).
Proof.
  destruct c as [[p w] pool]. unfold start. destruct (advance _ _) as [[s' ps] p'] eqn:E. cbn [fst].
  eapply (advance_quiet (vat (phase (ses (fst s'))))) in E as [Hb _].
  - unfold vat, at_phase in Hb. rewrite !bool_decide_eq_true in Hb. cbn in Hb. by rewrite Hb.
  - apply (quiet_zoom (vat (phase (ses (fst s')))) (fun t : panel * instances => (fst t, snd t sl))); [|apply hook_quiet].
    intros [s x] [t w']. cbn. by rewrite put_same.
Qed.

(** ** Rendering again *)

Section rendering.
Context `{Platform}.
Implicit Types u : ui.

Lemma mount_frame u k :
  phase (ses (ui_panel (mount u k))) = phase (ses (ui_panel u)) /\ ui_path (mount u k) = ui_path u /\
  ui_live (mount u k) = ui_live u ++ [(k, ui_next u)] /\ ui_next (mount u k) = S (ui_next u).
Proof.
  split_and!; [|done..]. unfold mount, ui_start, ui_panel. cbn [ui_page set_ui_page].
  rewrite (start_hook_phase (k, ui_next u)). by destruct (ui_page u) as [[p w] pool].
Qed.

Lemma mounts_frame l u : let u' := fold_left mount l u in
  phase (ses (ui_panel u')) = phase (ses (ui_panel u)) /\ ui_path u' = ui_path u /\
  ui_live u' = ui_live u ++ zip l (seq (ui_next u) (List.length l)) /\ ui_next u' = (ui_next u + List.length l)%nat.
Proof.
  revert u. induction l as [|k l IH]; intros u; cbn [fold_left].
  - split_and!; [done..|by rewrite app_nil_r|cbn; lia].
  - destruct (mount_frame u k) as (H1 & H2 & H3 & H4). destruct (IH (mount u k)) as (I1 & I2 & I3 & I4).
    split_and!; [congruence..| |rewrite I4, H4; cbn; lia]. rewrite I3, H3, H4. cbn. by rewrite <- app_assoc.
Qed.

(** What is mounted is what is shown, and instances are numbered in order. *)
Definition in_sync u : Prop :=
  fst <$> ui_live u ≡ₚ shown (ui_panel u) (ui_path u) /\ Forall (fun sl => snd sl < ui_next u)%nat (ui_live u).
Definition numbered u : Prop :=
  NoDup (fst <$> ui_live u) /\ Forall (fun sl => snd sl < ui_next u)%nat (ui_live u).

Lemma route_place_view path : route_place path = None \/ exists r, route_place path = Some (PlView r).
Proof.
  unfold route_place, mbind, option_bind. destruct path as [p|]; [|by left]. destruct (resolve p) as [c|]; [|by left].
  destruct (view_named c) as [r|]; [right; by exists r|by left].
Qed.

Lemma shown_nodup p path : NoDup (shown p path).
Proof.
  rewrite shown_phase. destruct (phase (ses p)); try (apply NoDup_singleton || apply NoDup_nil_2).
  destruct (route_place_view path) as [->|[r ->]]; cbn; repeat (apply NoDup_cons; split; [set_solver|]); apply NoDup_nil_2.
Qed.

Lemma in_sync_numbered u : in_sync u -> numbered u.
Proof. intros [Hl Hn]. split; [|exact Hn]. rewrite Hl. apply shown_nodup. Qed.

Lemma rerender_in_sync u : numbered u -> in_sync (rerender u).
Proof.
  intros [Hd Hn]. unfold rerender. set (now := shown (ui_panel u) (ui_path u)).
  set (kept := filter (fun sl => fst sl ∈ now) (ui_live u)). set (new := filter (fun k => k ∉ fst <$> kept) now).
  destruct (mounts_frame new (set_ui_live kept u)) as (H1 & H2 & H3 & H4).
  assert (Hk : NoDup (fst <$> kept)) by (eapply sublist_NoDup; [exact Hd|apply fmap_sublist, sublist_filter]).
  split.
  - assert (Hnow : shown (ui_panel (fold_left mount new (set_ui_live kept u))) (ui_path (fold_left mount new (set_ui_live kept u))) = now).
    { rewrite shown_phase, H1, H2. symmetry. apply shown_phase. }
    rewrite Hnow, H3, fmap_app, fst_zip by (rewrite length_seq; lia). cbn [ui_live set_ui_live].
    apply NoDup_Permutation.
    + apply NoDup_app. split_and!; [exact Hk| |apply NoDup_filter, shown_nodup].
      intros k Hin [Hno _]%list_elem_of_filter. by apply Hno.
    + apply shown_nodup.
    + intros k. rewrite elem_of_app. unfold new. rewrite list_elem_of_filter.
      destruct (decide (k ∈ fst <$> kept)) as [Hin|Hin]; [|tauto]. split; [intros _|tauto].
      apply list_elem_of_fmap in Hin as (sl & -> & [Hsl _]%list_elem_of_filter). exact Hsl.
  - rewrite H3, H4. cbn [ui_live set_ui_live ui_next]. apply Forall_app. split.
    + apply Forall_forall. intros sl [_ Hin]%list_elem_of_filter. eapply Forall_forall in Hn; [|exact Hin]. cbn in Hn. lia.
    + apply Forall_forall. intros [k i] Hin%elem_of_zip_r. apply elem_of_seq in Hin. cbn in *. lia.
Qed.

Lemma session_in_sync K b u : session_of K b u -> in_sync u.
Proof.
  induction 1 as [|u u' _ IH Hst]; [apply rerender_in_sync; split; [apply NoDup_nil_2|constructor]|].
  apply in_sync_numbered in IH. by destruct Hst; apply rerender_in_sync.
Qed.
End rendering.


