(* ===== verification/AuthMachine.v ===== *)
(** * The authentication machine

    [session.phase] follows a small machine: from the loading screen to the setup
    form, the gate or the application, from there to the revealed token and the
    application, and back and forth between these two, but never back to the
    loading screen, the gate or the setup form.  The code has no such table; it is
    what the handlers amount to, since the programs that may still be waiting when a
    phase is entered are only those started in earlier ones.

    [boots]: what [initAuth] does.  It keeps the loading phase until it leaves it,
    once, and what follows then neither waits for anything nor throws. *)

From stdpp Require Import base list gmap strings.
From Stdlib Require Import NArith ZArith Lia String SpecFloat.
From S2P Require Import Prelude JsString JsNum JsVal Json Prog State Demo Storage Api Payload Catalog Session View Form Net Liveness.
From S2P Require Import GateView SetupView RevealView SettingsView Components Kit Expand Offered Page PageProps Phases Mounting.

Inductive auth_next : AuthPhase -> AuthPhase -> Prop :=
| next_same x : auth_next x x
| loading_setup : auth_next PLoading PSetup
| loading_gate : auth_next PLoading PGate
| loading_app : auth_next PLoading PApp
| setup_reveal : auth_next PSetup PReveal
| gate_reveal : auth_next PGate PReveal
| gate_app : auth_next PGate PApp
| reveal_app : auth_next PReveal PApp
| app_reveal : auth_next PApp PReveal.

(** ** Leaving the loading phase *)

Section boots.
Context {S : Type} (ph : S -> AuthPhase).

Definition in_ph (y : AuthPhase) (s : S) : bool := bool_decide (ph s = y).

(** Never moves the phase. *)
Definition still {A : Type} (p : prog S A) : Prop := forall y, quiet (in_ph y) p.

Fixpoint never_throws {A : Type} (p : prog S A) : Prop :=
  match p with
  | Ret _ => True
  | Throw _ => False
  | Act _ k => forall s, never_throws (k s)
  | Wait _ k => forall x, never_throws (k x)
  | Spawn _ k => never_throws k
  | Par _ _ k => forall r, never_throws (k r)
  end.

Definition left_to (y : AuthPhase) : Prop := y = PSetup \/ y = PGate \/ y = PApp.

Fixpoint boots {A : Type} (R T : bool) (p : prog S A) : Prop :=
  match p with
  | Ret _ => R = true
  | Throw _ => T = true
  | Act f k => forall s, ph s = PLoading ->
      (ph (f s) = PLoading /\ boots R T (k s)) \/ (left_to (ph (f s)) /\ still (k s) /\ never_throws (k s))
  | Wait _ k => forall x, boots R T (k x)
  | _ => False
  end.

(** A prefix in the loading phase. *)
Fixpoint waits {A : Type} (p : prog S A) : Prop :=
  match p with
  | Ret _ | Throw _ => True
  | Act f k => forall s, ph s = PLoading -> ph (f s) = PLoading /\ waits (k s)
  | Wait _ k => forall x, waits (k x)
  | _ => False
  end.

Lemma waits_bind {A B : Type} (p : prog S A) (f : A -> prog S B) : waits p -> (forall a, waits (f a)) -> waits (p ≫= f).
Proof. intros Hp Hf. unfold mbind, prog_mbind. induction p; cbn in *; naive_solver. Qed.

Lemma boots_after {A B : Type} R T (p : prog S A) (f : A -> prog S B) :
  waits p -> T = true -> (forall a, boots R T (f a)) -> boots R T (p ≫= f).
Proof.
  intros Hp HT Hf. unfold mbind, prog_mbind. induction p as [A a|A e|A g k IH|A q k IH| |]; cbn in *; auto; try done.
  intros s Hs. left. destruct (Hp s Hs). split; [done|]. by apply IH.
Qed.

Lemma never_throws_catch {A : Type} (p : prog S A) h : never_throws p -> never_throws (prog_catch p h).
Proof. intros Hp. induction p; cbn in *; auto. done. Qed.

Lemma still_catch {A : Type} (p : prog S A) h : never_throws p -> still p -> still (prog_catch p h).
Proof.
  intros Hn Hp y. specialize (Hp y). induction p; cbn in *; try done; naive_solver.
Qed.

Lemma boots_catch {A : Type} R T (p : prog S A) h :
  boots R true p -> (forall e, boots R T (h e)) -> boots R T (prog_catch p h).
Proof.
  intros Hp Hh. induction p as [A a|A e|A g k IH|A q k IH| |]; cbn in *; auto; try done.
  intros s Hs. destruct (Hp s Hs) as [[H1 H2]|(H1 & H2 & H3)]; [left; auto|]. right.
  split_and!; [done|by apply still_catch|by apply never_throws_catch].
Qed.

Lemma boots_leave {A : Type} R T (f : S -> S) (k : unit -> prog S A) :
  (forall s, left_to (ph (f s))) -> still (k tt) -> never_throws (k tt) -> boots R T (modify f ≫= k).
Proof. intros Hf Hs Hn s _. right. by split_and!. Qed.

Lemma boots_leave_last R T (f : S -> S) : (forall s, left_to (ph (f s))) -> boots R T (modify f).
Proof. intros Hf s _. right. split_and!; [done|by intros y|done]. Qed.

(** Running it: it is still loading and waits for a reply, or it has left. *)
Lemma advance_boots {A : Type} (p : prog S A) s s' ps p' :
  boots false false p -> ph s = PLoading -> advance p s = (s', ps, p') ->
  (ph s' = PLoading /\ ps = [] /\ finished p' = false /\ boots false false p') \/
  (left_to (ph s') /\ Forall still ps /\ still p').
Proof.
  revert s s' ps p'. induction p as [A a|A e|A g k IH|A q k IH| |]; intros s s' ps p' Hp Hs Ha; cbn in Hp, Ha; try done.
  - destruct (Hp s Hs) as [[H1 H2]|(H1 & H2 & _)]; [by eapply IH|]. right.
    assert (Hq : forall y, (in_ph y s' = true -> in_ph y (g s) = true) /\ Forall (quiet (in_ph y)) ps /\ quiet (in_ph y) p')
      by (intros y; eapply advance_quiet; [apply H2|exact Ha]).
    split_and!.
    + destruct (Hq (ph s')) as [Hb _]. unfold in_ph in Hb. rewrite !bool_decide_eq_true in Hb. by rewrite <- Hb.
    + apply Forall_forall. intros r Hr y. destruct (Hq y) as (_ & H3 & _). by eapply Forall_forall in H3.
    + intros y. apply Hq.
  - inv Ha. left. by split_and!.
Qed.

Lemma still_park (p : prog S unit) : still p -> Forall still (park p).
Proof. intros Hp. unfold park. destruct (finished p); by repeat constructor. Qed.
End boots.

(** ** [initAuth] *)

Notation pphase := (fun p : panel => phase (ses p)).

Section session.
Context `{Platform}.

Lemma waits_off f : off_phase f -> waits pphase (modify f).
Proof. intros Hf s Hs. split; [by rewrite Hf|done]. Qed.

Lemma waits_call {A : Type} (m : sync panel A) : (forall p, phase (ses (snd (m p))) = phase (ses p)) -> waits pphase (call m).
Proof. intros Hm s Hs. split; [by rewrite Hm|]. by destruct (fst (m s)). Qed.

Lemma waits_pure {A : Type} (r : E A) : waits pphase (pure r).
Proof. by destruct r. Qed.
Lemma waits_read {A : Type} (g : panel -> A) : waits pphase (read g).
Proof. by intros s Hs. Qed.

Lemma waits_fetch rq : waits pphase (fetch rq).
Proof. intros s Hs. split; [done|]. by intros []. Qed.

Lemma waits_request m url body : waits pphase (request m url body).
Proof.
  unfold request. apply waits_bind.
  - apply waits_call. intros p. unfold on_br, szoom. by destruct (build_request m url body (br p)).
  - intros rq. apply waits_bind; [apply waits_fetch|]. intros r. apply waits_pure.
Qed.

Lemma waits_setToken t : waits pphase (call (setToken t)).
Proof.
  apply waits_call. intros p. unfold setToken, mbind, sync_mbind, smod, sget, on_br, szoom. simpl.
  by destruct (saveToken _ t (br p)) as [[] b].
Qed.

Lemma waits_auth_config : waits pphase auth_config.
Proof.
  unfold auth_config. apply waits_bind; [apply waits_read|]. intros url. apply waits_bind; [apply waits_fetch|].
  intros r. apply waits_pure.
Qed.

Lemma boots_startApp R T : boots pphase R T startApp.
Proof.
  unfold startApp. apply boots_leave; [by right; right|intros y|done]. unfold in_ph. fold (at_phase y).
  quiet_lib.
Qed.

Lemma still_off f : off_phase f -> still pphase (modify f).
Proof. intros Hf y. by apply (quiet_off_phase y). Qed.

Lemma boots_check_token : boots pphase false true check_token.
Proof.
  unfold check_token, apiGet. apply boots_catch.
  - apply boots_after; [apply waits_read|done|intros url]. apply boots_after; [apply waits_request|done|intros _].
    apply boots_startApp.
  - intros e. apply boots_after; [apply waits_setToken|done|intros _].
    apply boots_leave; [by right; left|by apply still_off|done].
Qed.

Lemma boots_enter a : boots pphase false true (enter a).
Proof.
  unfold enter. apply boots_after; [by apply waits_off|done|intros _]. apply boots_after; [apply waits_read|done|intros ext].
  apply boots_after; [apply waits_pure|done|intros cp]. destruct (_ && _); [apply boots_startApp|].
  apply boots_after; [apply waits_pure|done|intros conf]. destruct (negb _).
  - apply boots_after; [apply waits_setToken|done|intros _]. apply boots_leave_last. by left.
  - apply boots_after; [apply waits_read|done|intros t]. destruct (negb _); [apply boots_leave_last; by right; left|].
    apply boots_check_token.
Qed.

Lemma boots_initAuth : boots pphase false false initAuth.
Proof.
  assert (Hb : forall k : unit -> prog panel unit, boots pphase false false (k tt) ->
    boots pphase false false (modify begin_auth ≫= k)) by (intros k Hk s _; by left).
  unfold initAuth. apply Hb. apply boots_catch.
  - apply boots_after; [apply waits_auth_config|done|intros a]. apply boots_after; [apply waits_auth_config|done|intros b].
    apply boots_after; [apply waits_pure|done|intros d]. destruct d; [apply boots_leave_last; by right; left|apply boots_enter].
  - intros e. apply boots_leave; [by right; left|by apply still_off|done].
Qed.
End session.

(** ** Sessions *)

Notation iphase := (fun t : panel * instances => phase (ses (fst t))).

Section sessions.
Context `{Platform}.
Notation task := (vprog instances unit).

Definition never (Y : list AuthPhase) (p : task) : Prop := forall y, y ∈ Y -> quiet (vat y) p.

(** The phases that what is still waiting cannot enter. *)
Definition barred (x : AuthPhase) : list AuthPhase :=
  match x with PSetup => [PLoading; PSetup; PGate; PApp] | _ => [PLoading; PSetup; PGate] end.

Definition phase_inv (c : config (panel * instances)) : Prop :=
  match iphase (fst c) with
  | PLoading => exists p l, snd c ≡ₚ p :: l /\ boots iphase false false p /\ Forall (still iphase) l
  | x => Forall (never (barred x)) (snd c)
  end.

Lemma phase_inv_perm s l l' : l ≡ₚ l' -> phase_inv (s, l) -> phase_inv (s, l').
Proof.
  intros Hl. unfold phase_inv. cbn [fst snd]. destruct (iphase s); try by rewrite Hl.
  intros (p & k & Hp & ? & ?). exists p, k. by rewrite <- Hl.
Qed.

Lemma still_never Y (p : task) : still iphase p -> never Y p.
Proof. intros Hp y _. exact (Hp y). Qed.

Lemma advance_still {A : Type} (p : vprog instances A) s s' ps p' : still iphase p -> advance p s = (s', ps, p') ->
  iphase s' = iphase s /\ Forall (still iphase) ps /\ still iphase p'.
Proof.
  intros Hp Ha.
  assert (Hq : forall y, (in_ph iphase y s' = true -> in_ph iphase y s = true) /\ Forall (quiet (in_ph iphase y)) ps /\
    quiet (in_ph iphase y) p') by (intros y; eapply advance_quiet; [apply Hp|exact Ha]).
  split_and!.
  - destruct (Hq (iphase s')) as [Hb _]. unfold in_ph in Hb. rewrite !bool_decide_eq_true in Hb. by rewrite Hb.
  - apply Forall_forall. intros r Hr y. destruct (Hq y) as (_ & H3 & _). by eapply Forall_forall in H3.
  - intros y. apply Hq.
Qed.

(** A program that never moves the phase. *)
Lemma run_still (p : task) s l s' ps p' : still iphase p -> advance p s = (s', ps, p') -> phase_inv (s, l) ->
  phase_inv (s', l ++ ps ++ park p') /\ iphase s' = iphase s.
Proof.
  intros Hp Ha Hl. destruct (advance_still _ _ _ _ _ Hp Ha) as (Hs & Hps & Hp'). split; [|exact Hs].
  assert (Hk : Forall (still iphase) (ps ++ park p')) by (apply Forall_app; split; [done|by apply still_park]).
  unfold phase_inv in *. cbn [fst snd] in *. rewrite Hs.
  destruct (iphase s); try (apply Forall_app; split; [done|]; eapply Forall_impl; [exact Hk|apply still_never]).
  destruct Hl as (q & k & Hq & ? & ?). exists q, (k ++ ps ++ park p'). split_and!; [by rewrite Hq|done|by apply Forall_app].
Qed.

Lemma allowed_next x x' : x <> PLoading -> (forall y, y ∈ barred x -> x' = y -> x = y) ->
  auth_next x x' /\ x' <> PLoading /\ barred x' ⊆ barred x.
Proof.
  intros Hx Hq. unfold barred in *.
  destruct x, x'; try done; first
    [ split; [constructor|split; [done|set_solver]]
    | match goal with |- auth_next _ ?y /\ _ => by discriminate (Hq y ltac:(set_solver) eq_refl) end ].
Qed.

(** One that waits since an earlier phase, or starts in this one. *)
Lemma run_never (p : task) s l s' ps p' : iphase s <> PLoading -> never (barred (iphase s)) p ->
  advance p s = (s', ps, p') -> phase_inv (s, l) ->
  phase_inv (s', l ++ ps ++ park p') /\ auth_next (iphase s) (iphase s').
Proof.
  intros Hx Hp Ha Hl.
  assert (Hq : forall y, y ∈ barred (iphase s) -> (iphase s' = y -> iphase s = y) /\ Forall (quiet (vat y)) (ps ++ park p')).
  { intros y Hy. destruct (advance_quiet _ _ _ _ _ _ (Hp y Hy) Ha) as (H1 & H2 & H3). unfold vat, at_phase in H1.
    rewrite !bool_decide_eq_true in H1. split; [exact H1|]. apply Forall_app. split; [done|by apply quiet_park]. }
  assert (Hall : Forall (never (barred (iphase s))) (l ++ ps ++ park p')).
  { apply Forall_app. split; [unfold phase_inv in Hl; cbn [fst snd] in Hl; by destruct (iphase s)|].
    apply Forall_forall. intros r Hr y Hy. by eapply Forall_forall in Hr; [|apply Hq]. }
  assert (Hweak : forall Y, Y ⊆ barred (iphase s) -> Forall (never Y) (l ++ ps ++ park p')).
  { intros Y HY. eapply Forall_impl; [exact Hall|]. intros r Hr y Hy. by apply Hr, HY. }
  destruct (allowed_next (iphase s) (iphase s') Hx) as (H1 & H2 & H3); [intros y Hy; by apply Hq|]. split; [|exact H1].
  unfold phase_inv. cbn [fst snd]. specialize (Hweak _ H3). by destruct (iphase s').
Qed.

(** The one that leaves the loading phase. *)
Lemma run_boots (p : task) s l s' ps p' : iphase s = PLoading -> boots iphase false false p -> Forall (still iphase) l ->
  advance p s = (s', ps, p') -> phase_inv (s', l ++ ps ++ park p') /\ auth_next PLoading (iphase s').
Proof.
  intros Hs Hp Hl Ha. destruct (advance_boots _ _ _ _ _ _ Hp Hs Ha) as [(H1 & -> & H2 & H3)|(H1 & H2 & H3)].
  - rewrite H1. split; [|constructor]. unfold phase_inv. cbn [fst snd]. rewrite H1. exists p', l.
    unfold park. rewrite H2. split_and!; [by rewrite Permutation_app_comm|done|done].
  - assert (Hk : Forall (still iphase) (l ++ ps ++ park p'))
      by (rewrite !Forall_app; split_and!; [done|done|by apply still_park]).
    unfold phase_inv. cbn [fst snd].
    destruct H1 as [E|[E|E]]; rewrite E; (split; [eapply Forall_impl; [exact Hk|apply still_never]|constructor]).
Qed.

(** *** Steps of a page *)

Lemma start_still (p : task) c : still iphase p -> phase_inv c -> phase_inv (start p c) /\ iphase (fst (start p c)) = iphase (fst c).
Proof.
  destruct c as [s l]. intros Hp Hc. unfold start. destruct (advance p s) as [[s' ps] p'] eqn:Ea. by eapply run_still.
Qed.

Lemma start_never (p : task) c : iphase (fst c) <> PLoading -> never (barred (iphase (fst c))) p -> phase_inv c ->
  phase_inv (start p c) /\ auth_next (iphase (fst c)) (iphase (fst (start p c))).
Proof.
  destruct c as [s l]. intros Hx Hp Hc. unfold start. destruct (advance p s) as [[s' ps] p'] eqn:Ea. by eapply run_never.
Qed.

Lemma boots_resume n x (p : task) : boots iphase false false p -> boots iphase false false (resume n x p).
Proof. destruct p; cbn; auto; done. Qed.
Lemma still_resume n x (p : task) : still iphase p -> still iphase (resume n x p).
Proof. intros Hp y. by apply resume_quiet. Qed.

Lemma deliver_phase i n x c : phase_inv c ->
  phase_inv (deliver i n x c) /\ auth_next (iphase (fst c)) (iphase (fst (deliver i n x c))).
Proof.
  destruct c as [s pool]. intros Hc. unfold deliver. destruct (pool !! i) as [q|] eqn:Hi; [|by split; [|constructor]].
  rewrite Nat.add_1_r. pose proof (take_drop_middle pool i q Hi) as Hm.
  destruct (advance (resume n x q) s) as [[s' ps] q'] eqn:Ea. cbn [fst].
  set (l := take i pool ++ drop (S i) pool).
  assert (Hpool : pool ≡ₚ q :: l) by (unfold l; rewrite <- Hm at 1; by rewrite Permutation_middle).
  assert (Hres : take i pool ++ park q' ++ drop (S i) pool ++ ps ≡ₚ l ++ ps ++ park q') by (unfold l; solve_Permutation).
  cut (phase_inv (s', l ++ ps ++ park q') /\ auth_next (iphase s) (iphase s')).
  { intros [H1 H2]. split; [|exact H2]. by eapply phase_inv_perm. }
  apply (phase_inv_perm _ _ _ Hpool) in Hc. destruct (decide (iphase s = PLoading)) as [Hs|Hs].
  - unfold phase_inv in Hc. cbn [fst snd] in Hc. rewrite Hs in Hc. destruct Hc as (p & k & Hp & Hb & Hk).
    apply Permutation_cons_inv_r in Hp as ([|r k1] & k2 & Hq & Hkk); injection Hq as -> Hl.
    + rewrite Hs. eapply run_boots; [exact Hs|by apply boots_resume| |exact Ea]. rewrite Hl, <- app_nil_l, <- Hkk. done.
    + rewrite Hkk in Hk. cbn in Hk. apply Forall_cons in Hk as [Hr Hk].
      assert (Hin : phase_inv (s, l)).
      { unfold phase_inv. cbn [fst snd]. rewrite Hs. exists p, (k1 ++ k2). rewrite Hl. split_and!; [|done|done].
        by rewrite Permutation_middle. }
      destruct (run_still _ _ _ _ _ _ (still_resume n x _ Hr) Ea Hin) as [H1 H2]. split; [exact H1|]. rewrite H2. constructor.
  - assert (Hf : Forall (never (barred (iphase s))) (q :: l))
      by (unfold phase_inv in Hc; cbn [fst snd] in Hc; by destruct (iphase s)).
    apply Forall_cons in Hf as [Hq Hl]. eapply run_never; [exact Hs| |exact Ea|].
    + intros y Hy. by apply resume_quiet, Hq.
    + unfold phase_inv. cbn [fst snd]. by destruct (iphase s).
Qed.

(** *** Steps of a session *)

Lemma at_slot_quiet y sl (p : vprog (place_state (fst sl)) unit) : quiet (vat y) p -> quiet (vat y) (at_slot sl p).
Proof.
  apply (quiet_zoom (vat y) (fun t : panel * instances => (fst t, snd t sl))).
  intros [s x] [t w]. cbn. by rewrite put_same.
Qed.

Lemma rerender_phase u : phase_inv (ui_page u) ->
  phase_inv (ui_page (rerender u)) /\ phase (ses (ui_panel (rerender u))) = phase (ses (ui_panel u)).
Proof.
  unfold rerender. set (l := filter _ (shown _ _)). clearbody l.
  set (v := set_ui_live _ u). change (ui_panel u) with (ui_panel v). change (ui_page u) with (ui_page v). clearbody v.
  revert v. induction l as [|k l IH]; intros v Hv; [done|]. cbn [fold_left].
  destruct (start_still (upd (put_instance (k, ui_next v) (place_setup k (ui_panel v) (ui_path v)))) (ui_page v)) as [H1 E1];
    [by intros y; apply (vquiet_upd y)|done|].
  eapply (start_still (at_slot (k, ui_next v) (place_mounted k))) in H1 as [H2 E2];
    [|intros y; apply (at_slot_quiet y), hook_quiet].
  destruct (IH (mount v k)) as [H3 E3]; [exact H2|]. split; [exact H3|]. rewrite E3. exact (eq_trans E2 E1).
Qed.

(** The components of a phase do not enter what is barred from it. *)
Lemma shown_targets p path k y : k ∈ shown p path -> y ∈ barred (phase (ses p)) -> y ∉ targets k.
Proof.
  rewrite shown_phase. destruct (phase (ses p)); intros Hk Hy; cbn [barred] in Hy;
    try (apply list_elem_of_singleton in Hk; subst k; cbn; set_solver).
  - by apply not_elem_of_nil in Hk.
  - clear Hk. destruct k as [| | | | | |[]]; cbn; set_solver.
Qed.

Lemma step_phase K b u u' : session_of K b u -> ui_step K u u' -> phase_inv (ui_page u) ->
  phase_inv (ui_page u') /\ auth_next (phase (ses (ui_panel u))) (phase (ses (ui_panel u'))).
Proof.
  intros Hu Hst Hi. destruct (session_in_sync K b u Hu) as [Hsync _].
  assert (Hcut : forall v, phase_inv (ui_page v) /\ auth_next (phase (ses (ui_panel u))) (phase (ses (ui_panel v))) ->
    phase_inv (ui_page (rerender v)) /\ auth_next (phase (ses (ui_panel u))) (phase (ses (ui_panel (rerender v))))).
  { intros v [H1 H2]. destruct (rerender_phase v H1) as [H3 ->]. done. }
  assert (Hquiet : forall p : task, still iphase p -> phase_inv (ui_page (ui_start p u)) /\
    auth_next (phase (ses (ui_panel u))) (phase (ses (ui_panel (ui_start p u))))).
  { intros p Hp. destruct (start_still p (ui_page u) Hp Hi) as [H1 H2]. split; [exact H1|].
    unfold ui_panel. cbn [ui_page ui_start set_ui_page]. rewrite H2. constructor. }
  destruct Hst as [sl h x Hsl Hh|i n x q _ _|id k _|path|dark|t]; apply Hcut.
  - assert (Hin : fst sl ∈ shown (ui_panel u) (ui_path u)) by (rewrite <- Hsync; by apply list_elem_of_fmap_2).
    assert (Hoff : forall y, y ∉ targets (fst sl) -> quiet (vat y) (at_slot sl (h x))).
    { intros y Hy. apply at_slot_quiet. unfold slot_handlers in Hh.
      pose proof (place_offers_quiet y (fst sl) (ui_panel u) (ui_states u sl) Hy) as Ho.
      destruct (place_render _ _ _) as [ns|e]; [|by apply not_elem_of_nil in Hh].
      apply list_elem_of_fmap in Hh as ([k h'] & -> & Hin'). specialize (Ho ns eq_refl). rewrite Forall_forall in Ho.
      exact (Ho _ Hin' x). }
    apply start_never; [|intros y Hy; by eapply Hoff, shown_targets|exact Hi].
    intros E. rewrite shown_phase in Hin. unfold ui_panel in Hin. rewrite E in Hin. by apply not_elem_of_nil in Hin.
  - by apply deliver_phase.
  - apply Hquiet. intros y. destruct k; [apply (vquiet_lib y), quiet_pollHealth|apply (vquiet_lib y), quiet_pollCluster].
  - apply (Hquiet (upd (follow (landing path)))). intros y. apply (vquiet_upd y).
  - apply Hquiet. intros y. apply (vquiet_upd_page y). intros p. unfold system_theme_changed. by case_decide.
  - apply Hquiet. intros y. by apply (vquiet_upd_page y).
Qed.

Lemma still_zoom {A : Type} (p : prog panel A) : still pphase p -> still iphase (lib (V:=instances) p).
Proof. intros Hp y. exact (vquiet_lib y p (Hp y)). Qed.

Lemma never_throws_zoom {A : Type} (p : prog panel A) : never_throws p -> never_throws (lib (V:=instances) p).
Proof. unfold lib. intros Hp. induction p; cbn in *; auto. Qed.

Lemma boots_lib {A : Type} R T (p : prog panel A) : boots pphase R T p -> boots iphase R T (lib (V:=instances) p).
Proof.
  unfold lib. induction p as [A a|A e|A g k IH|A q k IH| |]; intros Hp; cbn in *; auto; try done.
  intros [s w] Hs. destruct (Hp s Hs) as [[H1 H2]|(H1 & H2 & H3)]; [left; auto|right].
  split_and!; [done|by apply still_zoom|by apply never_throws_zoom].
Qed.

Lemma mounted_phase b : phase_inv (mounted_page b).
Proof.
  unfold mounted_page. assert (He : lib (V:=instances) app_mounted = spawn (lib initAuth)) by reflexivity.
  rewrite He, start_spawn. change (page_start b) with (fst (page_start b), @nil task).
  assert (Hph : iphase (fst (page_start b)) = PLoading)
    by (unfold page_start, init_panel; cbn [fst]; by destruct (loadSavedToken _ b)).
  revert Hph. generalize (fst (page_start b)).
  intros s Hph. pose proof (boots_lib _ _ _ boots_initAuth) as Hb. revert Hb. generalize (lib (V:=instances) initAuth). intros p Hb.
  unfold start. destruct (advance p s) as [[s' ps] p'] eqn:Ea.
  exact (proj1 (run_boots p s [] s' ps p' Hph Hb (Forall_nil_2 _) Ea)).
Qed.

Lemma main_phase b : phase_inv (ui_page (main b)).
Proof.
  exact (proj1 (rerender_phase {| ui_page := mounted_page b; ui_live := []; ui_next := 0; ui_path := None |} (mounted_phase b))).
Qed.

Lemma session_phase K b u : session_of K b u -> phase_inv (ui_page u).
Proof. induction 1 as [|u u' Hu IH Hst]; [apply main_phase|]. by eapply step_phase. Qed.
End sessions.

(** C3: The authentication machine.  Whatever the user does and whatever is answered
    in whatever order, every step of a session keeps the phase or moves it along
    the machine: from loading to the setup form, the gate or the application; from
    the setup form only to a new token; from the gate to a new token or the
    application; and then between these two.  Handlers that were started in an
    earlier phase and are still waiting make no exception, so the loading screen,
    the setup form and the gate never come back once they are left. *)
Theorem phases_follow_machine `{Platform} K b u u' :
  session_of K b u -> ui_step K u u' -> auth_next (phase (ses (ui_panel u))) (phase (ses (ui_panel u'))).
Proof. intros Hu Hst. by apply (step_phase K b u u' Hu Hst), (session_phase K b). Qed.

(** The broker answers the submitted setup form with a token. *)
Definition demo_token : reply := ok_reply (jsq "{'token':'sk_local_1'}").

Lemma phases_follow_machine_witness :
  phase (ses (ui_panel demo_submitted)) = PSetup /\ phase (ses (ui_panel (demo_reply 0 demo_token demo_submitted))) = PReveal /\
  auth_next (phase (ses (ui_panel demo_submitted))) (phase (ses (ui_panel (demo_reply 0 demo_token demo_submitted)))).
Proof.
  split; [by vm_compute|]. split; [by vm_compute|].
  apply (@phases_follow_machine demo_platform any_reply demo_browser); [exact demo_submitted_session|].
  destruct (outstanding (ui_page demo_submitted) 0 0) as [q|] eqn:E; [|by vm_compute in E].
  exact (@ui_reply demo_platform any_reply demo_submitted 0 0 demo_token q E Logic.I).
Defined.
