(* ===== verification/AuthProps.v ===== *)
(** * Properties of the refreshers, the password flows and the authentication views *)

From stdpp Require Import base list gmap strings.
From Stdlib Require Import NArith ZArith Lia String SpecFloat.
From S2P Require Import Prelude JsString JsNum JsVal Json Prog State Demo Storage Api Payload Catalog Session SessionProps.
From S2P Require Import View Form GateView SetupView RevealView SettingsView.
Local Open Scope js_scope.

(** ** Refreshers *)

Section refresh.
Context `{Platform}.

(** Nothing was sent but perhaps one GET. *)
Definition only_read (b b' : browser) : Prop :=
  exists l, sent b' = l ++ sent b /\ Forall (fun rq => rq_method rq = js "GET") l.

Lemma only_read_refl b b' : sent b' = sent b -> only_read b b'.
Proof. by exists []. Qed.
Lemma only_read_get u p : only_read (br p) (br (after_request (js "GET") u None p)).
Proof. eexists [_]. rewrite after_request_sent. split; [done|]. by repeat constructor. Qed.
Lemma only_read_bad p : only_read (br p) (br (set_br (snd (authHeaders (br p))) p)).
Proof. apply only_read_refl, authHeaders_sent. Qed.

(** A refresh of one catalog list, whatever the reply. *)
Lemma exec_refresh path k (set : jsval -> catalog_state -> catalog_state) x p :
  exists p' rest,
    exec (prog_catch
      (url ← public path; d ← apiGet url; v ← pure (list_field d k); modify (on_cat (set v)))
      (fun _ => modify (on_cat (set (VArr []))))) [x] p = Some (Ok tt, p', rest, []) /\
    cat p' = set (match check_result p x ≫= (fun d => list_field d k) with Ok v => v | Exn _ => VArr [] end) (cat p) /\
    ses p' = ses p /\ only_read (br p) (br p').
Proof.
  rewrite exec_catch. unfold public. rewrite exec_read_bind, exec_mbind. unfold apiGet, check_result.
  destruct (header_ok (br p)) eqn:Eh.
  - rewrite exec_request_ok by done. cbn [exec_then]. rewrite add_parked_nil.
    destruct (reply_result x) as [d|e]; [|cbn [exec_then]; rewrite add_parked_nil; eexists _, _; split_and!; try done; apply only_read_get].
    rewrite exec_pure_bind. cbn [mbind result_bind].
    destruct (list_field d k) as [v|e]; eexists _, _; split_and!; try done; apply only_read_get.
  - rewrite exec_request_bad by done. eexists _, _; split_and!; try done. apply only_read_bad.
Qed.

(** The three catalog lists: the broker's answer when it has one, else empty. *)
Definition refresh_post (k : jstring) (field : catalog_state -> jsval) (others : catalog_state -> jsval * jsval)
    (q : prog panel unit) : Prop :=
  forall x p, exists p' rest, exec q [x] p = Some (Ok tt, p', rest, []) /\
    field (cat p') = match check_result p x ≫= (fun d => list_field d k) with Ok v => v | Exn _ => VArr [] end /\
    others (cat p') = others (cat p) /\ ses p' = ses p /\ only_read (br p) (br p').

Lemma refresh_post_intro k path set field others :
  (forall v c, field (set v c) = v) -> (forall v c, others (set v c) = others c) ->
  refresh_post k field others (prog_catch
      (url ← public path; d ← apiGet url; v ← pure (list_field d k); modify (on_cat (set v)))
      (fun _ => modify (on_cat (set (VArr []))))).
Proof.
  intros Hf Ho x p. destruct (exec_refresh path k set x p) as (p' & rest & He & Hc & Hs & Hr).
  exists p', rest. by rewrite Hc, Hf, Ho.
Qed.
End refresh.

Lemma refreshers_spec `{Platform} :
  refresh_post (js "queues") queues (fun c => (groups c, flows c)) refreshQueues /\
  refresh_post (js "groups") groups (fun c => (queues c, flows c)) refreshGroups /\
  refresh_post (js "flows") flows (fun c => (queues c, groups c)) refreshFlows.
Proof.
  split_and!.
  - exact (refresh_post_intro (js "queues") (js "/v1/queues") set_queues queues
      (fun c => (groups c, flows c)) (fun _ _ => eq_refl) (fun _ _ => eq_refl)).
  - exact (refresh_post_intro (js "groups") (js "/v1/groups") set_groups groups
      (fun c => (queues c, flows c)) (fun _ _ => eq_refl) (fun _ _ => eq_refl)).
  - exact (refresh_post_intro (js "flows") (js "/v1/flows") set_flows flows
      (fun c => (queues c, groups c)) (fun _ _ => eq_refl) (fun _ _ => eq_refl)).
Qed.

(** The catalog refreshers always end normally, change nothing but their own
    list (and send nothing but a GET), and leave in it exactly the broker's list when the request succeeded and
    has one, and the empty list in every other case. *)
Theorem refreshers_total `{Platform} :
  refresh_post (js "queues") queues (fun c => (groups c, flows c)) refreshQueues /\
  refresh_post (js "groups") groups (fun c => (queues c, flows c)) refreshGroups /\
  refresh_post (js "flows") flows (fun c => (queues c, groups c)) refreshFlows.
Proof. exact refreshers_spec. Qed.

(** ** Health and cluster *)

(** What [pollHealth] shows for a reply. *)
Definition health_of (x : reply) : bool * jsval :=
  let down := (false, VStr (js "down")) in
  match x with
  | Responded r =>
      let fallback := e_str (if rs_ok r then js "ok" else js "down") in
      match e_or (get (match json_of r with Ok v => v | Exn _ => VObj [] end) (js "version")) fallback with
      | Ok v => (rs_ok r, v)
      | Exn _ => down
      end
  | _ => down
  end.

(** [pollHealth] always ends normally and shows the broker as up exactly when
    it answered with a success status (and, in the pathological case of a body
    that is the JSON [null], as down). *)
Theorem pollHealth_total `{Platform} x y p :
  exists p' rest, exec pollHealth [x; y] p = Some (Ok tt, p', rest, []) /\
    (healthOk (ses p'), health (ses p')) = health_of x /\ core p' = core p.
Proof.
  unfold pollHealth. rewrite exec_catch. unfold public. rewrite exec_read_bind, exec_mbind. unfold fetch.
  destruct x as [r|e|b]; simpl; [|by eexists _, _..].
  unfold e_or. destruct (get _ _) as [v|e]; simpl; [|by eexists _, _].
  destruct (truthy v); by eexists _, _.
Qed.

(** ** Passwords and tokens *)

Section tokens.
Context `{Platform}.

(** [setToken] of a string never throws; the session and the store get it. *)
Lemma setToken_str t p : normalize_str t <> [] ->
  exists p', setToken (VStr t) p = (Ok tt, p') /\
    core p' = core (on_ses (set_token (VStr t)) p) /\
    fst (loadSavedToken (apiBase (ses p)) (br p')) = normalize_str t.
Proof.
  intros Hne. unfold setToken, mbind, sync_mbind, smod, sget, on_br, szoom. cbn [ses on_ses apiBase set_ses set_token].
  destruct (save_load_token (apiBase (ses p)) t _ (br p) eq_refl Hne) as (b' & Hs & Hl).
  change (br (on_ses (set_token (VStr t)) p)) with (br p). rewrite Hs.
  eexists; split; [done|]. split; [done|]. simpl. by rewrite Hl.
Qed.

(** The outcome of a password flow: what the broker answered, and the page after it. *)
Definition password_post (p : panel) (x : reply) (o : E unit) (p' : panel) : Prop :=
  match reply_result x ≫= (fun res => get res (js "token")) with
  | Ok (VStr t) =>
      normalize_str t <> [] ->
      o = Ok tt /\ phase (ses p') = PReveal /\ token (ses p') = VStr t /\ revealedToken (ses p') = VStr t /\
      fst (loadSavedToken (apiBase (ses p)) (br p')) = normalize_str t
  | Ok _ => True
  | Exn e => o = Exn e /\ ses p' = ses p
  end.

Lemma setToken_sent v p : sent (br (snd (setToken v p))) = sent (br p).
Proof.
  unfold setToken, mbind, sync_mbind, smod, sget, on_br, szoom, saveToken, spure. simpl.
  destruct (normalizeToken v) as [[|]|]; simpl; unfold store_remove, store_set; by destruct (session_storage (br p)).
Qed.

Lemma exec_password_flow path pw x p : header_ok (br p) = true ->
  exists o p', exec (password_flow path pw) [x] p = Some (o, p', [], []) /\ password_post p x o p' /\
    sent (br p') = mk_request (js "POST") (publicUrl path (br p)) (json_body (Some (VObj ["password" ~> pw]))) (br p)
                     :: sent (br p).
Proof.
  intros Hh. unfold password_flow, public. rewrite exec_read_bind, exec_mbind. unfold apiPost.
  rewrite exec_request_ok by done. cbn [exec_then]. rewrite add_parked_nil.
  pose proof (after_request_sent (js "POST") (publicUrl path (br p)) (json_body (Some (VObj ["password" ~> pw]))) p) as Hq.
  set (q := after_request _ _ _ p) in *.
  unfold password_post. destruct (reply_result x) as [res|e]; cbn [mbind result_bind]; [|eauto 10].
  rewrite exec_pure_bind. destruct (get res (js "token")) as [v|e]; [|eauto 10].
  rewrite exec_call_bind. pose proof (setToken_sent v q) as Hs.
  assert (Hstr : forall t, v = VStr t -> normalize_str t <> [] -> exists q', setToken v q = (Ok tt, q') /\
    core q' = core (on_ses (set_token (VStr t)) q) /\
    fst (loadSavedToken (apiBase (ses p)) (br q')) = normalize_str t) by (intros t ->; apply (setToken_str t q)).
  destruct (setToken v q) as [[[]|e] q']; cbn [snd] in Hs.
  - eexists _, _. split; [done|]. split; [|rewrite <- Hq; exact Hs].
    destruct v as [| | | |t| | |]; try done. intros Hn.
    destruct (Hstr t eq_refl Hn) as (q2 & [= <-] & Hc & Hl). split_and!; [done..|core_eq|done|done].
  - eexists _, _. split; [done|]. split; [|rewrite <- Hq; exact Hs].
    destruct v as [| | | |t| | |]; try done. intros Hn.
    by destruct (Hstr t eq_refl Hn) as (q2 & [=] & _).
Qed.
End tokens.

(** C11: Setting a password and regenerating the token.  Exactly one request is
    sent, a POST of the password to the page's API base; when the broker returns
    a token, it becomes the session's token, is stored, and is revealed; when the
    request fails, the error is the broker's and the session is untouched. *)
Theorem password_flows `{Platform} pw x p :
  header_ok (br p) = true ->
  let posted path o p' :=
    password_post p x o p' /\
    sent (br p') = mk_request (js "POST") (publicUrl path (br p)) (json_body (Some (VObj ["password" ~> pw]))) (br p)
                     :: sent (br p) in
  (exists o p', exec (setupPassword pw) [x] p = Some (o, p', [], []) /\ posted (js "/v1/local-auth/setup") o p') /\
  (exists o p', exec (regenerateToken pw) [x] p = Some (o, p', [], []) /\
    posted (js "/v1/local-auth/regenerate") o p').
Proof.
  intros Hh posted. split; apply exec_password_flow; done.
Qed.

Definition demo_panel : panel := @init_panel demo_platform demo_browser.
Definition token_reply : reply := ok_reply (jsq "{'token':'sk_local_9'}").

Lemma password_flows_witness :
  exists p', exec (@setupPassword demo_platform (VStr (js "correct horse"))) [token_reply] demo_panel
             = Some (Ok tt, p', [], []) /\ revealedToken (ses p') = VStr (js "sk_local_9").
Proof.
  destruct (proj1 (@password_flows demo_platform (VStr (js "correct horse")) token_reply demo_panel eq_refl))
    as (o & p' & He & Hp & _).
  assert (Hx : reply_result token_reply ≫= (fun res => get res (js "token")) = Ok (VStr (js "sk_local_9")))
    by (by vm_compute).
  unfold password_post in Hp. rewrite Hx in Hp. destruct Hp as (-> & _ & _ & Hr & _); [by vm_compute|].
  by exists p'.
Defined.

(** ** The gate *)

Section gate.
Context `{Platform}.

(** Why a pasted token is refused before anything is sent. *)
Definition gate_refusal (t : jstring) : jsval :=
  new_error (match t with
             | [] => js "Paste your sk_local_… token."
             | _ => js "Expected a sk_local_… token from this broker's setup."
             end).

(** The verdict on a pasted token: refused at once, or what the broker says to
    [GET /v1/queues] sent with it. *)
Definition gate_verdict (s : jstring) (x : reply) (p : panel) : E jsval :=
  if starts_with (js "sk_local_") (trim s)
  then check_result (snd (setToken (VStr (trim s)) p)) x
  else Exn (gate_refusal (trim s)).

Lemma setToken_ok t p : fst (setToken (VStr t) p) = Ok tt /\
  core (snd (setToken (VStr t) p)) = core (on_ses (set_token (VStr t)) p).
Proof.
  unfold setToken, mbind, sync_mbind, smod, sget, on_br, szoom, saveToken, spure. simpl.
  assert (Hn : normalizeToken (VStr t) = Ok (normalize_str t)) by (by destruct t). rewrite Hn.
  destruct (normalize_str t); split; done.
Qed.

Lemma submitGateToken_str s p :
  submitGateToken (VStr s) p =
  if starts_with (js "sk_local_") (trim s) then setToken (VStr (trim s)) p
  else (Exn (gate_refusal (trim s)), p).
Proof.
  unfold submitGateToken, e_trim, mbind, sync_mbind, spure, result_bind. cbn [str_method].
  destruct (trim s) as [|c t]; [done|]. by destruct (starts_with (js "sk_local_") (c :: t)).
Qed.

(** The body of [continueWithToken] up to its [catch]. *)
Definition gate_attempt : vprog GateView.state unit :=
  t ← local GateView.s_token;
  _ ← lib (call (submitGateToken t));
  _ ← lib (pub_get (js "/v1/queues"));
  lib startApp.

Lemma exec_gate_attempt s x p v :
  GateView.s_token v = VStr s ->
  exists o p' rest ps, exec gate_attempt [x] (p, v) = Some (o, (p', v), rest, ps) /\
    match gate_verdict s x p with
    | Ok _ => o = Ok tt /\ core p' = core (on_tm restart_timers (on_ses (fun s' => set_phase PApp (set_token (VStr (trim s)) s')) p))
    | Exn e => o = Exn e /\ exists tok, core p' = core (on_ses (set_token tok) p)
    end.
Proof.
  intros Hs. unfold gate_attempt. rewrite exec_local, Hs.
  rewrite (exec_lib_bind _ _ _ _ _ _ _ _ _ (exec_call _ _ _)), submitGateToken_str.
  unfold gate_verdict. destruct (starts_with _ (trim s)) eqn:Ew; cbn [fst snd fmap list_fmap]; rewrite add_parked_nil; cycle 1.
  { eexists _, _, _, _. split; [done|]. split; [done|]. by exists (token (ses p)). }
  destruct (setToken_ok (trim s) p) as [Ho Hc]. rewrite Ho. set (q := snd (setToken (VStr (trim s)) p)) in *.
  unfold check_result. destruct (header_ok (br q)) eqn:Eh.
  - rewrite (exec_lib_bind _ _ _ _ _ _ _ _ _ (exec_pub_get (js "/v1/queues") x [] q Eh)).
    cbn [fmap list_fmap]. rewrite add_parked_nil. set (q1 := after_request _ _ _ q). assert (Hq1 : core q1 = core q) by done.
    destruct (reply_result x) as [r|e].
    + rewrite exec_lib. destruct (exec_startApp [] q1) as (p' & ps & -> & Hc'). eexists _, _, _, _. split; [done|].
      split; [done|]. core_eq.
    + eexists _, _, _, _. split; [done|]. split; [done|]. exists (VStr (trim s)). core_eq.
  - rewrite (exec_lib_bind _ _ _ _ _ _ _ _ _ (exec_pub_get_bad (js "/v1/queues") [x] q Eh)).
    cbn [fmap list_fmap]. rewrite add_parked_nil. eexists _, _, _, _. split; [done|]. split; [done|].
    exists (VStr (trim s)). by rewrite <- Hc.
Qed.
End gate.

(** C12: The gate.  Submitting a pasted token always ends with the form usable
    again; the application is entered exactly when the trimmed token has the
    [sk_local_] prefix and the broker accepts it; otherwise the token is cleared
    from the session and from the store, the phase is unchanged and the reason is
    shown. *)
Theorem gate_continue `{Platform} s x p v :
  GateView.s_token v = VStr s ->
  exists p' v' rest ps,
    exec GateView.continueWithToken [x] (p, v) = Some (Ok tt, (p', v'), rest, ps) /\ GateView.s_busy v' = VBool false /\
    match gate_verdict s x p with
    | Ok _ => phase (ses p') = PApp /\ token (ses p') = VStr (trim s) /\ GateView.s_error v' = VStr []
    | Exn e => phase (ses p') = phase (ses p) /\ token_cleared p' /\ GateView.s_error v' = VStr (errText e)
    end.
Proof.
  intros Hs. unfold GateView.continueWithToken. fold gate_attempt. rewrite !exec_upd, exec_finally, exec_catch.
  destruct (exec_gate_attempt s x p (GateView.set_s_busy (VBool true) (GateView.set_s_error (VStr []) v)) Hs)
    as (o & p' & rest & ps & -> & Hv).
  destruct (gate_verdict s x p) as [r|e]; destruct Hv as [-> Hc]; cbn [exec_then add_parked].
  - eexists _, _, _, _. split; [done|]. split_and!; [done|core_eq|core_eq|done].
  - destruct Hc as [tok Hc]. rewrite (exec_lib_bind _ _ _ _ _ _ _ _ _ (exec_call _ _ _)).
    destruct (setToken_empty p') as (q & -> & Hcl & Hcq & _). cbn. eexists _, _, _, _. split; [done|].
    split_and!; [done|core_eq|done|done].
Qed.

Definition pasted (s : jstring) : GateView.state := GateView.set_s_token (VStr s) (GateView.setup demo_panel).

Lemma gate_continue_witness :
  exists p' v' rest ps,
    exec (@GateView.continueWithToken demo_platform) [ok_reply (jsq "{'queues':[]}")] (demo_panel, pasted (js " sk_local_1 "))
    = Some (Ok tt, (p', v'), rest, ps) /\ phase (ses p') = PApp.
Proof.
  destruct (@gate_continue demo_platform (js " sk_local_1 ") (ok_reply (jsq "{'queues':[]}")) demo_panel
              (pasted (js " sk_local_1 ")) eq_refl) as (p' & v' & rest & ps & He & _ & Hv).
  exists p', v', rest, ps. split; [done|].
  assert (Hg : exists r, @gate_verdict demo_platform (js " sk_local_1 ") (ok_reply (jsq "{'queues':[]}")) demo_panel = Ok r)
    by (eexists; by vm_compute).
  destruct Hg as [r Hg]. rewrite Hg in Hv. apply Hv.
Defined.

(** ** Claiming the broker *)

(** What is wrong with a pair of passwords. *)
Definition setup_problem (a b : jstring) : option jstring :=
  if (Z.of_nat (List.length a) <? 12)%Z then Some (js "Password must be at least 12 characters.")
  else if decide (a = b) then None else Some (js "Passwords do not match.").

Lemma submit_problem_str a b v :
  SetupView.s_p1 v = VStr a -> SetupView.s_p2 v = VStr b -> safe_int (Z.of_nat (List.length a)) ->
  submit_problem v = Ok (setup_problem a b).
Proof.
  intros Ha Hb Hl. unfold submit_problem, setup_problem, e_lt, e_get, get. rewrite Ha, Hb.
  cbn [is_nullish mbind result_bind own_get]. rewrite decide_True by done. cbn [mbind result_bind].
  unfold e_num. cbn [mbind result_bind js_ltb to_prim to_number truthy].
  rewrite num_ltb_Z by (done || split; done). destruct (_ <? 12)%Z; [done|].
  cbn [strict_eq negb]. by case_decide; case_bool_decide.
Qed.

(** Claiming the broker.  With a password under twelve characters or a wrong
    confirmation nothing leaves the page and nothing changes but the message;
    otherwise exactly one request is sent, the form is usable again whatever the
    answer, a failure is shown and leaves the session alone, and a token takes
    the page to the reveal phase. *)
Theorem setup_submit `{Platform} a b x p v :
  SetupView.s_p1 v = VStr a -> SetupView.s_p2 v = VStr b -> safe_int (Z.of_nat (List.length a)) ->
  header_ok (br p) = true ->
  match setup_problem a b with
  | Some msg => exec submit [x] (p, v) = Some (Ok tt, (p, SetupView.set_s_error (VStr msg) v), [x], [])
  | None =>
      exists p' v', exec submit [x] (p, v) = Some (Ok tt, (p', v'), [], []) /\ SetupView.s_busy v' = VBool false /\
        sent (br p') = mk_request (js "POST") (publicUrl (js "/v1/local-auth/setup") (br p))
                         (json_body (Some (VObj ["password" ~> VStr a]))) (br p) :: sent (br p) /\
        match reply_result x ≫= (fun res => get res (js "token")) with
        | Ok (VStr t) => normalize_str t <> [] -> phase (ses p') = PReveal /\ SetupView.s_error v' = VStr []
        | Ok _ => True
        | Exn e => ses p' = ses p /\ SetupView.s_error v' = VStr (errText e)
        end
  end.
Proof.
  intros Ha Hb Hl Hh. unfold submit. rewrite exec_upd, exec_eval.
  rewrite (submit_problem_str a b) by done.
  destruct (setup_problem a b) as [msg|]; [by rewrite exec_upd_last|].
  rewrite exec_upd, exec_finally, exec_catch, exec_local, exec_lib.
  destruct (exec_password_flow (js "/v1/local-auth/setup") (VStr a) x p Hh) as (o & p' & He & Hpost & Hsent).
  cbn [SetupView.s_p1 SetupView.set_s_busy SetupView.set_s_error]. unfold setupPassword. rewrite Ha, He.
  cbn [exec_then]. destruct o as [[]|e]; cbn; eexists _, _; (split; [done|]); (split_and!; [done..|]).
  - unfold password_post in Hpost. destruct (reply_result x ≫= _) as [r|e]; [|by destruct Hpost].
    destruct r; try done. intros Hn. destruct (Hpost Hn) as (_ & Hp & _). done.
  - unfold password_post in Hpost. destruct (reply_result x ≫= _) as [r|e']; [|by destruct Hpost as [[= ->] ?]].
    destruct r; try done. intros Hn. by destruct (Hpost Hn) as [[=] _].
Qed.

Definition typed_passwords (a b : jstring) : SetupView.state :=
  SetupView.set_s_p2 (VStr b) (SetupView.set_s_p1 (VStr a) SetupView.setup).

Lemma setup_submit_witness :
  exec (@submit demo_platform) [token_reply] (demo_panel, typed_passwords (js "short") (js "short"))
  = Some (Ok tt, (demo_panel, SetupView.set_s_error (VStr (js "Password must be at least 12 characters."))
                                (typed_passwords (js "short") (js "short"))), [token_reply], []).
Proof.
  exact (@setup_submit demo_platform (js "short") (js "short") token_reply demo_panel
    (typed_passwords (js "short") (js "short")) eq_refl eq_refl ltac:(vm_compute; split; done) eq_refl).
Defined.
