(* ===== verification/FormProps.v ===== *)
(** * Properties of the payload builders and of the retry fields *)

From stdpp Require Import base list gmap strings.
From Stdlib Require Import NArith ZArith Lia String SpecFloat.
From S2P Require Import Prelude JsString JsNum JsVal Json Prog State Demo Payload View Form.
Local Open Scope js_scope.

(** ** Retries *)

(** What number inputs hold: a number, or the text when it is not one. *)
Definition field_value (v : jsval) : Prop := match v with VNum _ | VStr _ => True | _ => False end.

Lemma num_max_zero x :
  num_max (num_of_Z 0) (if num_truthy x then x else num_of_Z 0) = if num_ltb (num_of_Z 0) x then x else num_of_Z 0.
Proof. by destruct x as [[]|[]| |[] m e]. Qed.

Lemma num_leb_pos x : num_ltb (num_of_Z 0) x = true -> num_leb x (num_of_Z 0) = false.
Proof. by destruct x as [[]|[]| |[] m e]. Qed.

(** The template shows the backoff fields when this holds. *)
Definition retries (r : RetryState) : bool := js_ltb (VNum (num_of_Z 0)) (maxRetries r).

Lemma retries_number r : field_value (maxRetries r) -> retries r = num_ltb (num_of_Z 0) (to_number (maxRetries r)).
Proof. unfold retries. by destruct (maxRetries r). Qed.

(** The backoff part of a payload. *)
Definition backoff_of (k : jstring) (r : RetryState) : jsval :=
  let base := ["kind" ~> VStr k; "initialMs" ~> VNum (number_or (initialMs r) 500)] in
  if decide (k = js "exponential") then
    let mult := to_number (multiplier r) in
    VObj (base ++ ["maxMs" ~> VNum (number_or (maxMs r) 30000)] ++
          (if num_ltb (num_of_Z 0) mult then ["multiplier" ~> VNum mult] else []))
  else VObj base.

Lemma mergeRetry_eq payload r s :
  field_value (maxRetries r) -> kind r = VStr s -> s <> [] ->
  mergeRetry payload r =
  Ok (if retries r
      then set_prop (set_prop payload (js "max_retries") (VNum (to_number (maxRetries r)))) (js "retry_backoff")
             (backoff_of (to_lower s) r)
      else payload).
Proof.
  intros Hm Hk Hs. rewrite retries_number by done. unfold mergeRetry, number_or. rewrite num_max_zero, Hk.
  destruct (num_ltb (num_of_Z 0) (to_number (maxRetries r))) eqn:El; [|done]. rewrite num_leb_pos by done.
  destruct s as [|c s]; [done|]. cbn [truthy str_method mbind result_bind strict_eq]. f_equal. f_equal.
  unfold backoff_of. case_bool_decide; [rewrite decide_True by done|by rewrite decide_False].
  by destruct (num_ltb (num_of_Z 0) (to_number (multiplier r))).
Qed.

(** C35: Retries.  The backoff fields are on the screen exactly when the form's
    payload will ask for retries; then the payload gets the entered count and a
    complete backoff, and otherwise it is left as it was. *)
Theorem retry_fields_coherent `{Platform} {S : Type} o r s (modify : (RetryState -> RetryState) -> prog S unit) :
  field_value (maxRetries r) -> kind r = VStr s -> s <> [] ->
  (exists d a n1 n2 n3, RetryFields r modify = Ok [Elem d a (n1 :: n2 :: n3)] /\ retries r = true /\
     exists o', mergeRetry (VObj o) r = Ok (VObj o') /\
       assoc (js "max_retries") o' = Some (VNum (to_number (maxRetries r))) /\
       assoc (js "retry_backoff") o' = Some (backoff_of (to_lower s) r) /\
       forall k, k <> js "max_retries" -> k <> js "retry_backoff" -> assoc k o' = assoc k o) \/
  (exists d a n, RetryFields r modify = Ok [Elem d a [n]] /\ retries r = false /\
     mergeRetry (VObj o) r = Ok (VObj o)).
Proof.
  intros Hm Hk Hs. rewrite (mergeRetry_eq _ r s) by done. destruct (retries r) eqn:Er; [left|right].
  - destruct r as [mr k im mx mu]. simpl in Hk. subst k.
    assert (Hr : exists d a n1 n2 n3, RetryFields {| maxRetries := mr; kind := VStr s; initialMs := im;
      maxMs := mx; multiplier := mu |} modify = Ok [Elem d a (n1 :: n2 :: n3)]).
    { unfold RetryFields, v_if, e_gt, e_if, e_num. cbn [mbind result_bind maxRetries]. unfold retries in Er. cbn [maxRetries] in Er.
      rewrite Er. cbn [truthy kind]. unfold e_seq. cbn [mbind result_bind e_str strict_eq truthy].
      destruct (bool_decide (s = js "exponential")); repeat eexists; reflexivity. }
    destruct Hr as (d & a & n1 & n2 & n3 & Hr). exists d, a, n1, n2, n3. split; [exact Hr|]. split; [done|]. eexists. split; [reflexivity|]. split_and!.
    + rewrite assoc_set_ne by done. apply assoc_set_eq.
    + apply assoc_set_eq.
    + intros k Hk1 Hk2. by rewrite !assoc_set_ne.
  - unfold RetryFields, v_if, e_gt, e_if, e_num. cbn [mbind result_bind]. fold (retries r). rewrite Er.
    eexists _, _, _. split; [reflexivity|]. done.
Qed.

Definition three_retries : RetryState := set_maxRetries (VNum (num_of_Z 3)) defaultRetry.

Lemma retry_fields_witness :
  exists o', mergeRetry (VObj []) three_retries = Ok (VObj o') /\
    assoc (js "max_retries") o' = Some (VNum (num_of_Z 3)).
Proof.
  destruct (@retry_fields_coherent demo_platform panel [] three_retries (js "exponential") (fun _ => Ret tt)
              I eq_refl ltac:(done)) as [(_ & _ & _ & _ & _ & _ & _ & o' & H1 & H2 & _)|(_ & _ & _ & _ & Hr & _)];
    [by exists o' | by vm_compute in Hr].
Defined.

(** ** Frames of the builders *)

(** [v] is the object [o] with other values for the keys [ks] at most. *)
Definition extends (ks : list jstring) (o : list (jstring * jsval)) (v : jsval) : Prop :=
  exists o', v = VObj o' /\ forall k, k ∉ ks -> assoc k o' = assoc k o.

Lemma extends_refl ks o : extends ks o (VObj o).
Proof. by exists o. Qed.

Lemma extends_set ks o k w : k ∈ ks -> extends ks o (set_prop (VObj o) k w).
Proof. intros Hk. eexists. split; [done|]. intros k' Hk'. apply assoc_set_ne. by intros ->. Qed.

Lemma extends_trans ks ks' o v w :
  extends ks o v -> (forall o', v = VObj o' -> extends ks' o' w) -> extends (ks ++ ks') o w.
Proof.
  intros (o1 & -> & H1) H. destruct (H o1 eq_refl) as (o2 & -> & H2). exists o2. split; [done|].
  intros k [Hk Hk']%not_elem_of_app. by rewrite H2, H1.
Qed.

Lemma extends_if ks o (b : bool) v : extends ks o v -> extends ks o (if b then v else VObj o).
Proof. destruct b; eauto using extends_refl. Qed.

Definition retry_keys : list jstring := [js "max_retries"; js "retry_backoff"].
Definition outbound_keys : list jstring := [js "method"; js "sign"; js "headers"].

Lemma mergeRetry_extends o r v : mergeRetry (VObj o) r = Ok v -> extends retry_keys o v.
Proof.
  unfold mergeRetry. destruct (num_leb _ _); [intros [= <-]; apply extends_refl|].
  destruct (str_method _ _ _) as [k|]; cbn [mbind result_bind]; [|done]. intros [= <-].
  eapply (extends_trans [js "max_retries"] [js "retry_backoff"]); [apply (extends_set _ _ (js "max_retries")); set_solver|].
  intros o' [= <-]. apply (extends_set _ _ (js "retry_backoff")). set_solver.
Qed.

(** The outbound settings in a payload: the method always, [sign] exactly when it
    is on, the headers exactly when the field is not blank and is JSON. *)
Definition outbound_in (ob : outbound_state) (o o' : list (jstring * jsval)) : Prop :=
  assoc (js "method") o' = Some (ob_method ob) /\
  assoc (js "sign") o' = (if truthy (ob_sign ob) then Some (VBool true) else assoc (js "sign") o) /\
  exists raw, e_trim (Ok (ob_headers ob)) = Ok raw /\
    assoc (js "headers") o' =
      if truthy raw then match json_parse (to_string raw) with Ok h => Some h | Exn _ => None end
      else assoc (js "headers") o.

Lemma mergeOutbound_spec ob o v : mergeOutbound ob (VObj o) = Ok (v, None) ->
  exists o', v = VObj o' /\ outbound_in ob o o' /\ forall k, k ∉ outbound_keys -> assoc k o' = assoc k o.
Proof.
  unfold mergeOutbound, outbound_in. destruct (e_trim _) as [raw|]; cbn [mbind result_bind]; [|done].
  assert (Hne : forall k, k ∉ outbound_keys -> k <> js "method" /\ k <> js "sign" /\ k <> js "headers").
  { intros k Hk. split_and!; intros ->; apply Hk; set_solver. }
  destruct (truthy raw) eqn:Er, (truthy (ob_sign ob)); cbn [set_prop];
    try (destruct (json_parse (to_string raw)) as [h|] eqn:Ej; [|done]); intros [= <-];
    (eexists; split; [done|]; split; [split_and!; [| |exists raw; split; [done|]; rewrite Er, ?Ej]|]);
    try (intros k Hk; apply Hne in Hk as (? & ? & ?));
    repeat (rewrite assoc_set_eq || rewrite assoc_set_ne by done); done.
Qed.

(** Both merges, one after the other, as the publish, enqueue and schedule forms do. *)
Lemma merges_frame ob o r v v' :
  mergeRetry (VObj o) r = Ok v -> mergeOutbound ob v = Ok (v', None) ->
  exists o', v' = VObj o' /\ assoc (js "method") o' = Some (ob_method ob) /\
    forall k, bool_decide (k ∈ retry_keys ++ outbound_keys) = false -> assoc k o' = assoc k o.
Proof.
  intros (o2 & -> & F2)%mergeRetry_extends (o3 & -> & (Hm & _) & F3)%mergeOutbound_spec. exists o3.
  split_and!; [done..|]. intros k [Hk1 Hk2]%bool_decide_eq_false%not_elem_of_app. by rewrite F3, F2.
Qed.
