(* ===== verification/ResourceProps.v ===== *)
(** * Properties of the resource views

    Which requests the forms send, with which bodies, and when they send none. *)

From stdpp Require Import base list gmap strings.
From Stdlib Require Import NArith ZArith Lia String SpecFloat.
From S2P Require Import Prelude JsString JsNum JsVal Json Prog State Demo Storage Api Payload Catalog Session SessionProps.
From S2P Require Import View Form FormProps AuthProps.
From S2P Require Import EnqueueView QueuesView FlowsView GroupsView PublishView.
Local Open Scope js_scope.

(** ** Enqueue *)

Section enqueue.
Context `{Platform}.

(** The status line after the reply. *)
Definition enqueue_status (f : EnqueueView.form_state) (x : reply) : status :=
  match reply_result x ≫= enqueue_message f with
  | Ok msg => st_succeed msg useActionStatus
  | Exn e => st_fail e useActionStatus
  end.

Lemma exec_enqueue_post f q eq payload x p v :
  form_queueId f = VStr q -> encodeURIComponent q = Some eq -> header_ok (br p) = true ->
  exec (prog_catch
         (path ← pure (enqueue_path f);
          r ← lib (pub_post (to_string path) (Some payload));
          msg ← pure (enqueue_message f r);
          upd (EnqueueView.on_status (st_succeed msg)))
         (fun e => upd (EnqueueView.on_status (st_fail e)))) [x] (p, v) =
  Some (Ok tt, (after_request (js "POST") (publicUrl (js "/v1/queues/" ++ eq ++ js "/enqueue") (br p))
                  (json_body (Some payload)) p,
                EnqueueView.set_s_status (enqueue_status f x) v), [], []).
Proof.
  intros Hq He Hh. unfold enqueue_path, e_encode, encode_component. rewrite Hq. cbn [mbind result_bind to_string].
  rewrite He. cbn [mbind result_bind e_template e_str to_string].
  rewrite exec_catch, exec_pure, app_nil_r. cbn [to_string].
  rewrite (exec_lib_bind _ _ _ _ _ _ _ _ _ (exec_pub_post _ _ x [] p Hh)). cbn [fmap list_fmap]. rewrite add_parked_nil.
  unfold enqueue_status. destruct (reply_result x) as [r|e]; cbn [mbind result_bind]; [|by destruct v].
  rewrite exec_pure. destruct (enqueue_message f r); by destruct v.
Qed.
End enqueue.

(** C19: Enqueue.  Without a selected queue, or with outbound headers that are not
    JSON, nothing is sent and the form says why; otherwise exactly one request is
    sent, a POST of the built payload to the enqueue endpoint of the selected
    queue with its identifier percent-encoded, and the status line reports the
    broker's message or error. *)
Theorem enqueue_outcomes `{Platform} q eq x p v :
  let f := EnqueueView.s_form v in
  form_queueId f = VStr q -> encodeURIComponent q = Some eq -> header_ok (br p) = true ->
  match q, enqueue_payload (out p) f with
  | [], _ =>
      exec enqueue [x] (p, v) =
      Some (Ok tt, (p, EnqueueView.set_s_status (st_fail (VStr (js "Select a queue first")) useActionStatus) v), [x], [])
  | _, Ok (_, Some msg) =>
      exec enqueue [x] (p, v) = Some (Ok tt, (p, EnqueueView.set_s_status (st_fail (VStr msg) useActionStatus) v), [x], [])
  | _, Ok (payload, None) =>
      exec enqueue [x] (p, v) =
      Some (Ok tt, (after_request (js "POST") (publicUrl (js "/v1/queues/" ++ eq ++ js "/enqueue") (br p))
                      (json_body (Some payload)) p,
                    EnqueueView.set_s_status (enqueue_status f x) v), [], [])
  | _, Exn e => exec enqueue [x] (p, v) = Some (Exn e, (p, EnqueueView.set_s_status useActionStatus v), [x], [])
  end.
Proof.
  intros f Hq He Hh. unfold enqueue. rewrite exec_upd, exec_local.
  change (EnqueueView.s_form (EnqueueView.on_status st_reset v)) with f. rewrite Hq.
  destruct q as [|c q]; [done|]. cbn [truthy negb]. rewrite exec_page, exec_pure.
  destruct (enqueue_payload (out p) f) as [[payload [msg|]]|e]; [done| |done].
  by rewrite (exec_enqueue_post f (c :: q) eq payload x p _ Hq He Hh).
Qed.

Definition demo_panel0 : panel := @init_panel demo_platform demo_browser.
Definition to_jobs : EnqueueView.state :=
  EnqueueView.on_form (set_form_queueId (VStr (js "team/jobs"))) EnqueueView.setup.

Lemma enqueue_witness :
  exists p' v', exec (@enqueue demo_platform) [ok_reply (jsq "{'message_id':'m1'}")] (demo_panel0, to_jobs)
                = Some (Ok tt, (p', v'), [], []) /\
    (rq_url <$> sent (br p')) = [js "http://localhost:8080/v1/queues/team%2Fjobs/enqueue"].
Proof.
  pose proof (@enqueue_outcomes demo_platform (js "team/jobs") (js "team%2Fjobs") (ok_reply (jsq "{'message_id':'m1'}"))
    demo_panel0 to_jobs eq_refl ltac:(by vm_compute) eq_refl) as He.
  eexists _, _. split; [exact He|]. by vm_compute.
Defined.

(** ** Queues *)

Section queues.
Context `{Platform}.

Definition trim_error : jsval := type_error (js "trim is not a function").

Lemma create_body_number (f : QueuesView.form_state) n :
  QueuesView.form_parallelism f = VNum n -> (exists b, mergeRetry (VObj ["queue" ~> QueuesView.form_queue f;
    "url" ~> QueuesView.form_url f; "secret" ~> QueuesView.form_secret f]) (QueuesView.form_retry f) = Ok b) ->
  QueuesView.create_body f = Exn trim_error.
Proof. intros Hn [b Hb]. unfold QueuesView.create_body. rewrite Hb, Hn. done. Qed.

Lemma mergeRetry_ok payload r s :
  field_value (maxRetries r) -> kind r = VStr s -> s <> [] -> exists b, mergeRetry payload r = Ok b.
Proof. intros Hm Hk Hs. rewrite (mergeRetry_eq payload r s) by done. by eexists. Qed.
End queues.

(** C36: The parallelism field cannot be used.  Typing a number into it stores a
    number (the field is a number input), and [create] calls [trim] on it: the
    handler fails before sending anything, with that [TypeError] as the message. *)
Theorem queue_parallelism_unusable `{Platform} n s x p v :
  let f := QueuesView.s_form v in
  QueuesView.form_parallelism f = VNum n -> field_value (maxRetries (QueuesView.form_retry f)) ->
  kind (QueuesView.form_retry f) = VStr s -> s <> [] ->
  exec QueuesView.create [x] (p, v) =
  Some (Ok tt, (p, QueuesView.set_s_createStatus (st_fail trim_error useActionStatus) v), [x], []).
Proof.
  intros f Hn Hm Hk Hs. unfold QueuesView.create. rewrite exec_upd, exec_catch, exec_eval.
  change (QueuesView.s_form (QueuesView.on_createStatus st_reset v)) with f.
  by rewrite (create_body_number f n) by eauto using mergeRetry_ok.
Qed.

(** The user types [text] into the parallelism field. *)
Definition type_parallelism (text : jstring) : QueuesView.state :=
  QueuesView.on_form (QueuesView.set_form_parallelism (input_number text)) QueuesView.setup.

Lemma queue_parallelism_witness :
  exists v', exec (@QueuesView.create demo_platform) [ok_reply []] (demo_panel0, type_parallelism (js "4"))
             = Some (Ok tt, (demo_panel0, v'), [ok_reply []], []) /\
    st_error (QueuesView.s_createStatus v') = VStr (js "trim is not a function").
Proof.
  pose proof (@queue_parallelism_unusable demo_platform (num_of_Z 4) (js "exponential") (ok_reply []) demo_panel0
    (type_parallelism (js "4")) ltac:(by vm_compute) I eq_refl ltac:(done)) as He.
  eexists. split; [exact He|]. by vm_compute.
Defined.

(** ** Submitting a change, then reloading the list *)

Section submit.
Context `{Platform} {V : Type}.
Context (ok : jsval -> V -> V) (fail : jsval -> V -> V) (refresh : prog panel unit) (y : reply).
Context (Hrefresh : forall p, exists p' rest,
  exec refresh [y] p = Some (Ok tt, p', rest, []) /\ only_read (br p) (br p')).

(** The status line after the reply to the change. *)
Definition submit_status (message : jsval -> E jsval) (x : reply) (v : V) : V :=
  match reply_result x ≫= message with Ok msg => ok msg v | Exn e => fail e v end.

(** The page after a change: exactly that request, and at most GETs after it. *)
Definition submitted (rq : http_request) (p p' : panel) : Prop :=
  exists l, sent (br p') = l ++ rq :: sent (br p) /\ Forall (fun rq' => rq_method rq' = js "GET") l.

Lemma exec_submit (req : prog panel jsval) (message : jsval -> E jsval) m u body x p v :
  exec req [x; y] p = Some (reply_result x, after_request m u body p, [y], []) ->
  exists p' rest,
    exec (prog_catch
           (r ← lib req; msg ← pure (message r); _ ← upd (ok msg); lib refresh)
           (fun e => upd (fail e))) [x; y] (p, v) =
    Some (Ok tt, (p', submit_status message x v), rest, []) /\
    submitted (mk_request m u body (br p)) p p'.
Proof.
  intros Hreq. rewrite exec_catch, (exec_lib_bind _ _ _ _ _ _ _ _ _ Hreq). cbn [fmap list_fmap].
  rewrite add_parked_nil. pose proof (after_request_sent m u body p) as Hq.
  set (q := after_request _ _ _ p) in *. unfold submit_status.
  destruct (reply_result x) as [r|e]; cbn [mbind result_bind].
  2: { eexists _, _. split; [done|]. by exists []. }
  rewrite exec_pure. destruct (message r) as [msg|e].
  2: { eexists _, _. split; [done|]. by exists []. }
  rewrite exec_upd, exec_lib. destruct (Hrefresh q) as (p' & rest & He & l & Hl & Hg). rewrite He.
  eexists _, _. split; [done|]. exists l. by rewrite Hl, Hq.
Qed.

(** The same without a reload: exactly that request. *)
Lemma exec_submit_only (req : prog panel jsval) (message : jsval -> E jsval) m u body x xs p v :
  exec req (x :: xs) p = Some (reply_result x, after_request m u body p, xs, []) ->
  exec (prog_catch
         (r ← lib req; msg ← pure (message r); _ ← upd (ok msg); Ret tt)
         (fun e => upd (fail e))) (x :: xs) (p, v) =
  Some (Ok tt, (after_request m u body p, submit_status message x v), xs, []).
Proof.
  intros Hreq. rewrite exec_catch, (exec_lib_bind _ _ _ _ _ _ _ _ _ Hreq). cbn [fmap list_fmap].
  rewrite add_parked_nil. unfold submit_status. destruct (reply_result x) as [r|e]; cbn [mbind result_bind]; [|done].
  rewrite exec_pure. by destruct (message r).
Qed.
End submit.

Section lists.
Context `{Platform}.

Lemma refreshQueues_reads y p : exists p' rest,
  exec refreshQueues [y] p = Some (Ok tt, p', rest, []) /\ only_read (br p) (br p').
Proof. destruct refreshers_spec as (Hq & _). destruct (Hq y p) as (p' & rest & He & _ & _ & _ & Hr). eauto. Qed.
Lemma refreshGroups_reads y p : exists p' rest,
  exec refreshGroups [y] p = Some (Ok tt, p', rest, []) /\ only_read (br p) (br p').
Proof. destruct refreshers_spec as (_ & Hg & _). destruct (Hg y p) as (p' & rest & He & _ & _ & _ & Hr). eauto. Qed.
Lemma refreshFlows_reads y p : exists p' rest,
  exec refreshFlows [y] p = Some (Ok tt, p', rest, []) /\ only_read (br p) (br p').
Proof. destruct refreshers_spec as (_ & _ & Hf). destruct (Hf y p) as (p' & rest & He & _ & _ & _ & Hr). eauto. Qed.

(** The Delete button of a row: one DELETE of the row's identifier, then a reload. *)
Definition removes {V : Type} (row_id : jsval -> E jsval) (prefix : jstring) (done_ : jstring)
    (on : (status -> status) -> V -> V) (fail : jsval -> status -> status)
    (handler : jsval -> vprog V unit) : Prop :=
  forall row id eid x y p v,
    row_id row = Ok (VStr id) -> encodeURIComponent id = Some eid -> header_ok (br p) = true ->
    exists p' rest,
      exec (handler row) [x; y] (p, v) =
        Some (Ok tt, (p', match reply_result x with
                          | Ok _ => on (st_succeed (VStr done_)) (on st_reset v)
                          | Exn e => on (fail e) (on st_reset v)
                          end), rest, []) /\
      submitted (mk_request (js "DELETE") (publicUrl (prefix ++ eid) (br p)) None (br p)) p p'.

Lemma removes_intro {V : Type} row_id prefix done_ (on : (status -> status) -> V -> V) fail refresh :
  (forall y p, exists p' rest, exec refresh [y] p = Some (Ok tt, p', rest, []) /\ only_read (br p) (br p')) ->
  removes row_id prefix done_ on fail (fun row =>
    _ ← upd (on st_reset);
    prog_catch
      (path ← pure (e_template [e_str prefix; e_encode (row_id row)]);
       _ ← lib (pub_delete (to_string path));
       _ ← upd (on (st_succeed (VStr done_)));
       lib refresh)
      (fun e => upd (on (fail e)))).
Proof.
  intros Hr row id eid x y p v Hid He Hh.
  assert (Ht : e_template [e_str prefix; e_encode (row_id row)] = Ok (VStr (prefix ++ eid))).
  { rewrite Hid. unfold e_encode, encode_component. simpl. rewrite He. cbn. by rewrite app_nil_r. }
  rewrite Ht. rewrite exec_upd.
  destruct (exec_submit (fun msg => on (st_succeed msg)) (fun e => on (fail e)) refresh y (Hr y)
    (pub_delete (prefix ++ eid)) (fun _ => Ok (VStr done_)) _ _ None x p (on st_reset v)
    (exec_pub_delete (prefix ++ eid) x [y] p Hh)) as (p' & rest & Hx & Hs).
  exists p', rest. split; [|exact Hs]. unfold submit_status in Hx.
  destruct (reply_result x); exact Hx.
Qed.
End lists.

(** C20: Deleting a queue, a group or a flow from its row sends exactly one DELETE,
    of that row's identifier percent-encoded under the list's path; the status
    line reports the outcome, and once the broker accepted, the list is reloaded
    (with GETs only). *)
Theorem resource_removal `{Platform} :
  removes queueId (js "/v1/queues/") (js "Queue removed") QueuesView.on_listStatus st_fail QueuesView.remove /\
  removes groupId (js "/v1/groups/") (js "Group removed") GroupsView.on_listStatus (fun e => st_fail (VStr (errText e)))
    GroupsView.removeGroup /\
  removes flowId (js "/v1/flows/") (js "Flow removed") FlowsView.on_listStatus st_fail FlowsView.remove.
Proof.
  split_and!.
  - exact (removes_intro queueId (js "/v1/queues/") (js "Queue removed") QueuesView.on_listStatus st_fail
      refreshQueues refreshQueues_reads).
  - exact (removes_intro groupId (js "/v1/groups/") (js "Group removed") GroupsView.on_listStatus
      (fun e => st_fail (VStr (errText e))) refreshGroups refreshGroups_reads).
  - exact (removes_intro flowId (js "/v1/flows/") (js "Flow removed") FlowsView.on_listStatus st_fail
      refreshFlows refreshFlows_reads).
Qed.

(** ** Creating a queue *)

Section queue_create.
Context `{Platform}.

(** The fields of the body when no parallelism was entered. *)
Definition queue_fields (f : QueuesView.form_state) (o : list (jstring * jsval)) : Prop :=
  assoc (js "queue") o = Some (QueuesView.form_queue f) /\
  assoc (js "url") o = Some (QueuesView.form_url f) /\
  assoc (js "secret") o = Some (QueuesView.form_secret f) /\
  assoc (js "parallelism") o = None /\
  assoc (js "max_retries") o =
    if retries (QueuesView.form_retry f) then Some (VNum (to_number (maxRetries (QueuesView.form_retry f)))) else None.

Lemma create_body_fields (f : QueuesView.form_state) s :
  QueuesView.form_parallelism f = VStr [] -> field_value (maxRetries (QueuesView.form_retry f)) ->
  kind (QueuesView.form_retry f) = VStr s -> s <> [] ->
  exists o, QueuesView.create_body f = Ok (VObj o) /\ queue_fields f o.
Proof.
  intros Hp Hm Hk Hs. unfold QueuesView.create_body, queue_fields. rewrite (mergeRetry_eq _ _ s) by done. rewrite Hp.
  cbn [mbind result_bind e_trim str_method trim strict_eq negb]. change (trim []) with (@nil N).
  rewrite bool_decide_true by done. cbn [negb andb].
  destruct (retries (QueuesView.form_retry f)); eexists; split; try reflexivity; split_and!; try reflexivity;
    rewrite ?assoc_set_ne by done; try done.
Qed.
End queue_create.

(** Creating a queue with the parallelism field left empty sends exactly one
    POST, whose body has the form's name, URL and secret and, exactly when retries
    were asked for, their number, and no parallelism; the status line reports the
    outcome, and the list is reloaded once the broker accepted. *)
Theorem queue_create `{Platform} s x y p v :
  let f := QueuesView.s_form v in
  let st fn := QueuesView.set_s_createStatus (fn useActionStatus) v in
  QueuesView.form_parallelism f = VStr [] -> field_value (maxRetries (QueuesView.form_retry f)) ->
  kind (QueuesView.form_retry f) = VStr s -> s <> [] -> header_ok (br p) = true ->
  exists o p' rest,
    queue_fields f o /\
    exec QueuesView.create [x; y] (p, v) =
      Some (Ok tt, (p', match reply_result x ≫= (fun r => e_template
                          [ #"Queue "; (Ok r) @. "queue"; #" → "; (Ok r) @. "queue_id"]) with
                        | Ok msg => st (st_succeed msg) | Exn e => st (st_fail e) end), rest, []) /\
    submitted (mk_request (js "POST") (publicUrl (js "/v1/queues") (br p)) (json_body (Some (VObj o))) (br p)) p p'.
Proof.
  intros f st Hp Hm Hk Hs Hh. destruct (create_body_fields f s Hp Hm Hk Hs) as (o & Ho & Hf).
  destruct (exec_submit (fun msg => QueuesView.on_createStatus (st_succeed msg))
    (fun e => QueuesView.on_createStatus (st_fail e))
    refreshQueues y (refreshQueues_reads y) (pub_post (js "/v1/queues") (Some (VObj o)))
    (fun r => e_template [ #"Queue "; (Ok r) @. "queue"; #" → "; (Ok r) @. "queue_id"])
    _ _ _ x p (QueuesView.on_createStatus st_reset v)
    (exec_pub_post _ _ x [y] p Hh)) as (p' & rest & Hx & Hsub).
  exists o, p', rest. split_and!; [exact Hf| |exact Hsub]. unfold submit_status in Hx.
  unfold QueuesView.create. rewrite exec_upd, exec_catch, exec_eval.
  change (QueuesView.s_form (QueuesView.on_createStatus st_reset v)) with f. rewrite Ho.
  rewrite <- exec_catch. rewrite Hx. by destruct (_ ≫= _).
Qed.

Lemma queue_create_witness :
  exists p' v' rest,
    exec (@QueuesView.create demo_platform) [ok_reply (jsq "{'queue':'jobs','queue_id':'q1'}"); down_reply]
      (demo_panel0, QueuesView.setup) = Some (Ok tt, (p', v'), rest, []) /\
    st_ok (QueuesView.s_createStatus v') = VStr (js "Queue jobs → q1").
Proof.
  destruct (@queue_create demo_platform (js "exponential") (ok_reply (jsq "{'queue':'jobs','queue_id':'q1'}"))
    down_reply demo_panel0 QueuesView.setup eq_refl I eq_refl ltac:(done) eq_refl) as (o & p' & rest & _ & He & _).
  eexists p', _, rest. split; [exact He|]. by vm_compute.
Defined.

(** ** Flows *)


(** The page with one flow profile listed, the one the form starts with. *)
Definition user_flow : jsval :=
  VObj ["flow_id" ~> VStr (js "f1"); "key" ~> VStr (js "user-1");
    "parallelism" ~> VNum (num_of_Z 1); "rate" ~> VNum (num_of_Z 100); "period_secs" ~> VNum (num_of_Z 60)].
Definition with_flow : panel := on_cat (set_flows (VArr [user_flow])) demo_panel0.


Lemma resource_removal_witness :
  exists p' v' rest,
    exec (@QueuesView.remove demo_platform (VObj ["queue_id" ~> VStr (js "a b")])) [ok_reply (jsq "{}"); down_reply]
      (demo_panel0, QueuesView.setup) = Some (Ok tt, (p', v'), rest, []) /\
    st_ok (QueuesView.s_listStatus v') = VStr (js "Queue removed").
Proof.
  destruct (@resource_removal demo_platform) as (Hq & _ & _).
  destruct (Hq (VObj ["queue_id" ~> VStr (js "a b")]) (js "a b") (js "a%20b") (ok_reply (jsq "{}")) down_reply
    demo_panel0 QueuesView.setup eq_refl ltac:(by vm_compute) eq_refl) as (p' & rest & He & _).
  eexists p', _, rest. split; [exact He|]. by vm_compute.
Defined.
