(* ===== verification/PublishProps.v ===== *)
(** * Properties of the publish form

    Which payload it builds, when it refuses to send, and that a publish sends
    exactly that payload. *)

From stdpp Require Import base list gmap strings.
From Stdlib Require Import NArith ZArith Lia String SpecFloat.
From S2P Require Import Prelude JsString JsNum JsVal Json Prog State Demo Storage Api Payload Catalog Session SessionProps.
From S2P Require Import View Form FormProps AuthProps ResourceProps PublishView.
Local Open Scope js_scope.

(** ** Publish *)

Section publish.
Context `{Platform}.
Implicit Types f : PublishView.form_state.

(** The destination of a message: a group and nothing else, or a URL with its
    secret, then with a flow profile or a custom flow control but never both. *)
Definition publish_destination f (o : list (jstring * jsval)) : Prop :=
  if is_group f then
    truthy (form_groupId f) = true /\ assoc (js "group_id") o = Some (form_groupId f) /\
    assoc (js "url") o = None /\ assoc (js "secret") o = None /\
    assoc (js "flow_id") o = None /\ assoc (js "flowControl") o = None
  else
    assoc (js "group_id") o = None /\
    assoc (js "url") o = Some (PublishView.form_url f) /\ assoc (js "secret") o = Some (PublishView.form_secret f) /\
    assoc (js "flow_id") o = (if paced f "profile" then Some (PublishView.form_flowId f) else None) /\
    (is_Some (assoc (js "flowControl") o) <-> paced f "custom" = true).

(** The routing key: the profile's lane when one paces the message, else the form's. *)
Definition publish_routing (c : catalog_state) f (o : list (jstring * jsval)) : Prop :=
  if hideRoutingKey f then
    exists fl lane, PublishView.selectedFlow c f = Ok fl /\ e_otrim ((Ok fl) @? "key") = Ok lane /\
      truthy lane = true /\ assoc (js "key") o = Some lane
  else exists key, e_trim (Ok (PublishView.form_key f)) = Ok key /\ assoc (js "key") o = Some key.

Lemma publish_key_ok c f key : publish_key c f = Ok (inl key) ->
  if hideRoutingKey f then
    exists fl, PublishView.selectedFlow c f = Ok fl /\ e_otrim ((Ok fl) @? "key") = Ok key /\ truthy key = true
  else e_trim (Ok (PublishView.form_key f)) = Ok key.
Proof.
  unfold publish_key. destruct (e_trim _) as [k|]; cbn [mbind result_bind]; [|done].
  destruct (hideRoutingKey f); [|by intros [= <-]].
  destruct (truthy (PublishView.form_flowId f)); cbn [negb]; [|done].
  destruct (PublishView.selectedFlow c f) as [fl|]; cbn [mbind result_bind]; [|done].
  destruct (e_otrim _) as [lane|] eqn:El; cbn [mbind result_bind]; [|done].
  destruct (truthy lane) eqn:Et; cbn [negb]; [|done]. intros [= <-]. eauto.
Qed.

Lemma paced_excl f : paced f "profile" = true -> paced f "custom" = false.
Proof.
  unfold paced. destruct (PublishView.form_pacing f); try done. cbn [strict_eq].
  intros ->%bool_decide_eq_true_1. done.
Qed.

Lemma publish_target_ok f key body prio v :
  publish_target f (VObj ["key" ~> key; "body" ~> body; "priority" ~> prio]) = inl v ->
  exists o, v = VObj o /\ publish_destination f o /\
    assoc (js "key") o = Some key /\ assoc (js "body") o = Some body /\ assoc (js "priority") o = Some prio.
Proof.
  unfold publish_target, publish_destination. destruct (is_group f).
  - destruct (truthy (form_groupId f)) eqn:Eg; cbn [negb]; [|done]. intros [= <-]. eexists. by split_and!.
  - intros [= <-]. destruct (paced f "profile") eqn:Ep.
    + rewrite (paced_excl f Ep). eexists. split_and!; try done. split; [by intros [? ?]|done].
    + destruct (paced f "custom"); eexists; split_and!; try done; split; try done; first [by eexists|by intros [? ?]].
Qed.

Definition option_keys : list jstring := js "idempotency_key" :: js "delay" :: retry_keys ++ outbound_keys.

Lemma publish_options_ok ob f o v : publish_options ob f (VObj o) = Ok (PublishView.Payload v) ->
  exists o', v = VObj o' /\ assoc (js "method") o' = Some (ob_method ob) /\
    forall k, k ∉ option_keys -> assoc k o' = assoc k o.
Proof.
  unfold publish_options. destruct (e_trim _) as [idem|]; cbn [mbind result_bind]; [|done].
  destruct (mergeRetry _ _) as [v2|] eqn:E2; cbn [mbind result_bind]; [|done].
  destruct (mergeOutbound ob _) as [[v4 [msg|]]|] eqn:E4; cbn [mbind result_bind]; [done| |done].
  intros [= ->].
  assert (H1 : extends [js "idempotency_key"] o
    (if truthy idem then set_prop (VObj o) (js "idempotency_key") idem else VObj o)).
  { apply extends_if, extends_set. set_solver. }
  destruct H1 as (o1 & H1 & F1). rewrite H1 in E2.
  destruct (mergeRetry_extends _ _ _ E2) as (o2 & -> & F2).
  assert (H3 : extends [js "delay"] o2 (if positive (parse_int (to_string (form_delay f)))
    then set_prop (VObj o2) (js "delay") (VNum (parse_int (to_string (form_delay f)))) else VObj o2)).
  { apply extends_if, extends_set. set_solver. }
  destruct H3 as (o3 & H3 & F3). rewrite H3 in E4.
  destruct (mergeOutbound_spec _ _ _ E4) as (o4 & -> & (Hm & _) & F4). exists o4. split_and!; [done..|].
  intros k Hk. unfold option_keys in Hk. rewrite F4, F3, F2, F1 by set_solver. done.
Qed.

Lemma publish_payload_ok c ob f v : publish_payload c ob f = Ok (PublishView.Payload v) ->
  exists o, v = VObj o /\ publish_destination f o /\ publish_routing c f o /\
    assoc (js "body") o = Some (parseBodyField (PublishView.form_body f)) /\
    assoc (js "method") o = Some (ob_method ob).
Proof.
  unfold publish_payload. destruct (publish_key c f) as [[key|msg]|] eqn:Ek; cbn [mbind result_bind]; [|done..].
  destruct (publish_target _ _) as [v1|] eqn:Et; [|done]. intros Ho.
  apply publish_target_ok in Et as (o1 & -> & Hd & Hk & Hb & _).
  apply publish_options_ok in Ho as (o2 & -> & Hm & Hf). exists o2. split; [done|].
  assert (Hin : forall k, bool_decide (k ∈ option_keys) = false -> assoc k o2 = assoc k o1).
  { intros k Hk'. apply Hf. by apply bool_decide_eq_false in Hk'. }
  apply publish_key_ok in Ek. split_and!.
  - unfold publish_destination in *. by rewrite !Hin by done.
  - unfold publish_routing. rewrite (Hin (js "key")) by done. destruct (hideRoutingKey f); [|eauto].
    destruct Ek as (fl & ? & ? & ?). eauto 10.
  - by rewrite Hin.
  - done.
Qed.
End publish.

(** C17: The payload of a publish.  In group mode it names the group and has no
    URL, secret, flow profile or flow control; otherwise it has the form's URL and
    secret, no group, the selected profile exactly when profiles pace it and a
    flow control exactly when pacing is custom.  Its routing key is the profile's
    lane key when a profile paces it and the form's key otherwise; its body is the
    parsed body field and its method the outbound one, whatever the other options. *)
Theorem publish_shape `{Platform} c ob (f : PublishView.form_state) v :
  publish_payload c ob f = Ok (PublishView.Payload v) ->
  exists o, v = VObj o /\ publish_destination f o /\ publish_routing c f o /\
    assoc (js "body") o = Some (parseBodyField (PublishView.form_body f)) /\
    assoc (js "method") o = Some (ob_method ob).
Proof. apply publish_payload_ok. Qed.

(** The form paced by the profile [f1] of lane [user-1]. *)
Definition profile_form : PublishView.form_state :=
  PublishView.set_form_flowId (VStr (js "f1")) (PublishView.set_form_pacing (VStr (js "profile"))
    (PublishView.s_form PublishView.setup)).

Lemma publish_shape_witness :
  exists o, publish_payload (cat with_flow) (out with_flow) profile_form = Ok (PublishView.Payload (VObj o)) /\
    assoc (js "key") o = Some (VStr (js "user-1")) /\ assoc (js "flow_id") o = Some (VStr (js "f1")).
Proof.
  destruct (publish_payload (cat with_flow) (out with_flow) profile_form) as [[v|]|] eqn:E; [|by vm_compute in E..].
  destruct (@publish_shape demo_platform _ _ _ v E) as (o & -> & Hd & (fl & lane & H1 & H2 & _ & H4) & _).
  exists o. split; [done|]. split.
  - rewrite H4. vm_compute in H1. injection H1 as <-. vm_compute in H2. by injection H2 as <-.
  - apply Hd.
Defined.

(** C18: Publish.  A form that does not pass the checks sends nothing and shows the
    reason; one that passes sends exactly one POST of its payload, and the flow
    list is reloaded (with a GET) only after a publish that carried a flow control.
    The status line reports the broker's answer or its error. *)
Theorem publish_outcomes `{Platform} x y p v m :
  let f := PublishView.s_form v in
  let st fn := PublishView.set_s_status (fn useActionStatus) v in
  publish_payload (cat p) (out p) f = Ok m -> header_ok (br p) = true ->
  match m with
  | PublishView.Refused msg =>
      exec publish [x; y] (p, v) = Some (Ok tt, (p, st (st_fail (VStr msg))), [x; y], [])
  | PublishView.Payload payload => exists p' rest,
      exec publish [x; y] (p, v) =
        Some (Ok tt, (p', match reply_result x ≫= publish_message with
                          | Ok msg => st (st_succeed msg) | Exn e => st (st_fail e) end), rest, []) /\
      let rq := mk_request (js "POST") (publicUrl (js "/v1/publish") (br p)) (json_body (Some payload)) (br p) in
      submitted rq p p' /\
      (truthy (own_get payload (js "flowControl")) = false -> sent (br p') = rq :: sent (br p))
  end.
Proof.
  intros f st Hm Hh. unfold publish. rewrite exec_upd, exec_eval_page.
  change (PublishView.s_form (PublishView.on_status st_reset v)) with f. rewrite Hm.
  destruct m as [payload|msg]; [|done].
  destruct (truthy (own_get payload (js "flowControl"))) eqn:Ef.
  - destruct (exec_submit (fun msg => PublishView.on_status (st_succeed msg)) (fun e => PublishView.on_status (st_fail e))
      refreshFlows y (refreshFlows_reads y) (pub_post (js "/v1/publish") (Some payload)) publish_message
      _ _ _ x p (PublishView.on_status st_reset v) (exec_pub_post _ _ x [y] p Hh)) as (p' & rest & Hx & Hs).
    exists p', rest. split; [|by split]. unfold submit_status in Hx. rewrite Hx. by destruct (_ ≫= _).
  - pose proof (exec_submit_only (fun msg => PublishView.on_status (st_succeed msg))
      (fun e => PublishView.on_status (st_fail e)) (pub_post (js "/v1/publish") (Some payload)) publish_message
      _ _ _ x [y] p (PublishView.on_status st_reset v) (exec_pub_post _ _ x [y] p Hh)) as Hx.
    eexists _, [y]. split; [rewrite Hx; unfold submit_status; by destruct (_ ≫= _)|].
    split; [exists []; split; [apply after_request_sent|done]|]. intros _. apply after_request_sent.
Qed.

Lemma publish_witness :
  exists p', exec (@publish demo_platform) [ok_reply (jsq "{'message_id':'m1'}"); down_reply] (with_flow,
      PublishView.set_s_form profile_form PublishView.setup) =
      Some (Ok tt, (p', PublishView.set_s_status (st_succeed (VStr (js "Published m1")) useActionStatus)
                          (PublishView.set_s_form profile_form PublishView.setup)), [down_reply], []) /\
    (rq_url <$> sent (br p')) = [js "http://localhost:8080/v1/publish"].
Proof.
  destruct (publish_payload (cat with_flow) (out with_flow) profile_form) as [m|] eqn:E; [|by vm_compute in E].
  pose proof (@publish_outcomes demo_platform (ok_reply (jsq "{'message_id':'m1'}")) down_reply with_flow
    (PublishView.set_s_form profile_form PublishView.setup) m E eq_refl) as Hx.
  vm_compute in E. injection E as <-. destruct Hx as (p' & rest & Hx & _ & Hs). specialize (Hs eq_refl).
  exists p'. split; [|by rewrite Hs].
  clear Hs. revert Hx. match goal with |- ?a = Some (?b, (?c, ?d), ?e, ?g) -> _ => intros Hx end.
  rewrite Hx. vm_compute in Hx. by injection Hx as <- <-.
Defined.
