(* ===== verification/ShellProps.v ===== *)
(** * Properties of the shell: header, navigation, cell switcher *)

From stdpp Require Import base list gmap strings.
From Stdlib Require Import NArith ZArith Lia String SpecFloat.
From S2P Require Import Prelude JsString JsNum JsVal Json Prog State Demo Storage Api Payload Catalog Session SessionProps.
From S2P Require Import View Form AppHeader CellSwitcher AppSidebar App.
Local Open Scope js_scope.

(** ** Refreshing everything *)

(** Without an invariant to keep, every program ends somehow. *)
Lemma ends_true {S A : Type} (p : prog S A) : ends (fun _ => True) any_reply anyway p.
Proof.
  induction p as [A a|A e|A g k IH|A q k IH|A p IHp k IHk|A p IHp q IHq k IHk]; simpl.
  1-2: done.
  - auto.
  - auto.
  - auto.
  - exists anyway, anyway. split_and!; auto.
Qed.

(** A library program never touches the component's own state. *)
Lemma ends_lib {V A : Type} (J : V -> Prop) Q (p : prog panel A) :
  ends (fun _ => True) any_reply Q p -> ends (fun s : panel * V => J (snd s)) any_reply Q (lib p).
Proof. by apply ends_zoom. Qed.

Section refresh.
Context `{Platform}.

(** A program whose failures are all caught by a handler that cannot fail. *)
Lemma ends_guarded {A : Type} (p : prog panel A) h :
  (forall e, ends (fun _ => True) any_reply is_ok (h e)) -> ends (fun _ => True) any_reply is_ok (prog_catch p h).
Proof. intros Hh. eapply ends_catch; [apply ends_true|done|auto]. Qed.

Lemma ends_modify_ok (f : panel -> panel) : ends (fun _ => True) any_reply is_ok (modify f).
Proof. by apply ends_modify. Qed.

Lemma ends_modify_then {B : Type} (f : panel -> panel) (q : prog panel B) :
  ends (fun _ => True) any_reply is_ok q -> ends (fun _ => True) any_reply is_ok (_ ← modify f; q).
Proof. intros Hq. by eapply ends_bind; [apply ends_modify_ok| |]. Qed.

Lemma refresh_tasks_end : Forall (ends (fun _ => True) any_reply is_ok) refresh_tasks.
Proof.
  unfold refresh_tasks. repeat constructor; apply ends_discard; apply ends_guarded; intros e;
    eauto using ends_modify_ok, ends_modify_then.
Qed.

Definition no_error (v : AppHeader.state) : Prop := st_error (s_refreshStatus v) = VStr [].

Lemma refreshAll_ends : ends (fun s : panel * AppHeader.state => no_error (snd s)) any_reply anyway refreshAll.
Proof.
  unfold refreshAll. eapply (ends_bind _ _ anyway); [apply ends_modify; [by intros [??]|done]| |done]. intros _ _.
  eapply (ends_catch _ _ is_ok); [|done|by intros e []].
  eapply ends_bind; [apply ends_lib, ends_promise_array, refresh_tasks_end| |done].
  intros a _. apply ends_modify; [by intros [??]|done].
Qed.
End refresh.

(** C34: The refresh button.  However many times it is clicked, and whatever the
    replies to the six concurrent refreshes and their order, the header never
    shows an error: each refresh handles its own failures, so the [catch] of
    [refreshAll] cannot run, and a refresh of a broker that is down still ends
    with the success message. *)
Theorem refresh_never_fails `{Platform} p c :
  reachable (fun q => q = refreshAll) ((p, AppHeader.setup), []) c ->
  st_error (s_refreshStatus (snd (fst c))) = VStr [].
Proof.
  intros Hr. eapply (reachable_inv (fun s : panel * AppHeader.state => no_error (snd s))) in Hr as [Hi _]; [exact Hi|..].
  - intros q ->. apply refreshAll_ends.
  - by split.
Qed.

Definition demo_page : panel := @init_panel demo_platform demo_browser.

(** Refreshing with the broker down: every request is rejected. *)
Definition all_down : config (panel * AppHeader.state) :=
  Nat.iter 8 (deliver 0 0 down_reply) (start (@refreshAll demo_platform) ((demo_page, AppHeader.setup), [])).

Lemma refresh_never_fails_witness :
  st_error (s_refreshStatus (snd (fst all_down))) = VStr [] /\
  st_ok (s_refreshStatus (snd (fst all_down))) = VStr (js "Refreshed").
Proof.
  split; [|by vm_compute].
  apply (@refresh_never_fails demo_platform demo_page all_down). unfold all_down. cbn [Nat.iter nat_rect].
  repeat apply reach_deliver. apply reach_start; [done|]. apply reach_init.
Defined.

(** ** Navigation *)

Section links.
Context {S : Type}.

(** The values of attribute [k] on the elements [tag] of a tree. *)
Definition attr_values (tag k : string) (l : list (vnode S)) : list jsval :=
  omap (fun '(t, attrs, _) =>
    if decide (t = js tag) then
      match find_attr (js k) attrs with Some (AVal v) => Some v | _ => None end
    else None) (List.concat (map elements l)).
End links.

(** The paths of the routes shown in the menu: settings only with local authentication. *)
Definition menu_paths (external : bool) : list jstring :=
  filter (fun p => external = false \/ p <> js "/settings") (path <$> routes).

Lemma sidebar_rendered `{Platform} p v : exists t,
  AppSidebar.render p v = Ok t /\
  attr_values "RouterLink" "to" t = VStr <$> (js "/" :: menu_paths (isExternalAuth (br p))) /\
  attr_values "SidebarMenuButton" "is-active" t =
    (fun l => VBool (strict_eq (s_route v) (VStr l))) <$> menu_paths (isExternalAuth (br p)).
Proof.
  unfold AppSidebar.render. destruct (isExternalAuth (br p)), (themeMode (ses p));
    (eexists; split; [reflexivity|]; split; vm_compute; reflexivity).
Qed.

Lemma find_route_path r : r ∈ routes -> find_route (path r) = Some r.
Proof.
  intros Hr. apply list_elem_of_In in Hr.
  repeat (destruct Hr as [<-|Hr]; [by vm_compute|]). destruct Hr.
Qed.

Lemma menu_NoDup b : NoDup (menu_paths b).
Proof. apply NoDup_filter. by apply (bool_decide_unpack (NoDup (path <$> routes))); vm_compute. Qed.

Lemma one_active (l : jstring) ls : NoDup ls -> l ∈ ls ->
  List.length (filter (fun v => truthy v = true) ((fun l' => VBool (strict_eq (VStr l) (VStr l'))) <$> ls)) = 1%nat.
Proof.
  intros Hnd Hin. apply list_elem_of_split in Hin as (l1 & l2 & ->).
  apply NoDup_app in Hnd as (_ & Hd & Hnd2). apply NoDup_cons in Hnd2 as [Hn _].
  assert (Hnone : forall l3, l ∉ l3 ->
    filter (fun v => truthy v = true) ((fun l' => VBool (strict_eq (VStr l) (VStr l'))) <$> l3) = []).
  { induction l3 as [|x l3 IH]; [done|]. intros [Hx Hx']%not_elem_of_cons.
    cbn [fmap list_fmap]. cbn [strict_eq]. rewrite bool_decide_false by done.
    rewrite filter_cons_False by done. by apply IH. }
  rewrite fmap_app, filter_app, fmap_cons. rewrite (Hnone l1), app_nil_l.
  2: { intros Hl. apply (Hd l Hl). by left. }
  rewrite filter_cons_True by (simpl; by apply bool_decide_true). cbn [List.length]. by rewrite (Hnone l2).
Qed.

(** C32: Navigation.  Every link of the sidebar leads to a route of its own (never
    to the redirect), every route has a link, except the settings under external
    authentication, whatever the page's state; and on a listed route exactly one
    entry is marked active.  Every other path shows the overview. *)
Theorem sidebar_navigation `{Platform} p v : exists t,
  AppSidebar.render p v = Ok t /\
  (forall l, VStr l ∈ attr_values "RouterLink" "to" t ->
    exists r : route, r ∈ routes /\ path r = l /\ resolve l = Some (component r)) /\
  (forall r, r ∈ routes -> (isExternalAuth (br p) = false \/ path r <> js "/settings") ->
    VStr (path r) ∈ attr_values "RouterLink" "to" t) /\
  (isExternalAuth (br p) = true -> VStr (js "/settings") ∉ attr_values "RouterLink" "to" t) /\
  (forall l, s_route v = VStr l -> l ∈ menu_paths (isExternalAuth (br p)) ->
    List.length (filter (fun a => truthy a = true) (attr_values "SidebarMenuButton" "is-active" t)) = 1%nat) /\
  (forall l, l ∉ path <$> routes -> resolve l = Some (js "OverviewView")).
Proof.
  destruct (sidebar_rendered p v) as (t & Ht & Hl & Ha). exists t. rewrite Hl, Ha. split; [done|].
  assert (Hin : forall l, VStr l ∈ VStr <$> (js "/" :: menu_paths (isExternalAuth (br p))) <->
    l ∈ js "/" :: menu_paths (isExternalAuth (br p))).
  { intros l. rewrite list_elem_of_fmap. split; [by intros (? & [= ->] & ?)|eauto]. }
  assert (Hroot : js "/" ∈ path <$> routes) by (apply list_elem_of_here).
  split_and!.
  - intros l Hl'%Hin. assert (l ∈ path <$> routes) as (r & -> & Hr)%list_elem_of_fmap.
    { apply elem_of_cons in Hl' as [->|Hl']; [done|]. by apply list_elem_of_filter in Hl' as [_ Hl']. }
    exists r. split_and!; [done..|]. unfold resolve. by rewrite find_route_path.
  - intros r Hr Hs. apply Hin. right. apply list_elem_of_filter. split; [done|]. by apply list_elem_of_fmap_2.
  - intros Hx Hs%Hin. apply elem_of_cons in Hs as [Hs|Hs]; [by vm_compute in Hs|].
    apply list_elem_of_filter in Hs as [[Hx'|?] _]; [|done]. by rewrite Hx in Hx'.
  - intros l -> Hl'. apply one_active; [apply menu_NoDup|done].
  - intros l Hl'. unfold resolve. replace (find_route l) with (@None route); [by vm_compute|].
    symmetry. unfold find_route. destruct (List.find _ routes) as [r|] eqn:E; [|done].
    apply find_some in E as [E1 E2]. apply bool_decide_eq_true in E2. subst. destruct Hl'.
    apply list_elem_of_fmap_2. by apply list_elem_of_In.
Qed.

(** ** Cells *)

(** A registered cell: an object with an identifier. *)
Local Notation is_cell := (keyed (js "id")).
Local Notation are_cells := (all_keyed (js "id")).

Section cells.
Context `{Platform}.

(** What [refreshCells] leaves: the listed cells, with one of them selected, the
    same as before if it is still listed. *)
Definition cell_choice (p p' : panel) (cs : list jsval) (c : jsval) : Prop :=
  State.cells (ses p') = VArr cs /\ c ∈ cs /\ get c (js "id") = Ok (selectedCellId (ses p')) /\
  selectedCell (ses p') = Ok c /\ CellSwitcher.current p' = Ok c /\
  (some_elem (field_is (js "id") (selectedCellId (ses p))) cs = Ok true ->
   selectedCellId (ses p') = selectedCellId (ses p)).

Lemma chosen_current p' cs c id :
  State.cells (ses p') = VArr cs -> cs <> [] -> safe_int (Z.of_nat (List.length cs)) -> is_cell c id ->
  find_elem (field_is (js "id") (selectedCellId (ses p'))) cs = Ok c ->
  selectedCell (ses p') = Ok c /\ CellSwitcher.current p' = Ok c.
Proof.
  intros Hcs Hne Hsafe (Ho & _) Hf. unfold selectedCell, CellSwitcher.current, CellSwitcher.cells.
  rewrite Hcs. cbn [elements_of mbind result_bind]. rewrite Hf. cbn [mbind result_bind].
  rewrite (is_object_truthy c Ho). split; [done|].
  destruct cs as [|c0 cs]; [done|]. unfold e_if, e_length, e_get. cbn [mbind result_bind].
  assert (Hl : get (VArr (c0 :: cs)) (js "length") = Ok (VNum (num_of_Z (Z.of_nat (List.length (c0 :: cs))))))
    by done.
  rewrite Hl. cbn [mbind result_bind truthy]. rewrite num_of_Z_truthy by done.
  replace (Z.of_nat (List.length (c0 :: cs)) =? 0)%Z with false by (symmetry; apply Z.eqb_neq; simpl; lia). cbn [negb mbind result_bind elements_of]. rewrite Hf.
  cbn [mbind result_bind]. by rewrite (is_object_truthy c Ho).
Qed.

Lemma exec_refreshCells x reg cs ms p :
  header_ok (br p) = true -> reply_result x = Ok reg ->
  list_field reg (js "cells") = Ok (VArr cs) -> list_field reg (js "members") = Ok ms ->
  exec refreshCells [x] p =
  let q := on_ses (set_members ms) (on_ses (set_cells (VArr cs))
             (after_request (js "GET") (adminUrl (js "/cells") (br p)) None p)) in
  match some_elem (field_is (js "id") (selectedCellId (ses p))) cs with
  | Ok true => Some (Ok tt, q, [], [])
  | Ok false =>
      match fallback_cell (ses q) with
      | Ok id => Some (Ok tt, on_ses (set_selectedCellId id) q, [], [])
      | Exn _ => Some (Ok tt, on_ses (set_members (VArr [])) (on_ses (set_cells (VArr [])) q), [], [])
      end
  | Exn _ => Some (Ok tt, on_ses (set_members (VArr [])) (on_ses (set_cells (VArr [])) q), [], [])
  end.
Proof.
  intros Hh Hx Hc Hm. unfold refreshCells, admin. rewrite exec_catch, exec_read_bind, exec_mbind. unfold apiGet.
  rewrite exec_request_ok by done. rewrite Hx. cbn [exec_then]. rewrite add_parked_nil.
  rewrite exec_pure_bind, Hc, exec_modify_bind, exec_pure_bind, Hm, exec_modify_bind, exec_read_bind.
  set (q := on_ses (set_members ms) _). rewrite exec_pure_bind.
  assert (Hs : cell_selected (ses q) = some_elem (field_is (js "id") (selectedCellId (ses p))) cs) by done.
  rewrite Hs. destruct (some_elem _ cs) as [[]|]; [done| |done].
  rewrite exec_pure_bind. by destruct (fallback_cell (ses q)).
Qed.
End cells.

(** C25: Cells.  When the registry lists cells, after [refreshCells] one of them is
    selected: the one selected before if it is still listed, else the first; and
    the cell switcher shows that cell as the current one. *)
Theorem refreshCells_selects `{Platform} x reg cs ms p :
  header_ok (br p) = true -> reply_result x = Ok reg ->
  list_field reg (js "cells") = Ok (VArr cs) -> list_field reg (js "members") = Ok ms ->
  are_cells cs -> cs <> [] -> safe_int (Z.of_nat (List.length cs)) ->
  exists p' c, exec refreshCells [x] p = Some (Ok tt, p', [], []) /\ cell_choice p p' cs c /\ members (ses p') = ms.
Proof.
  intros Hh Hx Hc Hm Hcs Hne Hsafe. rewrite (exec_refreshCells x reg cs ms p) by done. unfold cell_choice.
  destruct (keyed_by_id (js "id") (selectedCellId (ses p)) cs Hcs) as [[Hs _]|(c & id & Hin & Hcell & Hid & Hs & Hf)]; rewrite Hs.
  - destruct cs as [|c cs]; [done|]. pose proof Hcs as ((id & Hcell) & _)%Forall_cons.
    set (q := on_ses (set_members ms) _). pose proof Hcell as (Ho & Hg & Hn).
    assert (Hfb : fallback_cell (ses q) = Ok (VStr id)).
    { unfold fallback_cell. change (State.cells (ses q)) with (VArr (c :: cs)). by apply first_keyed. }
    rewrite Hfb. eexists _, c. split; [done|]. split; [|done].
    pose proof (find_first_keyed _ c cs id Hcell) as Hf.
    split_and!; [done|apply list_elem_of_here|exact Hg|..|done];
      by eapply (chosen_current _ (c :: cs) c id).
  - eexists _, c. split; [done|]. split; [|done].
    split_and!; [done..| | | |done]; [|by eapply (chosen_current _ cs c id)..].
    destruct Hcell as (_ & Hg & _). simpl. by rewrite Hid.
Qed.

Definition eu_cell : jsval := VObj ["id" ~> VStr (js "eu-1"); "region" ~> VStr (js "eu")].

Lemma refreshCells_selects_witness :
  exists p' c, exec (@refreshCells demo_platform) [ok_reply (jsq "{'cells':[{'id':'eu-1','region':'eu'}]}")] demo_page
      = Some (Ok tt, p', [], []) /\
    cell_choice demo_page p' [eu_cell] c.
Proof.
  destruct (@refreshCells_selects demo_platform (ok_reply (jsq "{'cells':[{'id':'eu-1','region':'eu'}]}"))
    (VObj ["cells" ~> VArr [eu_cell]]) [eu_cell] (VArr []) demo_page eq_refl
    ltac:(by vm_compute) ltac:(by vm_compute) ltac:(by vm_compute)
    ltac:(repeat constructor; by exists (js "eu-1")) ltac:(done) ltac:(done)) as (p' & c & He & Hc & _).
  by exists p', c.
Defined.

(** ** The setup window *)

(** [n] in decimal, as a template shows it. *)
Definition minutes_text (n : Z) : jstring :=
  js "Open for about " ++ num_to_string (num_of_Z n) ++ js " more minute" ++
  (if (n =? 1)%Z then [] else js "s") ++ js ". Then restart BetterMQ to open setup again.".

(** Exact ceiling division by sixty. *)
Definition minutes_up (secs : Z) : Z := Z.max 1 ((secs + 59) / 60).

Definition hint_ok (secs : Z) : bool :=
  match setupHint (VObj ["setup_open" ~> VBool true; "setup_closes_in_secs" ~> VNum (num_of_Z secs)]) with
  | Ok t => bool_decide (t = minutes_text (minutes_up secs))
  | Exn _ => false
  end.

Lemma hints_ok : forallb (fun n => hint_ok (Z.of_nat n)) (seq 0 901) = true.
Proof. by vm_compute. Qed.

(** C33: The setup hint.  While the setup window is open for up to fifteen minutes
    (the broker's default), the hint names the remaining time in minutes, rounded
    up and never less than one, in the singular exactly for one minute. *)
Theorem setup_hint_minutes cfg n :
  (n <= 900)%nat -> truthy cfg = true ->
  (exists b, get cfg (js "setup_open") = Ok b /\ truthy b = true) ->
  get cfg (js "setup_closes_in_secs") = Ok (VNum (num_of_Z (Z.of_nat n))) ->
  setupHint cfg = Ok (minutes_text (minutes_up (Z.of_nat n))).
Proof.
  intros Hn Hc (b & Hb & Htb) Hs. pose proof hints_ok as Hall. rewrite forallb_forall in Hall.
  specialize (Hall n ltac:(apply in_seq; lia)). unfold hint_ok in Hall.
  unfold setupHint in *. rewrite Hc, Hb, Hs. cbn [negb mbind result_bind]. rewrite Htb.
  cbn [negb mbind result_bind truthy get is_nullish own_get assoc] in Hall. revert Hall.
  case_match; [|done]. by intros ->%bool_decide_eq_true.
Qed.

Lemma setup_hint_witness :
  setupHint (VObj ["setup_open" ~> VBool true; "setup_closes_in_secs" ~> VNum (num_of_Z 90)]) =
  Ok (js "Open for about 2 more minutes. Then restart BetterMQ to open setup again.").
Proof.
  rewrite (setup_hint_minutes (VObj ["setup_open" ~> VBool true; "setup_closes_in_secs" ~> VNum (num_of_Z 90)]) 90
    ltac:(lia) eq_refl ltac:(by exists (VBool true)) eq_refl).
  by vm_compute.
Defined.

(** ** Avatars *)

Section avatars.
Context `{Platform}.

(** The avatars of a sequence of seeds, one call after the other. *)
Fixpoint glass_all (seeds : list jstring) (cache : gmap jstring jstring) : list jstring :=
  match seeds with
  | [] => []
  | s :: seeds' => let '(uri, cache') := glassAvatar s cache in uri :: glass_all seeds' cache'
  end.

Lemma glass_all_ok seeds cache : cache_ok cache ->
  glass_all seeds cache = (fun s => avatar_uri (match trim s with [] => js "local" | k => k end)) <$> seeds.
Proof.
  revert cache. induction seeds as [|s seeds IH]; intros cache Hc; [done|]. cbn [glass_all].
  destruct (glassAvatar_ok s cache Hc) as [Hc' Hu]. destruct (glassAvatar s cache) as [uri cache'].
  cbn [fst snd] in *. rewrite IH by done. by rewrite Hu.
Qed.
End avatars.

(** The avatar cache does not show.  Any sequence of calls of [glassAvatar],
    starting with the empty cache, returns what generating every avatar anew from
    its trimmed seed (or from the default one) would return. *)
Theorem avatar_cache_transparent `{Platform} seeds :
  glass_all seeds ∅ = (fun s => avatar_uri (match trim s with [] => js "local" | k => k end)) <$> seeds.
Proof. apply glass_all_ok, map_Forall_empty. Qed.
