(* ===== verification/OpsProps.v ===== *)
(** * Properties of the schedules, dead-letter, HTTP and group views *)

From stdpp Require Import base list gmap strings.
From Stdlib Require Import NArith ZArith Lia String SpecFloat.
From S2P Require Import Prelude JsString JsNum JsVal Json Prog State Demo Storage StorageProps Api Payload Catalog Session SessionProps.
From S2P Require Import View Form FormProps AuthProps ResourceProps Net Components HttpView GroupsView SchedulesView DlqView.
Local Open Scope js_scope.

(** ** Schedules *)

Section schedules.
Context `{Platform}.
Implicit Types f : SchedulesView.form_state.

(** When a schedule fires: every so many seconds, or by a cron expression, never both. *)
Definition schedule_timing f (o : list (jstring * jsval)) : Prop :=
  if strict_eq (form_type f) (VStr (js "interval"))
  then assoc (js "every_seconds") o = Some (VNum (number_or (form_every f) 10)) /\ assoc (js "cron") o = None
  else assoc (js "cron") o = Some (form_expr f) /\ assoc (js "every_seconds") o = None.

Definition schedule_flow f (o : list (jstring * jsval)) : Prop :=
  assoc (js "flow_id") o =
  if truthy (SchedulesView.form_flowId f) && negb (strict_eq (SchedulesView.form_flowId f) (VStr (js "none")))
  then Some (SchedulesView.form_flowId f) else None.

Lemma create_payload_ok ob f v : create_payload ob f = Ok (SchedulesView.Payload v) ->
  exists o url secret, v = VObj o /\
    e_trim (Ok (SchedulesView.form_url f)) = Ok url /\ truthy url = true /\ assoc (js "url") o = Some url /\
    e_trim (Ok (SchedulesView.form_secret f)) = Ok secret /\ truthy secret = true /\
    assoc (js "secret") o = Some secret /\
    schedule_timing f o /\ schedule_flow f o /\ assoc (js "method") o = Some (ob_method ob).
Proof.
  unfold create_payload. destruct (e_trim (Ok (SchedulesView.form_url f))) as [url|]; cbn [mbind result_bind]; [|done].
  destruct (truthy url) eqn:Eu; [|done]. cbn [mbind result_bind].
  destruct (e_trim (Ok (SchedulesView.form_secret f))) as [secret|]; cbn [mbind result_bind]; [|done].
  destruct (truthy secret) eqn:Es; cbn [negb]; [|done].
  destruct (mergeRetry _ _) as [v2|] eqn:E2; cbn [mbind result_bind]; [|done].
  destruct (mergeOutbound ob _) as [[v3 [msg|]]|] eqn:E3; cbn [mbind result_bind]; [done| |done]. intros [= <-].
  unfold schedule_timing, schedule_flow.
  destruct (strict_eq (form_type f) _), (truthy (SchedulesView.form_flowId f) && _);
    destruct (merges_frame _ _ _ _ _ E2 E3) as (o3 & -> & Hm & F3); exists o3, url, secret;
    split_and!; try done; by rewrite F3.
Qed.
End schedules.

(** C28: The payload of a schedule has the trimmed destination and secret, both
    non-empty, exactly one of an interval and a cron expression, the flow profile
    exactly when one is selected, and the outbound method. *)
Theorem schedule_shape `{Platform} ob (f : SchedulesView.form_state) v :
  create_payload ob f = Ok (SchedulesView.Payload v) ->
  exists o url secret, v = VObj o /\
    e_trim (Ok (SchedulesView.form_url f)) = Ok url /\ truthy url = true /\ assoc (js "url") o = Some url /\
    e_trim (Ok (SchedulesView.form_secret f)) = Ok secret /\ truthy secret = true /\
    assoc (js "secret") o = Some secret /\
    schedule_timing f o /\ schedule_flow f o /\ assoc (js "method") o = Some (ob_method ob).
Proof. apply create_payload_ok. Qed.

Definition demo_panel1 : panel := @init_panel demo_platform demo_browser.

Lemma schedule_shape_witness :
  exists o, create_payload (out demo_panel1) (SchedulesView.s_form SchedulesView.setup) = Ok (SchedulesView.Payload (VObj o)) /\
    assoc (js "cron") o = Some (VStr (js "*/1 * * * *")) /\ assoc (js "every_seconds") o = None.
Proof.
  destruct (create_payload (out demo_panel1) (SchedulesView.s_form SchedulesView.setup)) as [[v|]|] eqn:E;
    [|by vm_compute in E..].
  destruct (@schedule_shape demo_platform _ _ v E) as (o & _ & _ & -> & _ & _ & _ & _ & _ & _ & [Ht1 Ht2] & _).
  by exists o.
Defined.

(** The path of a URL: what comes before the query and the fragment. *)
Fixpoint url_path (u : jstring) : jstring :=
  match u with
  | [] => []
  | c :: u' => if decide (c = 63%N \/ c = 35%N) then [] else c :: url_path u'
  end.

Lemma url_path_query u t : url_path (u ++ js "?" ++ t) = url_path u.
Proof. induction u as [|c u IH]; [done|]. cbn [url_path app]. case_decide; [done|]. by rewrite <- IH. Qed.

Section act.
Context `{Platform}.

(** The request of each action on a listed schedule, with the identifier as it is. *)
Definition act_table (kind id : jstring) : option (jstring * jstring) :=
  if decide (kind = js "delayed") then Some (js "DELETE", js "/v1/delayed/" ++ id)
  else if decide (kind = js "cron-pause") then Some (js "POST", js "/v1/crons/" ++ id ++ js "/pause")
  else if decide (kind = js "cron-resume") then Some (js "POST", js "/v1/crons/" ++ id ++ js "/resume")
  else if decide (kind = js "cron-delete") then Some (js "DELETE", js "/v1/crons/" ++ id)
  else None.

Lemma exec_ignore_request {A : Type} (q : prog panel A) x xs p r p' :
  exec q (x :: xs) p = Some (r, p', xs, []) ->
  exec (ignore q) (x :: xs) p = Some (match r with Ok _ => Ok tt | Exn e => Exn e end, p', xs, []).
Proof. intros Hq. unfold ignore. rewrite exec_bind, Hq. by destruct r. Qed.

Lemma exec_act_request kind id x xs p : header_ok (br p) = true ->
  exec (act_request (VStr kind) (VStr id)) (x :: xs) p =
  match act_table kind id with
  | Some (m, path) =>
      Some (match reply_result x with Ok _ => Ok tt | Exn e => Exn e end,
            after_request m (publicUrl path (br p)) None p, xs, [])
  | None => Some (Ok tt, p, x :: xs, [])
  end.
Proof.
  intros Hh. unfold act_request, act_table. cbn [strict_eq to_string].
  repeat (case_bool_decide; [rewrite decide_True by assumption; apply exec_ignore_request;
    first [exact (exec_pub_delete _ x xs p Hh) | exact (exec_pub_post _ _ x xs p Hh)]
    | rewrite decide_False by assumption]).
  reflexivity.
Qed.
End act.



(** ** Two requests in a row *)

Section again.
Context `{Platform}.

(** Loading the token a second time gives the same token, or none (when the
    migration lost it). *)
Lemma loadSavedToken_again base b :
  let r := loadSavedToken base b in
  fst (loadSavedToken base (snd r)) = fst r \/ fst (loadSavedToken base (snd r)) = [].
Proof.
  simpl. rewrite (loadSavedToken_eq base b).
  destruct (truthy_str (store_get (tokenStorageKey base) b)) as [t|] eqn:E.
  { left. simpl. by rewrite loadSavedToken_eq, E. }
  destruct (legacy_token base b) as [t|] eqn:El; cbn [snd fst]; [|left; by rewrite loadSavedToken_eq, E, El].
  set (b' := local_remove _ _). rewrite loadSavedToken_eq.
  assert (H1 : local_get (tokenStorageKey base) b' = None).
  { unfold b'. rewrite local_get_remove_ne by apply token_key_legacy. apply local_get_remove. }
  assert (H2 : local_get LEGACY_TOKEN_KEY b' = None) by apply local_get_remove.
  destruct (session_storage b) as [m|] eqn:Es.
  - left. assert (Hg : store_get (tokenStorageKey base) b' = Some t).
    { unfold b', store_get, store_set. rewrite Es. simpl. by rewrite lookup_insert_eq. }
    by rewrite Hg, (legacy_token_truthy _ _ _ El).
  - right. assert (Hg : store_get (tokenStorageKey base) b' = None).
    { unfold store_get. replace (session_storage b') with (@None (gmap jstring jstring)); [done|].
      unfold b', store_set. by rewrite Es. }
    rewrite Hg. unfold legacy_token. by rewrite H1, H2.
Qed.

(** On a served page a token that fits a header keeps fitting after a request. *)
Lemma header_ok_after m u body p : is_http (br p) = true -> header_ok (br p) = true ->
  header_ok (br (after_request m u body p)) = true.
Proof.
  intros Hhttp Hh. unfold after_request. rewrite header_ok_log. cbn [br set_br].
  set (b := br p) in *. destruct (loadSavedToken_frame (api_base b) b) as (F1 & F2 & _).
  pose proof (loadSavedToken_again (api_base b) b) as Ha. simpl in Ha.
  assert (Hb : snd (authHeaders b) = snd (loadSavedToken (api_base b) b)).
  { unfold authHeaders. destruct (loadSavedToken (api_base b) b) as [t b']. by destruct (normalize_str t). }
  rewrite Hb. set (b' := snd (loadSavedToken (api_base b) b)) in *.
  assert (Hbase : api_base b' = api_base b).
  { rewrite !api_base_http by (unfold is_http in *; by rewrite ?F1). done. }
  unfold header_ok, authHeaders in *. rewrite Hbase.
  destruct (loadSavedToken (api_base b) b) as [t b1], (loadSavedToken (api_base b) b') as [t2 b2].
  cbn [fst snd] in *. destruct Ha as [->| ->]; [|done]. by destruct (normalize_str t).
Qed.
End again.

(** ** Dead letters *)

Section dlq.
Context `{Platform}.
Implicit Types v : DlqView.state.

Lemma selectedSource_keyed v l c : s_sources v = VArr l ->
  find_elem (field_is (js "dlq_topic") (s_sourceId v)) l = Ok c -> selectedSource v = Ok c.
Proof. intros Hl Hf. unfold selectedSource. by rewrite Hl. Qed.

(** Loading the messages of a selected source: one GET, and it always ends. *)
Lemma exec_load_selected v l c id x p :
  s_sources v = VArr l -> find_elem (field_is (js "dlq_topic") (s_sourceId v)) l = Ok c ->
  keyed (js "dlq_topic") c id -> header_ok (br p) = true ->
  exists v', exec DlqView.load [x] (p, v) =
    Some (Ok tt, (after_request (js "GET")
                    (publicUrl (js "/v1/dlq?" ++ load_query c (VStr id) (s_limit v)) (br p)) None p, v'), [], []) /\
    s_sources v' = s_sources v /\ s_sourceId v' = s_sourceId v.
Proof.
  intros Hl Hf (Ho & Hg & Hn) Hh. unfold DlqView.load. rewrite exec_upd, exec_eval.
  set (v1 := on_loadStatus st_reset v).
  assert (selectedSource v1 = Ok c) as -> by (by eapply (selectedSource_keyed v1 l)).
  rewrite exec_eval. unfold e_oget, oget, e_or. cbn [mbind result_bind].
  unfold get in Hg. destruct (is_nullish c); [done|]. injection Hg as ->.
  destruct id as [|ch id]; [done|]. cbn [truthy negb]. rewrite exec_local, exec_catch.
  rewrite (exec_lib_bind _ _ _ _ _ _ _ _ _ (exec_pub_get _ x [] p Hh)). cbn [fmap list_fmap]. rewrite add_parked_nil.
  destruct (reply_result x) as [d|e]; [|by eexists].
  rewrite exec_pure. destruct (list_field d _) as [rows|e]; [|by eexists].
  rewrite exec_upd, exec_pure. case_match; by eexists.
Qed.

(** What [loadSources] leaves when the broker lists sources: one of them is
    selected, the same as before if it is still listed. *)
Definition source_choice v v' (l : list jsval) (c : jsval) (id : jstring) : Prop :=
  s_sources v' = VArr l /\ c ∈ l /\ keyed (js "dlq_topic") c id /\ s_sourceId v' = VStr id /\
  (some_elem (field_is (js "dlq_topic") (s_sourceId v)) l = Ok true -> s_sourceId v' = s_sourceId v).
(** Which source [loadSources] goes on with. *)
Lemma source_pick v l : s_sources v = VArr l -> all_keyed (js "dlq_topic") l -> l <> [] ->
  exists (lost : bool) c id, source_lost v = Ok lost /\ c ∈ l /\ keyed (js "dlq_topic") c id /\
    find_elem (field_is (js "dlq_topic") (VStr id)) l = Ok c /\
    (if lost then first_source v = Ok (VStr id) else s_sourceId v = VStr id) /\
    (some_elem (field_is (js "dlq_topic") (s_sourceId v)) l = Ok true -> s_sourceId v = VStr id).
Proof.
  intros Hl Hk Hne. unfold source_lost, first_source. rewrite Hl. cbn [elements_of mbind result_bind].
  destruct (keyed_by_id _ (s_sourceId v) l Hk) as [[Hs _]|(c & id & Hin & Hc & Hv & Hs & Hf)]; rewrite Hs.
  - destruct l as [|c l]; [done|]. pose proof Hk as ((id & Hc) & _)%Forall_cons.
    exists true, c, id. rewrite (find_first_keyed _ _ _ _ Hc).
    split_and!; [by destruct (truthy _)|apply list_elem_of_here|done|done|by apply first_keyed|done].
  - exists false, c, id. rewrite Hv in *. destruct Hc as (Ho & Hg & Hn).
    split_and!; try done. by destruct id.
Qed.
End dlq.

(** Dead-letter sources.  When the broker lists sources, [loadSources] always
    ends with one of them selected, the one selected before if it is still listed
    and else the first, and has sent exactly two requests: the list of sources and
    then the messages of the selected one. *)
Theorem dlq_sources_selected `{Platform} x y data l p v :
  is_http (br p) = true -> header_ok (br p) = true ->
  reply_result x = Ok data -> sources_of data = Ok (VArr l) ->
  all_keyed (js "dlq_topic") l -> l <> [] ->
  exists p' v' c id rq rq', exec loadSources [x; y] (p, v) = Some (Ok tt, (p', v'), [], []) /\
    source_choice v v' l c id /\ sent (br p') = rq' :: rq :: sent (br p) /\
    rq_url rq = publicUrl (js "/v1/dlq/sources") (br p) /\
    rq_method rq = js "GET" /\ rq_method rq' = js "GET" /\
    exists q, rq_url rq' = publicUrl (js "/v1/dlq?" ++ load_query c (VStr id) (s_limit v)) q.
Proof.
  intros Hhttp Hh Hx Hs Hk Hne. unfold loadSources. rewrite exec_upd, exec_catch.
  rewrite (exec_lib_bind _ _ _ _ _ _ _ _ _ (exec_pub_get (js "/v1/dlq/sources") x [y] p Hh)). cbn [fmap list_fmap].
  rewrite add_parked_nil, Hx. pose proof (after_request_sent (js "GET") (publicUrl (js "/v1/dlq/sources") (br p)) None p) as Hq.
  pose proof (header_ok_after (js "GET") (publicUrl (js "/v1/dlq/sources") (br p)) None p Hhttp Hh) as Hhq.
  set (q := after_request _ _ _ p) in *. rewrite exec_pure, Hs, exec_upd, exec_eval.
  set (v1 := set_s_sources (VArr l) (on_loadStatus st_reset v)).
  destruct (source_pick v1 l eq_refl Hk Hne) as (lost & c & id & Hlost & Hin & Hc & Hf & Hpick & Hkeep).
  rewrite Hlost.
  assert (Hgo : exec (_ ← (if lost then id ← eval first_source; upd (set_s_sourceId id) else Ret tt);
       id ← local s_sourceId;
       if truthy id then DlqView.load else _ ← upd (set_s_rows (VArr [])); upd (set_s_topic (VStr []))) [y] (q, v1) =
     exec DlqView.load [y] (q, set_s_sourceId (VStr id) v1)).
  { pose proof Hc as (_ & _ & Hn). destruct lost.
    - rewrite exec_mbind, exec_eval, Hpick, exec_upd_last. cbn [exec_then]. rewrite add_parked_nil, exec_local.
      by destruct id.
    - rewrite exec_mbind. cbn [exec exec_then]. rewrite add_parked_nil, exec_local, Hpick.
      assert (set_s_sourceId (VStr id) v1 = v1) as ->; [by rewrite <- Hpick; destruct v|]. by destruct id. }
  rewrite Hgo.
  destruct (exec_load_selected (set_s_sourceId (VStr id) v1) l c id y q eq_refl Hf Hc Hhq) as (v' & He & Hv1 & Hv2).
  rewrite He. cbn [exec_then]. eexists _, v', c, id, _, _. split; [done|].
  split; [split_and!; [by rewrite Hv1|done..|]|].
  - rewrite Hv2. intros Hk'. symmetry. exact (Hkeep Hk').
  - rewrite after_request_sent, Hq. split; [done|]. split_and!; [done..|]. by eexists.
Qed.

Lemma dlq_sources_witness :
  exists p' v', exec (@loadSources demo_platform)
      [ok_reply (jsq "{'sources':[{'dlq_topic':'dlq.jobs','queue':'jobs'}]}"); ok_reply (jsq "{'messages':[]}")]
      (demo_panel1, DlqView.setup) = Some (Ok tt, (p', v'), [], []) /\
    s_sourceId v' = VStr (js "dlq.jobs").
Proof.
  destruct (@dlq_sources_selected demo_platform
    (ok_reply (jsq "{'sources':[{'dlq_topic':'dlq.jobs','queue':'jobs'}]}")) (ok_reply (jsq "{'messages':[]}"))
    (VObj ["sources" ~> VArr [VObj ["dlq_topic" ~> VStr (js "dlq.jobs"); "queue" ~> VStr (js "jobs")]]])
    [VObj ["dlq_topic" ~> VStr (js "dlq.jobs"); "queue" ~> VStr (js "jobs")]]
    demo_panel1 DlqView.setup eq_refl eq_refl ltac:(by vm_compute) eq_refl
    ltac:(repeat constructor; by exists (js "dlq.jobs")) ltac:(done))
    as (p' & v' & c & id & rq & rq' & He & (_ & Hin & (_ & Hg & _) & Hv & _) & _).
  exists p', v'. split; [exact He|]. rewrite Hv. apply list_elem_of_singleton in Hin as ->. by injection Hg as <-.
Defined.

(** ** Blocking a destination *)

Section http.
Context `{Platform}.

Lemma exec_http_load x p (v : HttpView.state) : header_ok (br p) = true ->
  exists v', exec HttpView.load [x] (p, v) =
    Some (Ok tt, (after_request (js "GET") (publicUrl (js "/v1/destinations/blocked") (br p)) None p, v'), [], []) /\
    s_host v' = s_host v /\ s_blockStatus v' = s_blockStatus v.
Proof.
  intros Hh. unfold HttpView.load. rewrite exec_upd, exec_catch.
  rewrite (exec_lib_bind _ _ _ _ _ _ _ _ _ (exec_pub_get _ x [] p Hh)). cbn [fmap list_fmap]. rewrite add_parked_nil.
  destruct (reply_result x) as [d|e]; [|by eexists].
  rewrite exec_pure. destruct (hosts_of d) as [hs|e]; by eexists.
Qed.
End http.

(** Blocking a destination.  A blank host sends nothing and says so; otherwise
    exactly one POST carries the trimmed host and the duration in milliseconds; on
    success the field is cleared and the list reloaded with one GET, on failure
    the field keeps its text and the error is shown. *)
Theorem http_block_outcomes `{Platform} s x y p (v : HttpView.state) :
  s_host v = VStr s -> is_http (br p) = true -> header_ok (br p) = true ->
  match trim s with
  | [] => exec HttpView.block [x; y] (p, v) =
      Some (Ok tt, (p, set_s_blockStatus (st_fail (VStr (js "Host or URL required")) useActionStatus) v), [x; y], [])
  | h =>
      let q := after_request (js "POST") (publicUrl (js "/v1/destinations/block") (br p))
        (json_body (Some (VObj ["host" ~> VStr h; "duration_ms" ~> VNum (duration_ms (s_minutes v))]))) p in
      match reply_result x ≫= (fun r => e_template
        [ #"Blocked "; (Ok r) @. "host" .|| Ok (VStr h); #" for "; Ok (s_minutes v); #"m"]) with
      | Ok msg => exists v', exec HttpView.block [x; y] (p, v) =
          Some (Ok tt, (after_request (js "GET") (publicUrl (js "/v1/destinations/blocked") (br q)) None q, v'), [], []) /\
          s_host v' = VStr [] /\ s_blockStatus v' = st_succeed msg useActionStatus
      | Exn e => exec HttpView.block [x; y] (p, v) =
          Some (Ok tt, (q, set_s_blockStatus (st_fail e useActionStatus) v), [y], [])
      end
  end.
Proof.
  intros Hs Hhttp Hh. unfold HttpView.block. rewrite exec_upd, exec_eval.
  change (s_host (on_blockStatus st_reset v)) with (s_host v). rewrite Hs. cbn [e_trim str_method mbind result_bind].
  destruct (trim s) as [|c h]; [done|]. cbn [truthy negb].
  rewrite exec_catch, exec_local. change (s_minutes (on_blockStatus st_reset v)) with (s_minutes v).
  set (body := Some (VObj _)).
  rewrite (exec_lib_bind _ _ _ _ _ _ _ _ _ (exec_pub_post _ body x [y] p Hh)). cbn [fmap list_fmap]. rewrite add_parked_nil.
  set (q := after_request _ _ _ p). destruct (reply_result x) as [r|e]; cbn [mbind result_bind]; [|done].
  rewrite exec_eval. change (s_minutes (on_blockStatus st_reset v)) with (s_minutes v).
  destruct (e_template _) as [msg|e]; [|done]. rewrite exec_upd, exec_upd.
  destruct (exec_http_load y q (set_s_host (VStr []) (on_blockStatus (st_succeed msg) (on_blockStatus st_reset v))))
    as (v' & He & Hv1 & Hv2); [by apply header_ok_after|].
  exists v'. rewrite He. by split.
Qed.

Definition blocking (h : string) : HttpView.state := set_s_host (VStr (js h)) HttpView.setup.

Lemma http_block_witness :
  exec (@HttpView.block demo_platform) [down_reply; down_reply] (demo_panel1, blocking "  ") =
    Some (Ok tt, (demo_panel1, set_s_blockStatus (st_fail (VStr (js "Host or URL required")) useActionStatus)
      (blocking "  ")), [down_reply; down_reply], []) /\
  exists p' v', exec (@HttpView.block demo_platform) [ok_reply (jsq "{'host':'api.example'}"); down_reply]
      (demo_panel1, blocking "api.example") = Some (Ok tt, (p', v'), [], []) /\ s_host v' = VStr [].
Proof.
  split.
  - exact (@http_block_outcomes demo_platform (js "  ") down_reply down_reply demo_panel1 (blocking "  ") eq_refl eq_refl eq_refl).
  - destruct (@http_block_outcomes demo_platform (js "api.example") (ok_reply (jsq "{'host':'api.example'}")) down_reply
      demo_panel1 (blocking "api.example") eq_refl eq_refl eq_refl) as (v' & He & Hv & _).
    eexists _, v'. by split.
Defined.
