(* ===== verification/InfraProps.v ===== *)
(** * Properties of the infrastructure view *)

From stdpp Require Import base list gmap strings.
From Stdlib Require Import NArith ZArith Lia String SpecFloat.
From S2P Require Import Prelude JsString JsNum JsVal Json Prog State Demo Storage Api Payload Catalog Session SessionProps.
From S2P Require Import View Form FormProps AuthProps InfraView.
Local Open Scope js_scope.

(** ** The table of nodes *)

(** Reads the fields of a row off the literal that built it. *)
Ltac row_fields Hrow :=
  apply e_object_fields in Hrow as (? & -> & Hrow);
  repeat (apply Forall2_cons_inv_l in Hrow as ([? ?] & ? & [? ?] & Hrow & ->); cbn [fst snd] in *; subst);
  apply Forall2_nil_inv_l in Hrow; subst.

Section nodes.
Context `{Platform}.

(** The address of a row, without its trailing slash. *)
Definition row_url (row : jsval) : E jsval := trimmed_url ((Ok row) @. "addr").

Lemma trimmed_url_str e v : trimmed_url e = Ok v -> exists s, v = VStr s.
Proof.
  unfold trimmed_url. destruct (e_or e _) as [x|]; cbn [mbind result_bind]; [|done].
  unfold str_method. destruct x; try done. intros [= <-]. by eexists.
Qed.

Lemma trimmed_url_default e : trimmed_url (e_or e #"") = trimmed_url e.
Proof.
  unfold trimmed_url. f_equal. unfold e_or. destruct e as [v|]; cbn [mbind result_bind]; [|done].
  destruct (truthy v) eqn:E; cbn [mbind result_bind]; [by rewrite E|done].
Qed.

Lemma broker_row_fields cell n row : broker_row cell n = Ok row ->
  row_url row = trimmed_url ((Ok n) @. "addr") /\ own_get row (js "role") = VStr (js "broker") /\
  own_get row (js "broker") = n.
Proof.
  unfold broker_row. intros Hrow. row_fields Hrow. unfold row_url.
  rewrite <- (trimmed_url_default ((Ok n) @. "addr")).
  match goal with Ha : e_or ((Ok n) @. "addr") _ = Ok _ |- _ => rewrite Ha end. unfold e_str in *. simplify_eq. done.
Qed.

Lemma member_row_fields cell m row : member_row cell m = Ok row ->
  row_url row = trimmed_url ((Ok m) @. "reachUrl") /\ own_get row (js "member") = m.
Proof.
  unfold member_row. intros Hrow. row_fields Hrow. unfold row_url.
  match goal with Ha : (Ok m) @. "reachUrl" = Ok _ |- _ => rewrite Ha end. unfold e_str in *. simplify_eq. done.
Qed.

(** The addresses of the broker rows, as collected in [seen]. *)
Lemma broker_rows_spec cell seen ns rows seen' : broker_rows cell seen ns = Ok (rows, seen') ->
  Forall2 (fun n row => broker_row cell n = Ok row) ns rows /\
  (forall u, u ∈ seen -> u ∈ seen') /\
  Forall (fun row => exists u, row_url row = Ok u /\ (truthy u = true -> u ∈ seen')) rows.
Proof.
  revert seen rows seen'. induction ns as [|n ns IH]; intros seen rows seen'; cbn [broker_rows].
  { intros [= <- <-]. by repeat constructor. }
  destruct (trimmed_url _) as [u|] eqn:Eu; cbn [mbind result_bind]; [|done].
  destruct (broker_row cell n) as [row|] eqn:Er; cbn [mbind result_bind]; [|done].
  destruct (broker_rows cell _ ns) as [[rows1 seen1]|] eqn:E; cbn [mbind result_bind]; [|done].
  intros [= <- <-]. apply IH in E as (H1 & H2 & H3). cbn [fst snd].
  pose proof (broker_row_fields _ _ _ Er) as (Hu & _). split_and!.
  - by constructor.
  - intros w Hw. apply H2. destruct (truthy u); [by right|done].
  - constructor; [|done]. exists u. rewrite Hu, Eu. split; [done|]. intros Ht. apply H2. rewrite Ht. apply list_elem_of_here.
Qed.

Lemma member_rows_spec cell seen ms rows : member_rows cell seen ms = Ok rows ->
  Forall (fun row => own_get row (js "member") ∈ ms /\
    exists u, row_url row = Ok u /\ (truthy u = true -> existsb (strict_eq u) seen = false)) rows.
Proof.
  revert rows. induction ms as [|m ms IH]; intros rows; cbn [member_rows].
  { intros [= <-]. constructor. }
  assert (Hw : forall rows', Forall (fun row => own_get row (js "member") ∈ ms /\
      exists u, row_url row = Ok u /\ (truthy u = true -> existsb (strict_eq u) seen = false)) rows' ->
    Forall (fun row => own_get row (js "member") ∈ m :: ms /\
      exists u, row_url row = Ok u /\ (truthy u = true -> existsb (strict_eq u) seen = false)) rows').
  { intros rows' Hr. eapply Forall_impl; [exact Hr|]. intros row [? ?]. split; [by right|done]. }
  destruct (trimmed_url _) as [u|] eqn:Eu; cbn [mbind result_bind]; [|done].
  destruct (truthy u && existsb (strict_eq u) seen) eqn:Eb; [intros Hr; by apply Hw, IH|].
  destruct (member_row cell m) as [row|] eqn:Er; cbn [mbind result_bind]; [|done].
  destruct (member_rows cell seen ms) as [rows1|] eqn:E; cbn [mbind result_bind]; [|done].
  intros [= <-]. destruct (member_row_fields _ _ _ Er) as [Hu Hm].
  constructor; [|by apply Hw, IH]. split; [rewrite Hm; apply list_elem_of_here|].
  exists u. rewrite Hu, Eu. split; [done|]. intros Ht. by rewrite Ht in Eb.
Qed.

Lemma filter_elems_spec f l l' : filter_elems f l = Ok l' -> Forall (fun x => f x = Ok true) l'.
Proof.
  revert l'. induction l as [|x l IH]; intros l'; cbn [filter_elems]; [by intros [= <-]|].
  destruct (f x) as [b|] eqn:E; cbn [mbind result_bind]; [|done].
  destruct (filter_elems f l) as [r|]; cbn [mbind result_bind]; [|done]. intros [= <-].
  destruct b; [constructor; [done|]|]; by apply IH.
Qed.
End nodes.

(** C26: The node table of a cell lists every broker the federated query returned,
    in order and once each, then registered members of that cell only, and never a
    member whose URL (up to a trailing slash) is the address of a listed broker. *)
Theorem node_rows_distinct `{Platform} p v cell rows :
  cell_rows p v cell = Ok rows ->
  exists ns bs ms, rows = bs ++ ms /\
    (brokers ← e_index (Ok (s_nodesByCell v)) ((Ok cell) @. "id") .|| Ok (VArr []); elements_of brokers) = Ok ns /\
    Forall2 (fun n row => broker_row cell n = Ok row) ns bs /\
    Forall (fun row => exists a b, get (own_get row (js "member")) (js "cellId") = Ok a /\
                                   get cell (js "id") = Ok b /\ strict_eq a b = true) ms /\
    forall b m, b ∈ bs -> m ∈ ms -> forall u, truthy u = true -> row_url b = Ok u -> row_url m <> Ok u.
Proof.
  unfold cell_rows. destruct (e_or _ _) as [brokers|]; cbn [mbind result_bind]; [|done].
  destruct (elements_of brokers) as [ns|]; cbn [mbind result_bind]; [|done].
  destruct (broker_rows cell [] ns) as [[bs seen]|] eqn:Eb; cbn [mbind result_bind]; [|done].
  destruct (elements_of (members (ses p))) as [all|]; cbn [mbind result_bind]; [|done].
  destruct (filter_elems _ all) as [ms|] eqn:Ef; cbn [mbind result_bind]; [|done].
  cbn [fst snd]. destruct (member_rows cell seen ms) as [mrows|] eqn:Em; cbn [mbind result_bind]; [|done].
  intros [= <-]. apply broker_rows_spec in Eb as (H1 & _ & H2). apply member_rows_spec in Em.
  exists ns, bs, mrows. split_and!; [done..| |].
  - eapply Forall_impl; [exact Em|]. intros row [Hin _].
    pose proof (filter_elems_spec _ _ _ Ef) as Hf. rewrite Forall_forall in Hf. specialize (Hf _ Hin). revert Hf.
    cbn [e_get mbind result_bind]. destruct (get _ (js "cellId")) as [a|]; cbn [mbind result_bind]; [|done].
    destruct (get cell (js "id")) as [b|]; cbn [mbind result_bind]; [|done]. intros [= Hab]. eauto.
  - intros b m Hb Hm u Ht Hub Hum. rewrite Forall_forall in H2, Em.
    destruct (H2 b Hb) as (u' & Hu' & Hseen). rewrite Hub in Hu'. injection Hu' as <-. specialize (Hseen Ht).
    destruct (Em m Hm) as (_ & u' & Hu' & Hno). rewrite Hum in Hu'. injection Hu' as <-. specialize (Hno Ht).
    apply not_true_iff_false in Hno. apply Hno. apply existsb_exists. exists u. split; [by apply list_elem_of_In|].
    destruct (trimmed_url_str _ _ Hub) as (s & ->). cbn [strict_eq]. by apply bool_decide_true.
Qed.

(** Two brokers, one of them also registered as a member. *)
Definition demo_cell : jsval := VObj ["id" ~> VStr (js "local")].
Definition demo_member (name url : string) : jsval :=
  VObj ["name" ~> VStr (js name); "profile" ~> VStr (js "broker"); "reachUrl" ~> VStr (js url); "cellId" ~> VStr (js "local")].
Definition demo_infra : panel :=
  on_ses (set_members (VArr [demo_member "a" "http://a:8080/"; demo_member "c" "http://c:8080"]))
    (@init_panel demo_platform demo_browser).
Definition demo_nodes : InfraView.state :=
  set_s_nodesByCell (VObj ["local" ~> VArr [VObj ["id" ~> VStr (js "n1"); "addr" ~> VStr (js "http://a:8080")];
                                            VObj ["id" ~> VStr (js "n2"); "addr" ~> VStr (js "http://b:8080")]]])
    InfraView.setup.

Lemma node_rows_witness :
  exists rows, @cell_rows demo_infra demo_nodes demo_cell = Ok rows /\ List.length rows = 3%nat /\
    exists ns bs ms, rows = bs ++ ms /\ Forall2 (fun n row => broker_row demo_cell n = Ok row) ns bs.
Proof.
  destruct (cell_rows demo_infra demo_nodes demo_cell) as [rows|] eqn:E; [|by vm_compute in E].
  exists rows. split; [done|]. split.
  - vm_compute in E. by injection E as <-.
  - destruct (@node_rows_distinct demo_platform _ _ _ _ E) as (ns & bs & ms & H1 & _ & H2 & _). eauto.
Defined.

(** ** Removing a node *)

(** C27: Removing a node asks first.  Unless the user confirms, nothing is sent and
    nothing changes; once confirmed, exactly one request is sent before anything
    else, the removal of that node, and when it fails the error is shown and
    nothing else changes. *)
Theorem remove_node_confirmed `{Platform} name x p v :
  (x <> Answered true -> exec (removeNode name) [x] (p, v) = Some (Ok tt, (p, v), [], [])) /\
  (header_ok (br p) = true -> forall y e, reply_result y = Exn e ->
    exec (removeNode name) [Answered true; y] (p, v) =
    Some (Ok tt, (after_request (js "POST") (publicUrl (js "/v1/infra/cluster/remove-node") (br p))
                    (json_body (Some (VObj ["node_name" ~> name]))) p,
                  set_s_detailStatus (st_fail e useActionStatus) v), [], [])).
Proof.
  split.
  - intros Hx. by destruct x as [r|e|[]].
  - intros Hh y e Hy. unfold removeNode, confirm.
    change (exec _ [Answered true; y] (p, v)) with
      (exec (_ ← upd (on_detailStatus st_reset);
        prog_catch
          (res ← lib (pub_post (js "/v1/infra/cluster/remove-node") (Some (VObj ["node_name" ~> name])));
           msg ← pure ((Ok res) @. "message" .|| #"Removed");
           _ ← upd (on_detailStatus (st_succeed msg));
           _ ← note_restart res "Restart required.";
           _ ← upd (set_s_selectedNodeKey (VStr []));
           load)
          (fun e => upd (on_detailStatus (st_fail e)))) [y] (p, v)).
    rewrite exec_upd, exec_catch.
    rewrite (exec_lib_bind _ _ _ _ _ _ _ _ _ (exec_pub_post _ _ y [] p Hh)). cbn [fmap list_fmap].
    by rewrite add_parked_nil, Hy.
Qed.

Lemma remove_node_witness :
  exec (@removeNode demo_platform (VStr (js "n1"))) [Answered false] (demo_infra, demo_nodes) =
    Some (Ok tt, (demo_infra, demo_nodes), [], []) /\
  (exists p' v', exec (@removeNode demo_platform (VStr (js "n1"))) [Answered true; down_reply] (demo_infra, demo_nodes) =
    Some (Ok tt, (p', v'), [], []) /\
    (rq_url <$> sent (br p')) = [js "http://localhost:8080/v1/infra/cluster/remove-node"]).
Proof.
  destruct (@remove_node_confirmed demo_platform (VStr (js "n1")) (Answered false) demo_infra demo_nodes) as [H1 H2].
  split; [by apply H1|]. eexists _, _. split; [by apply (H2 eq_refl down_reply)|]. by vm_compute.
Defined.
