(* ===== verification/WireProps.v ===== *)
(** * Properties of what crosses the wire: bodies, errors and paths *)

From stdpp Require Import base list gmap strings.
From Stdlib Require Import NArith ZArith Lia String SpecFloat.
From S2P Require Import Prelude JsString JsNum JsVal Json Prog State Demo Storage Api Payload Catalog Session.
From S2P Require Import View Form EnqueueView.
Local Open Scope js_scope.

(** ** Bodies *)

Lemma parseBody_json w st msg :
  json_ok w -> exists t, stringify w = Some t /\
    parseBody {| rs_status := st; rs_statusText := msg; rs_text := Some t |} = Ok w.
Proof.
  intros Hw. destruct (json_roundtrip w Hw) as (t & Ht & Hp). exists t. split; [done|].
  unfold parseBody, body_text. cbn [rs_text mbind result_bind].
  destruct t as [|c t]; [|by rewrite Hp].
  destruct (ser_head w Hw) as (c & r & Hs & _). unfold ser in Hs. by rewrite Ht in Hs.
Qed.

(** C22: The wire round trip.  A POST of a JSON value sends a body that parses back
    to that value, and a success reply whose body is the serialisation of a JSON
    value makes the call return that value. *)
Theorem wire_roundtrip `{Platform} u v w st msg xs p :
  json_ok v -> json_ok w -> header_ok (br p) = true -> (200 <= st <= 299)%N ->
  exists tw rq p' tv,
    stringify w = Some tw /\
    exec (apiPost u (Some v)) (Responded {| rs_status := st; rs_statusText := msg; rs_text := Some tw |} :: xs) p =
      Some (Ok w, p', xs, []) /\
    sent (br p') = rq :: sent (br p) /\ rq_url rq = u /\ rq_body rq = Some tv /\ json_parse tv = Ok v.
Proof.
  intros Hv Hw Hh Hst. destruct (parseBody_json w st msg Hw) as (tw & Htw & Hp).
  destruct (json_roundtrip v Hv) as (tv & Htv & Hpv).
  exists tw. eexists _, _, tv. split; [done|]. unfold apiPost, json_body. rewrite Htv, exec_request_ok by done.
  split; [|split; [apply after_request_sent|by split_and!]].
  cbn [reply_result]. unfold response_result. rewrite Hp. cbn [mbind result_bind].
  replace (rs_ok _) with true; [done|]. symmetry. unfold rs_ok. cbn [rs_status].
  apply andb_true_intro. rewrite !N.leb_le. lia.
Qed.

Definition demo_value : jsval := VObj ["name" ~> VStr (js "jobs"); "n" ~> VNum (num_of_Z 3); "tags" ~> VArr [VBool true; VNull]].

Lemma demo_value_ok : json_ok demo_value.
Proof.
  apply ok_obj; [|by repeat constructor|by apply (bool_decide_unpack (NoDup _)); vm_compute].
  repeat constructor; done.
Defined.

Lemma wire_roundtrip_witness :
  exists t p', exec (@apiPost demo_platform (js "http://localhost:8080/v1/queues") (Some demo_value))
      [Responded {| rs_status := 201; rs_statusText := []; rs_text := Some t |}] (@init_panel demo_platform demo_browser)
    = Some (Ok demo_value, p', [], []).
Proof.
  destruct (@wire_roundtrip demo_platform (js "http://localhost:8080/v1/queues") demo_value demo_value 201 [] []
    (@init_panel demo_platform demo_browser) demo_value_ok demo_value_ok eq_refl ltac:(lia))
    as (t & _ & p' & _ & _ & He & _).
  by exists t, p'.
Defined.

(** C23: Broker errors reach the user.  Whatever the request, a failure status whose
    body is a JSON object with an error message makes the call fail with an error
    that carries the status and the body, and a status line that reports it shows
    exactly that message. *)
Theorem broker_error_shown `{Platform} m u body o e st msg xs p s :
  json_ok (VObj o) -> assoc (js "error") o = Some (VStr e) -> e <> [] ->
  header_ok (br p) = true -> (st < 200 \/ 299 < st)%N ->
  exists t err p',
    stringify (VObj o) = Some t /\
    exec (request m u body) (Responded {| rs_status := st; rs_statusText := msg; rs_text := Some t |} :: xs) p =
      Some (Exn err, p', xs, []) /\
    own_get err (js "status") = VNum (num_of_Z (Z.of_N st)) /\ own_get err (js "body") = VObj o /\
    st_error (st_fail err s) = VStr e.
Proof.
  intros Ho He Hne Hh Hst. destruct (parseBody_json (VObj o) st msg Ho) as (t & Ht & Hp).
  exists t. eexists _, _. split; [done|]. rewrite exec_request_ok by done. cbn [reply_result].
  unfold response_result. rewrite Hp. cbn [mbind result_bind].
  replace (rs_ok _) with false.
  2: { symmetry. unfold rs_ok. cbn [rs_status]. apply andb_false_iff. rewrite !N.leb_gt. lia. }
  split; [done|]. unfold error_message. cbn [is_object]. 
  assert (Hk : has_key (VObj o) (js "error") = true) by (cbn [has_key]; by rewrite He).
  assert (Hg : own_get (VObj o) (js "error") = VStr e) by (cbn [own_get]; by rewrite He).
  rewrite Hk, Hg. cbn [andb]. destruct e as [|c e]; [done|]. by split_and!.
Qed.

Lemma broker_error_witness :
  exists t err p',
    exec (@request demo_platform (js "GET") (js "http://localhost:8080/v1/queues") None)
      [Responded {| rs_status := 409; rs_statusText := js "Conflict"; rs_text := Some t |}]
      (@init_panel demo_platform demo_browser) = Some (Exn err, p', [], []) /\
    st_error (st_fail err useActionStatus) = VStr (js "queue exists").
Proof.
  assert (Hok : json_ok (VObj ["error" ~> VStr (js "queue exists")])).
  { apply ok_obj; [repeat constructor; done|by repeat constructor|by apply (bool_decide_unpack (NoDup _)); vm_compute]. }
  destruct (@broker_error_shown demo_platform (js "GET") (js "http://localhost:8080/v1/queues") None
    ["error" ~> VStr (js "queue exists")] (js "queue exists") 409 (js "Conflict") []
    (@init_panel demo_platform demo_browser) useActionStatus Hok eq_refl ltac:(done) eq_refl ltac:(lia))
    as (t & err & p' & _ & He & _ & _ & Hs).
  by exists t, err, p'.
Defined.

(** ** Paths *)

(** C24: Identifiers in paths.  The path of an enqueue has the queue's identifier as
    one segment, of unreserved characters and percent escapes only, that decodes to
    the identifier; so two queues with different identifiers never share a path.
    An identifier that is not well-formed text has no path. *)
Theorem enqueue_path_faithful `{Platform} (f : EnqueueView.form_state) q :
  form_queueId f = VStr q -> Forall (fun c => is_unit c = true) q ->
  match encodeURIComponent q with
  | Some e =>
      enqueue_path f = Ok (VStr (js "/v1/queues/" ++ e ++ js "/enqueue")) /\
      Forall (fun c => uri_safe c = true) e /\ pct_decode e = Some q /\
      forall (g : EnqueueView.form_state) q', form_queueId g = VStr q' -> Forall (fun c => is_unit c = true) q' ->
        enqueue_path g = enqueue_path f -> q' = q
  | None => exists err, enqueue_path f = Exn err
  end.
Proof.
  intros Hq Hu. assert (Hpath : forall g r, form_queueId g = VStr r ->
    enqueue_path g = match encodeURIComponent r with
                     | Some e => Ok (VStr (js "/v1/queues/" ++ e ++ js "/enqueue"))
                     | None => e_template [ #"/v1/queues/"; e_encode (Ok (VStr r)); #"/enqueue"] end).
  { intros g r Hr. unfold enqueue_path, e_encode, encode_component. rewrite Hr. cbn [mbind result_bind to_string].
    destruct (encodeURIComponent r); [|done]. cbn. by rewrite ?app_nil_r. }
  rewrite (Hpath f q Hq). destruct (encodeURIComponent q) as [e|] eqn:Ee.
  - split; [done|]. split; [by eapply encode_safe|]. split; [by apply encode_decode|].
    intros g q' Hq' Hu'. rewrite (Hpath g q' Hq'). destruct (encodeURIComponent q') as [e'|] eqn:Ee'.
    + intros [= Heq]. apply app_inv_tail in Heq. subst e'.
      apply encode_decode in Ee; [|done]. apply encode_decode in Ee'; [|done]. congruence.
    + unfold e_encode, encode_component. cbn [mbind result_bind to_string]. by rewrite Ee'.
  - unfold e_encode, encode_component. cbn [mbind result_bind to_string]. rewrite Ee. by eexists.
Qed.

Lemma enqueue_path_witness :
  enqueue_path (set_form_queueId (VStr (js "team/jobs?")) (EnqueueView.s_form EnqueueView.setup)) =
  Ok (VStr (js "/v1/queues/team%2Fjobs%3F/enqueue")).
Proof.
  destruct (@enqueue_path_faithful demo_platform
    (set_form_queueId (VStr (js "team/jobs?")) (EnqueueView.s_form EnqueueView.setup)) (js "team/jobs?")
    eq_refl ltac:(by repeat constructor)) as [Hp _].
  rewrite Hp. by vm_compute.
Defined.
