(* ===== verification/RenderProps.v ===== *)
(** * The templates never fail on typed data

    A template expression throws when it reads a property of [undefined] or
    [null], or calls an array or string method on something else.  This file shows
    that with data of the types the panel declares this does not happen. *)

From stdpp Require Import base list gmap strings.
From Stdlib Require Import NArith ZArith Lia String SpecFloat.
From S2P Require Import Prelude JsString JsNum JsVal Json Types Prog State Demo Storage Api Payload Catalog View RenderRules Form Session.
From S2P Require Import GateView SetupView RevealView SettingsView DocsView EnqueueView QueuesView FlowsView.
From S2P Require Import PublishView GroupsView HttpView SchedulesView DlqView OverviewView AppHeader CellSwitcher AppSidebar App.
Local Open Scope js_scope.

(** ** The form components *)

(** Options of a select: an array of objects. *)
Definition ok_options (e : E jsval) : Prop := exists l, e = Ok (VArr l) /\ Forall is_obj l.

Lemma ok_options_map t v f : has_type (TArray t) v = true ->
  (forall x, has_type t x = true -> exists o, f x = Ok (VObj o)) -> ok_options (e_map f (Ok v)).
Proof.
  intros (l & -> & Hl)%typed_array Hf. unfold e_map. cbn [mbind result_bind elements_of].
  induction Hl as [|x l Hx _ IH]; cbn [map result_seq]; [by exists []|].
  destruct (Hf x Hx) as (o & ->). cbn [mbind result_bind]. destruct IH as (l' & He & Hl').
  destruct (result_seq (map f l)) as [vs|]; [|done]. cbn [mbind result_bind] in *. injection He as ->.
  eexists. split; [done|]. constructor; [by exists o|done].
Qed.

Lemma ok_options_literal l : Forall (fun e => exists o, e = Ok (VObj o)) l -> ok_options (e_array l).
Proof.
  intros Hl. unfold e_array. induction Hl as [|e l (o & ->) _ (l' & He & Hl')]; cbn [result_seq]; [by exists []|].
  destruct (result_seq l) as [vs|]; [|done]. cbn [mbind result_bind] in *. injection He as ->.
  eexists. split; [done|]. constructor; [by eexists|done].
Qed.

Section form.
Context `{Platform} {S : Type}.

Lemma ok_ActionMessage error ok_ cls :
  is_ok error -> is_ok ok_ -> is_ok cls -> is_ok (ActionMessage (S:=S) error ok_ cls).
Proof.
  destruct error as [v1|?], ok_ as [v2|?], cls as [v3|?]; try done. intros _ _ _. unfold ActionMessage, v_if, e_if. cbn.
  destruct (truthy v1); [done|]. by destruct (truthy v2).
Qed.

Lemma ok_Field label hint error cls (slot : E (list (vnode S))) :
  is_ok label -> is_ok hint -> is_ok error -> is_ok cls -> is_ok slot -> is_ok (Field label hint error cls slot).
Proof.
  destruct label as [v1|?], hint as [v2|?], error as [v3|?], cls as [v4|?], slot as [s|?]; try done. intros _ _ _ _ _.
  unfold Field, v_if, e_if. cbn. destruct (truthy v3); [done|]. by destruct (truthy v2).
Qed.

Lemma ok_AppSelect model set options placeholder after :
  is_ok model -> ok_options options -> is_ok placeholder ->
  is_ok (AppSelect (S:=S) model set options placeholder after).
Proof.
  destruct model as [m|]; [|done]. intros _ (l & -> & Hl) Hp. destruct placeholder as [ph|]; [|done].
  unfold AppSelect. cbn [mbind result_bind].
  apply ok_el; [repeat constructor|]. apply Forall_cons. split; [by cbn|]. apply Forall_cons. split; [|constructor].
  apply ok_el; [constructor|]. apply Forall_cons. split; [|constructor]. apply ok_v_for. cbn [v_for_items].
  eapply Forall_impl; [exact Hl|]. intros x (o & ->). by cbn.
Qed.
End form.

(** Lists of nodes, attributes and parts, element by element. *)
Ltac each := repeat (apply Forall_cons; split); try (apply Forall_nil; exact I).

(** One step down a template; rows of typed lists come with their type. *)
Ltac render_step :=
  lazymatch goal with
  | |- Forall _ _ => each
  | |- is_ok (el _ _ _) => apply ok_el
  | |- is_ok (frag _) => apply ok_frag
  | |- is_ok (v_if _ _ _) => apply ok_v_if
  | |- is_ok (v_for _ _) => eapply ok_v_for_typed; [eassumption|intros ? ?]
  | |- is_ok (interp _) => apply ok_interp
  | |- is_ok (bind_ _ _) => apply ok_bind_
  | |- is_ok (model_ _ _ _) => apply ok_model
  | |- is_ok (ActionMessage _ _ _) => apply ok_ActionMessage
  | |- is_ok (Field _ _ _ _ _) => apply ok_Field
  | |- is_ok (AppSelect _ _ _ _ _) => apply ok_AppSelect
  | |- is_ok (e_or _ _) => apply ok_or
  | |- is_ok (e_and _ _) => apply ok_and
  | |- is_ok (e_coalesce _ _) => apply ok_coalesce
  | |- is_ok (e_not _) => apply ok_not
  | |- is_ok (e_seq _ _) => apply ok_seq
  | |- is_ok (e_sne _ _) => apply ok_sne
  | |- is_ok (e_gt _ _) => apply ok_gt
  | |- is_ok (e_if (e_oget (Ok _) _) _ _) => apply ok_if_oget; [intros ?|]
  | |- is_ok (e_if _ _ _) => apply ok_if
  | |- is_ok (e_String _) => apply ok_String
  | |- is_ok (e_oget _ _) => apply ok_oget
  | |- is_ok (e_class _) => apply ok_class
  | |- is_ok (e_template _) => apply ok_template
  | |- is_ok (e_get (Ok _) _) =>
      apply ok_get; first [assumption | reflexivity | eapply typed_not_nullish; eassumption]
  | |- ok_options (e_array _) => apply ok_options_literal; each; apply ok_object; each; cbn [snd]
  | |- ok_options (e_map _ _) => eapply ok_options_map; [eassumption|]; intros ? ?; apply ok_object; each; cbn [snd]
  | |- ok_options (Ok (VArr _)) => eexists; split; [reflexivity|assumption]
  | |- is_ok (queueId _) => unfold queueId
  | |- is_ok (groupId _) => unfold groupId
  | |- is_ok (flowId _) => unfold flowId
  | |- is_ok (Ok _) => exact I
  | |- is_ok (txt _) => exact I
  | |- is_ok none => exact I
  | |- is_ok (at_ _ _) => exact I
  | |- is_ok (on_ _ _) => exact I
  | |- is_ok (e_str _) => exact I
  | |- is_ok (e_num _) => exact I
  | |- True => exact I
  end.

Lemma ok_RetryFields `{Platform} {S} r (m : (RetryState -> RetryState) -> prog S unit) : is_ok (RetryFields r m).
Proof.
  unfold RetryFields. repeat render_step. eexists. split; [reflexivity|]. each; by eexists.
Qed.

Ltac render_ok :=
  repeat first [render_step | lazymatch goal with |- is_ok (RetryFields _ _) => apply ok_RetryFields end].

Section views.
Context `{Platform}.

(** The catalog has the declared types. *)
Definition typed_catalog (c : catalog_state) : Prop :=
  has_type (TArray QueueRow) (queues c) = true /\ has_type (TArray GroupRow) (groups c) = true /\
  has_type (TArray FlowRow) (flows c) = true.

Lemma queues_render p v : typed_catalog (cat p) -> is_ok (QueuesView.render p v).
Proof. intros (Hq & _ & _). unfold QueuesView.render. render_ok. Qed.

Lemma flows_render p v : typed_catalog (cat p) -> is_ok (FlowsView.render p v).
Proof. intros (_ & _ & Hf). unfold FlowsView.render. render_ok. Qed.
End views.

(** ** More views *)

Section more.
Context `{Platform}.

Lemma gate_render p v : is_ok (GateView.render p v).
Proof. unfold GateView.render, AuthLayout. render_ok. Qed.
Lemma reveal_render p v : is_ok (RevealView.render p v).
Proof. unfold RevealView.render, AuthLayout. render_ok. Qed.
Lemma settings_render p v : is_ok (SettingsView.render p v).
Proof. unfold SettingsView.render. render_ok. Qed.
Lemma docs_render p v : is_ok (DocsView.render p v).
Proof. unfold DocsView.render. render_ok; exact I. Qed.
Lemma header_render p v : is_ok (AppHeader.render p v).
Proof. unfold AppHeader.render. render_ok. Qed.
Lemma shell_render p : is_ok (AppShell p).
Proof. unfold AppShell. render_ok. Qed.
Lemma app_render p : is_ok (App p).
Proof. unfold App. render_ok. Qed.
Lemma sidebar_render p v : is_ok (AppSidebar.render p v).
Proof. unfold AppSidebar.render. destruct (isExternalAuth (br p)), (themeMode (ses p)); exact I. Qed.
Lemma setup_render p v : is_ok (SetupView.render p v).
Proof.
  unfold SetupView.render, AuthLayout. render_ok. apply ok_call; [done|]. intros w [= <-].
  unfold SetupView.hint, setupHint. destruct (truthy (auth (ses p))) eqn:Ea; [|done]. cbn [negb]. unfold get.
  assert (Hn : is_nullish (auth (ses p)) = false) by (by destruct (auth (ses p))). rewrite !Hn. clear Ea. cbn [mbind result_bind].
  destruct (truthy _); [|done]. cbn [mbind result_bind]. by destruct (own_get (auth (ses p)) (js "setup_closes_in_secs")).
Qed.

(** ** Selects over the catalog *)

Lemma find_ok (f : jsval -> E bool) l : Forall (fun x => is_ok (f x)) l -> is_ok (find_elem f l).
Proof.
  induction 1 as [|x l Hx _ IH]; [done|]. cbn [find_elem]. destruct (f x) as [b|]; [|done].
  cbn [mbind result_bind]. by destruct b.
Qed.

Lemma flowId_ok x : has_type FlowRow x = true -> is_ok (flowId x).
Proof. intros Hx. unfold flowId. render_ok. Qed.

Lemma flow_hit_ok (c : catalog_state) (w : jsval) : typed_catalog c ->
  is_ok (l ← elements_of (flows c); find_elem (fun fl => id ← flowId fl; Ok (strict_eq id w)) l).
Proof.
  intros (_ & _ & (l & -> & Hl)%typed_array). cbn [elements_of mbind result_bind]. apply find_ok.
  eapply Forall_impl; [exact Hl|]. intros x Hx. pose proof (flowId_ok x Hx). by destruct (flowId x).
Qed.

Lemma selectedFlow_ok c f : typed_catalog c -> exists w, PublishView.selectedFlow c f = Ok w.
Proof.
  intros Hc. pose proof (flow_hit_ok c (PublishView.form_flowId f) Hc) as Hok. unfold PublishView.selectedFlow.
  destruct (elements_of (flows c)) as [l|]; [|done]. cbn [mbind result_bind] in *.
  destruct (find_elem _ l) as [w|]; [|done]. by eexists.
Qed.

Lemma schedules_selectedFlow_ok c f : typed_catalog c -> exists w, SchedulesView.selectedFlow c f = Ok w.
Proof.
  intros Hc. pose proof (flow_hit_ok c (SchedulesView.form_flowId f) Hc) as Hok. unfold SchedulesView.selectedFlow.
  destruct (elements_of (flows c)) as [l|]; [|done]. cbn [mbind result_bind] in *.
  destruct (find_elem _ l) as [w|]; [|done]. by eexists.
Qed.

Lemma flowOptions_ok c : typed_catalog c -> ok_options (PublishView.flowOptions c).
Proof.
  intros (_ & _ & Hf). eapply ok_options_map; [exact Hf|]. intros x Hx. apply ok_object. each; cbn [snd]; render_ok.
Qed.

Lemma schedules_flowOptions_ok c : typed_catalog c -> ok_options (SchedulesView.flowOptions c).
Proof.
  intros Hc. unfold SchedulesView.flowOptions.
  assert (Ho : ok_options (e_map SchedulesView.flow_option (Ok (flows c)))).
  { destruct Hc as (_ & _ & Hf). eapply ok_options_map; [exact Hf|]. intros x Hx. apply ok_object. each; cbn [snd]; render_ok. }
  destruct Ho as (l & -> & Hl). cbn [mbind result_bind elements_of]. eexists. split; [done|].
  constructor; [by eexists|done].
Qed.

Lemma schedules_fmt_ok v : is_ok (SchedulesView.fmt v).
Proof. unfold SchedulesView.fmt. by destruct (truthy v). Qed.
Lemma dlq_fmt_ok v : is_ok (DlqView.fmt v).
Proof. unfold DlqView.fmt. by destruct (truthy v). Qed.

Lemma groups_render p v :
  typed_catalog (cat p) -> has_type (TArray Member) (GroupsView.s_members v) = true -> is_ok (GroupsView.render p v).
Proof. intros (_ & Hg & _) Hm. unfold GroupsView.render, GroupsView.groupOptions. render_ok. Qed.

Lemma enqueue_render p v : typed_catalog (cat p) -> is_ok (EnqueueView.render p v).
Proof. intros (Hq & _ & _). unfold EnqueueView.render. render_ok. Qed.

Lemma publish_render p v : typed_catalog (cat p) -> is_ok (PublishView.render p v).
Proof.
  intros Hc. destruct (selectedFlow_ok (cat p) (PublishView.s_form v) Hc) as (w & Hw).
  destruct (flowOptions_ok (cat p) Hc) as (l & Hl & Hlo).
  unfold PublishView.render. rewrite Hw, Hl. destruct Hc as (_ & Hg & _). render_ok.
Qed.

Lemma schedules_render p v : typed_catalog (cat p) ->
  has_type (TArray Delayed) (SchedulesView.s_delayed v) = true -> has_type (TArray Cron) (SchedulesView.s_crons v) = true ->
  is_ok (SchedulesView.render p v).
Proof.
  intros Hc Hd Hcr. destruct (schedules_selectedFlow_ok (cat p) (SchedulesView.s_form v) Hc) as (w & Hw).
  destruct (schedules_flowOptions_ok (cat p) Hc) as (l & Hl & Hlo).
  unfold SchedulesView.render. rewrite Hw, Hl. destruct Hc as (_ & _ & (lf & Hlf & _)%typed_array). rewrite Hlf.
  render_ok; (apply ok_call; [render_ok|intros ? _; apply schedules_fmt_ok]).
Qed.

Lemma dlq_render p v :
  has_type (TArray Source) (DlqView.s_sources v) = true -> has_type (TArray Msg) (DlqView.s_rows v) = true ->
  is_ok (DlqView.render p v).
Proof.
  intros Hs Hr. unfold DlqView.render, DlqView.options. render_ok.
  all: try (apply ok_call; [render_ok|intros ? _; apply dlq_fmt_ok]).
  destruct (typed_array _ _ Hr) as (l & -> & _). done.
Qed.

Lemma remaining_ok h : has_type Host h = true -> is_ok (HttpView.remaining h).
Proof.
  intros Hh. unfold HttpView.remaining.
  assert (Hms : is_ok (((Ok h) @. "remaining_ms" .?? (Ok h) @. "remaining") .?? e_num 0)) by render_ok.
  destruct (e_coalesce _ _) as [ms|]; [|done]. cbn [mbind result_bind]. destruct (truthy ms); cbn [negb]; [|done].
  destruct (js_ltb _ _); [done|]. by destruct (js_ltb _ _).
Qed.

Lemma http_render p v : has_type (TArray Host) (HttpView.s_blocked v) = true -> is_ok (HttpView.render p v).
Proof.
  intros Hb. unfold HttpView.render. render_ok; [|by apply remaining_ok].
  eexists. split; [reflexivity|]. each; by eexists.
Qed.

(** ** Overview and cells *)

(** The cluster status: none yet, or one of the declared type. *)
Definition typed_cluster (v : jsval) : Prop := v = VNull \/ has_type ClusterStatus v = true.

Lemma clusterNodes_ok p : typed_cluster (cluster (ses p)) ->
  exists v, clusterNodes p = Ok v /\ has_type (TArray ClusterNode) v = true.
Proof.
  unfold clusterNodes, e_oget, e_or, oget. intros [->|Ht]; [by eexists|].
  destruct (typed_object _ _ Ht) as (o & Ho). rewrite Ho in *. cbn [mbind result_bind is_nullish].
  destruct (typed_field _ o "nodes" false (TArray ClusterNode) Ht ltac:(by repeat constructor)) as [[Hu _]|Hn].
  - rewrite Hu. by eexists.
  - destruct (truthy (own_get (VObj o) (js "nodes"))); by eexists.
Qed.

(** An optional array of a typed object, joined. *)
Lemma ok_join fields n k t sep : has_type (TObject fields) n = true -> (k, false, TArray t) ∈ fields ->
  is_ok (e_join ((Ok n) @. k .|| e_array []) sep).
Proof.
  intros Hn Hin. destruct (typed_object _ _ Hn) as (o & ->). unfold e_join, e_or, e_get, get. cbn [mbind result_bind is_nullish].
  destruct (typed_field _ o k false (TArray t) Hn Hin) as [[Hu _]|(l & Hl & _)%typed_array].
  - by rewrite Hu.
  - rewrite Hl. by destruct (truthy (VArr l)).
Qed.

Lemma overview_render p v : typed_cluster (cluster (ses p)) -> is_ok (OverviewView.render p v).
Proof.
  intros Hc. destruct (clusterNodes_ok p Hc) as (ns & Hns & Hnt). unfold OverviewView.render. rewrite Hns.
  destruct (typed_array _ _ Hnt) as (l & -> & _). render_ok.
  all: eapply ok_join; [eassumption|by repeat constructor].
Qed.
End more.

Section cells.
Context `{Platform}.

Lemma local_cell_typed : has_type CellRecord CellSwitcher.local_cell = true.
Proof. by vm_compute. Qed.

(** The switcher lists typed cells, at least one. *)
Lemma switcher_cells_ok p : has_type (TArray CellRecord) (State.cells (ses p)) = true ->
  exists c l, CellSwitcher.cells p = Ok (VArr (c :: l)) /\ Forall (fun x => has_type CellRecord x = true) (c :: l).
Proof.
  intros (l & Hl & Hf)%typed_array. unfold CellSwitcher.cells. rewrite Hl.
  unfold e_if, e_length, e_get. cbn [mbind result_bind]. destruct l as [|c l].
  - exists CellSwitcher.local_cell, []. split; [by vm_compute|]. by repeat constructor.
  - assert (get (VArr (c :: l)) (js "length") = Ok (VNum (num_of_Z (Z.of_nat (List.length (c :: l)))))) as -> by done.
    cbn [mbind result_bind]. destruct (truthy _); [by exists c, l|].
    exists CellSwitcher.local_cell, []. split; [done|]. constructor; [apply local_cell_typed|constructor].
Qed.

Lemma find_typed t f l : Forall (fun x => has_type t x = true) l -> (forall x, has_type t x = true -> is_ok (f x)) ->
  exists r, find_elem f l = Ok r /\ (r = VUndef \/ has_type t r = true).
Proof.
  intros Hl Hf. induction Hl as [|x l Hx _ IH]; cbn [find_elem]; [eauto|].
  pose proof (Hf x Hx) as Hok. destruct (f x) as [[]|]; [| |done]; cbn [mbind result_bind]; eauto.
Qed.

Lemma field_is_ok fields k w x : has_type (TObject fields) x = true -> is_ok (field_is k w x).
Proof. intros (o & ->)%typed_object. done. Qed.

Lemma current_ok p : has_type (TArray CellRecord) (State.cells (ses p)) = true ->
  exists c, CellSwitcher.current p = Ok c /\ has_type CellRecord c = true.
Proof.
  intros Hc. destruct (switcher_cells_ok p Hc) as (c & l & Hl & Hf). unfold CellSwitcher.current. rewrite Hl.
  cbn [mbind result_bind elements_of].
  destruct (find_typed CellRecord (field_is (js "id") (selectedCellId (ses p))) (c :: l) Hf) as (r & -> & Hr).
  { intros x Hx. by eapply field_is_ok. }
  cbn [mbind result_bind first_elem]. destruct (truthy r) eqn:Et; eexists; split; try done.
  - destruct Hr as [->|Hr]; done.
  - by apply Forall_cons in Hf as [Hf _].
Qed.

(** The identifier of a cell is a string. *)
Lemma cell_id c : has_type CellRecord c = true -> exists s, (Ok c) @. "id" = Ok (VStr s).
Proof.
  intros Hc. destruct (typed_object _ _ Hc) as (o & ->). unfold e_get, get. cbn [mbind result_bind is_nullish].
  destruct (typed_field _ o "id" true TString Hc ltac:(by repeat constructor)) as [[_ ?]|Hs]; [done|].
  destruct (own_get (VObj o) (js "id")); try done. by eexists.
Qed.

Lemma title_ok c : has_type CellRecord c = true -> is_ok (CellSwitcher.title c).
Proof. intros Hc. unfold CellSwitcher.title. render_ok. Qed.
Lemma subtitle_ok c : has_type CellRecord c = true -> is_ok (CellSwitcher.subtitle c).
Proof. intros Hc. unfold CellSwitcher.subtitle. render_ok. Qed.

Lemma switcher_render p v : has_type (TArray CellRecord) (State.cells (ses p)) = true -> is_ok (CellSwitcher.render p v).
Proof.
  intros Hc. destruct (current_ok p Hc) as (c & Hcur & Hct). destruct (switcher_cells_ok p Hc) as (c0 & l & Hl & Hf).
  unfold CellSwitcher.render. rewrite Hcur, Hl. destruct (cell_id c Hct) as (s & Hs).
  assert (Htl : has_type (TArray CellRecord) (VArr (c0 :: l)) = true).
  { cbn [has_type]. apply forallb_forall. intros x Hx. rewrite Forall_forall in Hf. apply Hf. by apply list_elem_of_In. }
  render_ok; lazymatch goal with
    | |- is_ok (CellSwitcher.title _) => by apply title_ok
    | |- is_ok (CellSwitcher.subtitle _) => by apply subtitle_ok
    | |- is_ok (e_call _ _) => apply ok_call; [render_ok|]
    end; try (intros ? [= <-]; first [by apply title_ok|by apply subtitle_ok]).
  - intros w Hw. destruct (typed_object _ _ Hct) as (o & ->). unfold e_get, get in Hs. cbn [mbind result_bind is_nullish] in Hs.
    unfold e_oget, oget, e_or in Hw. cbn [mbind result_bind is_nullish] in Hw.
    assert (Hid : own_get (VObj o) (js "id") = VStr s) by congruence. rewrite Hid in Hw.
    destruct s as [|ch s]; cbn [truthy] in Hw; injection Hw as <-; done.
  - intros w Hw. match goal with Hx : has_type CellRecord ?x = true |- _ => destruct (cell_id x Hx) as (s' & Hs') end.
    rewrite Hs' in Hw. by injection Hw as <-.
Qed.
End cells.
