(* ===== verification/InfraRender.v ===== *)
(** * The infrastructure template never fails on typed data *)

From stdpp Require Import base list gmap strings.
From Stdlib Require Import NArith ZArith Lia String SpecFloat.
From S2P Require Import Prelude JsString JsNum JsVal Json Types Prog State Demo Storage Api Payload Catalog View Form Session.
From S2P Require Import RenderRules RenderProps InfraView InfraProps.
Local Open Scope js_scope.

Section rows.
Context `{Platform}.

(** An optional string field: absent, [undefined], or a string. *)
Definition opt_string (v : jsval) : Prop := v = VUndef \/ exists s, v = VStr s.

Lemma typed_opt_string fields o k : has_type (TObject fields) (VObj o) = true -> (k, false, TString) ∈ fields ->
  opt_string (own_get (VObj o) (js k)).
Proof.
  intros Hf Hin. destruct (typed_field _ o k false TString Hf Hin) as [[-> _]|Hs]; [by left|right].
  destruct (own_get (VObj o) (js k)); try done. by eexists.
Qed.
Lemma typed_string fields o k : has_type (TObject fields) (VObj o) = true -> (k, true, TString) ∈ fields ->
  exists s, own_get (VObj o) (js k) = VStr s.
Proof.
  intros Hf Hin. destruct (typed_field _ o k true TString Hf Hin) as [[_ ?]|Hs]; [done|].
  destruct (own_get (VObj o) (js k)); try done. by eexists.
Qed.

Lemma trimmed_url_ok v : opt_string v -> is_ok (trimmed_url (Ok v)).
Proof. intros [->|[s ->]]; [done|]. by destruct s. Qed.

Lemma shortId_ok v : opt_string v -> is_ok (shortId v).
Proof.
  intros [->|[s ->]]; [done|]. unfold shortId. destruct (truthy (VStr s)); [|done]. cbn [negb].
  apply ok_if; [apply ok_gt; [by apply ok_get|done]|done|done].
Qed.

Lemma ok_get_obj o k : is_ok ((Ok (VObj o)) @. k).
Proof. done. Qed.

(** ** Typed expressions

    [yields t e]: the value of [e] has type [t]; [perhaps t e]: it has type [t] or is
    null or undefined. *)

Definition yields (t : ty) (e : E jsval) : Prop := forall v, e = Ok v -> has_type t v = true.
Definition perhaps (t : ty) (e : E jsval) : Prop := forall v, e = Ok v -> is_nullish v = true \/ has_type t v = true.

Lemma yields_perhaps t e : yields t e -> perhaps t e.
Proof. intros He v Hv. right. by apply He. Qed.

Lemma yields_or t a b : perhaps t a -> yields t b -> yields t (a .|| b).
Proof.
  intros Ha Hb v. unfold e_or. destruct a as [x|]; cbn [mbind result_bind]; [|done]. destruct (truthy x) eqn:E; [|apply Hb].
  intros [= <-]. destruct (Ha x eq_refl) as [Hn|]; [|done]. by destruct x.
Qed.

Lemma perhaps_or t a b : perhaps t a -> perhaps t b -> perhaps t (a .|| b).
Proof.
  intros Ha Hb v. unfold e_or. destruct a as [x|]; cbn [mbind result_bind]; [|done]. destruct (truthy x) eqn:E; [|apply Hb].
  intros [= <-]. by apply Ha.
Qed.

Lemma yields_coalesce t a b : perhaps t a -> yields t b -> yields t (a .?? b).
Proof.
  intros Ha Hb v. unfold e_coalesce. destruct a as [x|]; cbn [mbind result_bind]; [|done].
  destruct (is_nullish x) eqn:E; [apply Hb|]. intros [= <-]. destruct (Ha x eq_refl); congruence.
Qed.

Lemma perhaps_coalesce t a b : perhaps t a -> perhaps t b -> perhaps t (a .?? b).
Proof.
  intros Ha Hb v. unfold e_coalesce. destruct a as [x|]; cbn [mbind result_bind]; [|done].
  destruct (is_nullish x) eqn:E; [apply Hb|]. intros [= <-]. by apply Ha.
Qed.

Lemma yields_template l : yields TString (e_template l).
Proof.
  intros v. destruct l as [|p ps]; cbn [e_template]; [by intros [= <-]|]. destruct p; cbn [mbind result_bind]; [|done].
  destruct (e_template ps); cbn [mbind result_bind]; [|done]. by intros [= <-].
Qed.

Lemma yields_value t v : has_type t v = true -> yields t (Ok v).
Proof. intros Hv w [= <-]. done. Qed.

(** A field of a typed object. *)
Lemma perhaps_get fields n k t : has_type (TObject fields) n = true -> (k, false, t) ∈ fields -> perhaps t ((Ok n) @. k).
Proof.
  intros Hn Hin v. destruct (typed_object _ _ Hn) as (o & ->). intros Hv.
  assert (own_get (VObj o) (js k) = v) as <- by (by injection Hv).
  destruct (typed_field _ o k false t Hn Hin) as [[-> _]|]; [by left|by right].
Qed.
Lemma yields_get fields n k t : has_type (TObject fields) n = true -> (k, true, t) ∈ fields -> yields t ((Ok n) @. k).
Proof.
  intros Hn Hin v. destruct (typed_object _ _ Hn) as (o & ->). intros Hv.
  assert (own_get (VObj o) (js k) = v) as <- by (by injection Hv).
  by destruct (typed_field _ o k true t Hn Hin) as [[_ ?]|].
Qed.
Lemma perhaps_null t e : perhaps (TUnion t TNullType) e -> perhaps t e.
Proof.
  intros He v Hv. destruct (He v Hv) as [|[|Hn]%typed_union]; [by left|by right|left]. by destruct v.
Qed.

Lemma yields_shortId e : perhaps TString e -> yields TString (e_call shortId e).
Proof.
  intros He v. unfold e_call. destruct e as [x|]; cbn [mbind result_bind]; [|done]. unfold shortId, e_if.
  destruct (He x eq_refl) as [Hn|Hs]; [destruct x; try done; by intros [= <-]|]. destruct x as [| | | |s| | |]; try done.
  destruct (truthy (VStr s)); cbn [negb]; [|by intros [= <-]].
  destruct (e_gt _ _) as [c|]; cbn [mbind result_bind]; [|done]. by destruct (truthy c); intros [= <-].
Qed.

Lemma yields_Boolean e : yields TBoolean (b ← e; Ok (VBool (truthy b))).
Proof. intros v. destruct e; cbn [mbind result_bind]; [|done]. by intros [= <-]. Qed.

(** ** Rows *)

(** Rows have the declared type; in particular they are objects whose [broker] is
    absent or one of the listed nodes. *)
Definition row_ok (row : jsval) : Prop :=
  is_obj row /\ (own_get row (js "broker") = VUndef \/ has_type AdminNode (own_get row (js "broker")) = true) /\
  has_type NodeRow row = true.

Lemma row_typed row : has_type NodeRow row = true -> row_ok row.
Proof.
  intros Hr. destruct (typed_object _ _ Hr) as (o & ->). split_and!; [by eexists| |done].
  destruct (typed_field _ o "broker" false AdminNode Hr ltac:(by repeat constructor)) as [[? _]|]; [by left|by right].
Qed.

(** A field of a literal has the type of its expression. *)
Lemma field_typed t v e (b : bool) : e = Ok v -> yields t e -> has_type t VUndef = false ->
  match v with VUndef => b = false | x => has_type t x = true end.
Proof. intros He Hy Hu. specialize (Hy v He). destruct v; congruence. Qed.

Ltac typed_expr :=
  lazymatch goal with
  | |- yields _ (_ .|| _) => apply yields_or; typed_expr
  | |- perhaps _ (_ .|| _) => apply perhaps_or; typed_expr
  | |- yields _ (_ .?? _) => apply yields_coalesce; typed_expr
  | |- perhaps _ (_ .?? _) => apply perhaps_coalesce; typed_expr
  | |- yields _ (e_template _) => apply yields_template
  | |- perhaps _ (e_call shortId _) => apply yields_perhaps, yields_shortId; typed_expr
  | |- yields _ ((Ok ?n) @. _) => eapply yields_get; [eassumption|by repeat constructor]
  | |- perhaps _ ((Ok ?n) @. "label") => apply perhaps_null; eapply perhaps_get; [eassumption|by repeat constructor]
  | |- perhaps _ ((Ok ?n) @. _) =>
      first [eapply perhaps_get; [eassumption|by repeat constructor] | apply yields_perhaps; typed_expr]
  | |- yields _ (_ ≫= _) => apply yields_Boolean
  | |- yields _ _ => apply yields_value; done
  end.

(** Reads the fields of a row; what is left is the type of each. *)
Ltac typed_row Hrow :=
  match type of Hrow with _ = Ok ?r => revert Hrow; generalize r; intros ? Hrow end;
  row_fields Hrow; apply row_typed, typed_fields;
  repeat (apply Forall_cons; split); [..|apply Forall_nil; exact I];
  cbn beta iota delta [req opt];
  lazymatch goal with |- context [assoc ?k ?o] => let r := eval vm_compute in (assoc k o) in change (assoc k o) with r end;
  cbn beta iota; first [done | eapply field_typed; [eassumption|typed_expr|done]].

Lemma broker_row_ok cell n : has_type CellRecord cell = true -> has_type AdminNode n = true ->
  exists row, broker_row cell n = Ok row /\ row_ok row.
Proof.
  intros Hc Hn. destruct (typed_object _ _ Hn) as (o & Ho).
  assert (Hid : opt_string (own_get n (js "id"))) by (subst; eapply typed_opt_string; [exact Hn|by repeat constructor]).
  destruct (ok_object [
    ("key", e_template [ #"broker:"; (Ok cell) @. "id"; #":";
                        (Ok n) @. "id" .|| (Ok n) @. "addr" .|| (Ok n) @. "name"]);
    ("name", (Ok n) @. "name" .|| e_call shortId ((Ok n) @. "id") .|| (Ok n) @. "addr" .|| #"broker");
    ("role", #"broker");
    ("addr", (Ok n) @. "addr" .|| #"");
    ("healthy", (Ok n) @. "alive" .?? (Ok n) @. "healthy" .?? Ok (VBool true));
    ("self", b ← (Ok n) @. "self" .?? (Ok n) @. "is_self"; Ok (VBool (truthy b)));
    ("cellId", (Ok cell) @. "id");
    ("cellLabel", (Ok cell) @. "label" .|| (Ok cell) @. "id");
    ("broker", Ok n)]) as (row & Hrow).
  { each; cbn [snd]; render_ok.
    - apply ok_call; [render_ok|]. intros w Hw. unfold e_get, get in Hw. cbn [mbind result_bind] in Hw.
      rewrite (typed_not_nullish _ _ Hn) in Hw. injection Hw as <-. by apply shortId_ok.
    - assert (Hok : is_ok ((Ok n) @. "self" .?? (Ok n) @. "is_self")) by render_ok.
      by destruct (e_coalesce _ _). }
  exists (VObj row). split; [exact Hrow|]. typed_row Hrow.
Qed.

Lemma member_row_ok cell m : has_type CellRecord cell = true -> has_type CellMember m = true ->
  exists row, member_row cell m = Ok row /\ row_ok row.
Proof.
  intros Hc Hm. unfold member_row. match goal with |- context [e_object ?l] => destruct (ok_object l) as (row & Hrow) end.
  { each; cbn [snd]; render_ok. }
  exists (VObj row). split; [exact Hrow|]. typed_row Hrow.
Qed.
End rows.

Section tables.
Context `{Platform}.

Lemma broker_rows_ok cell seen ns : has_type CellRecord cell = true -> Forall (fun n => has_type AdminNode n = true) ns ->
  exists rows seen', broker_rows cell seen ns = Ok (rows, seen') /\ Forall row_ok rows.
Proof.
  intros Hc Hns. revert seen. induction Hns as [|n ns Hn _ IH]; intros seen; cbn [broker_rows]; [by eexists _, _|].
  assert (Hu : is_ok (trimmed_url ((Ok n) @. "addr"))).
  { destruct (typed_object _ _ Hn) as (o & ->). apply trimmed_url_ok. eapply typed_opt_string; [exact Hn|by repeat constructor]. }
  destruct (trimmed_url _) as [u|]; [|done]. cbn [mbind result_bind].
  destruct (broker_row_ok cell n Hc Hn) as (row & -> & Hr). cbn [mbind result_bind].
  destruct (IH (if truthy u then u :: seen else seen)) as (rows & seen' & -> & Hrs). cbn [mbind result_bind fst snd].
  eexists _, _. split; [done|]. by constructor.
Qed.

Lemma member_rows_ok cell seen ms : has_type CellRecord cell = true -> Forall (fun m => has_type CellMember m = true) ms ->
  exists rows, member_rows cell seen ms = Ok rows /\ Forall row_ok rows.
Proof.
  intros Hc Hms. induction Hms as [|m ms Hm _ (rows & IH & Hrs)]; cbn [member_rows]; [by eexists|].
  assert (Hu : is_ok (trimmed_url ((Ok m) @. "reachUrl"))).
  { destruct (typed_object _ _ Hm) as (o & ->). apply trimmed_url_ok. right. eapply typed_string; [exact Hm|by repeat constructor]. }
  destruct (trimmed_url _) as [u|]; [|done]. cbn [mbind result_bind]. rewrite IH.
  destruct (truthy u && _); [by eexists|]. destruct (member_row_ok cell m Hc Hm) as (row & -> & Hr). cbn [mbind result_bind].
  eexists. split; [done|]. by constructor.
Qed.

Lemma filter_typed t f l : Forall (fun x => has_type t x = true) l -> (forall x, has_type t x = true -> is_ok (f x)) ->
  exists l', filter_elems f l = Ok l' /\ Forall (fun x => has_type t x = true) l'.
Proof.
  intros Hl Hf. induction Hl as [|x l Hx _ (l' & IH & Hl')]; cbn [filter_elems]; [by eexists|].
  pose proof (Hf x Hx) as Hok. destruct (f x) as [b|]; [|done]. cbn [mbind result_bind]. rewrite IH. cbn [mbind result_bind].
  destruct b; eexists; split; try done. by constructor.
Qed.

(** [byCell[k]] of a typed map. *)
Lemma typed_record t v k : has_type (TRecord t) v = true ->
  is_obj v /\ (own_get v k = VUndef \/ has_type t (own_get v k) = true).
Proof.
  destruct v as [| | | | | |o|]; try done. cbn [has_type own_get]. intros Ho. split; [by eexists|].
  induction o as [|[k' x] o IH]; cbn [assoc]; [by left|]. cbn [forallb snd] in Ho. apply andb_true_iff in Ho as [Hx Ho].
  destruct (decide _); [by right|]. by apply IH.
Qed.

(** The state of the view, typed. *)
Record typed_infra (p : panel) (v : InfraView.state) : Prop := {
  ti_cells : has_type (TArray CellRecord) (State.cells (ses p)) = true;
  ti_members : has_type (TArray CellMember) (State.members (ses p)) = true;
  ti_nodes : has_type (TRecord (TArray AdminNode)) (s_nodesByCell v) = true;
  ti_shards : has_type (TRecord (TArray AdminShard)) (s_shardsByCell v) = true;
  ti_cluster : has_type (TRecord AdminCluster) (s_clusterByCell v) = true
}.

Lemma cell_rows_ok p v cell : typed_infra p v -> has_type CellRecord cell = true ->
  exists rows, cell_rows p v cell = Ok rows /\ Forall row_ok rows.
Proof.
  intros [_ Hm Hn _ _] Hc. destruct (typed_object _ _ Hc) as (oc & Hoc).
  destruct (typed_string _ oc "id" ltac:(rewrite <- Hoc; exact Hc) ltac:(by repeat constructor)) as (id & Hid).
  unfold cell_rows.
  assert (Hb : exists ns, (e_index (Ok (s_nodesByCell v)) ((Ok cell) @. "id") .|| Ok (VArr [])) = Ok (VArr ns) /\
    Forall (fun n => has_type AdminNode n = true) ns).
  { destruct (typed_record _ _ id Hn) as [(on & Hon) Hv]. rewrite Hon, Hoc in *.
    unfold e_index, e_or, e_get, get. cbn [mbind result_bind is_nullish]. rewrite Hid. cbn [to_string].
    destruct Hv as [->|(l & Hl & Hf)%typed_array]; [by exists []|]. rewrite Hl. cbn [truthy]. by exists l. }
  destruct Hb as (ns & -> & Hns). cbn [mbind result_bind elements_of].
  destruct (broker_rows_ok cell [] ns Hc Hns) as (rows & seen & -> & Hr). cbn [mbind result_bind fst snd].
  destruct (typed_array _ _ Hm) as (ms & -> & Hms). cbn [mbind result_bind elements_of].
  destruct (filter_typed CellMember (fun member => a ← (Ok member) @. "cellId"; b ← (Ok cell) @. "id"; Ok (strict_eq a b))
    ms Hms) as (ms' & -> & Hms').
  { intros x Hx. destruct (typed_object _ _ Hx) as (o & ->). by rewrite Hoc. }
  cbn [mbind result_bind]. destruct (member_rows_ok cell seen ms' Hc Hms') as (mrows & -> & Hmr). cbn [mbind result_bind].
  eexists. split; [done|]. by apply Forall_app.
Qed.

Lemma listed_ok p : has_type (TArray CellRecord) (State.cells (ses p)) = true ->
  exists l, listedCells p = Ok (VArr l) /\ Forall (fun c => has_type CellRecord c = true) l.
Proof.
  intros (l & Hl & Hf)%typed_array. unfold listedCells, e_if, e_length. rewrite Hl.
  change ((Ok (VArr l)) @. "length") with (Ok (E:=jsval) (VNum (num_of_Z (Z.of_nat (List.length l))))). cbn [mbind result_bind].
  destruct (truthy _); [by eexists|]. eexists. split; [done|]. constructor; [by vm_compute|constructor].
Qed.

Lemma nodeRows_ok p v : typed_infra p v -> exists rows, nodeRows p v = Ok (VArr rows) /\ Forall row_ok rows.
Proof.
  intros Ht. destruct (listed_ok p (ti_cells _ _ Ht)) as (l & Hl & Hf). unfold nodeRows. rewrite Hl.
  cbn [mbind result_bind elements_of].
  assert (Hr : exists rs, result_seq (map (cell_rows p v) l) = Ok rs /\ Forall row_ok (List.concat rs)).
  { clear Hl. induction Hf as [|c l Hc _ (rs & IH & Hrs)]; cbn [map result_seq]; [by eexists|].
    destruct (cell_rows_ok p v c Ht Hc) as (rows & -> & Hrows). cbn [mbind result_bind]. rewrite IH. cbn [mbind result_bind].
    eexists. split; [done|]. cbn [List.concat]. by apply Forall_app. }
  destruct Hr as (rs & -> & Hrs). cbn [mbind result_bind]. by eexists.
Qed.
End tables.

(** ** The values the sections show *)

Section shown.
Context `{Platform} (p : panel) (v : InfraView.state) (Ht : typed_infra p v).

Lemma selectedCell_ok : exists c, selectedCell (ses p) = Ok c /\ (c = VNull \/ has_type CellRecord c = true).
Proof.
  destruct (typed_array _ _ (ti_cells _ _ Ht)) as (l & Hl & Hf). unfold selectedCell. rewrite Hl.
  cbn [mbind result_bind elements_of].
  destruct (find_typed CellRecord (field_is (js "id") (selectedCellId (ses p))) l Hf) as (r & -> & Hr).
  { intros x Hx. by eapply field_is_ok. }
  cbn [mbind result_bind]. eexists. split; [done|]. destruct (truthy r) eqn:Er.
  - right. by destruct Hr as [->|Hr].
  - destruct Hf as [|c l Hc _]; cbn [first_elem truthy]; [by left|].
    destruct (truthy c); [by right|by left].
Qed.

(** [byCell[cell.id]] of the selected cell. *)
Lemma of_selected_ok t byCell : has_type (TRecord t) byCell = true ->
  exists w, of_selected p byCell = Ok w /\ (is_nullish w = true \/ has_type t w = true).
Proof.
  intros Hb. unfold of_selected. destruct selectedCell_ok as (c & -> & Hc). cbn [mbind result_bind].
  destruct (truthy c) eqn:Et; [|eexists; split; [done|by left]].
  destruct Hc as [->|Hc]; [done|]. destruct (cell_id c Hc) as (s & Hs).
  unfold e_index. rewrite Hs. cbn [mbind result_bind to_string].
  destruct (typed_record t byCell s Hb) as [(o & ->) Hv]. unfold get. cbn [is_nullish].
  eexists. split; [done|]. destruct Hv as [->|Hv]; [by left|by right].
Qed.

Lemma currentCluster_ok : exists c, currentCluster p v = Ok c /\ (c = VNull \/ is_nullish c = false).
Proof.
  unfold currentCluster. destruct (of_selected_ok _ _ (ti_cluster _ _ Ht)) as (w & -> & Hw). cbn [mbind result_bind].
  destruct (truthy w) eqn:Et; eexists; split; try done.
  - right. by destruct w.
  - destruct (truthy (first_value (s_clusterByCell v))) eqn:E; [right|by left]. by destruct (first_value _).
Qed.

Lemma shardRows_ok : exists w, shardRows p v = Ok w /\ is_nullish w = false.
Proof.
  unfold shardRows. destruct (of_selected_ok _ _ (ti_shards _ _ Ht)) as (w & -> & Hw). cbn [mbind result_bind].
  destruct (truthy w) eqn:Et; [exists w; split; [done|by destruct w]|].
  destruct (truthy (first_key (s_shardsByCell v))); [|by eexists].
  destruct (typed_record _ _ [] (ti_shards _ _ Ht)) as [(o & ->) _].
  unfold e_index, e_or, get. cbn [mbind result_bind is_nullish].
  destruct (truthy (own_get _ _)) eqn:E; eexists; split; try done. by destruct (own_get _ _).
Qed.

Lemma find_row f rows : Forall row_ok rows -> (forall x, row_ok x -> is_ok (f x)) ->
  exists r, find_elem f rows = Ok r /\ (r = VUndef \/ row_ok r).
Proof.
  intros Hr Hf. induction Hr as [|x l Hx _ IH]; cbn [find_elem]; [eauto|].
  pose proof (Hf x Hx) as Hok. destruct (f x) as [[]|]; [| |done]; cbn [mbind result_bind]; eauto.
Qed.

Lemma selectedRow_ok : exists r, selectedRow p v = Ok r /\ (r = VNull \/ row_ok r).
Proof.
  unfold selectedRow. destruct (nodeRows_ok p v Ht) as (rows & -> & Hr). cbn [mbind result_bind elements_of].
  destruct (find_row (field_is (js "key") (s_selectedNodeKey v)) rows Hr) as (r & -> & Hrow).
  { intros x ((o & ->) & _). done. }
  cbn [mbind result_bind]. eexists. split; [done|]. destruct (truthy r) eqn:E; [right|by left].
  by destruct Hrow as [->|Hrow].
Qed.

Lemma rfBanner_ok : is_ok (rfBanner p v).
Proof.
  unfold rfBanner. destruct currentCluster_ok as (c & -> & Hc). cbn [mbind result_bind].
  destruct (truthy c) eqn:E; [|done]. cbn [negb]. destruct Hc as [->|Hc]; [done|].
  assert (Hok : is_ok ((Ok c) @. "nodeCount" .|| e_num 0) /\ is_ok ((Ok c) @. "replicationFactor" .|| e_num 0))
    by (split; render_ok).
  destruct Hok as [H1 H2]. destruct ((Ok c) @. "nodeCount" .|| e_num 0) as [n|]; [|done]. cbn [mbind result_bind].
  destruct ((Ok c) @. "replicationFactor" .|| e_num 0) as [rf|]; [|done]. cbn [mbind result_bind].
  repeat (case_match; [exact I|]). exact I.
Qed.
End shown.

(** ** The sections *)

(** Rows of the node table are objects. *)
Ltac infra_step :=
  lazymatch goal with
  | Hr : Forall row_ok ?rows |- is_ok (v_for (Ok (VArr ?rows)) _) =>
      apply ok_v_for; eapply Forall_impl; [exact Hr|]; intros ? ((? & ->) & ?)
  | |- is_ok (v_if (Ok _) _ _) => apply ok_v_if_cond; intros ?
  | _ => render_step
  end.
Ltac infra_ok := repeat infra_step.

Section sections.
Context `{Platform} (p : panel) (v : InfraView.state) (Ht : typed_infra p v).

Lemma section_overview_ok : is_ok (section_overview p v).
Proof.
  unfold section_overview. destruct (nodeRows_ok p v Ht) as (rows & -> & Hr).
  destruct (currentCluster_ok p v Ht) as (c & -> & Hc). unfold kpiNode, kpiUrl, kpiStorage, kpi. infra_ok.
  destruct Hc as [->|Hc]; [done|]. by apply ok_get.
Qed.

Lemma section_cells_ok : is_ok (section_cells p v).
Proof.
  unfold section_cells. destruct (listed_ok p (ti_cells _ _ Ht)) as (l & -> & Hl).
  assert (Htl : has_type (TArray CellRecord) (VArr l) = true).
  { cbn [has_type]. apply forallb_forall. intros x Hx. rewrite Forall_forall in Hl. apply Hl. by apply list_elem_of_In. }
  infra_ok.
Qed.

Lemma section_cluster_ok : is_ok (section_cluster p v).
Proof.
  unfold section_cluster. destruct (currentCluster_ok p v Ht) as (c & -> & Hc). infra_ok.
  all: destruct Hc as [->|Hc]; [done|by apply ok_get].
Qed.

Lemma section_this_node_ok : is_ok (section_this_node p v).
Proof. unfold section_this_node. infra_ok. Qed.

Lemma section_storage_ok : is_ok (section_storage p v).
Proof. unfold section_storage. infra_ok. eexists. split; [reflexivity|]. each; by eexists. Qed.

Lemma dialog_create_ok : is_ok (dialog_create p v).
Proof. unfold dialog_create. infra_ok. Qed.

Lemma sheet_attach_ok : is_ok (sheet_attach p v).
Proof.
  unfold sheet_attach, needsToken, profileHint. infra_ok; [|done].
  eexists. split; [reflexivity|]. each; by eexists.
Qed.

(** Reading the selected row: its fields are there, and [broker] is absent or a typed node. *)
Lemma get_obj o k : (Ok (VObj o)) @. k = Ok (own_get (VObj o) (js k)).
Proof. done. Qed.

(** [broker.led_shards.length] guards [broker.led_shards.join()]. *)
Lemma led_shards_ok n (k : string) : has_type AdminNode n = true ->
  truthy (oget (oget n (js "led_shards")) (js "length")) = true -> is_ok (e_join ((Ok n) @. "led_shards") k).
Proof.
  intros Hn Hg. destruct (typed_object _ _ Hn) as (o & ->). rewrite get_obj.
  change (oget (VObj o) (js "led_shards")) with (own_get (VObj o) (js "led_shards")) in Hg.
  destruct (typed_field _ o "led_shards" false (TArray TNumber) Hn ltac:(by repeat constructor)) as [[Hu _]|Ha].
  - by rewrite Hu in Hg.
  - by destruct (typed_array _ _ Ha) as (l & -> & _).
Qed.

(** A detail of the broker that is shown only when [broker?.k] is truthy. *)
Lemma ok_v_if_broker {S} b k (n : E (list (vnode S))) : b = VUndef \/ has_type AdminNode b = true ->
  (has_type AdminNode b = true -> is_ok n) -> is_ok (v_if ((Ok b) @? k) n none).
Proof. intros [->|Hb] Hn; [done|]. apply ok_v_if; [by destruct b|by apply Hn|done]. Qed.

Lemma ok_v_if_led {S} b (f : E jsval -> E (list (vnode S))) : b = VUndef \/ has_type AdminNode b = true ->
  (forall s, is_ok s -> is_ok (f s)) ->
  is_ok (v_if (((Ok b) @? "led_shards") @? "length") (f (e_join ((Ok b) @. "led_shards") ", ")) none).
Proof.
  intros [->|Hb] Hf; [done|]. cbn [e_oget mbind result_bind]. apply ok_v_if_cond; [|done].
  intros Hg. apply Hf. by apply led_shards_ok.
Qed.

Lemma node_details_ok : is_ok (node_details p v).
Proof.
  unfold node_details. destruct (selectedRow_ok p v Ht) as (r & -> & Hr). destruct (shardRows_ok p v Ht) as (w & -> & Hw).
  apply ok_el; [each|]. each. apply ok_v_if_cond; [|intros _; infra_ok]. intros Etr.
  destruct Hr as [->|((o & ->) & Hb & _)]; [done|]. rewrite !get_obj. revert Hb.
  generalize (own_get (VObj o) (js "broker")) as b. intros b Hb.
  apply ok_frag. each; [infra_ok| |infra_ok]. apply ok_el; [infra_ok|]. each; [infra_ok|infra_ok| | |infra_ok].
  - apply ok_v_if_broker; [done|]. intros Hn. infra_ok.
  - apply (ok_v_if_led b (fun s => el "div" [] [el "p" _ _; el "p" _ [interp s]])); [done|]. intros s Hs. infra_ok. done.
Qed.

Lemma section_nodes_ok : is_ok (section_nodes p v).
Proof.
  unfold section_nodes. pose proof node_details_ok as Hd. destruct (nodeRows_ok p v Ht) as (rows & -> & Hr).
  apply ok_frag. each; [infra_ok|]. apply ok_el; [infra_ok|]. each; [|exact Hd]. infra_ok.
Qed.
End sections.

(** The frame around the sections. *)
Lemma infra_render `{Platform} p v : typed_infra p v -> is_ok (InfraView.render p v).
Proof.
  intros Ht. unfold InfraView.render. pose proof (rfBanner_ok p v Ht) as Hb.
  pose proof (section_overview_ok p v Ht) as H1. pose proof (section_nodes_ok p v Ht) as H2.
  pose proof (section_cells_ok p v Ht) as H3. pose proof (section_cluster_ok p v Ht) as H4.
  pose proof (section_this_node_ok p v) as H5. pose proof (section_storage_ok p v) as H6.
  pose proof (dialog_create_ok p v) as H7. pose proof (sheet_attach_ok p v) as H8.
  revert Hb H1 H2 H3 H4 H5 H6 H7 H8.
  generalize (rfBanner p v) (section_overview p v) (section_nodes p v) (section_cells p v) (section_cluster p v)
    (section_this_node p v) (section_storage p v) (dialog_create p v) (sheet_attach p v).
  intros. infra_ok; try assumption.
  apply ok_v_for. cbn [v_for_items sections]. each; infra_ok.
Qed.
