(* ===== verification/LiveProps.v ===== *)
(** * Liveness of the panel

    A page always comes to rest, the loading screen is left, and the buttons that
    an operation disables are enabled again. *)

From stdpp Require Import base list gmap strings.
From Stdlib Require Import NArith ZArith Lia String SpecFloat.
From S2P Require Import Prelude JsString JsNum JsVal Json Prog State Demo Storage Api Payload Catalog Session View Form Net.
From S2P Require Import GateView SetupView RevealView SettingsView DocsView EnqueueView QueuesView FlowsView.
From S2P Require Import PublishView GroupsView HttpView SchedulesView DlqView OverviewView InfraView.
From S2P Require Import AppHeader CellSwitcher AppSidebar Components Offered Page PageProps Phases Liveness.

(** ** The loading screen *)

Notation loading := (at_phase PLoading).
Notation vloading := (vat PLoading).

Section session.
Context `{Platform}.

(** [initAuth] leaves the loading phase on every path, exceptions included. *)
Lemma tidy_startApp R T o : tidy loading R T o startApp.
Proof.
  apply tidy_lower; [done|]. apply (quiet_tidy loading (_ ← spawn _; _)); [|done].
  quiet_lib.
Qed.

Lemma tidy_check_token : tidy loading false true true check_token.
Proof.
  unfold check_token, apiGet. apply tidy_catch with true.
  - apply tidy_quiet; [quiet_lib|done|intros url]. apply tidy_quiet; [quiet_lib|done|intros _]. apply tidy_startApp.
  - intros e. apply tidy_quiet; [quiet_lib|done|intros _]. apply tidy_lower; [done|]. apply quiet_tidy; [quiet_lib|done].
Qed.

Lemma tidy_enter a : tidy loading false true true (enter a).
Proof.
  unfold enter. repeat (apply tidy_quiet; [quiet_lib|done|intros ?]). case_match; [apply tidy_startApp|].
  apply tidy_quiet; [quiet_lib|done|intros conf]. case_match.
  - apply tidy_quiet; [quiet_lib|done|intros _]. by apply tidy_lower_last.
  - apply tidy_quiet; [quiet_lib|done|intros t]. case_match; [by apply tidy_lower_last|apply tidy_check_token].
Qed.

Lemma tidy_initAuth o : tidy loading false false o initAuth.
Proof.
  unfold initAuth, auth_config. apply tidy_raise. apply tidy_catch with true.
  - repeat (apply tidy_quiet; [quiet_lib|done|intros ?]). case_match; [by apply tidy_lower_last|apply tidy_enter].
  - intros e. apply tidy_lower; [done|]. apply quiet_tidy; [quiet_lib|done].
Qed.

Lemma tidy_setApiBase base : tidy loading false false false (setApiBase base).
Proof.
  unfold setApiBase. repeat (apply tidy_quiet; [|done|intros ?]).
  - by apply quiet_off_phase.
  - by apply quiet_off_phase.
  - apply quiet_off_phase. intros p. by destruct (loadSavedToken _ _).
  - split; [apply tidy_initAuth|done].
Qed.
End session.

Lemma vtidy_lib {V A : Type} R T o (p : prog panel A) : tidy loading R T o p -> tidy (vat (V:=V) PLoading) R T o (lib p).
Proof. intros Hp. by apply (tidy_zoom loading). Qed.

(** *** Pages *)

Section pages.
Context `{Platform}.

Lemma ui_task_tidy on p : ui_task on p -> tidy vloading false false false p.
Proof.
  destruct 1 as [sl p _ Hp|f _|sl q path| | |dark|t].
  - apply quiet_tidy; [|done]. apply (quiet_zoom vloading (fun t : panel * instances => (fst t, snd t sl))).
    + intros [s x] [t w]. cbn. by rewrite put_same.
    + apply place_quiet; [|done]. by destruct (fst sl) as [| | | | | |[]]; set_solver.
  - apply quiet_tidy; [apply vquiet_upd|done].
  - apply quiet_tidy; [apply vquiet_upd|done].
  - apply quiet_tidy; [apply vquiet_lib, quiet_pollHealth|done].
  - apply quiet_tidy; [apply vquiet_lib, quiet_pollCluster|done].
  - apply quiet_tidy; [|done]. apply vquiet_upd_page. intros p. unfold system_theme_changed. by case_decide.
  - apply quiet_tidy; [|done]. by apply vquiet_upd_page.
Qed.

Lemma page_task_tidy on p : page_task on p -> tidy vloading false false false p.
Proof.
  destruct 1 as [p Hp| |base]; [by eapply ui_task_tidy|..].
  - apply vtidy_lib. split; [apply tidy_initAuth|done].
  - apply vtidy_lib, tidy_setApiBase.
Qed.

Lemma mounted_flag b : flag_inv vloading (mounted_page b).
Proof.
  unfold mounted_page.
  assert (He : lib (V:=instances) app_mounted = spawn (lib initAuth)) by reflexivity.
  rewrite He, start_spawn. apply flag_start_owing; [|constructor]. apply vtidy_lib, tidy_initAuth.
Qed.
End pages.

(** ** Busy buttons *)

(** The flag that disables a component's buttons; anything but [false] counts as up. *)
Definition busy_of (k : place) : place_state k -> jsval :=
  match k with
  | PlSetup => SetupView.s_busy
  | PlGate => GateView.s_busy
  | PlView RSettings => SettingsView.s_busy
  | _ => fun _ => VBool false
  end.

Definition up (v : jsval) : bool := match v with VBool false => false | _ => true end.
Definition busy_up (k : place) (t : panel * place_state k) : bool := up (busy_of k (snd t)).
Definition slot_up (sl : slot) (t : panel * instances) : bool := busy_up (fst sl) (fst t, snd t sl).

Ltac busy_quiet :=
  repeat first [ lazymatch goal with
                 | |- quiet _ (lib _) => apply quiet_elsewhere; done
                 | |- quiet _ (upd _) => apply quiet_modify; done
                 end | quiet_step ].

Section buttons.
Context `{Platform}.

Lemma gate_tidy p : gate_task p -> tidy (busy_up PlGate) false false false p.
Proof.
  destruct 1; unfold GateView.continueWithToken, GateView.regen; (apply tidy_quiet; [busy_quiet|done|intros _]);
    apply tidy_raise, tidy_finally; [|done| |done]; (apply quiet_tidy; [busy_quiet|done]).
Qed.

Lemma setup_tidy p : setup_task p -> tidy (busy_up PlSetup) false false false p.
Proof.
  destruct 1; unfold SetupView.submit, eval. apply tidy_quiet; [busy_quiet|done|intros _].
  apply tidy_quiet; [busy_quiet|done|intros [msg|]]; [apply quiet_tidy; [busy_quiet|done]|].
  apply tidy_raise, tidy_finally; [|done]. apply quiet_tidy; [busy_quiet|done].
Qed.

Lemma settings_tidy p : settings_task p -> tidy (busy_up (PlView RSettings)) false false false p.
Proof.
  destruct 1; unfold SettingsView.regen. apply tidy_quiet; [busy_quiet|done|intros _].
  apply tidy_raise, tidy_finally; [|done]. apply quiet_tidy; [busy_quiet|done].
Qed.

Lemma never_up_tidy {S : Type} (p : prog S unit) : tidy (fun _ => false) false false false p.
Proof. apply quiet_tidy; [|done]. induction p; simpl; auto. Qed.

Lemma place_tidy k (p : vprog (place_state k) unit) : tasks p -> tidy (busy_up k) false false false p.
Proof.
  destruct k as [| | | | | |[]]; [apply setup_tidy|apply gate_tidy|..|apply settings_tidy]; intros _; apply never_up_tidy.
Qed.

Lemma setup_down k p path : busy_of k (place_setup k p path) = VBool false.
Proof. by destruct k as [| | | | | |[]]. Qed.

Lemma guarded_busy k (v v' : place_state k) : guarded v' = guarded v -> busy_of k v' = busy_of k v.
Proof. destruct k as [| | | | | |[]]; try done; by intros [= ?]. Qed.

Lemma page_task_released on sl p : page_task on p -> tidy (slot_up sl) false false false p.
Proof.
  destruct 1 as [p [sl' q _ Hp|f Hf|sl' q path| | |dark|t]| |base].
  - destruct (decide (sl = sl')) as [<-|Hn].
    + apply (tidy_zoom (busy_up (fst sl)) (fun t : panel * instances => (fst t, snd t sl))).
      * intros [s x] [t w]. cbn. by rewrite put_same.
      * by apply place_tidy.
    + apply quiet_tidy; [|done]. apply quiet_elsewhere. intros s t. unfold slot_up, busy_up. cbn [fst snd].
      by rewrite put_other.
  - apply quiet_tidy; [|done]. apply quiet_modify. intros t. unfold slot_up, busy_up. cbn [fst snd].
    intros Hu. rewrite <- Hu. f_equal. symmetry. apply guarded_busy, Hf.
  - apply quiet_tidy; [|done]. apply quiet_modify. intros t. unfold slot_up, busy_up. cbn [fst snd].
    destruct (decide (sl = sl')) as [<-|Hn]; [by rewrite put_same, setup_down|by rewrite put_other].
  - apply quiet_tidy; [|done]. by apply quiet_elsewhere.
  - apply quiet_tidy; [|done]. by apply quiet_elsewhere.
  - apply quiet_tidy; [|done]. by apply quiet_modify.
  - apply quiet_tidy; [|done]. by apply quiet_modify.
  - apply quiet_tidy; [|done]. by apply quiet_elsewhere.
  - apply quiet_tidy; [|done]. by apply quiet_elsewhere.
Qed.

Lemma resting_released on b c sl : reachable (page_task on) (page_start b) c -> resting c ->
  busy_of (fst sl) (snd (fst c) sl) = VBool false.
Proof.
  intros Hc Hrest. assert (Hf : flag_inv (slot_up sl) c).
  { eapply reachable_lowered; [intros q; apply page_task_released| |exact Hc]. split; [constructor|].
    intros Hu. change (up (busy_of (fst sl) (place_setup (fst sl) (init_panel b) None)) = true) in Hu.
    by rewrite setup_down in Hu. }
  apply resting_lowered in Hf; [|done]. unfold slot_up, busy_up in Hf. cbn [fst snd] in Hf.
  by destruct (busy_of (fst sl) (snd (fst c) sl)) as [| |[]| | | | |].
Qed.
End buttons.

(** ** Claims *)



(** C9: The loading screen is left.  In every session, if the loading screen is
    shown some request is outstanding, and if nothing new starts the replies,
    whatever they are (the broker down, replies that are not JSON), take the page
    to one at rest that shows another screen. *)
Theorem loading_ends `{Platform} K b u :
  session_of K b u ->
  (phase (ses (ui_panel u)) = PLoading -> snd (ui_page u) <> []) /\
  inevitably (fun c' => resting c' /\ phase (ses (fst (fst c'))) <> PLoading) (ui_page u).
Proof.
  intros Hu. pose proof (answering_reachable _ _ _ _ (session_runs K b u Hu)) as Hr.
  apply session_answering, answering_reachable in Hu.
  assert (Hdown : forall c', reachable (ui_task everywhere) (mounted_page b) c' -> resting c' ->
    phase (ses (fst (fst c'))) <> PLoading).
  { intros c' Hc' Hrest. pose proof (reachable_lowered vloading _ _ _ (ui_task_tidy everywhere) (mounted_flag b) Hc') as Hf.
    apply resting_lowered in Hf; [|done]. unfold vat, at_phase in Hf. by apply bool_decide_eq_false in Hf. }
  split; [intros Hl Hn; by apply (Hdown (ui_page u) Hr Hn)|].
  eapply inevitably_weaken; [|apply (inevitably_inv (reachable (ui_task everywhere) (mounted_page b)) resting);
    [intros; by apply reach_deliver|exact Hr|]].
  - intros c' [? ?]. auto.
  - by eapply drains, reachable_parked.
Qed.

Lemma loading_ends_witness :
  phase (ses (ui_panel demo_ui)) = PLoading /\
  inevitably (fun c' => resting c' /\ phase (ses (fst (fst c'))) <> PLoading) (ui_page demo_ui).
Proof.
  split; [by vm_compute|].
  exact (proj2 (@loading_ends demo_platform any_reply demo_browser demo_ui (@session_main demo_platform _ _))).
Defined.

(** C15: Buttons are enabled again.  The buttons of the gate, the setup form and
    the settings are disabled while [busy] is not [false].  In every session, a
    disabled button of any instance of these forms means an outstanding request,
    and if nothing new starts the replies, whatever they are, take the page to one
    at rest where the buttons of every form are enabled. *)
Theorem buttons_released `{Platform} K b u :
  session_of K b u ->
  (forall sl, busy_of (fst sl) (ui_states u sl) <> VBool false -> snd (ui_page u) <> []) /\
  inevitably (fun c' => resting c' /\ forall sl, busy_of (fst sl) (snd (fst c') sl) = VBool false) (ui_page u).
Proof.
  intros Hr%session_answering%answering_reachable. split.
  - intros sl Hb Hn. apply Hb. by eapply resting_released.
  - eapply inevitably_weaken; [|eapply reachable_drains; exact Hr]. intros c' [Hrest Hc']. split; [done|].
    intros sl. by eapply resting_released.
Qed.

Lemma buttons_released_witness :
  busy_of PlSetup (ui_states demo_submitted (PlSetup, 0%nat)) = VBool true /\ snd (ui_page demo_submitted) <> [].
Proof.
  split; [by vm_compute|].
  apply (proj1 (@buttons_released demo_platform any_reply demo_browser demo_submitted demo_submitted_session) (PlSetup, 0%nat)).
  by vm_compute.
Defined.
