(* ===== verification/TypedPages.v ===== *)
(** * Type soundness of the pages

    If the broker's replies have the types the panel declares for them, the state
    of every reachable page keeps those types, and so no template ever throws.
    [types_of] collects the type arguments of the [apiGet] calls, by URL;
    [typed_reply] is the assumption on the broker; [typed_panel] and [view_typed]
    are the typing of the page's state. *)

From stdpp Require Import base list gmap strings.
From Stdlib Require Import NArith ZArith Lia String SpecFloat.
From S2P Require Import Prelude JsString JsNum JsVal Json Types Prog State Demo Storage Api Payload Catalog Session View Form Net Keeps.
From S2P Require Import GateView SetupView RevealView SettingsView DocsView EnqueueView QueuesView FlowsView.
From S2P Require Import PublishView GroupsView HttpView SchedulesView DlqView OverviewView InfraView.
From S2P Require Import AppHeader CellSwitcher AppSidebar App Components Offered Page PageProps InfraProps RenderRules RenderProps InfraRender.
Local Open Scope js_scope.

(** ** What the panel expects of the broker *)

(** The result types of the GET requests with a fixed path. *)
Definition reply_types : list (jstring * ty) := [
  (js "/v1/queues", TObject [opt "queues" (TArray QueueRow)]);
  (js "/v1/groups", TObject [opt "groups" (TArray GroupRow)]);
  (js "/v1/flows", TObject [opt "flows" (TArray FlowRow)]);
  (js "/v1/cluster", ClusterStatus);
  (js "/cells", TObject [opt "cells" (TArray CellRecord); opt "members" (TArray CellMember)]);
  (js "/v1/delayed", TObject [opt "delayed" (TArray Delayed)]);
  (js "/v1/crons", TObject [opt "crons" (TArray Cron)]);
  (js "/v1/dlq/sources", TUnion (TArray Source) (TObject [opt "sources" (TArray Source)]));
  (js "/v1/destinations/blocked", TUnion (TObject [opt "hosts" (TArray Host)]) (TArray Host));
  (js "/cells/query/nodes", FedResult (TObject [opt "nodes" (TArray AdminNode)]));
  (js "/cells/query/shards", FedResult (TObject [opt "shards" (TArray AdminShard)]));
  (js "/cells/query/cluster", FedResult AdminCluster)].

(** Those whose path continues with an identifier or a query. *)
Definition reply_types_at : list (jstring * ty) := [
  (js "/v1/groups/", TObject [opt "members" (TArray Member)]);
  (js "/v1/dlq?", TObject [opt "messages" (TArray Msg); opt "dlq_topic" TString])].

Definition types_of (url : jstring) : list ty :=
  snd <$> (filter (fun pt => ends_in (fst pt) url = true) reply_types ++
           filter (fun pt => includes (fst pt) url = true) reply_types_at).

(** The broker keeps to its types: a successful answer to a GET request parses to a
    value of the declared type.  Failures of every kind are allowed. *)
Definition typed_reply (q : ask) (x : reply) : Prop :=
  match q, x with
  | AskFetch rq, Responded r =>
      forall v, rq_method rq = js "GET" -> response_result r = Ok v ->
        Forall (fun t => has_type t v = true) (types_of (rq_url rq))
  | _, _ => True
  end.

(** The same as a check of a concrete reply. *)
Definition typed_replyb (q : ask) (x : reply) : bool :=
  match q, x with
  | AskFetch rq, Responded r =>
      match response_result r with Ok v => forallb (fun t => has_type t v) (types_of (rq_url rq)) | Exn _ => true end
  | _, _ => true
  end.

Lemma typed_replyb_ok q x : typed_replyb q x = true -> typed_reply q x.
Proof.
  destruct q as [rq| | |], x as [rs| |]; try done. simpl. intros Hb v _ Hv. rewrite Hv in Hb. apply Forall_forall.
  intros t Ht. rewrite forallb_forall in Hb. by apply Hb, list_elem_of_In.
Qed.

Lemma typed_reply_check o x : match o with Some q => typed_replyb q x | None => false end = true ->
  match o with Some q => typed_reply q x | None => False end.
Proof. destruct o; [apply typed_replyb_ok|done]. Qed.

Lemma includes_app base p rest : includes p (base ++ p ++ rest) = true.
Proof.
  assert (Hs : forall s, starts_with p s = true -> includes p s = true) by (intros [] Hs; cbn [includes]; by rewrite Hs).
  induction base as [|c base IH]; [exact (Hs _ (starts_with_app p rest))|].
  change (includes p ((c :: base) ++ p ++ rest))
    with (starts_with p ((c :: base) ++ p ++ rest) || includes p (base ++ p ++ rest)).
  by rewrite IH, orb_true_r.
Qed.

Lemma types_of_path base path t : (path, t) ∈ reply_types -> t ∈ types_of (base ++ path).
Proof.
  intros Hin. apply list_elem_of_fmap. exists (path, t). split; [done|]. apply elem_of_app. left.
  apply list_elem_of_filter. split; [apply ends_in_app|done].
Qed.
Lemma types_of_at base path rest t : (path, t) ∈ reply_types_at -> t ∈ types_of (base ++ path ++ rest).
Proof.
  intros Hin. apply list_elem_of_fmap. exists (path, t). split; [done|]. apply elem_of_app. right.
  apply list_elem_of_filter. split; [apply includes_app|done].
Qed.

(** ** Typed state *)

(** The lists every view shares. *)
Definition typed_panel (p : panel) : Prop :=
  typed_catalog (cat p) /\ has_type (TArray CellRecord) (State.cells (ses p)) = true /\
  has_type (TArray CellMember) (State.members (ses p)) = true /\ typed_cluster (cluster (ses p)).

(** What a view keeps beside its forms. *)
Class TypedView (V : Type) := view_typed : V -> Prop.
Notation vtyped := (vinv typed_panel view_typed).

(** The outcome of a request of type [t]. *)
Definition returns (t : ty) (r : result jsval jsval) : Prop :=
  match r with Ok v => has_type t v = true | Exn _ => True end.

Section requests.
Context `{Platform}.

Lemma typed_off f : (forall p, ses (f p) = ses p /\ cat (f p) = cat p) ->
  forall p, typed_panel p -> typed_panel (f p).
Proof. intros Hf p. unfold typed_panel. by destruct (Hf p) as [-> ->]. Qed.

Lemma ends_fetch rq : ends typed_panel typed_reply
  (fun r => match r with Ok resp => typed_reply (AskFetch rq) (Responded resp) | Exn _ => True end) (fetch rq).
Proof. intros p Hp. split; [by apply (typed_off (log_request rq))|]. by intros [r|e|b] Hx. Qed.

Lemma ends_request m url body t : m = js "GET" -> t ∈ types_of url ->
  ends typed_panel typed_reply (returns t) (request m url body).
Proof.
  intros -> Ht. unfold request.
  eapply (ends_bind _ _ (fun r => match r with Ok rq => rq_method rq = js "GET" /\ rq_url rq = url | Exn _ => True end)); [| |done].
  - apply ends_call. intros p Hp. unfold on_br, szoom, build_request.
    destruct (authHeaders (br p)) as [au b']. simpl. split; [by apply (typed_off (set_br b'))|].
    by destruct (request_headers au body).
  - intros rq [Hm Hu]. eapply ends_bind; [apply ends_fetch| |done]. intros resp Hr. simpl in Hr.
    destruct (response_result resp) as [v|e] eqn:E; [|done]. specialize (Hr v Hm eq_refl). rewrite Hu, Forall_forall in Hr.
    by apply Hr.
Qed.

(** Any other request: no promise about the result. *)
Lemma ends_request_any m url body : ends typed_panel typed_reply anyway (request m url body).
Proof.
  unfold request. eapply (ends_bind _ _ anyway); [| |done].
  - apply ends_call. intros p Hp. unfold on_br, szoom. destruct (build_request m url body (br p)) as [r b'].
    split; [by apply (typed_off (set_br b'))|done].
  - intros rq _. eapply ends_bind; [eapply ends_anyway, ends_fetch| |done]. intros resp _. by destruct (response_result resp).
Qed.

Lemma ends_pub_get path t : (forall base, t ∈ types_of (base ++ path)) ->
  ends typed_panel typed_reply (returns t) (pub_get path).
Proof. intros Ht. apply ends_read_bind. intros p _. unfold apiGet. apply ends_request; [done|apply Ht]. Qed.

Lemma ends_adm_get path t : (forall base, t ∈ types_of (base ++ path)) ->
  ends typed_panel typed_reply (returns t) (url ← admin path; apiGet url).
Proof. intros Ht. apply ends_read_bind. intros p _. unfold apiGet. apply ends_request; [done|apply Ht]. Qed.

Lemma ends_pub_get_any path : ends typed_panel typed_reply anyway (pub_get path).
Proof. apply ends_read_bind. intros p _.
  unfold apiGet, apiPost, apiPut, apiDelete. apply ends_request_any. Qed.
Lemma ends_pub_delete path : ends typed_panel typed_reply anyway (pub_delete path).
Proof. apply ends_read_bind. intros p _.
  unfold apiGet, apiPost, apiPut, apiDelete. apply ends_request_any. Qed.
Lemma ends_pub_post path d : ends typed_panel typed_reply anyway (pub_post path d).
Proof. apply ends_read_bind. intros p _.
  unfold apiGet, apiPost, apiPut, apiDelete. apply ends_request_any. Qed.
Lemma ends_pub_put path d : ends typed_panel typed_reply anyway (pub_put path d).
Proof. apply ends_read_bind. intros p _.
  unfold apiGet, apiPost, apiPut, apiDelete. apply ends_request_any. Qed.
Lemma ends_adm_post path d : ends typed_panel typed_reply anyway (adm_post path d).
Proof. apply ends_read_bind. intros p _.
  unfold apiGet, apiPost, apiPut, apiDelete. apply ends_request_any. Qed.
End requests.

(** [d.k || []] of a typed reply. *)
Lemma list_field_typed fields d k t v :
  has_type (TObject fields) d = true -> (k, false, TArray t) ∈ fields -> list_field d (js k) = Ok v ->
  has_type (TArray t) v = true.
Proof.
  intros Hd Hin Hv. destruct (typed_object _ _ Hd) as (o & ->). unfold list_field, e_or, get in Hv. cbn [is_nullish mbind result_bind] in Hv.
  destruct (typed_field _ o k false (TArray t) Hd Hin) as [[Hu _]|Ht].
  - rewrite Hu in Hv. by injection Hv as <-.
  - destruct (truthy _); by injection Hv as <-.
Qed.

(** ** The library *)

(** The [n]-th entry of the table. *)
Ltac in_types n := intros ?; apply types_of_path; apply (list_elem_of_lookup_2 _ n); reflexivity.

Section lib.
Context `{Platform}.

Lemma ends_get_bind {B : Type} (Q : result jsval B -> Prop) path t (k : jsval -> prog panel B) :
  (forall base, t ∈ types_of (base ++ path)) -> (forall d, has_type t d = true -> ends typed_panel typed_reply Q (k d)) ->
  (forall e, Q (Exn e)) -> ends typed_panel typed_reply Q (url ← public path; d ← apiGet url; k d).
Proof.
  intros Ht Hk He. apply ends_read_bind. intros p _. unfold apiGet.
  eapply ends_bind; [apply (ends_request _ _ _ t); [done|apply Ht]|exact Hk|auto].
Qed.

Lemma ends_adm_get_bind {B : Type} (Q : result jsval B -> Prop) path t (k : jsval -> prog panel B) :
  (forall base, t ∈ types_of (base ++ path)) -> (forall d, has_type t d = true -> ends typed_panel typed_reply Q (k d)) ->
  (forall e, Q (Exn e)) -> ends typed_panel typed_reply Q (url ← admin path; d ← apiGet url; k d).
Proof.
  intros Ht Hk He. apply ends_read_bind. intros p _. unfold apiGet.
  eapply ends_bind; [apply (ends_request _ _ _ t); [done|apply Ht]|exact Hk|auto].
Qed.

(** The three refreshers of the catalog. *)
Lemma typed_refresh path key t (set : jsval -> catalog_state -> catalog_state) :
  (forall base, TObject [opt key (TArray t)] ∈ types_of (base ++ path)) ->
  (forall v p, has_type (TArray t) v = true -> typed_panel p -> typed_panel (on_cat (set v) p)) ->
  ends typed_panel typed_reply anyway (prog_catch
    (url ← public path; d ← apiGet url; v ← pure (list_field d (js key)); modify (on_cat (set v)))
    (fun _ => modify (on_cat (set (VArr []))))).
Proof.
  intros Ht Hset. apply ends_catch_any.
  - eapply ends_get_bind; [exact Ht| |done]. intros d Hd. apply ends_pure_bind; [|done]. intros v Hv.
    apply ends_modify_any. intros p. apply Hset. eapply list_field_typed; [exact Hd|by left|exact Hv].
  - intros e. apply ends_modify_any. intros p. by apply Hset.
Qed.

Lemma typed_refreshQueues : ends typed_panel typed_reply anyway refreshQueues.
Proof.
  apply (typed_refresh (js "/v1/queues") "queues" QueueRow set_queues); [in_types 0%nat|].
  intros v p Hv ((_ & Hg & Hf) & Hr). by split.
Qed.
Lemma typed_refreshGroups : ends typed_panel typed_reply anyway refreshGroups.
Proof.
  apply (typed_refresh (js "/v1/groups") "groups" GroupRow set_groups); [in_types 1%nat|].
  intros v p Hv ((Hq & _ & Hf) & Hr). by split.
Qed.
Lemma typed_refreshFlows : ends typed_panel typed_reply anyway refreshFlows.
Proof.
  apply (typed_refresh (js "/v1/flows") "flows" FlowRow set_flows); [in_types 2%nat|].
  intros v p Hv  ((Hq & Hg & _) & Hr). by split.
Qed.

Lemma typed_refreshCells : ends typed_panel typed_reply anyway refreshCells.
Proof.
  unfold refreshCells. apply ends_catch_any.
  - eapply ends_adm_get_bind; [in_types 4%nat| |done]. intros d Hd. apply ends_pure_bind; [|done]. intros cs Hcs.
    apply ends_then.
    { intros p (Hc & _ & Hm & Hcl). split_and!; [apply Hc..| |done|done]. eapply list_field_typed; [exact Hd|by left|exact Hcs]. }
    apply ends_pure_bind; [|done]. intros ms Hms. apply ends_then.
    { intros p (Hc & Hl & _ & Hcl). split_and!; [apply Hc..|done| |done]. eapply list_field_typed; [exact Hd|by right; left|exact Hms]. }
    apply ends_read_bind. intros p _. apply ends_pure_bind; [|done]. intros [] _; [done|].
    apply ends_pure_bind; [|done]. intros id _. by apply ends_modify_any.
  - intros e. apply ends_then; [|apply ends_modify_any].
    + intros p (Hc & _ & Hm & Hcl). by split_and!; [apply Hc..| | |].
    + intros p (Hc & Hl & _ & Hcl). by split_and!; [apply Hc..| | |].
Qed.

Lemma typed_pollCluster : ends typed_panel typed_reply anyway pollCluster.
Proof.
  unfold pollCluster. apply ends_catch_any.
  - eapply ends_get_bind; [in_types 3%nat| |done]. intros c Hc. apply ends_then.
    { intros p (Hcat & Hl & Hm & _). split_and!; [apply Hcat..|done|done|]. by right. }
    apply ends_pure_bind; [|done]. intros l _. by apply ends_modify_any.
  - intros e. apply ends_then; [|by apply ends_modify_any].
    intros p (Hcat & Hl & Hm & _). split_and!; [apply Hcat..|done|done|]. by left.
Qed.

Lemma typed_setToken t : ends typed_panel typed_reply anyway (call (setToken t)).
Proof.
  apply ends_call. intros p Hp. split; [|done]. unfold setToken, mbind, sync_mbind, smod, sget, on_br, szoom. simpl.
  destruct (saveToken _ t (br p)) as [[] b]; exact Hp.
Qed.

Lemma typed_submit raw : ends typed_panel typed_reply anyway (call (submitGateToken raw)).
Proof.
  apply ends_call. intros p Hp. split; [|done]. unfold submitGateToken, mbind, sync_mbind, spure.
  destruct (e_trim (Ok raw)) as [t|]; [|done]. destruct t as [| | | |[|c s]| | |]; try done.
  destruct (starts_with _ _); [|done]. exact (proj1 (typed_setToken _ p Hp)).
Qed.
End lib.

(** Programs that do not write typed state. *)
Ltac typed_step :=
  lazymatch goal with
  | |- ends _ _ anyway (request _ _ _) => apply ends_request_any
  | |- ends _ _ anyway (fetch _) => eapply ends_anyway, ends_fetch
  | |- ends _ _ anyway (call (setToken _)) => apply typed_setToken
  | |- ends _ _ anyway (call (submitGateToken _)) => apply typed_submit
  | _ => ends_step
  end.

Create HintDb typed discriminated.
Ltac typed_lib := repeat first [solve [auto with typed] | typed_step | apply ends_modify_any; intros ? ?; assumption].

Section session.
Context `{Platform}.

Lemma typed_pollHealth : ends typed_panel typed_reply anyway pollHealth.
Proof. unfold pollHealth. typed_lib. Qed.
#[local] Hint Resolve typed_refreshQueues typed_refreshGroups typed_refreshFlows typed_refreshCells typed_pollCluster
  typed_pollHealth : typed.
Lemma typed_startApp : ends typed_panel typed_reply anyway startApp.
Proof. unfold startApp. typed_lib. Qed.
Lemma typed_password path pw : ends typed_panel typed_reply anyway (password_flow path pw).
Proof. unfold password_flow, apiPost. typed_lib. Qed.
#[local] Hint Resolve typed_startApp : typed.
Lemma typed_finishReveal : ends typed_panel typed_reply anyway finishReveal.
Proof. unfold finishReveal. typed_lib. Qed.
Lemma typed_initAuth : ends typed_panel typed_reply anyway initAuth.
Proof. unfold initAuth, auth_config, enter, check_token, apiGet. typed_lib. Qed.
#[local] Hint Resolve typed_initAuth : typed.
Lemma typed_setApiBase base : ends typed_panel typed_reply anyway (setApiBase base).
Proof.
  unfold setApiBase. typed_lib. apply ends_modify_any. intros p Hp. by destruct (loadSavedToken _ _).
Qed.
Lemma typed_copyText t : ends typed_panel typed_reply anyway (copyText t).
Proof. unfold copyText. typed_lib. Qed.
End session.

#[export] Hint Resolve typed_refreshQueues typed_refreshGroups typed_refreshFlows typed_refreshCells typed_pollCluster
  typed_pollHealth typed_startApp typed_password typed_finishReveal typed_initAuth typed_setApiBase typed_copyText
  ends_pub_get_any ends_pub_delete ends_pub_post ends_pub_put ends_adm_post : typed.

(** ** The views *)

#[export] Instance setup_typed : TypedView SetupView.state := fun _ => True.
#[export] Instance gate_typed : TypedView GateView.state := fun _ => True.
#[export] Instance reveal_typed : TypedView RevealView.state := fun _ => True.
#[export] Instance settings_typed : TypedView SettingsView.state := fun _ => True.
#[export] Instance docs_typed : TypedView DocsView.state := fun _ => True.
#[export] Instance enqueue_typed : TypedView EnqueueView.state := fun _ => True.
#[export] Instance queues_typed : TypedView QueuesView.state := fun _ => True.
#[export] Instance flows_typed : TypedView FlowsView.state := fun _ => True.
#[export] Instance publish_typed : TypedView PublishView.state := fun _ => True.
#[export] Instance overview_typed : TypedView OverviewView.state := fun _ => True.
#[export] Instance header_typed : TypedView AppHeader.state := fun _ => True.
#[export] Instance sidebar_typed : TypedView AppSidebar.state := fun _ => True.
#[export] Instance switcher_typed : TypedView CellSwitcher.state := fun _ => True.
#[export] Instance groups_typed : TypedView GroupsView.state :=
  fun v => has_type (TArray Member) (GroupsView.s_members v) = true.
#[export] Instance http_typed : TypedView HttpView.state := fun v => has_type (TArray Host) (HttpView.s_blocked v) = true.
#[export] Instance schedules_typed : TypedView SchedulesView.state := fun v =>
  has_type (TArray Delayed) (SchedulesView.s_delayed v) = true /\ has_type (TArray Cron) (SchedulesView.s_crons v) = true.
#[export] Instance dlq_typed : TypedView DlqView.state := fun v =>
  has_type (TArray Source) (DlqView.s_sources v) = true /\ has_type (TArray Msg) (DlqView.s_rows v) = true.
#[export] Instance infra_typed : TypedView InfraView.state := fun v =>
  has_type (TRecord (TArray AdminNode)) (InfraView.s_nodesByCell v) = true /\
  has_type (TRecord (TArray AdminShard)) (InfraView.s_shardsByCell v) = true /\
  has_type (TRecord AdminCluster) (InfraView.s_clusterByCell v) = true.

(** [await apiGet<t>(publicUrl(path))] in a handler. *)
Lemma vends_get `{Platform} {V B : Type} `{!TypedView V} path t (k : jsval -> vprog V B) :
  (forall base, t ∈ types_of (base ++ path)) -> (forall d, has_type t d = true -> ends vtyped typed_reply anyway (k d)) ->
  ends vtyped typed_reply anyway (d ← lib (pub_get path); k d).
Proof. intros Ht Hk. eapply ends_bind; [by apply vends_lib, (ends_pub_get _ t)|exact Hk|done]. Qed.

Ltac vtyped_step := vends_step ltac:(first [solve [auto with typed] | typed_lib]).
Ltac vtyped := repeat vtyped_step.

Section tasks.
Context `{Platform}.

Notation keeps p := (ends vtyped typed_reply anyway p).

Lemma gate_keeps p : gate_task p -> keeps p.
Proof. destruct 1; unfold GateView.continueWithToken, GateView.regen, regenerateToken; vtyped. Qed.
Lemma setup_keeps p : setup_task p -> keeps p.
Proof. destruct 1; unfold SetupView.submit, setupPassword; vtyped. Qed.
Lemma reveal_keeps p : reveal_task p -> keeps p.
Proof. destruct 1; unfold RevealView.copy; vtyped. Qed.
Lemma settings_keeps p : settings_task p -> keeps p.
Proof. destruct 1; unfold SettingsView.regen, regenerateToken; vtyped. Qed.
Lemma enqueue_keeps p : enqueue_task p -> keeps p.
Proof. destruct 1; unfold EnqueueView.mounted, EnqueueView.enqueue, EnqueueView.enqueue_path; vtyped. Qed.
Lemma queues_keeps p : queues_task p -> keeps p.
Proof. destruct 1; unfold QueuesView.mounted, QueuesView.create, QueuesView.remove; vtyped. Qed.
Lemma flows_keeps p : flows_task p -> keeps p.
Proof. destruct 1; unfold FlowsView.mounted, FlowsView.create, FlowsView.remove; vtyped. Qed.
Lemma publish_keeps p : publish_task p -> keeps p.
Proof. destruct 1; unfold PublishView.mounted, PublishView.publish; vtyped. Qed.

Lemma template_prefix s ps v : e_template (e_str s :: ps) = Ok v -> exists rest, to_string v = s ++ rest.
Proof. simpl. destruct (e_template ps) as [w|]; [|done]. intros [= <-]. by eexists. Qed.

Lemma loadMembers_keeps g : keeps (GroupsView.loadMembers g).
Proof.
  unfold GroupsView.loadMembers. destruct (negb (truthy g)); [by apply vends_upd|].
  eapply (ends_catch _ _ anyway); [|done|intros e _; by apply vends_upd].
  apply ends_pure_bind; [|done]. intros path (rest & ->)%template_prefix.
  eapply vends_get; [intros base; by apply (types_of_at base (js "/v1/groups/")); left|].
  intros d Hd. apply ends_pure_bind; [|done]. intros ms Hms. apply vends_upd. intros v _.
  eapply list_field_typed; [exact Hd|by left|exact Hms].
Qed.

Lemma groups_keeps p : groups_task p -> keeps p.
Proof.
  pose proof loadMembers_keeps.
  destruct 1; unfold GroupsView.mounted, GroupsView.create, GroupsView.addMember, GroupsView.removeGroup,
    GroupsView.removeMember, GroupsView.openMembers; repeat first [solve [auto] | vtyped_step].
Qed.

Lemma hosts_typed d v : has_type (TUnion (TObject [opt "hosts" (TArray Host)]) (TArray Host)) d = true ->
  HttpView.hosts_of d = Ok v -> has_type (TArray Host) v = true.
Proof.
  intros [Hd|Hd]%typed_union Hv; unfold HttpView.hosts_of in Hv.
  - destruct (typed_object _ _ Hd) as (o & ->). simpl in Hv. eapply list_field_typed; [exact Hd|by left|exact Hv].
  - destruct (typed_array _ _ Hd) as (l & -> & _). by injection Hv as <-.
Qed.

Lemma http_load_keeps : keeps HttpView.load.
Proof.
  unfold HttpView.load. eapply (ends_bind _ _ anyway); [by apply vends_upd|intros _ _|done].
  eapply (ends_catch _ _ anyway); [|done|intros e _; by apply vends_upd].
  eapply vends_get; [in_types 8%nat|]. intros d Hd. apply ends_pure_bind; [|done]. intros hs Hhs.
  apply vends_upd. intros v _. by eapply hosts_typed.
Qed.

Lemma http_keeps p : http_task p -> keeps p.
Proof.
  pose proof http_load_keeps.
  destruct 1; unfold HttpView.mounted, HttpView.block, HttpView.unblock; repeat first [assumption | vtyped_step].
Qed.

Lemma sources_typed d v : has_type (TUnion (TArray Source) (TObject [opt "sources" (TArray Source)])) d = true ->
  DlqView.sources_of d = Ok v -> has_type (TArray Source) v = true.
Proof.
  intros [Hd|Hd]%typed_union Hv; unfold DlqView.sources_of in Hv.
  - destruct (typed_array _ _ Hd) as (l & -> & _). by injection Hv as <-.
  - destruct (typed_object _ _ Hd) as (o & ->). simpl in Hv. eapply list_field_typed; [exact Hd|by left|exact Hv].
Qed.

Lemma dlq_load_keeps : keeps DlqView.load.
Proof.
  unfold DlqView.load. eapply (ends_bind _ _ anyway); [by apply vends_upd|intros _ _|done].
  apply vends_eval; [intros _ src _ _|done]. apply vends_eval; [intros _ topic _ _|done].
  destruct (negb (truthy topic)).
  - eapply (ends_bind _ _ anyway); [apply vends_upd; intros v [Hs _]; by split|intros _ _|done]. vtyped.
  - eapply (ends_bind _ _ anyway); [vtyped|intros qs _|done].
    eapply (ends_catch _ _ anyway); [|done|intros e _; by apply vends_upd].
    eapply vends_get; [intros base; by apply (types_of_at base (js "/v1/dlq?")); right; left|].
    intros d Hd. apply ends_pure_bind; [|done]. intros rows Hrows.
    eapply (ends_bind _ _ anyway); [|intros _ _; vtyped|done].
    apply vends_upd. intros v [Hs _]. split; [exact Hs|]. eapply list_field_typed; [exact Hd|by left|exact Hrows].
Qed.

Lemma dlq_loadSources_keeps : keeps DlqView.loadSources.
Proof.
  pose proof dlq_load_keeps.
  unfold DlqView.loadSources. eapply (ends_bind _ _ anyway); [by apply vends_upd|intros _ _|done].
  eapply (ends_catch _ _ anyway); [|done|intros e _; by apply vends_upd].
  eapply vends_get; [in_types 7%nat|]. intros d Hd. apply ends_pure_bind; [|done]. intros l Hl.
  eapply (ends_bind _ _ anyway); [|intros _ _|done].
  - apply vends_upd. intros v [_ Hr]. split; [by eapply sources_typed|exact Hr].
  - repeat first [assumption | vtyped_step]. apply vends_upd. intros ? [Hs _]. by split.
Qed.

Lemma dlq_keeps p : dlq_task p -> keeps p.
Proof.
  pose proof dlq_load_keeps. pose proof dlq_loadSources_keeps.
  destruct 1; unfold DlqView.mounted, DlqView.remove, DlqView.removeAll, DlqView.copyBody, DlqView.view;
    repeat first [assumption | vtyped_step].
Qed.

(** [Promise.all] of requests with their types. *)
Lemma ends_promise_types (ps : list (prog panel jsval)) ts :
  Forall2 (fun p t => ends typed_panel typed_reply (returns t) p) ps ts ->
  ends typed_panel typed_reply (fun r => match r with
    | Ok v => exists vs, v = VArr vs /\ Forall2 (fun v t => has_type t v = true) vs ts
    | Exn _ => True end) (promise_array ps).
Proof.
  induction 1 as [|p t ps ts Hp _ IH]; cbn [promise_array]; [by exists []|].
  exists (returns t). eexists. split_and!; [exact Hp|exact IH| |done].
  intros a b Ha (vs & -> & Hvs). exists (a :: vs). split; [done|]. by constructor.
Qed.

Lemma returns_unknown p : ends typed_panel typed_reply anyway p -> ends typed_panel typed_reply (returns TUnknown) p.
Proof. intros Hp. eapply ends_weaken; [exact Hp|]. by intros [] _. Qed.

Lemma schedules_load_keeps : keeps SchedulesView.load.
Proof.
  unfold SchedulesView.load. eapply (ends_bind _ _ anyway); [by apply vends_upd|intros _ _|done].
  eapply (ends_catch _ _ anyway); [|done|intros e _; by apply vends_upd].
  eapply ends_bind; [apply vends_lib, (ends_promise_types _
    [TObject [opt "delayed" (TArray Delayed)]; TObject [opt "crons" (TArray Cron)]; TUnknown])| |done].
  { constructor; [apply ends_pub_get; in_types 5%nat|]. constructor; [apply ends_pub_get; in_types 6%nat|].
    constructor; [|constructor]. apply returns_unknown. eapply (ends_bind _ _ anyway); [apply typed_refreshFlows|done|done]. }
  intros v (vs & -> & Hvs). inversion_clear Hvs as [|d ? ? ? Hd Hvs']. inversion_clear Hvs' as [|c ? ? ? Hc Hvs''].
  inversion_clear Hvs'' as [|u ? ? ? _ Hnil]. inversion_clear Hnil. cbn [SchedulesView.pair_of].
  apply ends_pure_bind; [|done]. intros ds Hds. eapply (ends_bind _ _ anyway); [|intros _ _|done].
  - apply vends_upd. intros v [_ Hcr]. split; [|exact Hcr]. eapply list_field_typed; [exact Hd|by left|exact Hds].
  - apply ends_pure_bind; [|done]. intros cs Hcs. apply vends_upd. intros v [Hde _]. split; [exact Hde|].
    eapply list_field_typed; [exact Hc|by left|exact Hcs].
Qed.

Lemma schedules_keeps p : schedules_task p -> keeps p.
Proof.
  pose proof schedules_load_keeps.
  destruct 1; unfold SchedulesView.mounted, SchedulesView.create, SchedulesView.act, SchedulesView.act_request;
    repeat first [assumption | vtyped_step].
Qed.

Lemma overview_keeps p : overview_task p -> keeps p.
Proof. destruct 1; unfold OverviewView.mounted, OverviewView.quickPublish, OverviewView.fetchJson; vtyped. Qed.

(** [byCell[row.cell] = f(row)] keeps a typed map. *)
Lemma set_prop_typed t o k d : has_type (TRecord t) o = true -> has_type t d = true ->
  has_type (TRecord t) (set_prop o k d) = true.
Proof.
  destruct o as [| | | | | |o|]; try done. cbn [has_type set_prop]. intros Ho Hd.
  induction o as [|[k' x] o IH]; cbn [assoc_set forallb snd] in *; [by rewrite Hd|].
  apply andb_true_iff in Ho as [Hx Ho]. destruct (decide (k = k')); cbn [forallb snd]; apply andb_true_iff; split; auto.
Qed.

Lemma fill_cells_keeps (set : (jsval -> jsval) -> InfraView.state -> InfraView.state) f t T res :
  (forall v, view_typed v -> view_typed (set (fun _ => VObj []) v)) ->
  (forall v k d, view_typed v -> has_type t d = true -> view_typed (set (fun o => set_prop o k d) v)) ->
  (forall row d, has_type (FedOk T) row = true -> f row = Ok d -> has_type t d = true) ->
  has_type (FedResult T) res = true -> keeps (InfraView.fill_cells set f res).
Proof.
  intros H0 H1 Hf Hres. unfold InfraView.fill_cells. eapply (ends_bind _ _ anyway); [by apply vends_upd|intros _ _|done].
  apply ends_pure_bind; [|done]. intros ok Hok.
  assert (Hrows : has_type (TArray (FedOk T)) ok = true)
    by (eapply list_field_typed; [exact Hres|by left|exact Hok]).
  destruct (typed_array _ _ Hrows) as (l & -> & Hl). apply ends_pure_bind; [|done]. intros rows [= <-].
  apply vends_for_each. intros row Hrow. rewrite Forall_forall in Hl. apply ends_pure_bind; [|done]. intros k _.
  apply ends_pure_bind; [|done]. intros d Hd. apply vends_upd. intros v Hv. apply H1; [done|]. by eapply Hf, Hd; apply Hl.
Qed.

(** [row.data] of a federated row. *)
Lemma row_data T row d : has_type (FedOk T) row = true -> (Ok row) @. "data" = Ok d -> has_type T d = true.
Proof.
  intros Hr Hd. destruct (typed_object _ _ Hr) as (o & ->). injection Hd as <-.
  destruct (typed_field _ o "data" true T Hr ltac:(by right; left)) as [[_ ?]|Ht]; [done|exact Ht].
Qed.

Lemma row_list key t row d : has_type (FedOk (TObject [opt key (TArray t)])) row = true ->
  (((Ok row) @. "data") @. key .|| Ok (VArr [])) = Ok d -> has_type (TArray t) d = true.
Proof.
  intros Hr Hd. destruct ((Ok row) @. "data") as [x|e] eqn:Ex; [|done].
  eapply list_field_typed; [by eapply row_data|by left|exact Hd].
Qed.

Lemma loadFed_keeps : keeps InfraView.loadFed.
Proof.
  unfold InfraView.loadFed. eapply (ends_bind _ _ anyway); [by apply vends_upd|intros _ _|done].
  eapply (ends_catch _ _ anyway); [|done|intros e _; by apply vends_upd].
  eapply ends_bind; [apply vends_lib, (ends_promise_types _ [FedResult (TObject [opt "nodes" (TArray AdminNode)]);
    FedResult (TObject [opt "shards" (TArray AdminShard)]); FedResult AdminCluster])| |done].
  { constructor; [apply ends_adm_get; in_types 9%nat|]. constructor; [apply ends_adm_get; in_types 10%nat|].
    constructor; [apply ends_adm_get; in_types 11%nat|constructor]. }
  intros v (vs & -> & Hvs). inversion_clear Hvs as [|n ? ? ? Hn Hvs']. inversion_clear Hvs' as [|sh ? ? ? Hs Hvs''].
  inversion_clear Hvs'' as [|c ? ? ? Hc Hnil]. inversion_clear Hnil. cbn [InfraView.triple_of].
  eapply (ends_bind _ _ anyway); [|intros _ _|done].
  { eapply fill_cells_keeps; [| |apply (row_list "nodes")|exact Hn].
    - intros v (_ & ? & ?). by split.
    - intros v k d (? & ? & ?) Hd. split; [by apply set_prop_typed|by split]. }
  eapply (ends_bind _ _ anyway); [|intros _ _|done].
  { eapply fill_cells_keeps; [| |apply (row_list "shards")|exact Hs].
    - intros v (? & _ & ?). by split.
    - intros v k d (? & ? & ?) Hd. split; [done|split; [by apply set_prop_typed|done]]. }
  eapply (ends_bind _ _ anyway); [|intros _ _|done].
  { eapply fill_cells_keeps; [| |apply row_data|exact Hc].
    - intros v (? & ? & _). by split.
    - intros v k d (? & ? & ?) Hd. split; [done|split; [done|by apply set_prop_typed]]. }
  vtyped.
Qed.

Lemma infra_load_keeps : keeps InfraView.load /\ keeps InfraView.loadInfra.
Proof.
  assert (Hi : keeps InfraView.loadInfra)
    by (unfold InfraView.loadInfra, InfraView.load_status, InfraView.load_config, InfraView.load_s3; vtyped).
  split; [|exact Hi]. pose proof loadFed_keeps. unfold InfraView.load. repeat first [assumption | vtyped_step].
Qed.

Lemma infra_keeps p : infra_task p -> keeps p.
Proof.
  destruct infra_load_keeps as [Hl Hi]. pose proof loadFed_keeps.
  destruct 1; unfold InfraView.mounted, InfraView.createCell, InfraView.probe, InfraView.attachNode,
    InfraView.createCluster, InfraView.syncCluster, InfraView.removeNode, InfraView.confirm, InfraView.saveNode,
    InfraView.testS3, InfraView.saveStorage, InfraView.selectNode, InfraView.openAddNode, InfraView.note_restart;
    repeat first [assumption | vtyped_step].
Qed.

Lemma header_keeps p : header_task p -> keeps p.
Proof.
  destruct 1; unfold AppHeader.refreshAll, AppHeader.refresh_tasks; vtyped.
Qed.
Lemma switcher_keeps p : switcher_task p -> keeps p.
Proof. destruct 1; unfold CellSwitcher.select; vtyped. Qed.
Lemma sidebar_keeps p : sidebar_task p -> keeps p.
Proof. destruct 1; unfold AppSidebar.pick_theme; vtyped. Qed.
Lemma docs_keeps p : docs_task p -> keeps p.
Proof. destruct 1. Qed.
End tasks.

(** ** Pages *)

#[export] Instance routed_typed (r : routed) : TypedView (routed_state r) :=
  match r with
  | ROverview => overview_typed | RInfra => infra_typed | RQueues => queues_typed
  | RGroups => groups_typed | RPublish => publish_typed | REnqueue => enqueue_typed
  | RFlows => flows_typed | RSchedules => schedules_typed | RDlq => dlq_typed
  | RHttp => http_typed | RDocs => docs_typed | RSettings => settings_typed
  end.

#[export] Instance place_typed (k : place) : TypedView (place_state k) :=
  match k with
  | PlSetup => setup_typed
  | PlGate => gate_typed
  | PlReveal => reveal_typed
  | PlHeader => header_typed
  | PlSidebar => sidebar_typed
  | PlSwitcher => switcher_typed
  | PlView r => routed_typed r
  end.

Section pages.
Context `{Platform}.

Lemma typed_infra_of p (v : InfraView.state) : typed_panel p -> infra_typed v -> typed_infra p v.
Proof. intros (_ & Hcells & Hmem & _) (Hn & Hs & Hc). by constructor. Qed.

Lemma typed_routed_renders r p v : typed_panel p -> view_typed v -> is_ok (routed_render r p v).
Proof.
  intros Hp Hv. pose proof Hp as (Hcat & _ & _ & Hcl). destruct r.
  - exact (overview_render p v Hcl).
  - exact (infra_render p v (typed_infra_of p v Hp Hv)).
  - exact (queues_render p v Hcat).
  - exact (groups_render p v Hcat Hv).
  - exact (publish_render p v Hcat).
  - exact (enqueue_render p v Hcat).
  - exact (flows_render p v Hcat).
  - destruct Hv as [Hd Hc]. exact (schedules_render p v Hcat Hd Hc).
  - destruct Hv as [Hs Hr]. exact (dlq_render p v Hs Hr).
  - exact (http_render p v Hv).
  - exact (docs_render p v).
  - exact (settings_render p v).
Qed.

Lemma typed_renders k p v : typed_panel p -> view_typed v -> is_ok (place_render k p v).
Proof.
  intros Hp Hv. destruct k as [| | | | | |r]; [apply setup_render|apply gate_render|apply reveal_render|apply header_render
    |apply sidebar_render|apply switcher_render, (proj1 (proj2 Hp))|by apply typed_routed_renders].
Qed.

Lemma routed_keeps r (p : vprog (routed_state r) unit) : tasks p -> ends vtyped typed_reply anyway p.
Proof.
  destruct r; [apply overview_keeps|apply infra_keeps|apply queues_keeps|apply groups_keeps|apply publish_keeps
    |apply enqueue_keeps|apply flows_keeps|apply schedules_keeps|apply dlq_keeps|apply http_keeps|apply docs_keeps
    |apply settings_keeps].
Qed.

Lemma place_keeps k (p : vprog (place_state k) unit) : tasks p -> ends vtyped typed_reply anyway p.
Proof.
  destruct k as [| | | | | |r]; [apply setup_keeps|apply gate_keeps|apply reveal_keeps|apply header_keeps
    |apply sidebar_keeps|apply switcher_keeps|apply routed_keeps].
Qed.

Lemma guarded_typed k (v v' : place_state k) : guarded v' = guarded v -> view_typed v -> view_typed v'.
Proof.
  destruct k as [| | | | | |[]]; try done; intros [=]; unfold view_typed; cbn;
    unfold infra_typed, groups_typed, schedules_typed, dlq_typed, http_typed;
    repeat match goal with E : _ = _ |- _ => rewrite E; clear E end; done.
Qed.

Lemma setup_is_typed k p path : view_typed (place_setup k p path).
Proof. by destruct k as [| | | | | |[]]. Qed.

Lemma page_task_keeps on p :
  page_task on p -> ends (vinv typed_panel (fun w => forall sl, view_typed (w sl))) typed_reply anyway p.
Proof.
  apply (page_task_ends typed_reply on typed_panel (fun k => @view_typed _ (place_typed k))).
  - intros k q _. apply place_keeps.
  - apply guarded_typed.
  - apply setup_is_typed.
  - intros q [<-|[<-|[<-|[]]]]; [split; [apply typed_initAuth|done]|apply typed_pollHealth|apply typed_pollCluster].
  - apply typed_setApiBase.
  - intros dark. apply typed_off. intros q. unfold system_theme_changed. by case_decide.
  - intros t. by apply typed_off.
Qed.

Lemma init_typed b : typed_panel (init_panel b).
Proof. unfold init_panel. destruct (loadSavedToken _ b) as [t b']. split_and!; try done. by left. Qed.
End pages.

(** C6: Type soundness.  If every successful answer to a GET request has the type
    the panel's [apiGet] call declares for it (failures, refusals and any answer
    to other requests are unrestricted), then in every session, whatever the user
    does, however handlers, timers and replies interleave and wherever the user
    navigates, no template throws: the root, the shell, and those of every
    component instance, mounted or still waiting for a reply.  The computed table
    of nodes of every instance of the infrastructure view has its declared type. *)
Theorem typed_pages_render `{Platform} b u :
  session_of typed_reply b u ->
  is_ok (App (ui_panel u)) /\ is_ok (AppShell (ui_panel u)) /\
  (forall sl, is_ok (place_render (fst sl) (ui_panel u) (ui_states u sl))) /\
  forall n, exists rows, nodeRows (ui_panel u) (ui_states u (PlView RInfra, n)) = Ok rows /\ has_type (TArray NodeRow) rows = true.
Proof.
  intros Ha%session_answering.
  eapply (answering_inv (vinv typed_panel (fun w : instances => forall sl, view_typed (w sl)))) in Ha as [[Hp Hw] _];
    [|apply page_task_keeps|].
  - split_and!; [apply app_render|apply shell_render| |].
    + intros sl. apply typed_renders; [exact Hp|apply Hw].
    + intros n. destruct (nodeRows_ok _ _ (typed_infra_of _ _ Hp (Hw (PlView RInfra, n)))) as (rows & Hr & Hrows).
      exists (VArr rows). split; [exact Hr|]. apply forallb_forall. intros row Hin%list_elem_of_In.
      rewrite Forall_forall in Hrows. by apply (Hrows row Hin).
  - split; [|constructor]. split; [apply init_typed|]. intros sl. apply setup_is_typed.
Qed.

(** External authentication starts the application, the router shows the overview,
    and the cluster's status (the sixth outstanding request) arrives with one node. *)
Definition demo_cluster : reply := ok_reply (jsq "{'node_count':1,'nodes':[{'name':'n1','healthy':true}]}").
Definition demo_polled : ui :=
  demo_reply 5 demo_cluster (@rerender demo_platform (navigate (js "/") demo_started)).

Lemma demo_polled_session : session_of (H:=demo_platform) typed_reply demo_external demo_polled.
Proof.
  apply demo_reply_session; [|apply (typed_reply_check (outstanding _ 5 0)); by vm_compute].
  eapply session_step; [|apply ui_navigate].
  apply demo_reply_session; [apply demo_reply_session; [exact (@session_main demo_platform typed_reply demo_external)|]|];
    apply (typed_reply_check (outstanding _ 0 0)); by vm_compute.
Qed.

Lemma typed_pages_render_witness :
  let sl : slot := (PlView ROverview, 3%nat) in
  cluster (ses (ui_panel demo_polled)) <> VNull /\ sl ∈ ui_live demo_polled /\
  is_ok (@place_render demo_platform (fst sl) (ui_panel demo_polled) (ui_states demo_polled sl)).
Proof.
  intros sl. split; [by vm_compute|]. split; [by vm_compute; repeat constructor|].
  exact (proj1 (proj2 (proj2 (@typed_pages_render demo_platform demo_external demo_polled demo_polled_session))) sl).
Defined.
