(* ===== verification/Races.v ===== *)
(** * What is shown and what an action addresses

    Views that list something and act on the listed things keep the list and what
    it is a list of in several refs, while the replies to their requests arrive in
    any order.

    The view of dead letters deletes a message by its topic, partition and offset.
    The topic is the one of the table ([topic]), not the one selected above it,
    and it is stored together with the rows of the same reply, so the order of
    replies does not matter ([dead_letters_addressed]).  [lists_own] is the contract
    with the broker: the listing of a topic names it and holds messages of that
    topic only ([dead t m]).  The view of groups does not store them together, and
    there the order does matter ([members_race]); so it does at the gate, which can
    be submitted twice ([gate_race]). *)

From stdpp Require Import base list gmap strings.
From Stdlib Require Import NArith ZArith Lia String SpecFloat.
From S2P Require Import Prelude JsString JsNum JsVal Json Prog State Demo Storage Api Payload Catalog Session View Net Keeps.
From S2P Require Import GroupsView DlqView Components Offered Page PageProps TypedPages.
Local Open Scope js_scope.

Section contract.
Context (dead : jsval -> jsval -> Prop).

(** The messages of a listing belong to the topic it names. *)
Definition own_listing (data : jsval) : Prop :=
  forall rows m, list_field data (js "messages") = Ok rows -> m ∈ v_for_items rows ->
    exists t, get data (js "dlq_topic") = Ok t /\ truthy t = true /\ dead t m.

Definition lists_own (q : ask) (x : reply) : Prop :=
  match q, x with
  | AskFetch rq, Responded r =>
      forall data, rq_method rq = js "GET" -> includes (js "/v1/dlq?") (rq_url rq) = true ->
        response_result r = Ok data -> own_listing data
  | _, _ => True
  end.

(** The rows shown belong to the topic shown. *)
Definition coherent (v : DlqView.state) : Prop :=
  forall m, m ∈ v_for_items (s_rows v) -> truthy (s_topic v) = true /\ dead (s_topic v) m.

Lemma coherent_empty v : s_rows v = VArr [] -> coherent v.
Proof. intros Hv m. rewrite Hv. by intros ?%elem_of_nil. Qed.

Lemma coherent_same v v' : s_rows v' = s_rows v -> s_topic v' = s_topic v -> coherent v -> coherent v'.
Proof. intros Hr Ht Hv m. rewrite Hr, Ht. apply Hv. Qed.
End contract.

(** Assignments that leave the table alone. *)
Ltac off_table := intros ? ?; eapply coherent_same; [| |eassumption]; reflexivity.

Section handlers.
Context `{Platform} (dead : jsval -> jsval -> Prop).
Notation K := (lists_own dead).
Notation I := (fun _ : panel => True).
Notation J := (vinv (fun _ : panel => True) (coherent dead)).

(** What a listing returns. *)
Lemma ends_listing qs : ends I K (fun r => match r with Ok data => own_listing dead data | Exn _ => True end)
  (pub_get (js "/v1/dlq?" ++ qs)).
Proof.
  apply ends_read_bind. intros p _. unfold apiGet, request.
  eapply (ends_bind _ _ (fun r => match r with Ok rq => rq_method rq = js "GET" /\ includes (js "/v1/dlq?") (rq_url rq) = true | Exn _ => True end));
    [| |done].
  - apply ends_call. intros q _. split; [done|]. unfold on_br, szoom. rewrite build_request_eq. cbn.
    destruct (header_ok (br q)); [|done]. split; [done|]. cbn. unfold publicUrl. apply includes_app.
  - intros rq [Hm Hu] s _. split; [done|]. intros [r|e|b] Hx; cbn; try done.
    destruct (response_result r) as [data|e] eqn:E; cbn; [|done]. by apply (Hx data).
Qed.

(** Storing a listing: between the two assignments the table is not coherent, after
    them it is. *)
Lemma store_listing data dlqTopic rows s :
  own_listing dead data -> list_field data (js "messages") = Ok rows ->
  settles J K (fun _ => J)
    (_ ← upd (set_s_rows rows); t ← pure ((Ok data) @. "dlq_topic" .|| Ok dlqTopic); upd (set_s_topic t)) s.
Proof.
  intros Hown Hrows.
  assert (Hg : get data (js "dlq_topic") = Ok (own_get data (js "dlq_topic"))).
  { unfold list_field, e_or in Hrows. unfold get in Hrows |- *. by destruct (is_nullish data). }
  assert (Ht : (Ok data) @. "dlq_topic" .|| Ok dlqTopic =
    Ok (if truthy (own_get data (js "dlq_topic")) then own_get data (js "dlq_topic") else dlqTopic)).
  { unfold e_or, e_get. cbn [mbind result_bind]. rewrite Hg. cbn. by destruct (truthy _). }
  rewrite Ht. split; [done|]. intros m Hm. destruct (Hown rows m Hrows Hm) as (t & Hg' & Htr & Hd).
  rewrite Hg in Hg'. injection Hg' as <-. cbn. by rewrite Htr.
Qed.

Lemma clear_listing s : settles J K (fun _ => J) (_ ← upd (set_s_rows (VArr [])); upd (set_s_topic (VStr []))) s.
Proof. split; [done|]. by apply coherent_empty. Qed.

Lemma upd_keeps f : (forall v, s_rows (f v) = s_rows v /\ s_topic (f v) = s_topic v) -> ends J K anyway (upd f).
Proof. intros Hf. apply vends_upd. intros v. by apply coherent_same; apply Hf. Qed.

Lemma lib_keeps {A : Type} (p : prog panel A) : ends J K anyway (lib p).
Proof. by apply vends_lib, ends_trivial. Qed.

Lemma eval_keeps {A : Type} (e : DlqView.state -> E A) : ends J K anyway (eval e).
Proof. intros t Ht. split; [done|]. cbn. by destruct (e (snd t)). Qed.

Lemma local_keeps {A : Type} (g : DlqView.state -> A) : ends J K anyway (local g).
Proof. intros t Ht. by split. Qed.

Lemma pure_keeps {A : Type} (r : E A) : ends J K anyway (pure r : vprog DlqView.state A).
Proof. by destruct r. Qed.

(** A handler is followed step by step; the steps that store rows are left. *)
Ltac keep_step :=
  lazymatch goal with
  | |- keeps _ _ (prog_catch _ _) => apply keeps_catch; [|intros ?]
  | |- keeps _ _ (_ ≫= _) => apply keeps_bind; [|intros ?]
  | |- keeps _ _ (spawn _) => apply keeps_spawn
  | |- keeps _ _ (if ?b then _ else _) => destruct b
  | |- keeps _ _ (upd _) => apply ends_keeps, upd_keeps; intros ?; split; reflexivity
  | |- keeps _ _ (lib _) => apply ends_keeps, lib_keeps
  | |- keeps _ _ (eval _) => apply ends_keeps, eval_keeps
  | |- keeps _ _ (local _) => apply ends_keeps, local_keeps
  | |- keeps _ _ (pure _) => apply ends_keeps, pure_keeps
  | |- keeps _ _ (Ret _) => intros ? ?; assumption
  end.

Lemma load_keeps : keeps J K DlqView.load.
Proof.
  unfold DlqView.load. do 3 (apply keeps_bind; [keep_step|intros ?]).
  destruct (negb _); [intros s _; split; [done|by apply coherent_empty]|].
  apply keeps_bind; [keep_step|intros qs]. apply keeps_catch; [|intros; keep_step].
  eapply keeps_after; [apply vends_lib, ends_listing|]. intros data Hdata s Hs.
  destruct (list_field data (js "messages")) as [rows|e] eqn:Er; [|done]. by apply store_listing.
Qed.

Lemma loadSources_keeps : keeps J K DlqView.loadSources.
Proof.
  pose proof load_keeps. unfold DlqView.loadSources.
  repeat first [assumption | by intros s _; apply clear_listing | keep_step].
Qed.

Lemma dlq_task_keeps p : dlq_task p -> keeps J K p.
Proof.
  pose proof load_keeps. pose proof loadSources_keeps.
  destruct 1; unfold DlqView.mounted, DlqView.remove, DlqView.removeAll, DlqView.copyBody, DlqView.view;
    repeat first [assumption | keep_step].
Qed.
End handlers.

(** ** Sessions *)

(** What is asked of the state of a component. *)
Definition place_coherent (dead : jsval -> jsval -> Prop) (k : place) : place_state k -> Prop :=
  match k with
  | PlView RDlq => coherent dead
  | _ => fun _ => True
  end.

Section pages.
Context `{Platform} (dead : jsval -> jsval -> Prop).
Notation K := (lists_own dead).
Notation all_coherent := (fun w : instances => forall sl, place_coherent dead (fst sl) (w sl)).
Notation J := (vinv (fun _ : panel => True) all_coherent).

Lemma place_keeps_coherent k (q : vprog (place_state k) unit) :
  tasks q -> keeps (vinv (fun _ => True) (place_coherent dead k)) K q.
Proof.
  destruct k as [| | | | | |[]]; intros Hq; try (by apply ends_keeps, ends_trivial); by apply dlq_task_keeps.
Qed.

Lemma guarded_coherent k (v v' : place_state k) : guarded v' = guarded v -> place_coherent dead k v -> place_coherent dead k v'.
Proof. destruct k as [| | | | | |[]]; try done. intros [= _ Hr Ht]. by apply coherent_same. Qed.

Lemma setup_coherent k p path : place_coherent dead k (place_setup k p path).
Proof. destruct k as [| | | | | |[]]; try done. by apply coherent_empty. Qed.

(** A handler of one instance leaves the others alone. *)
Lemma at_slot_keeps sl (q : vprog (place_state (fst sl)) unit) : tasks q -> keeps J K (at_slot sl q).
Proof.
  intros Hq. eapply (keeps_zoom (vinv (fun _ => True) (place_coherent dead (fst sl))) J
    (fun t => forall sl', sl <> sl' -> place_coherent dead (fst sl') (snd t sl'))); [| | |by apply place_keeps_coherent].
  - intros [p w]. split.
    + intros [_ Hw]. split; [split; [done|apply Hw]|]. intros sl' _. apply Hw.
    + intros [[_ Hs] Ho]. split; [done|]. intros sl'. destruct (decide (sl = sl')) as [<-|Hn]; [exact Hs|by apply Ho].
  - intros [p v] [p' w]. cbn. by rewrite put_same.
  - intros [p v] [p' w] Hf sl' Hn. cbn. rewrite put_other by done. by apply Hf.
Qed.

Lemma page_task_coherent on p : page_task on p -> keeps J K p.
Proof.
  destruct 1 as [p [sl q _ Hp|f Hf|sl q path| | |dark|t]| |base]; [by apply at_slot_keeps| | |by apply ends_keeps, vends_lib, ends_trivial..| | |
    by apply ends_keeps, vends_lib, ends_trivial|by apply ends_keeps, vends_lib, ends_trivial].
  - apply ends_keeps, vends_upd. intros w Hw sl. eapply guarded_coherent; [apply Hf|apply Hw].
  - apply ends_keeps, vends_upd. intros w Hw sl'.
    destruct (decide (sl = sl')) as [<-|Hn]; [rewrite put_same; apply setup_coherent|by rewrite put_other].
  - by apply ends_keeps, vends_upd_page.
  - by apply ends_keeps, vends_upd_page.
Qed.

Lemma session_coherent b u sl : session_of K b u -> place_coherent dead (fst sl) (ui_states u sl).
Proof.
  intros Ha%session_answering. eapply (answering_settled J) in Ha as [[_ Hw] _]; [apply Hw|apply page_task_coherent|].
  split; [|constructor]. split; [done|]. intros sl'. apply setup_coherent.
Qed.

(** The request [remove] starts with. *)
Lemma remove_asks m qs (p : panel) (v : DlqView.state) :
  truthy (s_topic v) = true -> header_ok (br p) = true -> remove_query (s_topic v) m = Ok qs ->
  asks (snd (advance (DlqView.remove m) (p, v))) =
    [AskFetch (mk_request (js "DELETE") (publicUrl (js "/v1/dlq?" ++ qs) (br p)) None (br p))].
Proof.
  intros Ht Hh Hq.
  assert (Hd : delete_topic v = Ok (s_topic v)) by (unfold delete_topic, e_or; cbn [mbind result_bind]; rewrite Ht; cbn; by rewrite Ht).
  unfold DlqView.remove. cbn -[js delete_topic remove_query publicUrl build_request]. rewrite Hd.
  cbn -[js remove_query publicUrl build_request]. rewrite Ht. cbn -[js remove_query publicUrl build_request]. rewrite Hq.
  cbn -[js publicUrl build_request on_br]. unfold on_br, szoom. rewrite build_request_eq, Hh. done.
Qed.
End pages.

(** C7: Dead letters are deleted where they were listed.  If the broker's listings
    name their topic and hold messages of that topic, then in every session,
    whatever the user selects and loads and in whatever order the replies arrive,
    every message in the table of every instance of the view belongs to the topic
    of the table, and deleting it asks the broker to delete it from that topic. *)
Theorem dead_letters_addressed `{Platform} dead b u n m :
  session_of (lists_own dead) b u ->
  let v : DlqView.state := ui_states u (PlView RDlq, n) in
  m ∈ v_for_items (s_rows v) ->
  dead (s_topic v) m /\
  forall qs, header_ok (br (ui_panel u)) = true -> remove_query (s_topic v) m = Ok qs ->
    asks (snd (advance (DlqView.remove m) (ui_panel u, v))) =
      [AskFetch (mk_request (js "DELETE") (publicUrl (js "/v1/dlq?" ++ qs) (br (ui_panel u))) None (br (ui_panel u)))].
Proof.
  intros Hu v Hm. destruct (session_coherent dead b u (PlView RDlq, n) Hu m Hm) as [Ht Hd].
  split; [exact Hd|]. intros qs. by apply remove_asks.
Qed.

(** A broker whose messages carry their topic, and the contract as a check of a reply. *)
Definition marked (t m : jsval) : Prop := strict_eq t (own_get m (js "topic")) = true.

Definition marked_listing (data : jsval) : bool :=
  match list_field data (js "messages"), get data (js "dlq_topic") with
  | Ok rows, Ok t => forallb (fun m => truthy t && strict_eq t (own_get m (js "topic"))) (v_for_items rows)
  | _, _ => true
  end.
Definition marked_reply (q : ask) (x : reply) : bool :=
  match q, x with
  | AskFetch rq, Responded r =>
      negb (includes (js "/v1/dlq?") (rq_url rq)) ||
      match response_result r with Ok data => marked_listing data | Exn _ => true end
  | _, _ => true
  end.

Lemma marked_listing_ok data : marked_listing data = true -> own_listing marked data.
Proof.
  unfold marked_listing. intros Hb rows m Hr Hm. rewrite Hr in Hb.
  destruct (get data (js "dlq_topic")) as [t|e] eqn:Et.
  - exists t. rewrite forallb_forall in Hb. specialize (Hb m ltac:(by apply list_elem_of_In)).
    apply andb_true_iff in Hb as [Ht Hs]. by split_and!.
  - unfold list_field, e_or, get in *. by destruct (is_nullish data).
Qed.

Lemma marked_reply_ok o x : match o with Some q => marked_reply q x | None => false end = true ->
  match o with Some q => lists_own marked q x | None => False end.
Proof.
  destruct o as [[rq| | |]|], x as [rs| |]; try done. cbn -[includes]. intros Hb data _ Hu Hr.
  rewrite Hu, Hr in Hb. by apply marked_listing_ok.
Qed.

(** The view lists two topics and loads the first; the user selects the second; the
    listing of the second arrives before that of the first. *)
Definition demo_sources : reply := ok_reply (jsq "[{'dlq_topic':'a.__dlq'},{'dlq_topic':'b.__dlq'}]").
Definition demo_letter (t : string) : jsval :=
  VObj ["message_id" ~> VStr (js "m1"); "topic" ~> VStr (js t); "partition" ~> VNum (num_of_Z 0); "offset" ~> VNum (num_of_Z 3)].
Definition demo_listing (t : string) : reply :=
  ok_reply (default [] (stringify (VObj ["dlq_topic" ~> VStr (js t); "messages" ~> VArr [demo_letter t]]))).
Definition demo_dlq : slot := (PlView RDlq, 3%nat).
Definition demo_letters : ui :=
  demo_reply 6 (demo_listing "a.__dlq") (demo_reply 7 (demo_listing "b.__dlq")
    (demo_event demo_dlq 1 VUndef (demo_event demo_dlq 0 (VStr (js "b.__dlq"))
      (demo_reply 6 demo_sources (@rerender demo_platform (navigate (js "/dlq") demo_started)))))).

Lemma demo_letters_session : session_of (H:=demo_platform) (lists_own marked) demo_external demo_letters.
Proof.
  do 2 (apply demo_reply_session; [|apply (marked_reply_ok (outstanding _ _ 0)); by vm_compute]).
  do 2 (apply demo_event_session; [|by vm_compute]).
  apply demo_reply_session; [|apply (marked_reply_ok (outstanding _ 6 0)); by vm_compute].
  eapply session_step; [|apply ui_navigate].
  apply demo_reply_session; [apply demo_reply_session; [exact (@session_main demo_platform (lists_own marked) demo_external)|]|];
    apply (marked_reply_ok (outstanding _ 0 0)); by vm_compute.
Qed.

Lemma dead_letters_witness :
  let v : DlqView.state := ui_states demo_letters demo_dlq in
  s_sourceId v = VStr (js "b.__dlq") /\ demo_letter "a.__dlq" ∈ v_for_items (s_rows v) /\
  marked (s_topic v) (demo_letter "a.__dlq") /\
  exists rq, asks (snd (advance (@DlqView.remove demo_platform (demo_letter "a.__dlq")) (ui_panel demo_letters, v))) = [AskFetch rq] /\
    rq_method rq = js "DELETE" /\ rq_url rq = js "http://localhost:8080/v1/dlq?dlq_topic=a.__dlq&partition=0&offset=3".
Proof.
  intros v. split; [by vm_compute|].
  assert (Hm : demo_letter "a.__dlq" ∈ v_for_items (s_rows v)) by (vm_compute; by left).
  destruct (@dead_letters_addressed demo_platform marked demo_external demo_letters 3 (demo_letter "a.__dlq") demo_letters_session Hm)
    as [Hd Hq].
  split; [exact Hm|]. split; [exact Hd|]. eexists. split; [apply (Hq (js "dlq_topic=a.__dlq&partition=0&offset=3")); by vm_compute|].
  split; by vm_compute.
Defined.

(** ** The members of a group

    The view of groups keeps the selected group and the members on the screen in two
    refs that are not stored together.  [members_own] is the contract with the
    broker: the listing of a group holds its own members. *)

(** What follows the first occurrence of [p]. *)
Fixpoint after (p s : jstring) : option jstring :=
  if starts_with p s then Some (drop (List.length p) s)
  else match s with [] => None | _ :: s' => after p s' end.

Definition own_members (g : jstring) (data : jsval) : bool :=
  match list_field data (js "members") with
  | Ok ms => forallb (fun m => strict_eq (own_get m (js "group")) (VStr g)) (v_for_items ms)
  | Exn _ => true
  end.
Definition members_own (q : ask) (x : reply) : Prop :=
  match q, x with
  | AskFetch rq, Responded r =>
      match after (js "/v1/groups/") (rq_url rq), response_result r with
      | Some g, Ok data => rq_method rq = js "GET" -> own_members g data = true
      | _, _ => True
      end
  | _, _ => True
  end.

Definition demo_member (g : string) : jsval := VObj ["member_id" ~> VStr (js "m1"); "group" ~> VStr (js g)].
Definition demo_listed (g : string) : reply := ok_reply (default [] (stringify (VObj ["members" ~> VArr [demo_member g]]))).
Definition demo_groups : slot := (PlView RGroups, 3%nat).

(** The list of groups arrives; the members of [a] are opened, then, back on the
    list, those of [b]; the members of [b] arrive before those of [a]. *)
Definition demo_opened : ui :=
  demo_reply 6 (demo_listed "a") (demo_reply 7 (demo_listed "b")
    (demo_event demo_groups 5 VUndef (demo_event demo_groups 0 (VStr (js "list")) (demo_event demo_groups 3 VUndef
      (demo_reply 2 (ok_reply (jsq "{'groups':[{'group_id':'a'},{'group_id':'b'}]}"))
        (@rerender demo_platform (navigate (js "/groups") demo_started))))))).

(** The user then deletes the member on the screen. *)
Definition demo_removed : ui := demo_event demo_groups 15 VUndef demo_opened.

(** The contract as a check of a reply. *)
Definition members_ownb (q : ask) (x : reply) : bool :=
  match q, x with
  | AskFetch rq, Responded r =>
      match after (js "/v1/groups/") (rq_url rq), response_result r with
      | Some g, Ok data => own_members g data
      | _, _ => true
      end
  | _, _ => true
  end.

Lemma members_reply o x : match o with Some q => members_ownb q x | None => false end = true ->
  match o with Some q => members_own q x | None => False end.
Proof.
  destruct o as [[rq| | |]|], x as [rs| |]; try done. unfold members_ownb, members_own.
  by destruct (after _ _), (response_result rs).
Qed.

Lemma demo_opened_session : session_of (H:=demo_platform) members_own demo_external demo_opened.
Proof.
  do 2 (apply demo_reply_session; [|apply (members_reply (outstanding _ _ 0)); by vm_compute]).
  do 3 (apply demo_event_session; [|by vm_compute]).
  apply demo_reply_session; [|apply (members_reply (outstanding _ 2 0)); by vm_compute].
  eapply session_step; [|apply ui_navigate].
  apply demo_reply_session; [apply demo_reply_session; [exact (@session_main demo_platform members_own demo_external)|]|];
    apply (members_reply (outstanding _ 0 0)); by vm_compute.
Qed.

(** A request for the members of a group. *)
Definition listing (q : ask) : bool :=
  match q with AskFetch rq => match after (js "/v1/groups/") (rq_url rq) with Some _ => true | None => false end | _ => false end.


(** ** The gate

    [accepts_only t]: the broker lets a request for the queues through exactly when
    it carries the token [t]. *)

Definition carries (t : jstring) (rq : http_request) : bool :=
  bool_decide ((js "Authorization", js "Bearer " ++ t) ∈ rq_headers rq).
Definition accepts_only (t : jstring) (q : ask) (x : reply) : bool :=
  match q, x with
  | AskFetch rq, Responded r => if ends_in (js "/v1/queues") (rq_url rq) then Bool.eqb (rs_ok r) (carries t rq) else true
  | _, _ => true
  end.

(** Two tokens are submitted with the enter key, one after the other; the answer to
    the second arrives first and lets the user in. *)
Definition demo_configured : reply := ok_reply (jsq "{'mode':'control_plane','configured':true}").
Definition demo_unauthorized : reply := Responded {| rs_status := 401; rs_statusText := js "Unauthorized"; rs_text := Some (js "{}") |}.
Definition demo_at_gate : ui := demo_reply 0 demo_configured (demo_reply 0 demo_configured (@main demo_platform demo_browser)).
Definition demo_submit (t : string) (u : ui) : ui :=
  let sl : slot := (PlGate, 0%nat) in demo_event sl 1 VUndef (demo_event sl 0 (VStr (js t)) u).
Definition demo_let_in : ui :=
  demo_reply 1 (ok_reply (jsq "{'queues':[]}")) (demo_submit "sk_local_2" (demo_submit "sk_local_1" demo_at_gate)).
Definition demo_late : ui := demo_reply 0 demo_unauthorized demo_let_in.

Lemma accepts_reply t o x : match o with Some q => accepts_only t q x | None => false end = true ->
  match o with Some q => accepts_only t q x = true | None => False end.
Proof. by destruct o. Qed.

Lemma demo_late_session : session_of (H:=demo_platform) (fun q x => accepts_only (js "sk_local_2") q x = true) demo_browser demo_late.
Proof.
  do 2 (apply demo_reply_session; [|apply (accepts_reply _ (outstanding _ _ 0)); by vm_compute]).
  do 4 (apply demo_event_session; [|by vm_compute]).
  do 2 (apply demo_reply_session; [|apply (accepts_reply _ (outstanding _ 0 0)); by vm_compute]).
  exact (@session_main demo_platform _ demo_browser).
Qed.

(** C39: A race at the gate.  The enter key submits the form even while a submission
    is under way.  With a broker that accepts exactly the second of two tokens
    submitted in a row, the answer to the second can let the user in and the late
    answer to the first then forgets the accepted token: the session shows the
    application while neither it nor the store has a token, and the next request
    carries none. *)
Theorem gate_race :
  session_of (H:=demo_platform) (fun q x => accepts_only (js "sk_local_2") q x = true) demo_browser demo_late /\
  phase (ses (ui_panel demo_let_in)) = PApp /\ token (ses (ui_panel demo_let_in)) = VStr (js "sk_local_2") /\
  phase (ses (ui_panel demo_late)) = PApp /\ token (ses (ui_panel demo_late)) = VStr [] /\
  store_get (tokenStorageKey (loc_origin demo_browser)) (br (ui_panel demo_late)) = None /\
  fst (@authHeaders demo_platform (br (ui_panel demo_late))) = [].
Proof. split; [exact demo_late_session|]. split_and!; by vm_compute. Qed.
