(* ===== verification/TokenSync.v ===== *)
(** * One token: the session's, the store's and the one that is sent

    The panel keeps its API token twice: in the session ([session.token], which the
    gate and the decision table of [initAuth] look at) and in the browser's token
    store, from which every request reads it.  [synced]: both are the same.  It
    holds in every session, if the broker answers passwords with well-formed tokens
    ([issues_tokens]) and no token of an earlier version is left in
    [localStorage]. *)

From stdpp Require Import base list gmap strings.
From Stdlib Require Import NArith ZArith Lia String SpecFloat.
From S2P Require Import Prelude JsString JsNum JsVal Json Prog State Demo Storage StorageProps TokenVault Api Payload Catalog Session View Net Keeps.
From S2P Require Import GateView SetupView RevealView SettingsView DocsView EnqueueView QueuesView FlowsView.
From S2P Require Import PublishView GroupsView HttpView SchedulesView DlqView OverviewView InfraView.
From S2P Require Import AppHeader CellSwitcher AppSidebar Components Page PageProps.
Local Open Scope js_scope.

(** The store holds [t] for [base], and nothing of earlier versions for it. *)
Definition holds (b : browser) (base t : jstring) : Prop :=
  exists v, represents b v /\ left_behind v base = None /\ heirloom v = None /\ default [] (held v base) = t.

Definition synced (p : panel) : Prop :=
  is_http (br p) = true /\ apiBase (ses p) = loc_origin (br p) /\
  exists t, token (ses p) = VStr t /\ holds (br p) (loc_origin (br p)) t.

(** A token as the broker issues it: without blanks around it and without [Bearer]. *)
Definition plain_token (t : jstring) : Prop := normalize_str t = t.

(** A successful answer to a password has a token. *)
Definition issues (url : jstring) : bool :=
  ends_in (js "/v1/local-auth/setup") url || ends_in (js "/v1/local-auth/regenerate") url.
Definition issues_tokens (q : ask) (x : reply) : Prop :=
  match q, x with
  | AskFetch rq, Responded r =>
      forall data, issues (rq_url rq) = true -> response_result r = Ok data ->
        exists t, get data (js "token") = Ok (VStr t) /\ plain_token t
  | _, _ => True
  end.

(** ** The store *)

Lemma holds_load b base t : holds b base t -> loadSavedToken base b = (t, b).
Proof.
  intros (v & Hr & Hl & Hh & <-). rewrite loadSavedToken_eq. unfold legacy_token.
  rewrite (rep_held _ _ Hr), (rep_left _ _ Hr), (rep_heir _ _ Hr), Hl, Hh. by destruct (held v base).
Qed.

Section store.
Context `{Platform}.

(** Saving goes to the vault; what is not about tokens leaves it as it is. *)
Lemma holds_save b base t t' : plain_token t' -> holds b base t ->
  fst (saveToken base (VStr t') b) = Ok tt /\ holds (snd (saveToken base (VStr t') b)) base t'.
Proof.
  intros Hp (v & Hr & Hl & Hh & _). destruct (op_refines (OpSave base (VStr t')) b v Hr) as [Ho Hr'].
  cbn in Ho, Hr'. rewrite normalizeToken_str, Hp in Ho, Hr'. destruct (saveToken base (VStr t') b) as [r b']. cbn in *.
  split; [congruence|]. exists (vault_save base t' v). split_and!; [done..|]. cbn. rewrite put_eq. by destruct t'.
Qed.

Lemma holds_op op b base t : (forall v, snd (vault_op op v) = v) -> holds b base t -> holds (snd (browser_op op b)) base t.
Proof.
  intros Hop (v & Hr & Hv). exists v. split; [|done]. rewrite <- (Hop v). by apply op_refines.
Qed.

Lemma holds_html b f base t :
  session_storage (f b) = session_storage b -> local_storage (f b) = local_storage b -> holds b base t -> holds (f b) base t.
Proof. intros Hs Hl (v & Hr & Hv). exists v. split; [|done]. by apply represents_html. Qed.
End store.

Lemma saveToken_location base t b :
  loc_origin (snd (saveToken base t b)) = loc_origin b /\ is_http (snd (saveToken base t b)) = is_http b.
Proof.
  unfold saveToken, mbind, sync_mbind, spure, store_set, store_remove.
  destruct (normalizeToken t) as [[|]|]; cbn; [by destruct (session_storage b)..|done].
Qed.

(** ** The library *)

Section lib.
Context `{Platform}.
Notation K := issues_tokens.

(** Anything else than the token, its key and the stores. *)
Lemma synced_frame f : (forall p, token (ses (f p)) = token (ses p) /\ apiBase (ses (f p)) = apiBase (ses p) /\
    loc_origin (br (f p)) = loc_origin (br p) /\ is_http (br (f p)) = is_http (br p) /\
    forall t, holds (br p) (loc_origin (br p)) t -> holds (br (f p)) (loc_origin (br p)) t) ->
  forall p, synced p -> synced (f p).
Proof.
  intros Hf p (Hh & Hb & t & Ht & Hs). destruct (Hf p) as (H1 & H2 & H3 & H4 & H5). unfold synced.
  rewrite H1, H2, H3, H4. eauto 10.
Qed.

Lemma synced_theme m : forall p, synced p -> synced (set_br (applyTheme m (br p)) p).
Proof. apply synced_frame. intros p. split_and!; try done. intros t. by apply (holds_op (OpTheme m)). Qed.

Lemma synced_setTheme m p : synced p -> synced (setTheme m p).
Proof. intros Hp. exact (synced_theme m (on_ses (set_themeMode m) p) Hp). Qed.

Lemma synced_setCellId id : forall p, synced p -> synced (setCellId id p).
Proof. apply synced_frame. intros p. split_and!; try done. intros t. by apply (holds_op (OpCell id)). Qed.

Lemma synced_authHeaders p : synced p -> snd (authHeaders (br p)) = br p.
Proof.
  intros (Hh & _ & t & _ & Hs). unfold authHeaders. rewrite api_base_http by done. rewrite (holds_load _ _ _ Hs).
  by destruct (normalize_str t).
Qed.

Lemma synced_build m url body Q : (forall b, Q (fst (build_request m url body b))) ->
  ends synced K Q (call (on_br (build_request m url body))).
Proof.
  intros HQ. apply ends_call. intros p Hp. unfold on_br, szoom. specialize (HQ (br p)).
  pose proof (synced_authHeaders p Hp) as Ha. unfold build_request in *. destruct (authHeaders (br p)) as [au b'].
  cbn in Ha. subst b'. split; [exact Hp|exact HQ].
Qed.

Lemma synced_fetch rq : ends synced K
  (fun r => match r with Ok resp => K (AskFetch rq) (Responded resp) | Exn _ => True end) (fetch rq).
Proof.
  intros p Hp. split; [|by intros [rs|e|b] Hx]. revert Hp. apply (synced_frame (log_request rq)). intros q. split_and!; try done.
  intros t. by apply (holds_html (br q) (fun b => br (log_request rq (set_br b q)))).
Qed.

Lemma synced_request m url body : ends synced K anyway (request m url body).
Proof.
  unfold request. eapply (ends_bind _ _ anyway); [by apply synced_build|intros rq _|done].
  eapply ends_bind; [eapply ends_anyway, synced_fetch| |done]. intros resp _. by destruct (response_result resp).
Qed.

(** A request for a token returns one. *)
Lemma synced_issue m url body : issues url = true -> ends synced K
  (fun r => match r with Ok data => exists t, get data (js "token") = Ok (VStr t) /\ plain_token t | Exn _ => True end)
  (request m url body).
Proof.
  intros Hu. unfold request.
  eapply (ends_bind _ _ (fun r => match r with Ok rq => rq_url rq = url | Exn _ => True end)); [| |done].
  - apply synced_build. intros b. unfold build_request. destruct (authHeaders b) as [au b']. cbn. by destruct (request_headers au body).
  - intros rq Hq. eapply ends_bind; [apply synced_fetch| |done]. intros resp Hr. cbn in Hr.
    destruct (response_result resp) as [data|] eqn:E; [|done]. apply (Hr data); [by rewrite Hq|done].
Qed.

Lemma synced_setToken t : plain_token t -> ends synced K anyway (call (setToken (VStr t))).
Proof.
  intros Ht. apply ends_call. intros p (Hh & Hb & t0 & Ht0 & Hs). split; [|done].
  unfold setToken, mbind, sync_mbind, smod, sget, on_br, szoom. cbn. rewrite Hb.
  destruct (holds_save (br p) (loc_origin (br p)) t0 t Ht Hs) as [_ Hs'].
  destruct (saveToken_location (loc_origin (br p)) (VStr t) (br p)) as [Ho Hi].
  destruct (saveToken (loc_origin (br p)) (VStr t) (br p)) as [[] b']; cbn in *;
    (split_and!; cbn; [congruence|congruence|rewrite Ho; eauto]).
Qed.

(** A token typed at the gate is trimmed and starts like a token. *)
Lemma gate_token_plain s : trim s = s -> starts_with (js "sk_local_") s = true -> plain_token s.
Proof.
  intros Ht Hs. unfold plain_token, normalize_str. rewrite Ht.
  assert (Hb : strip_bearer s = None); [|by rewrite Hb]. unfold strip_bearer.
  destruct s as [|c s]; [done|]. cbn in Hs. apply andb_true_iff in Hs as [Hc _]. apply N.eqb_eq in Hc as <-. done.
Qed.

Lemma synced_submit raw : ends synced K anyway (call (submitGateToken raw)).
Proof.
  apply ends_call. intros p Hp. split; [|done]. unfold submitGateToken, mbind, sync_mbind, spure.
  unfold e_trim, str_method. cbn. destruct raw as [| | | |s| | |]; try done. cbn.
  pose proof (trim_idemp s) as Ht. destruct (trim s) as [|c r] eqn:E; [done|].
  destruct (starts_with _ _) eqn:Es; [|done]. exact (proj1 (synced_setToken (c :: r) (gate_token_plain _ Ht Es) p Hp)).
Qed.
End lib.

Ltac synced_step :=
  lazymatch goal with
  | |- ends _ _ anyway (request _ _ _) => apply synced_request
  | |- ends _ _ anyway (fetch _) => eapply ends_anyway, synced_fetch
  | |- ends _ _ anyway (call (setToken (VStr []))) => apply synced_setToken; reflexivity
  | |- ends _ _ anyway (call (submitGateToken _)) => apply synced_submit
  | _ => ends_step
  end.
Create HintDb synced discriminated.
Ltac synced_modify := apply ends_modify_any; first [intros ? ?; assumption | intros ? ?; by apply synced_setCellId].
Ltac synced_lib := repeat first [solve [auto with synced] | synced_step | synced_modify].

Section session.
Context `{Platform}.
Notation stays p := (ends synced issues_tokens anyway p).

Lemma synced_pub_get path : stays (pub_get path).
Proof. unfold pub_get, apiGet. synced_lib. Qed.
Lemma synced_pub_delete path : stays (pub_delete path).
Proof. unfold pub_delete, apiDelete. synced_lib. Qed.
Lemma synced_pub_post path d : stays (pub_post path d).
Proof. unfold pub_post, apiPost. synced_lib. Qed.
Lemma synced_pub_put path d : stays (pub_put path d).
Proof. unfold pub_put, apiPut. synced_lib. Qed.
Lemma synced_adm_post path d : stays (adm_post path d).
Proof. unfold adm_post, apiPost. synced_lib. Qed.
Lemma synced_refreshQueues : stays refreshQueues.
Proof. unfold refreshQueues, apiGet. synced_lib. Qed.
Lemma synced_refreshGroups : stays refreshGroups.
Proof. unfold refreshGroups, apiGet. synced_lib. Qed.
Lemma synced_refreshFlows : stays refreshFlows.
Proof. unfold refreshFlows, apiGet. synced_lib. Qed.
Lemma synced_refreshCells : stays refreshCells.
Proof. unfold refreshCells, apiGet. synced_lib. Qed.
Lemma synced_pollHealth : stays pollHealth.
Proof. unfold pollHealth. synced_lib. Qed.
Lemma synced_pollCluster : stays pollCluster.
Proof. unfold pollCluster, apiGet. synced_lib. Qed.
#[local] Hint Resolve synced_refreshQueues synced_refreshGroups synced_refreshFlows synced_refreshCells synced_pollCluster
  synced_pollHealth : synced.
Lemma synced_startApp : stays startApp.
Proof. unfold startApp. synced_lib. Qed.
#[local] Hint Resolve synced_startApp : synced.
Lemma synced_finishReveal : stays finishReveal.
Proof. unfold finishReveal. synced_lib. Qed.
Lemma synced_queryCells kind : stays (queryCells kind).
Proof. unfold queryCells, apiGet. synced_lib. Qed.
Lemma synced_copyText t : stays (copyText t).
Proof. unfold copyText. synced_lib. Qed.
Lemma synced_password path pw : (forall base, issues (base ++ path) = true) -> stays (password_flow path pw).
Proof.
  intros Hp. unfold password_flow, apiPost. apply ends_read_bind. intros p _.
  eapply ends_bind; [apply synced_issue, Hp| |done]. intros data (t & Ht & Hpl). rewrite Ht.
  apply ends_pure_bind; [intros ? [= <-]|done].
  eapply (ends_bind _ _ anyway); [by apply synced_setToken|intros ? _; synced_lib|done].
Qed.
Lemma synced_setup pw : stays (password_flow (js "/v1/local-auth/setup") pw).
Proof. apply synced_password. intros base. unfold issues. by rewrite ends_in_app. Qed.
Lemma synced_regenerate pw : stays (password_flow (js "/v1/local-auth/regenerate") pw).
Proof. apply synced_password. intros base. unfold issues. by rewrite ends_in_app, orb_true_r. Qed.
Lemma synced_initAuth : stays initAuth.
Proof.
  unfold initAuth. apply ends_then; [intros p Hp; exact (synced_theme (themeMode (ses p)) p Hp)|].
  unfold auth_config, enter, check_token, apiGet. synced_lib.
Qed.
#[local] Hint Resolve synced_initAuth : synced.
Lemma synced_setApiBase base : stays (setApiBase base).
Proof.
  unfold setApiBase. apply ends_then.
  { apply synced_frame. intros p. split_and!; try done. intros t. by apply (holds_op (OpApiBase base)). }
  apply ends_then.
  { intros p (Hh & Hb & Ht). split_and!; [done| |done]. cbn. by apply allowlisted_http. }
  apply ends_then; [|synced_lib]. intros p (Hh & Hb & t & Ht & Hs). rewrite Hb, (holds_load _ _ _ Hs). by split_and!; eauto.
Qed.
End session.

#[export] Hint Resolve synced_refreshQueues synced_refreshGroups synced_refreshFlows synced_refreshCells synced_pollCluster
  synced_pollHealth synced_startApp synced_finishReveal synced_copyText synced_setup synced_regenerate synced_initAuth
  synced_queryCells synced_pub_get synced_pub_delete synced_pub_post synced_pub_put synced_adm_post : synced.

(** ** Components *)

Definition vsynced {V : Type} : panel * V -> Prop := vinv synced (fun _ => True).

Ltac vsynced_step :=
  first [ vends_step ltac:(first [solve [auto with synced] | synced_lib])
        | apply vends_upd_page; intros ? ?; first [by apply synced_setCellId | by apply synced_setTheme]
        | apply vends_upd; done ].
Ltac vsynced := unfold vsynced; repeat vsynced_step.

Section tasks.
Context `{Platform}.

Lemma place_synced k (p : vprog (place_state k) unit) : tasks p -> ends vsynced issues_tokens anyway p.
Proof.
  destruct k as [| | | | | |[]]; cbn [tasks]; destruct 1; unfold_handlers; vsynced.
Qed.

Lemma page_task_synced on p : page_task on p ->
  ends (vinv synced (fun w : instances => forall sl : slot, True)) issues_tokens anyway p.
Proof.
  apply (page_task_ends issues_tokens on synced (fun k _ => True)); try done.
  - intros k q _. apply place_synced.
  - intros q [<-|[<-|[<-|[]]]]; [split; [apply synced_initAuth|done]|apply synced_pollHealth|apply synced_pollCluster].
  - apply synced_setApiBase.
  - intros dark q Hq.
    assert (Hd : synced (set_br (set_prefers_dark dark (br q)) q)).
    { revert Hq. apply (synced_frame (fun p => set_br (set_prefers_dark dark (br p)) p)). intros q'. split_and!; try done. intros t. by apply (holds_html _ (set_prefers_dark dark)). }
    unfold system_theme_changed. case_decide; [by apply synced_theme|done].
  - intros t. apply synced_frame. intros q. split_and!; try done. intros t'. by apply (holds_html _ (set_now_ms t)).
Qed.

(** A browser with a session store and without tokens of earlier versions. *)
Definition fresh (b : browser) : Prop :=
  is_http b = true /\ session_storage b <> None /\ legacy_token (loc_origin b) b = None.

Lemma init_synced b : fresh b -> synced (init_panel b).
Proof.
  intros (Hh & Hs & Hl). unfold init_panel.
  assert (Hb : apiBase (init_session b) = loc_origin b) by (cbn; by apply allowlisted_http). rewrite Hb.
  assert (Hv : holds b (loc_origin b) (default [] (truthy_str (store_get (tokenStorageKey (loc_origin b)) b)))).
  { exists (vault_of b). split; [by apply represents_vault_of|]. cbn. unfold legacy_token in Hl.
    by destruct (truthy_str (local_get (tokenStorageKey (loc_origin b)) b)). }
  rewrite (holds_load _ _ _ Hv). split_and!; [done|done|]. by eexists.
Qed.

Lemma session_synced b u : fresh b -> session_of issues_tokens b u -> synced (ui_panel u).
Proof.
  intros Hb Ha%session_answering.
  eapply (answering_inv (vinv synced (fun w : instances => forall sl : slot, True))) in Ha as [[Hl _] _];
    [exact Hl|apply page_task_synced|]. split; [|constructor]. split; [by apply init_synced|done].
Qed.
End tasks.

(** The header a token is sent in. *)
Definition bearer_header (t : jstring) : list (jstring * jstring) :=
  match normalize_str t with [] => [] | n => [(js "Authorization", js "Bearer " ++ n)] end.


(** The contract as a check of a reply. *)
Definition issues_tokensb (q : ask) (x : reply) : bool :=
  match q, x with
  | AskFetch rq, Responded r =>
      negb (issues (rq_url rq)) ||
      match response_result r with
      | Ok data => match get data (js "token") with Ok (VStr t) => bool_decide (normalize_str t = t) | _ => false end
      | Exn _ => true
      end
  | _, _ => true
  end.

Lemma issues_reply o x : match o with Some q => issues_tokensb q x | None => false end = true ->
  match o with Some q => issues_tokens q x | None => False end.
Proof.
  destruct o as [[rq| | |]|], x as [rs| |]; try done. cbn -[issues]. intros Hb data Hu Hr. rewrite Hu, Hr in Hb. cbn in Hb.
  destruct (get data (js "token")) as [[| | | |t| | |]|]; try done. apply bool_decide_eq_true in Hb. by exists t.
Qed.

(** The broker answers the submitted setup form with a token. *)
Definition demo_claimed : ui := demo_reply 0 (ok_reply (jsq "{'token':'sk_local_1'}")) demo_submitted.

Lemma demo_claimed_session : session_of (H:=demo_platform) issues_tokens demo_browser demo_claimed.
Proof.
  apply demo_reply_session; [|apply (issues_reply (outstanding _ _ 0)); by vm_compute].
  do 3 (apply demo_event_session; [|by vm_compute]).
  do 2 (apply demo_reply_session; [|apply (issues_reply (outstanding _ 0 0)); by vm_compute]).
  exact (@session_main demo_platform issues_tokens demo_browser).
Qed.


(** Without that assumption the two can differ: when the broker rejects the stored
    token, the session forgets it, but the next request finds the token an earlier
    version left in [localStorage] and sends that one. *)
Definition demo_two_tokens : browser :=
  set_local_storage {[LEGACY_TOKEN_KEY := js "sk_local_0"]}
    (set_session_storage (Some {[tokenStorageKey (js "http://localhost:8080") := js "sk_local_1"]}) demo_browser).
Definition demo_rejected : ui :=
  let configured := ok_reply (jsq "{'mode':'control_plane','configured':true}") in
  demo_reply 0 (Responded {| rs_status := 401; rs_statusText := js "Unauthorized"; rs_text := Some (js "{}") |})
    (demo_reply 0 configured (demo_reply 0 configured (@main demo_platform demo_two_tokens))).

Theorem legacy_token_returns :
  session_of (H:=demo_platform) issues_tokens demo_two_tokens demo_rejected /\
  phase (ses (ui_panel demo_rejected)) = PGate /\ token (ses (ui_panel demo_rejected)) = VStr [] /\
  fst (@authHeaders demo_platform (br (ui_panel demo_rejected))) = [(js "Authorization", js "Bearer sk_local_0")].
Proof.
  split; [|split_and!; by vm_compute].
  do 3 (apply demo_reply_session; [|apply (issues_reply (outstanding _ _ 0)); by vm_compute]).
  exact (@session_main demo_platform issues_tokens demo_two_tokens).
Qed.
