(* ===== verification/Access.v ===== *)
(** * The application is shown only to those the broker accepts

    [locked]: the page is not under external authentication and shows neither the
    application nor a new token.  [refused]: the broker answers no token check and
    no password with success.  Under [refused] everything that can happen on a
    locked page keeps it locked, so that only the gate and the setup form are ever
    mounted. *)

From stdpp Require Import base list gmap strings.
From Stdlib Require Import NArith ZArith Lia String SpecFloat.
From S2P Require Import Prelude JsString JsNum JsVal Json Prog State Demo Storage Api Payload Catalog Session View Form Net Keeps.
From S2P Require Import GateView SetupView RevealView SettingsView DocsView EnqueueView QueuesView FlowsView.
From S2P Require Import PublishView GroupsView HttpView SchedulesView DlqView OverviewView InfraView.
From S2P Require Import AppHeader CellSwitcher AppSidebar Components Page PageProps.

Definition shut (ph : AuthPhase) : bool := match ph with PApp | PReveal => false | _ => true end.
Definition locked (p : panel) : Prop := g_external_auth (br p) = false /\ shut (phase (ses p)) = true.

(** [GET …/v1/queues] is how the panel checks a token; the other two trade the
    password for a token. *)
Definition entry (method url : jstring) : bool :=
  (bool_decide (method = js "GET") && ends_in (js "/v1/queues") url) ||
  (bool_decide (method = js "POST") &&
   (ends_in (js "/v1/local-auth/setup") url || ends_in (js "/v1/local-auth/regenerate") url)).

Definition refused (q : ask) (x : reply) : Prop :=
  match q, x with
  | AskFetch rq, Responded r => entry (rq_method rq) (rq_url rq) = true -> rs_ok r = false
  | _, _ => True
  end.

Section lib.
Context `{Platform}.

Lemma locked_frame f : (forall p, g_external_auth (br (f p)) = g_external_auth (br p) /\ phase (ses (f p)) = phase (ses p)) ->
  forall p, locked p -> locked (f p).
Proof. intros Hf p. unfold locked. by destruct (Hf p) as [-> ->]. Qed.

Lemma external_authHeaders b : g_external_auth (snd (authHeaders b)) = g_external_auth b.
Proof.
  unfold authHeaders. destruct (loadSavedToken_frame (api_base b) b) as (_ & _ & _ & _ & Hf).
  destruct (loadSavedToken (api_base b) b) as [t b']. by destruct (normalize_str t).
Qed.

Lemma external_saveToken base t b : g_external_auth (snd (saveToken base t b)) = g_external_auth b.
Proof.
  unfold saveToken, mbind, sync_mbind, spure, store_set, store_remove.
  destruct (normalizeToken t) as [[|]|]; simpl; [by destruct (session_storage b)..|done].
Qed.

Lemma locked_fetch rq : ends locked refused
  (fun r => match r with Ok resp => refused (AskFetch rq) (Responded resp) | Exn _ => True end) (fetch rq).
Proof. intros p Hp. split; [by apply (locked_frame (log_request rq))|]. by intros [rs|e|b] Hx. Qed.

Lemma locked_build m url body Q : (forall b, Q (fst (build_request m url body b))) ->
  ends locked refused Q (call (on_br (build_request m url body))).
Proof.
  intros HQ. apply ends_call. intros p Hp. unfold on_br, szoom. specialize (HQ (br p)). unfold build_request in *.
  pose proof (external_authHeaders (br p)) as He. destruct (authHeaders (br p)) as [au b']. split; [|exact HQ].
  simpl. by apply (locked_frame (fun p' => set_br (set_g_external_auth (g_external_auth (br p')) b') p')) in Hp as [H1 H2];
    [split; [simpl in *; congruence|done]|].
Qed.

Lemma locked_request m url body : ends locked refused anyway (request m url body).
Proof.
  unfold request. eapply (ends_bind _ _ anyway); [by apply locked_build|intros rq _|done].
  eapply ends_bind; [eapply ends_anyway, locked_fetch| |done]. intros resp _. by destruct (response_result resp).
Qed.

(** None of these requests succeeds. *)
Definition never_ok {A : Type} (r : result jsval A) : Prop := exists e, r = Exn e.

Lemma locked_entry m url body : entry m url = true -> ends locked refused never_ok (request m url body).
Proof.
  intros Hu. unfold request.
  eapply (ends_bind _ _ (fun r => match r with Ok rq => rq_method rq = m /\ rq_url rq = url | Exn _ => True end)).
  - apply locked_build. intros b. unfold build_request. destruct (authHeaders b) as [au b'].
    simpl. by destruct (request_headers au body).
  - intros rq [Hm Hq]. eapply ends_bind; [apply locked_fetch| |by intros; eexists]. intros resp Hr. simpl in Hr.
    rewrite Hm, Hq in Hr. specialize (Hr Hu). unfold response_result. destruct (parseBody resp); [|by eexists].
    rewrite Hr. by eexists.
  - intros e _. by eexists.
Qed.

Lemma entry_queues base : entry (js "GET") (base ++ js "/v1/queues") = true.
Proof. unfold entry. by rewrite ends_in_app. Qed.
Lemma entry_setup base : entry (js "POST") (base ++ js "/v1/local-auth/setup") = true.
Proof. unfold entry. by rewrite ends_in_app, !orb_true_r. Qed.
Lemma entry_regenerate base : entry (js "POST") (base ++ js "/v1/local-auth/regenerate") = true.
Proof. unfold entry. by rewrite ends_in_app, !orb_true_r. Qed.

Lemma locked_check_then {B : Type} (k : jsval -> prog panel B) :
  ends locked refused anyway (url ← public (js "/v1/queues"); d ← apiGet url; k d).
Proof.
  apply ends_read_bind. intros p _. unfold apiGet.
  eapply ends_bind; [apply locked_entry, entry_queues|by intros a [e ?]|done].
Qed.

Lemma locked_setToken t : ends locked refused anyway (call (setToken t)).
Proof.
  apply ends_call. intros p [He Hp]. split; [|done]. unfold setToken, mbind, sync_mbind, smod, sget, on_br, szoom. simpl.
  pose proof (external_saveToken (apiBase (ses p)) t (br p)) as Hs.
  destruct (saveToken _ t (br p)) as [[] b]; simpl in *; split; simpl; congruence.
Qed.

Lemma locked_submit raw : ends locked refused anyway (call (submitGateToken raw)).
Proof.
  apply ends_call. intros p Hp. split; [|done]. unfold submitGateToken, mbind, sync_mbind, spure.
  destruct (e_trim (Ok raw)) as [t|]; [|done]. destruct t as [| | | |[|c s]| | |]; try done.
  destruct (starts_with _ _); [|done]. exact (proj1 (locked_setToken _ p Hp)).
Qed.
End lib.

Ltac locked_step :=
  lazymatch goal with
  | |- ends _ _ anyway (request _ _ _) => apply locked_request
  | |- ends _ _ anyway (fetch _) => eapply ends_anyway, locked_fetch
  | |- ends _ _ anyway (call (setToken _)) => apply locked_setToken
  | |- ends _ _ anyway (call (submitGateToken _)) => apply locked_submit
  | _ => ends_step
  end.
Create HintDb locked discriminated.
Ltac locked_modify := apply ends_modify_any; first [by intros ? [? ?] | intros ? ?; assumption].
Ltac locked_lib := repeat first [solve [auto with locked] | locked_step | locked_modify].

Section session.
Context `{Platform}.

Lemma locked_pub_get path : ends locked refused anyway (pub_get path).
Proof. unfold pub_get, apiGet. locked_lib. Qed.
Lemma locked_pollHealth : ends locked refused anyway pollHealth.
Proof. unfold pollHealth. locked_lib. Qed.
Lemma locked_pollCluster : ends locked refused anyway pollCluster.
Proof. unfold pollCluster, apiGet. locked_lib. Qed.
Lemma locked_password path pw : (forall base, entry (js "POST") (base ++ path) = true) ->
  ends locked refused anyway (password_flow path pw).
Proof.
  intros Hp. unfold password_flow, apiPost. apply ends_read_bind. intros p _.
  eapply ends_bind; [apply locked_entry, Hp|by intros a [e ?]|done].
Qed.
Lemma locked_setup pw : ends locked refused anyway (setupPassword pw).
Proof. apply locked_password, entry_setup. Qed.
Lemma locked_regenerate pw : ends locked refused anyway (regenerateToken pw).
Proof. apply locked_password, entry_regenerate. Qed.

(** [initAuth] shows the application only through external authentication or a
    token check. *)
Lemma locked_initAuth : ends locked refused anyway initAuth.
Proof.
  unfold initAuth, auth_config, enter. apply ends_then; [by intros ? [? ?]|]. apply ends_catch_any; [|intros; locked_lib].
  repeat (eapply (ends_bind _ _ anyway); [locked_lib|intros ? _|done]). case_match; [locked_modify|].
  apply ends_then; [by intros ? [? ?]|]. apply ends_read_bind. intros p [He _]. unfold isExternalAuth. cbn beta. rewrite He. cbn [andb].
  locked_lib. unfold check_token. apply ends_catch_any; [apply locked_check_then|intros; locked_lib].
Qed.

Lemma locked_setApiBase base : ends locked refused anyway (setApiBase base).
Proof.
  unfold setApiBase. pose proof locked_initAuth. locked_lib.
  apply ends_modify_any. intros p [He Hp]. destruct (loadSavedToken_frame (apiBase (ses p)) (br p)) as (_ & _ & _ & _ & Hf).
  destruct (loadSavedToken _ _). split; [simpl in *; congruence|done].
Qed.
End session.

#[export] Hint Resolve locked_pub_get
  locked_pollHealth locked_pollCluster locked_setup locked_regenerate
  locked_initAuth locked_setApiBase locked_setToken locked_submit : locked.

(** ** Components *)

Definition vlocked {V : Type} : panel * V -> Prop := vinv locked (fun _ => True).

(** A handler goes on after a token check only if the broker accepts. *)
Lemma vlocked_check `{Platform} {V B : Type} (k : jsval -> vprog V B) :
  ends vlocked refused anyway (d ← lib (pub_get (js "/v1/queues")); k d).
Proof.
  eapply (ends_bind _ _ never_ok); [|by intros a [e ?]|done]. apply vends_lib, ends_read_bind. intros p _.
  unfold apiGet. apply locked_entry, entry_queues.
Qed.

Ltac vlocked_step :=
  first [ lazymatch goal with |- ends _ _ anyway (lib (pub_get (js "/v1/queues")) ≫= _) => apply vlocked_check end
        | vends_step ltac:(first [solve [auto with locked] | locked_lib])
        | apply vends_upd_page; by intros ? [? ?] | apply vends_upd; done ].
Ltac vlocked := unfold vlocked; repeat vlocked_step.

Section tasks.
Context `{Platform}.

Notation stays p := (ends vlocked refused anyway p).

Lemma gate_locked p : gate_task p -> stays p.
Proof. destruct 1; unfold GateView.continueWithToken, GateView.regen; vlocked. Qed.
Lemma setup_locked p : setup_task p -> stays p.
Proof. destruct 1; unfold SetupView.submit; vlocked. Qed.

(** The components of a locked page. *)
Definition entrance (k : place) : Prop := k = PlSetup \/ k = PlGate.

Lemma shown_entrance p path k : locked p -> k ∈ shown p path -> entrance k.
Proof.
  intros [_ Hp]. rewrite shown_phase. unfold entrance.
  destruct (phase (ses p)); try done; intros Hk; [by apply not_elem_of_nil in Hk|..]; apply list_elem_of_singleton in Hk; auto.
Qed.

Lemma page_locked p :
  page_task entrance p -> ends (vinv locked (fun w : instances => forall sl : slot, True)) refused anyway p.
Proof.
  apply (page_task_ends refused entrance locked (fun k _ => True)); try done.
  - intros k q [->| ->]; [apply setup_locked|apply gate_locked].
  - intros q [<-|[<-|[<-|[]]]]; [split; [apply locked_initAuth|done]|apply locked_pollHealth|apply locked_pollCluster].
  - apply locked_setApiBase.
  - intros dark. apply locked_frame. intros p'. unfold system_theme_changed. by case_decide.
Qed.

Lemma init_locked b : g_external_auth b = false -> locked (init_panel b).
Proof.
  intros Hb. unfold init_panel. pose proof (loadSavedToken_frame (apiBase (init_session b)) b) as (_ & _ & _ & _ & Hf).
  destruct (loadSavedToken _ b) as [t b']. split; [simpl in *; congruence|done].
Qed.
Lemma mounted_locked b c :
  g_external_auth b = false -> answering refused (ui_task entrance) (mounted_page b) c -> locked (fst (fst c)).
Proof.
  intros Hb Ha%ui_task_page.
  eapply (answering_inv (vinv locked (fun w : instances => forall sl : slot, True))) in Ha as [[Hl _] _];
    [exact Hl|apply page_locked|].
  split; [|constructor]. split; [by apply init_locked|done].
Qed.
End tasks.

(** C5: No way around the gate.  On a page without external authentication, as long
    as the broker answers no token check ([GET /v1/queues]) and no password (the
    two POSTs of [local-auth]) with success, no session ever shows the application
    or a token: whatever the user types, clicks and visits and whatever else is
    answered (a forged auth configuration, replies out of order), nothing but the
    loading screen, the setup form and the gate is ever mounted. *)
Theorem no_app_without_acceptance `{Platform} b u :
  g_external_auth b = false -> session_of refused b u ->
  phase (ses (ui_panel u)) <> PApp /\ phase (ses (ui_panel u)) <> PReveal /\
  Forall (fun sl => fst sl = PlSetup \/ fst sl = PlGate) (ui_live u).
Proof.
  intros Hb Hu. assert (Ht : tame refused b entrance u).
  { revert Hu. apply (session_tame refused b entrance locked); [intros c; by apply mounted_locked|apply shown_entrance]. }
  destruct Ht as [Hr Hl]. destruct (mounted_locked b _ Hb Hr) as [_ Hp].
  split_and!; [intros E|intros E|exact Hl]; unfold ui_panel in E; by rewrite E in Hp.
Qed.

(** A stored token that the broker refuses, and another one pasted at the gate. *)
Definition demo_config : reply := ok_reply (jsq "{'mode':'control_plane','configured':true}").
Definition demo_stored : browser :=
  set_session_storage (Some {[tokenStorageKey (js "http://localhost:8080") := js "sk_local_1"]}) demo_browser.
Definition demo_gate : ui :=
  demo_reply 0 down_reply (demo_reply 0 demo_config (demo_reply 0 demo_config (@main demo_platform demo_stored))).
Definition demo_refused : ui :=
  let sl : slot := (PlGate, 0%nat) in
  demo_reply 0 down_reply (demo_event sl 2 VUndef (demo_event sl 0 (VStr (js "sk_local_2")) demo_gate)).

Lemma demo_refused_session : session_of (H:=demo_platform) refused demo_stored demo_refused.
Proof.
  apply demo_reply_session; [|by vm_compute].
  do 2 (apply demo_event_session; [|by vm_compute]).
  do 3 (apply demo_reply_session; [|by vm_compute]). exact (@session_main demo_platform refused demo_stored).
Qed.

Lemma no_app_without_acceptance_witness :
  List.length (sent (br (ui_panel demo_refused))) = 4%nat /\ phase (ses (ui_panel demo_refused)) = PGate /\
  phase (ses (ui_panel demo_refused)) <> PApp.
Proof.
  split; [by vm_compute|]. split; [by vm_compute|].
  exact (proj1 (@no_app_without_acceptance demo_platform demo_stored demo_refused eq_refl demo_refused_session)).
Defined.
