(* ===== verification/SidebarProvider.v ===== *)
(** * [components/ui/sidebar/utils.ts] and [SidebarProvider.vue]

    The state of the sidebar: open or collapsed on a wide screen, a sheet of its
    own on a narrow one, remembered in a cookie for a week.  [document.cookie] is
    modelled as the browser's jar: assigning a text sets one cookie with its
    lifetime, reading joins the living ones.

    The open state is a model of [useVModel] of [@vueuse/core]; the class [VModel]
    states its documented behaviour: without an [open] prop ([passive]) it is a ref
    that starts with the default, with the prop it reads the prop and assigning
    only emits. *)

From stdpp Require Import base list gmap strings.
From Stdlib Require Import NArith ZArith Lia String SpecFloat.
From S2P Require Import Prelude JsString JsNum JsVal Json Prog State Payload View Form Kit.
Local Open Scope js_scope.

Definition SIDEBAR_COOKIE_NAME : jstring := js "sidebar_state".
Definition SIDEBAR_COOKIE_MAX_AGE : Z := 60 * 60 * 24 * 7.
Definition SIDEBAR_WIDTH : jstring := js "15.5rem".
Definition SIDEBAR_WIDTH_MOBILE : jstring := js "18rem".
Definition SIDEBAR_WIDTH_ICON : jstring := js "3rem".
Definition SIDEBAR_KEYBOARD_SHORTCUT : jstring := js "b".

(** [`${Math.floor(Math.random() * 40) + 50}%`] of [SidebarMenuSkeleton], for the
    random number drawn. *)
Definition num_floor (x : num) : num := SFopp (num_ceil (SFopp x)).
Definition skeleton_width (random : num) : jstring :=
  num_to_string (num_add (num_floor (num_mul random (num_of_Z 40))) (num_of_Z 50)) ++ js "%".

(** ** Cookies *)

(** Times are in seconds. *)
Record cookie := Cookie { ck_name : jstring; ck_value : jstring; ck_expires : option Z }.

Definition alive (now : Z) (c : cookie) : bool :=
  match ck_expires c with Some t => bool_decide (now < t)%Z | None => true end.

Definition cookie_text (c : cookie) : jstring := ck_name c ++ js "=" ++ ck_value c.

(** Reading [document.cookie]. *)
Definition cookie_string (now : Z) (jar : list cookie) : jstring :=
  join (js "; ") (map cookie_text (filter (fun c => alive now c = true) jar)).

Fixpoint split_at (c : N) (s : jstring) : jstring * option jstring :=
  match s with
  | [] => ([], None)
  | d :: s' => if (d =? c)%N then ([], Some s') else let '(a, b) := split_at c s' in (d :: a, b)
  end.

Fixpoint split_all (c : N) (s : jstring) : list jstring :=
  match s with
  | [] => [[]]
  | d :: s' => if (d =? c)%N then [] :: split_all c s' else
      match split_all c s' with [] => [[d]] | w :: ws => (d :: w) :: ws end
  end.

(** [max-age] among the attributes. *)
Definition max_age (attributes : jstring) : option Z :=
  head (omap (fun a => match split_at 61 (trim a) with
    | (k, Some v) => if decide (to_lower k = js "max-age") then num_to_Z (string_to_number v) else None
    | _ => None
    end) (split_all 59 attributes)).

Fixpoint put_cookie (c : cookie) (jar : list cookie) : list cookie :=
  match jar with
  | [] => [c]
  | d :: jar' => if decide (ck_name d = ck_name c) then c :: jar' else d :: put_cookie c jar'
  end.

(** [document.cookie = s] *)
Definition set_cookie (now : Z) (s : jstring) (jar : list cookie) : list cookie :=
  let '(first, attributes) := split_at 59 s in
  match split_at 61 first with
  | (n, Some v) => put_cookie {| ck_name := trim n; ck_value := trim v;
      ck_expires := match attributes with Some a => (fun x => now + x)%Z <$> max_age a | None => None end |} jar
  | _ => jar
  end.

(** ** The open state *)

Class VModel := {
  vm : Type;
  vm_new : option bool -> bool -> vm;
  vm_passive : vm -> bool;
  vm_get : vm -> bool;
  vm_set : bool -> vm -> vm
}.

Class VModelLaws `{VModel} := {
  vm_passive_new : forall p d, vm_passive (vm_new p d) = bool_decide (p = None);
  vm_passive_set : forall b m, vm_passive (vm_set b m) = vm_passive m;
  vm_get_new : forall p d, vm_get (vm_new p d) = default d p;
  vm_get_set : forall b m, vm_get (vm_set b m) = if vm_passive m then b else vm_get m
}.

(** ** The provider *)

Section provider.
Context `{VModel}.

Record sidebar := Sidebar_ { open : vm; openMobile : bool; isMobile : bool }.

(** The provider and the browser's cookies and clock. *)
Record world := World { bar : sidebar; jar : list cookie; clock : Z }.

(** [!document.cookie.includes(`${SIDEBAR_COOKIE_NAME}=false`)] *)
Definition cookie_default (cookies : jstring) : bool := negb (includes (SIDEBAR_COOKIE_NAME ++ js "=false") cookies).

(** Setup, with the props [open] and [defaultOpen] as given. *)
Definition provide (prop_open prop_default : option bool) (mobile : bool) (now : Z) (cs : list cookie) : sidebar :=
  {| open := vm_new prop_open (default (cookie_default (cookie_string now cs)) prop_default);
     openMobile := false; isMobile := mobile |}.

Definition bool_text (b : bool) : jstring := if b then js "true" else js "false".

Definition cookie_assignment (b : bool) : jstring :=
  SIDEBAR_COOKIE_NAME ++ js "=" ++ bool_text b ++ js "; path=/; max-age=" ++
  num_to_string (num_of_Z SIDEBAR_COOKIE_MAX_AGE).

Definition setOpen (value : bool) (w : world) : world :=
  let o := vm_set value (open (bar w)) in
  {| bar := {| open := o; openMobile := openMobile (bar w); isMobile := isMobile (bar w) |};
     jar := set_cookie (clock w) (cookie_assignment (vm_get o)) (jar w); clock := clock w |}.

Definition setOpenMobile (value : bool) (w : world) : world :=
  {| bar := {| open := open (bar w); openMobile := value; isMobile := isMobile (bar w) |};
     jar := jar w; clock := clock w |}.

Definition toggleSidebar (w : world) : world :=
  if isMobile (bar w) then setOpenMobile (negb (openMobile (bar w))) w
  else setOpen (negb (vm_get (open (bar w)))) w.

(** The listener for [keydown]: the new state, and whether the default is prevented. *)
Definition on_keydown (key : jstring) (metaKey ctrlKey : bool) (w : world) : world * bool :=
  if bool_decide (key = SIDEBAR_KEYBOARD_SHORTCUT) && (metaKey || ctrlKey) then (toggleSidebar w, true) else (w, false).

Definition state (b : sidebar) : jstring := if vm_get (open b) then js "expanded" else js "collapsed".

(** ** What can happen *)

Inductive event :=
| Toggle
| Key (key : jstring) (metaKey ctrlKey : bool)
| SheetUpdate (value : bool)
| Resize (mobile : bool)
| Wait (seconds : Z).

Definition step (e : event) (w : world) : world :=
  match e with
  | Toggle => toggleSidebar w
  | Key k m c => fst (on_keydown k m c w)
  | SheetUpdate b => setOpenMobile b w
  | Resize m => {| bar := {| open := open (bar w); openMobile := openMobile (bar w); isMobile := m |};
                   jar := jar w; clock := clock w |}
  | Wait t => {| bar := bar w; jar := jar w; clock := (clock w + Z.max 0 t)%Z |}
  end.

Definition run (es : list event) (w : world) : world := fold_left (fun w e => step e w) es w.

(** A load of the page, where [AppShell] gives no props. *)
Definition load (mobile : bool) (now : Z) (cs : list cookie) : world :=
  {| bar := provide None None mobile now cs; jar := cs; clock := now |}.
End provider.

(** ** The template and the context it provides *)

(** What [useSidebar()] gives a component below the provider. *)
Record sidebar_context (S : Type) := SidebarContext {
  c_isMobile : bool;
  c_state : jstring;
  c_openMobile : bool;
  c_setOpenMobile : jsval -> prog S unit;
  c_toggleSidebar : prog S unit
}.
Arguments c_isMobile {S}.
Arguments c_state {S}.
Arguments c_openMobile {S}.
Arguments c_setOpenMobile {S}.
Arguments c_toggleSidebar {S}.

Section template.
Context `{Platform} `{UiLibs} `{VModel} {S : Type}.

(** [provideSidebarContext({ ... })], the provider's part of the page being [world]. *)
Definition context (get_w : S -> world) (set_w : world -> S -> S) (s : S) : sidebar_context S :=
  let w := get_w s in
  {| c_isMobile := isMobile (bar w); c_state := state (bar w); c_openMobile := openMobile (bar w);
     c_setOpenMobile := fun v => modify (fun s => set_w (setOpenMobile (truthy v) (get_w s)) s);
     c_toggleSidebar := modify (fun s => set_w (toggleSidebar (get_w s)) s) |}.

Definition SidebarProvider (cookies : jstring) : component S :=
  define (Decls [flag "defaultOpen"; flag "open"; any "class"]
            [("defaultOpen", VBool (cookie_default cookies)); ("open", VUndef)] ["update:open"]) (fun i =>
    kel "reka-ui/TooltipProvider" [bat "delay-duration" (e_num 0); bind_attrs (rest i)] [
      kel "div" [
          sat "data-slot" "sidebar-wrapper";
          bat "style" (e_object [
            ("--sidebar-width", e_str SIDEBAR_WIDTH);
            ("--sidebar-width-icon", e_str SIDEBAR_WIDTH_ICON)]);
          bat "class" (cn_ [ #"group/sidebar-wrapper has-data-[variant=inset]:bg-sidebar flex min-h-svh w-full"; prop i "class"]);
          bind_attrs (rest i)] [slot_ i]]).
End template.
