(* ===== verification/UiBase.v ===== *)
(** * The stateless components of [components/ui]

    Buttons, fields, cards, tables and the like, one definition per component: its
    declared props, defaults and template.  Named slots, which no template of the
    panel fills, show their fallback. *)

From stdpp Require Import base list gmap strings.
From Stdlib Require Import NArith ZArith Lia String SpecFloat.
From S2P Require Import Prelude JsString JsNum JsVal Json Prog State Payload View Form Kit.
Local Open Scope js_scope.

(** ** Class tables *)

Definition buttonVariants : cva_config :=
  {| cva_base := "focus-visible:border-ring focus-visible:ring-ring/50 aria-invalid:ring-destructive/20 dark:aria-invalid:ring-destructive/40 aria-invalid:border-destructive dark:aria-invalid:border-destructive/50 rounded-2xl border border-transparent bg-clip-padding text-sm font-medium focus-visible:ring-3 aria-invalid:ring-3 active:not-aria-[haspopup]:translate-y-px [&_svg:not([class*=size-])]:size-4 group/button inline-flex shrink-0 items-center justify-center whitespace-nowrap transition-all outline-none select-none disabled:pointer-events-none disabled:opacity-50 [&_svg]:pointer-events-none [&_svg]:shrink-0";
     cva_variants := [("variant", [
      ("default", "bg-primary text-primary-foreground [a]:hover:bg-primary/80");
      ("outline", "border-border bg-background hover:bg-muted hover:text-foreground dark:bg-input/30 dark:border-input dark:hover:bg-input/50 aria-expanded:bg-muted aria-expanded:text-foreground");
      ("secondary", "bg-secondary text-secondary-foreground hover:bg-secondary/80 aria-expanded:bg-secondary aria-expanded:text-secondary-foreground");
      ("ghost", "hover:bg-muted hover:text-foreground dark:hover:bg-muted/50 aria-expanded:bg-muted aria-expanded:text-foreground");
      ("destructive", "bg-destructive/10 hover:bg-destructive/20 focus-visible:ring-destructive/20 dark:focus-visible:ring-destructive/40 dark:bg-destructive/20 text-destructive focus-visible:border-destructive/40 dark:hover:bg-destructive/30");
      ("success", "bg-success/10 hover:bg-success/20 text-success focus-visible:ring-success/20 dark:bg-success/20 dark:hover:bg-success/30");
      ("warning", "bg-warn/10 hover:bg-warn/20 text-warn focus-visible:ring-warn/20 dark:bg-warn/20 dark:hover:bg-warn/30");
      ("link", "text-primary underline-offset-4 hover:underline")]); ("size", [
      ("default", "h-8 gap-1.5 px-2.5 has-data-[icon=inline-end]:pr-2 has-data-[icon=inline-start]:pl-2");
      ("xs", "h-6 gap-1 px-2 text-xs has-data-[icon=inline-end]:pr-1.5 has-data-[icon=inline-start]:pl-1.5 [&_svg:not([class*=size-])]:size-3");
      ("sm", "h-7 gap-1 px-2.5 text-[0.8rem] has-data-[icon=inline-end]:pr-1.5 has-data-[icon=inline-start]:pl-1.5 [&_svg:not([class*=size-])]:size-3.5");
      ("lg", "h-9 gap-1.5 px-2.5 has-data-[icon=inline-end]:pr-2 has-data-[icon=inline-start]:pl-2");
      ("icon", "size-8");
      ("icon-xs", "size-6 [&_svg:not([class*=size-])]:size-3");
      ("icon-sm", "size-7");
      ("icon-lg", "size-9")])];
     cva_defaults := [("variant", "default"); ("size", "default")] |}.

Definition badgeVariants : cva_config :=
  {| cva_base := "h-5 gap-1 rounded-4xl border border-transparent px-2 py-0.5 text-xs font-medium transition-all has-data-[icon=inline-end]:pr-1.5 has-data-[icon=inline-start]:pl-1.5 [&>svg]:size-3! group/badge inline-flex w-fit shrink-0 items-center justify-center overflow-hidden whitespace-nowrap focus-visible:border-ring focus-visible:ring-3 focus-visible:ring-ring/50 aria-invalid:border-destructive aria-invalid:ring-destructive/20 dark:aria-invalid:ring-destructive/40 [&>svg]:pointer-events-none";
     cva_variants := [("variant", [
      ("default", "bg-primary text-primary-foreground [a]:hover:bg-primary/80");
      ("secondary", "bg-secondary text-secondary-foreground [a]:hover:bg-secondary/80");
      ("destructive", "bg-destructive/10 [a]:hover:bg-destructive/20 focus-visible:ring-destructive/20 dark:focus-visible:ring-destructive/40 text-destructive dark:bg-destructive/20");
      ("outline", "border-border text-foreground [a]:hover:bg-muted [a]:hover:text-muted-foreground");
      ("ghost", "hover:bg-muted hover:text-muted-foreground dark:hover:bg-muted/50");
      ("link", "text-primary underline-offset-4 hover:underline")])];
     cva_defaults := [("variant", "default")] |}.

Definition alertVariants : cva_config :=
  {| cva_base := "grid gap-0.5 rounded-2xl border px-3 py-2 text-left text-sm has-data-[slot=alert-action]:relative has-data-[slot=alert-action]:pr-18 has-[>svg]:grid-cols-[auto_1fr] has-[>svg]:gap-x-2 *:[svg]:row-span-2 *:[svg]:translate-y-0.5 *:[svg]:text-current *:[svg:not([class*=size-])]:size-4 group/alert relative w-full";
     cva_variants := [("variant", [
      ("default", "bg-card text-card-foreground");
      ("destructive", "text-destructive bg-card *:data-[slot=alert-description]:text-destructive/90 *:[svg]:text-current")])];
     cva_defaults := [("variant", "default")] |}.

Definition tabsListVariants : cva_config :=
  {| cva_base := "rounded-2xl p-1 group-data-horizontal/tabs:h-10 data-[variant=line]:rounded-none group/tabs-list inline-flex w-full items-center justify-center text-muted-foreground group-data-vertical/tabs:h-fit group-data-vertical/tabs:flex-col";
     cva_variants := [("variant", [
      ("default", "bg-muted");
      ("line", "gap-1 bg-transparent")])];
     cva_defaults := [("variant", "default")] |}.

Definition avatarVariants : cva_config :=
  {| cva_base := "size-8 rounded-full after:rounded-full data-[size=lg]:size-10 data-[size=sm]:size-6 group/avatar relative flex shrink-0 select-none after:absolute after:inset-0 after:border after:border-border after:mix-blend-darken dark:after:mix-blend-lighten";
     cva_variants := [("size", [
      ("sm", "");
      ("default", "");
      ("lg", "")])];
     cva_defaults := [("size", "default")] |}.

Definition emptyMediaVariants : cva_config :=
  {| cva_base := "mb-2 flex shrink-0 items-center justify-center [&_svg]:pointer-events-none [&_svg]:shrink-0";
     cva_variants := [("variant", [
      ("default", "bg-transparent");
      ("icon", "bg-muted text-foreground flex size-8 shrink-0 items-center justify-center rounded-lg [&_svg:not([class*=size-])]:size-4")])];
     cva_defaults := [("variant", "default")] |}.

Definition inputGroupAddonVariants : cva_config :=
  {| cva_base := "text-muted-foreground h-auto gap-2 py-1.5 text-sm font-medium group-data-[disabled=true]/input-group:opacity-50 [&>kbd]:rounded-[calc(var(--radius)-5px)] [&>svg:not([class*=size-])]:size-4 flex cursor-text items-center justify-center select-none";
     cva_variants := [("align", [
      ("inline-start", "pl-2 has-[>button]:ml-[-0.3rem] has-[>kbd]:ml-[-0.15rem] order-first");
      ("inline-end", "pr-2 has-[>button]:mr-[-0.3rem] has-[>kbd]:mr-[-0.15rem] order-last");
      ("block-start", "px-2.5 pt-2 group-has-[>input]/input-group:pt-2 [.border-b]:pb-2 order-first w-full justify-start");
      ("block-end", "px-2.5 pb-2 group-has-[>input]/input-group:pb-2 [.border-t]:pt-2 order-last w-full justify-start")])];
     cva_defaults := [("align", "inline-start")] |}.

Definition inputGroupButtonVariants : cva_config :=
  {| cva_base := "gap-2 text-sm flex items-center shadow-none";
     cva_variants := [("size", [
      ("xs", "h-6 gap-1 rounded-[calc(var(--radius)-3px)] px-1.5 [&>svg:not([class*=size-])]:size-3.5");
      ("sm", "");
      ("icon-xs", "size-6 rounded-[calc(var(--radius)-3px)] p-0 has-[>svg]:p-0");
      ("icon-sm", "size-8 p-0 has-[>svg]:p-0")])];
     cva_defaults := [("size", "xs")] |}.


Section components.
Context `{Platform} `{UiLibs} {S : Type}.

(** ** [button] *)

Definition Button : component S :=
  define (Decls ([any "variant"; any "size"; any "class"] ++ lib_props "PrimitiveProps") [("as", VStr (js "button"))] []) (fun i =>
    kel "reka-ui/Primitive" [
        sat "data-slot" "button";
        bat "data-variant" (prop i "variant");
        bat "data-size" (prop i "size");
        bat "as" (prop i "as");
        bat "as-child" (prop i "asChild");
        bat "class" (cn_ [variants_ buttonVariants [("variant", prop i "variant"); ("size", prop i "size")]; prop i "class"]);
        bind_attrs (rest i)] [slot_ i]).

Definition button_exports : list (string * component S) :=
  [("Button", Button)].

(** ** [badge] *)

Definition Badge : component S :=
  define (Decls ([any "variant"; any "class"] ++ lib_props "PrimitiveProps") [] []) (fun i =>
    let delegatedProps := reactiveOmit (props i) ["class"] in
    kel "reka-ui/Primitive" [
        sat "data-slot" "badge";
        bat "data-variant" (prop i "variant");
        bat "class" (cn_ [variants_ badgeVariants [("variant", prop i "variant")]; prop i "class"]);
        v_bind delegatedProps;
        bind_attrs (rest i)] [slot_ i]).

Definition badge_exports : list (string * component S) :=
  [("Badge", Badge)].

(** ** [alert] *)

Definition Alert : component S :=
  define (Decls ([any "class"; any "variant"]) [] []) (fun i =>
    kel "div" [
        sat "data-slot" "alert";
        bat "class" (cn_ [variants_ alertVariants [("variant", prop i "variant")]; prop i "class"]);
        sat "role" "alert";
        bind_attrs (rest i)] [slot_ i]).

Definition AlertAction : component S :=
  define (Decls ([any "class"]) [] []) (fun i =>
    kel "div" [
        sat "data-slot" "alert-action";
        bat "class" (cn_ [ #"absolute top-2 right-2"; prop i "class"]);
        bind_attrs (rest i)] [slot_ i]).

Definition AlertDescription : component S :=
  define (Decls ([any "class"]) [] []) (fun i =>
    kel "div" [
        sat "data-slot" "alert-description";
        bat "class" (cn_ [ #"text-muted-foreground text-sm text-balance md:text-pretty [&_p:not(:last-child)]:mb-4 [&_a]:underline [&_a]:underline-offset-3 [&_a]:hover:text-foreground"; prop i "class"]);
        bind_attrs (rest i)] [slot_ i]).

Definition AlertTitle : component S :=
  define (Decls ([any "class"]) [] []) (fun i =>
    kel "div" [
        sat "data-slot" "alert-title";
        bat "class" (cn_ [ #"font-medium group-has-[>svg]/alert:col-start-2 cn-font-heading [&_a]:underline [&_a]:underline-offset-3 [&_a]:hover:text-foreground"; prop i "class"]);
        bind_attrs (rest i)] [slot_ i]).

Definition alert_exports : list (string * component S) :=
  [("Alert", Alert);
   ("AlertAction", AlertAction);
   ("AlertDescription", AlertDescription);
   ("AlertTitle", AlertTitle)].

(** ** [card] *)

Definition Card : component S :=
  define (Decls ([any "class"; any "size"]) [("size", VStr (js "default"))] []) (fun i =>
    kel "div" [
        sat "data-slot" "card";
        bat "data-size" (prop i "size");
        bat "class" (cn_ [ #"ring-foreground/10 bg-card text-card-foreground gap-4 overflow-hidden rounded-2xl py-4 text-sm ring-1 has-data-[slot=card-footer]:pb-0 has-[>img:first-child]:pt-0 data-[size=sm]:gap-3 data-[size=sm]:py-3 data-[size=sm]:has-data-[slot=card-footer]:pb-0 *:[img:first-child]:rounded-t-2xl *:[img:last-child]:rounded-b-2xl group/card flex flex-col"; prop i "class"]);
        bind_attrs (rest i)] [slot_ i]).

Definition CardAction : component S :=
  define (Decls ([any "class"]) [] []) (fun i =>
    kel "div" [
        sat "data-slot" "card-action";
        bat "class" (cn_ [ #"col-start-2 row-span-2 row-start-1 self-start justify-self-end"; prop i "class"]);
        bind_attrs (rest i)] [slot_ i]).

Definition CardContent : component S :=
  define (Decls ([any "class"]) [] []) (fun i =>
    kel "div" [
        sat "data-slot" "card-content";
        bat "class" (cn_ [ #"px-4 group-data-[size=sm]/card:px-3"; prop i "class"]);
        bind_attrs (rest i)] [slot_ i]).

Definition CardDescription : component S :=
  define (Decls ([any "class"]) [] []) (fun i =>
    kel "div" [
        sat "data-slot" "card-description";
        bat "class" (cn_ [ #"text-muted-foreground text-sm"; prop i "class"]);
        bind_attrs (rest i)] [slot_ i]).

Definition CardFooter : component S :=
  define (Decls ([any "class"]) [] []) (fun i =>
    kel "div" [
        sat "data-slot" "card-footer";
        bat "class" (cn_ [ #"bg-muted/50 rounded-b-2xl border-t p-3 group-data-[size=sm]/card:p-2 flex items-center gap-3"; prop i "class"]);
        bind_attrs (rest i)] [slot_ i]).

Definition CardHeader : component S :=
  define (Decls ([any "class"]) [] []) (fun i =>
    kel "div" [
        sat "data-slot" "card-header";
        bat "class" (cn_ [ #"gap-1 rounded-t-2xl px-4 group-data-[size=sm]/card:px-3 [.border-b]:pb-3 group-data-[size=sm]/card:[.border-b]:pb-2 group/card-header @container/card-header grid auto-rows-min items-start has-data-[slot=card-action]:grid-cols-[1fr_auto] has-data-[slot=card-description]:grid-rows-[auto_auto]"; prop i "class"]);
        bind_attrs (rest i)] [slot_ i]).

Definition CardTitle : component S :=
  define (Decls ([any "class"]) [] []) (fun i =>
    kel "div" [
        sat "data-slot" "card-title";
        bat "class" (cn_ [ #"text-base leading-snug font-medium group-data-[size=sm]/card:text-sm cn-font-heading"; prop i "class"]);
        bind_attrs (rest i)] [slot_ i]).

Definition card_exports : list (string * component S) :=
  [("Card", Card);
   ("CardAction", CardAction);
   ("CardContent", CardContent);
   ("CardDescription", CardDescription);
   ("CardFooter", CardFooter);
   ("CardHeader", CardHeader);
   ("CardTitle", CardTitle)].

(** ** [input] *)

Definition Input : component S :=
  define (Decls ([any "defaultValue"; any "modelValue"; any "class"]) [] ["update:modelValue"]) (fun i =>
    kel "input" [
        model_part i "modelValue" (prop i "defaultValue");
        sat "data-slot" "input";
        bat "class" (cn_ [ #"dark:bg-input/30 border-input focus-visible:border-ring focus-visible:ring-ring/50 aria-invalid:ring-destructive/20 dark:aria-invalid:ring-destructive/40 aria-invalid:border-destructive dark:aria-invalid:border-destructive/50 disabled:bg-input/50 dark:disabled:bg-input/80 h-8 rounded-2xl border bg-transparent px-2.5 py-1 text-sm transition-colors file:h-6 file:text-sm file:font-medium focus-visible:ring-3 aria-invalid:ring-3 w-full min-w-0 outline-none file:inline-flex file:border-0 file:bg-transparent file:text-foreground placeholder:text-muted-foreground disabled:pointer-events-none disabled:cursor-not-allowed disabled:opacity-50"; prop i "class"]);
        bind_attrs (rest i)] []).

Definition input_exports : list (string * component S) :=
  [("Input", Input)].

(** ** [label] *)

Definition Label : component S :=
  define (Decls ([any "class"] ++ lib_props "LabelProps") [] []) (fun i =>
    let delegatedProps := reactiveOmit (props i) ["class"] in
    kel "reka-ui/Label" [
        sat "data-slot" "label";
        v_bind delegatedProps;
        bat "class" (cn_ [ #"gap-2 text-sm leading-none font-medium group-data-[disabled=true]:opacity-50 peer-disabled:opacity-50 flex items-center select-none group-data-[disabled=true]:pointer-events-none peer-disabled:cursor-not-allowed"; prop i "class"]);
        bind_attrs (rest i)] [slot_ i]).

Definition label_exports : list (string * component S) :=
  [("Label", Label)].

(** ** [textarea] *)

Definition Textarea : component S :=
  define (Decls ([any "class"; any "defaultValue"; any "modelValue"]) [] ["update:modelValue"]) (fun i =>
    kel "textarea" [
        model_part i "modelValue" (prop i "defaultValue");
        sat "data-slot" "textarea";
        bat "class" (cn_ [ #"border-input dark:bg-input/30 focus-visible:border-ring focus-visible:ring-ring/50 aria-invalid:ring-destructive/20 dark:aria-invalid:ring-destructive/40 aria-invalid:border-destructive dark:aria-invalid:border-destructive/50 disabled:bg-input/50 dark:disabled:bg-input/80 rounded-2xl border bg-transparent px-2.5 py-2 text-sm transition-colors focus-visible:ring-3 aria-invalid:ring-3 flex field-sizing-content min-h-16 w-full outline-none placeholder:text-muted-foreground disabled:cursor-not-allowed disabled:opacity-50"; prop i "class"]);
        bind_attrs (rest i)] []).

Definition textarea_exports : list (string * component S) :=
  [("Textarea", Textarea)].

(** ** [separator] *)

Definition Separator : component S :=
  define (Decls ([any "class"] ++ lib_props "SeparatorProps") [("orientation", VStr (js "horizontal")); ("decorative", VBool true)] []) (fun i =>
    let delegatedProps := reactiveOmit (props i) ["class"] in
    kel "reka-ui/Separator" [
        sat "data-slot" "separator";
        v_bind delegatedProps;
        bat "class" (cn_ [ #"shrink-0 bg-border data-[orientation=horizontal]:h-px data-[orientation=horizontal]:w-full data-[orientation=vertical]:w-px data-[orientation=vertical]:self-stretch"; prop i "class"]);
        bind_attrs (rest i)] []).

Definition separator_exports : list (string * component S) :=
  [("Separator", Separator)].

(** ** [skeleton] *)

Definition Skeleton : component S :=
  define (Decls ([any "class"]) [] []) (fun i =>
    kel "div" [
        sat "data-slot" "skeleton";
        bat "class" (cn_ [ #"bg-muted rounded-md animate-pulse"; prop i "class"]);
        bind_attrs (rest i)] []).

Definition skeleton_exports : list (string * component S) :=
  [("Skeleton", Skeleton)].

(** ** [checkbox] *)

Definition Checkbox : component S :=
  define (Decls ([any "class"] ++ lib_props "CheckboxRootProps") [] (lib_emits "CheckboxRootEmits")) (fun i =>
    let delegatedProps := reactiveOmit (props i) ["class"] in
    let forwarded := forward_emits i delegatedProps in
    kel "reka-ui/CheckboxRoot" [
        sat "data-slot" "checkbox";
        bind_attrs forwarded;
        bat "class" (cn_ [ #"border-input dark:bg-input/30 data-checked:bg-primary data-checked:text-primary-foreground dark:data-checked:bg-primary data-checked:border-primary aria-invalid:aria-checked:border-primary aria-invalid:border-destructive dark:aria-invalid:border-destructive/50 focus-visible:border-ring focus-visible:ring-ring/50 aria-invalid:ring-destructive/20 dark:aria-invalid:ring-destructive/40 flex size-4 items-center justify-center rounded-[4px] border transition-colors group-has-disabled/field:opacity-50 focus-visible:ring-3 aria-invalid:ring-3 peer relative shrink-0 outline-none after:absolute after:-inset-x-3 after:-inset-y-2 disabled:cursor-not-allowed disabled:opacity-50"; prop i "class"]);
        bind_attrs (rest i)] [
      kel "reka-ui/CheckboxIndicator" [
          sat "data-slot" "checkbox-indicator";
          sat "class" "[&>svg]:size-3.5 grid place-content-center text-current transition-none"] [slot_or i (kel "@lucide/vue/Check" [] [])]]).

Definition checkbox_exports : list (string * component S) :=
  [("Checkbox", Checkbox)].

(** ** [table] *)

Definition Table : component S :=
  define (Decls ([any "class"]) [] []) (fun i =>
    kel "div" [
        sat "data-slot" "table-container";
        sat "class" "relative w-full overflow-x-auto";
        bind_attrs (rest i)] [
      kel "table" [
          sat "data-slot" "table";
          bat "class" (cn_ [ #"w-full caption-bottom text-sm"; prop i "class"])] [slot_ i]]).

Definition TableBody : component S :=
  define (Decls ([any "class"]) [] []) (fun i =>
    kel "tbody" [
        sat "data-slot" "table-body";
        bat "class" (cn_ [ #"[&_tr:last-child]:border-0"; prop i "class"]);
        bind_attrs (rest i)] [slot_ i]).

Definition TableCaption : component S :=
  define (Decls ([any "class"]) [] []) (fun i =>
    kel "caption" [
        sat "data-slot" "table-caption";
        bat "class" (cn_ [ #"text-muted-foreground mt-4 text-sm"; prop i "class"]);
        bind_attrs (rest i)] [slot_ i]).

Definition TableCell : component S :=
  define (Decls ([any "class"]) [] []) (fun i =>
    kel "td" [
        sat "data-slot" "table-cell";
        bat "class" (cn_ [ #"p-2 align-middle whitespace-nowrap [&:has([role=checkbox])]:pr-0"; prop i "class"]);
        bind_attrs (rest i)] [slot_ i]).

Definition TableRow : component S :=
  define (Decls ([any "class"]) [] []) (fun i =>
    kel "tr" [
        sat "data-slot" "table-row";
        bat "class" (cn_ [ #"hover:bg-muted/50 data-[state=selected]:bg-muted border-b transition-colors has-aria-expanded:bg-muted/50"; prop i "class"]);
        bind_attrs (rest i)] [slot_ i]).

Definition TableEmpty : component S :=
  define (Decls ([any "class"; any "colspan"]) [("colspan", VNum (num_of_Z 1))] []) (fun i =>
    let delegatedProps := reactiveOmit (props i) ["class"] in
    TableRow [bind_attrs (rest i)] [
      TableCell [
          bat "class" (cn_ [ #"p-4 whitespace-nowrap align-middle text-sm text-foreground"; prop i "class"]);
          v_bind delegatedProps] [kel "div" [sat "class" "flex items-center justify-center py-10"] [slot_ i]]]).

Definition TableFooter : component S :=
  define (Decls ([any "class"]) [] []) (fun i =>
    kel "tfoot" [
        sat "data-slot" "table-footer";
        bat "class" (cn_ [ #"bg-muted/50 border-t font-medium [&>tr]:last:border-b-0"; prop i "class"]);
        bind_attrs (rest i)] [slot_ i]).

Definition TableHead : component S :=
  define (Decls ([any "class"]) [] []) (fun i =>
    kel "th" [
        sat "data-slot" "table-head";
        bat "class" (cn_ [ #"text-foreground h-10 px-2 text-left align-middle font-medium whitespace-nowrap [&:has([role=checkbox])]:pr-0"; prop i "class"]);
        bind_attrs (rest i)] [slot_ i]).

Definition TableHeader : component S :=
  define (Decls ([any "class"]) [] []) (fun i =>
    kel "thead" [
        sat "data-slot" "table-header";
        bat "class" (cn_ [ #"[&_tr]:border-b"; prop i "class"]);
        bind_attrs (rest i)] [slot_ i]).

Definition table_exports : list (string * component S) :=
  [("Table", Table);
   ("TableBody", TableBody);
   ("TableCaption", TableCaption);
   ("TableCell", TableCell);
   ("TableEmpty", TableEmpty);
   ("TableFooter", TableFooter);
   ("TableHead", TableHead);
   ("TableHeader", TableHeader);
   ("TableRow", TableRow)].

(** ** [tabs] *)

Definition Tabs : component S :=
  define (Decls ([any "class"] ++ lib_props "TabsRootProps") [] (lib_emits "TabsRootEmits")) (fun i =>
    let delegatedProps := reactiveOmit (props i) ["class"] in
    let forwarded := forward_emits i delegatedProps in
    kel "reka-ui/TabsRoot" [
        sat "data-slot" "tabs";
        bat "data-orientation" ((field_of forwarded "orientation") .|| #"horizontal");
        bind_attrs forwarded;
        bat "class" (cn_ [ #"gap-2 group/tabs flex data-horizontal:flex-col"; prop i "class"]);
        bind_attrs (rest i)] [slot_ i]).

Definition TabsContent : component S :=
  define (Decls ([any "class"] ++ lib_props "TabsContentProps") [] []) (fun i =>
    let delegatedProps := reactiveOmit (props i) ["class"] in
    kel "reka-ui/TabsContent" [
        sat "data-slot" "tabs-content";
        bat "class" (cn_ [ #"text-sm flex-1 outline-none"; prop i "class"]);
        v_bind delegatedProps;
        bind_attrs (rest i)] [slot_ i]).

Definition TabsList : component S :=
  define (Decls ([any "class"; any "variant"] ++ lib_props "TabsListProps") [("variant", VStr (js "default"))] []) (fun i =>
    let delegatedProps := reactiveOmit (props i) ["class"; "variant"] in
    kel "reka-ui/TabsList" [
        sat "data-slot" "tabs-list";
        bat "data-variant" (prop i "variant");
        v_bind delegatedProps;
        bat "class" (cn_ [variants_ tabsListVariants [("variant", prop i "variant")]; prop i "class"]);
        bind_attrs (rest i)] [slot_ i]).

Definition TabsTrigger : component S :=
  define (Decls ([any "class"] ++ lib_props "TabsTriggerProps") [] []) (fun i =>
    let delegatedProps := reactiveOmit (props i) ["class"] in
    let forwardedProps := forward_props i delegatedProps in
    kel "reka-ui/TabsTrigger" [
        sat "data-slot" "tabs-trigger";
        bat "class" (cn_ [ #"gap-1.5 rounded-xl border border-transparent px-3 py-1 text-sm font-medium group-data-[variant=default]/tabs-list:data-active:shadow-sm group-data-[variant=line]/tabs-list:data-active:shadow-none [&_svg:not([class*=size-])]:size-4 has-data-[icon=inline-end]:pr-1 has-data-[icon=inline-start]:pl-1 relative inline-flex h-[calc(100%-1px)] flex-1 items-center justify-center whitespace-nowrap text-foreground/60 transition-all group-data-vertical/tabs:w-full group-data-vertical/tabs:justify-start hover:text-foreground focus-visible:border-ring focus-visible:ring-3 focus-visible:ring-ring/50 focus-visible:outline-1 focus-visible:outline-ring disabled:pointer-events-none disabled:opacity-50 dark:text-muted-foreground dark:hover:text-foreground [&_svg]:pointer-events-none [&_svg]:shrink-0"; #"group-data-[variant=line]/tabs-list:bg-transparent group-data-[variant=line]/tabs-list:data-active:bg-transparent dark:group-data-[variant=line]/tabs-list:data-active:border-transparent dark:group-data-[variant=line]/tabs-list:data-active:bg-transparent"; #"data-active:bg-background data-active:text-primary dark:data-active:border-input dark:data-active:bg-input/30 dark:data-active:text-primary"; #"after:absolute after:bg-foreground after:opacity-0 after:transition-opacity group-data-horizontal/tabs:after:inset-x-0 group-data-horizontal/tabs:after:bottom-[-5px] group-data-horizontal/tabs:after:h-0.5 group-data-vertical/tabs:after:inset-y-0 group-data-vertical/tabs:after:-right-1 group-data-vertical/tabs:after:w-0.5 group-data-[variant=line]/tabs-list:data-active:after:opacity-100"; prop i "class"]);
        v_bind forwardedProps;
        bind_attrs (rest i)] [slot_ i]).

Definition tabs_exports : list (string * component S) :=
  [("Tabs", Tabs);
   ("TabsContent", TabsContent);
   ("TabsList", TabsList);
   ("TabsTrigger", TabsTrigger)].

(** ** [switch] *)

Definition Switch : component S :=
  define (Decls ([any "class"; any "size"] ++ lib_props "SwitchRootProps") [("size", VStr (js "default"))] (lib_emits "SwitchRootEmits")) (fun i =>
    let delegatedProps := reactiveOmit (props i) ["class"; "size"] in
    let forwarded := forward_emits i delegatedProps in
    kel "reka-ui/SwitchRoot" [
        sat "data-slot" "switch";
        bat "data-size" (prop i "size");
        bind_attrs forwarded;
        bat "class" (cn_ [ #"data-checked:bg-primary data-unchecked:bg-input focus-visible:border-ring focus-visible:ring-ring/50 aria-invalid:ring-destructive/20 dark:aria-invalid:ring-destructive/40 aria-invalid:border-destructive dark:aria-invalid:border-destructive/50 dark:data-unchecked:bg-input/80 shrink-0 rounded-full border border-transparent focus-visible:ring-3 aria-invalid:ring-3 data-[size=default]:h-[18.4px] data-[size=default]:w-8 data-[size=sm]:h-3.5 data-[size=sm]:w-6 peer group/switch relative inline-flex items-center transition-all outline-none after:absolute after:-inset-x-3 after:-inset-y-2 data-disabled:cursor-not-allowed data-disabled:opacity-50"; prop i "class"]);
        bind_attrs (rest i)] [
      kel "reka-ui/SwitchThumb" [
          sat "data-slot" "switch-thumb";
          sat "class" "bg-background dark:data-unchecked:bg-foreground dark:data-checked:bg-primary-foreground rounded-full group-data-[size=default]/switch:size-4 group-data-[size=sm]/switch:size-3 group-data-[size=default]/switch:data-checked:translate-x-[calc(100%-2px)] group-data-[size=sm]/switch:data-checked:translate-x-[calc(100%-2px)] group-data-[size=default]/switch:data-unchecked:translate-x-0 group-data-[size=sm]/switch:data-unchecked:translate-x-0 pointer-events-none block ring-0 transition-transform"] [none]]).

Definition switch_exports : list (string * component S) :=
  [("Switch", Switch)].

(** ** [avatar] *)

Definition Avatar : component S :=
  define (Decls ([any "class"; any "size"]) [] []) (fun i =>
    kel "reka-ui/AvatarRoot" [
        sat "data-slot" "avatar";
        bat "data-size" ((prop i "size") .?? #"default");
        bat "class" (cn_ [variants_ avatarVariants [("size", prop i "size")]; prop i "class"]);
        bind_attrs (rest i)] [slot_ i]).

Definition AvatarBadge : component S :=
  define (Decls ([any "class"]) [] []) (fun i =>
    kel "span" [
        sat "data-slot" "avatar-badge";
        bat "class" (cn_ [ #"bg-primary text-primary-foreground ring-background absolute right-0 bottom-0 z-10 inline-flex items-center justify-center rounded-full bg-blend-color ring-2 select-none"; #"group-data-[size=sm]/avatar:size-2 group-data-[size=sm]/avatar:[&>svg]:hidden"; #"group-data-[size=default]/avatar:size-2.5 group-data-[size=default]/avatar:[&>svg]:size-2"; #"group-data-[size=lg]/avatar:size-3 group-data-[size=lg]/avatar:[&>svg]:size-2"; prop i "class"]);
        bind_attrs (rest i)] [slot_ i]).

Definition AvatarFallback : component S :=
  define (Decls ([any "class"] ++ lib_props "AvatarFallbackProps") [] []) (fun i =>
    let delegatedProps := reactiveOmit (props i) ["class"] in
    kel "reka-ui/AvatarFallback" [
        sat "data-slot" "avatar-fallback";
        v_bind delegatedProps;
        bat "class" (cn_ [ #"bg-muted text-muted-foreground rounded-full flex size-full items-center justify-center text-sm group-data-[size=sm]/avatar:text-xs"; prop i "class"]);
        bind_attrs (rest i)] [slot_ i]).

Definition AvatarGroup : component S :=
  define (Decls ([any "class"]) [] []) (fun i =>
    kel "div" [
        sat "data-slot" "avatar-group";
        bat "class" (cn_ [ #"group/avatar-group flex -space-x-2 *:data-[slot=avatar]:ring-2 *:data-[slot=avatar]:ring-background"; prop i "class"]);
        bind_attrs (rest i)] [slot_ i]).

Definition AvatarGroupCount : component S :=
  define (Decls ([any "class"]) [] []) (fun i =>
    kel "div" [
        sat "data-slot" "avatar-group-count";
        bat "class" (cn_ [ #"bg-muted text-muted-foreground size-8 rounded-full text-sm group-has-data-[size=lg]/avatar-group:size-10 group-has-data-[size=sm]/avatar-group:size-6 [&>svg]:size-4 group-has-data-[size=lg]/avatar-group:[&>svg]:size-5 group-has-data-[size=sm]/avatar-group:[&>svg]:size-3 relative flex shrink-0 items-center justify-center ring-2 ring-background"; prop i "class"]);
        bind_attrs (rest i)] [slot_ i]).

Definition AvatarImage : component S :=
  define (Decls (lib_props "AvatarImageProps") [] []) (fun i =>
    kel "reka-ui/AvatarImage" [
        sat "data-slot" "avatar-image";
        v_bind (props i);
        sat "class" "rounded-full aspect-square size-full object-cover";
        bind_attrs (rest i)] [slot_ i]).

Definition avatar_exports : list (string * component S) :=
  [("Avatar", Avatar);
   ("AvatarBadge", AvatarBadge);
   ("AvatarFallback", AvatarFallback);
   ("AvatarGroup", AvatarGroup);
   ("AvatarGroupCount", AvatarGroupCount);
   ("AvatarImage", AvatarImage)].

(** ** [breadcrumb] *)

Definition Breadcrumb : component S :=
  define (Decls ([any "class"]) [] []) (fun i =>
    kel "nav" [
        sat "aria-label" "breadcrumb";
        sat "data-slot" "breadcrumb";
        bat "class" (cn_ [ #""; prop i "class"]);
        bind_attrs (rest i)] [slot_ i]).

Definition BreadcrumbEllipsis : component S :=
  define (Decls ([any "class"]) [] []) (fun i =>
    kel "span" [
        sat "data-slot" "breadcrumb-ellipsis";
        sat "role" "presentation";
        sat "aria-hidden" "true";
        bat "class" (cn_ [ #"size-5 [&>svg]:size-4 flex items-center justify-center"; prop i "class"]);
        bind_attrs (rest i)] [
      slot_or i (kel "@lucide/vue/MoreHorizontal" [] []);
      kel "span" [sat "class" "sr-only"] [txt "More"]]).

Definition BreadcrumbItem : component S :=
  define (Decls ([any "class"]) [] []) (fun i =>
    kel "li" [
        sat "data-slot" "breadcrumb-item";
        bat "class" (cn_ [ #"gap-1 inline-flex items-center"; prop i "class"]);
        bind_attrs (rest i)] [slot_ i]).

Definition BreadcrumbLink : component S :=
  define (Decls ([any "class"] ++ lib_props "PrimitiveProps") [("as", VStr (js "a"))] []) (fun i =>
    kel "reka-ui/Primitive" [
        sat "data-slot" "breadcrumb-link";
        bat "as" (prop i "as");
        bat "as-child" (prop i "asChild");
        bat "class" (cn_ [ #"hover:text-foreground transition-colors"; prop i "class"]);
        bind_attrs (rest i)] [slot_ i]).

Definition BreadcrumbList : component S :=
  define (Decls ([any "class"]) [] []) (fun i =>
    kel "ol" [
        sat "data-slot" "breadcrumb-list";
        bat "class" (cn_ [ #"text-muted-foreground gap-1.5 text-sm flex flex-wrap items-center wrap-break-word"; prop i "class"]);
        bind_attrs (rest i)] [slot_ i]).

Definition BreadcrumbPage : component S :=
  define (Decls ([any "class"]) [] []) (fun i =>
    kel "span" [
        sat "data-slot" "breadcrumb-page";
        sat "role" "link";
        sat "aria-disabled" "true";
        sat "aria-current" "page";
        bat "class" (cn_ [ #"text-foreground font-normal"; prop i "class"]);
        bind_attrs (rest i)] [slot_ i]).

Definition BreadcrumbSeparator : component S :=
  define (Decls ([any "class"]) [] []) (fun i =>
    kel "li" [
        sat "data-slot" "breadcrumb-separator";
        sat "role" "presentation";
        sat "aria-hidden" "true";
        bat "class" (cn_ [ #"[&>svg]:size-3.5"; prop i "class"]);
        bind_attrs (rest i)] [slot_or i (kel "@lucide/vue/ChevronRight" [sat "class" "cn-rtl-flip"] [])]).

Definition breadcrumb_exports : list (string * component S) :=
  [("Breadcrumb", Breadcrumb);
   ("BreadcrumbEllipsis", BreadcrumbEllipsis);
   ("BreadcrumbItem", BreadcrumbItem);
   ("BreadcrumbLink", BreadcrumbLink);
   ("BreadcrumbList", BreadcrumbList);
   ("BreadcrumbPage", BreadcrumbPage);
   ("BreadcrumbSeparator", BreadcrumbSeparator)].

(** ** [collapsible] *)

Definition Collapsible : component S :=
  define (Decls (lib_props "CollapsibleRootProps") [] (lib_emits "CollapsibleRootEmits")) (fun i =>
    let forwarded := forward_emits i (props i) in
    kel "reka-ui/CollapsibleRoot" [sat "data-slot" "collapsible"; bind_attrs forwarded; bind_attrs (rest i)] [slot_ i]).

Definition CollapsibleContent : component S :=
  define (Decls (lib_props "CollapsibleContentProps") [] []) (fun i =>
    kel "reka-ui/CollapsibleContent" [sat "data-slot" "collapsible-content"; v_bind (props i); bind_attrs (rest i)] [slot_ i]).

Definition CollapsibleTrigger : component S :=
  define (Decls (lib_props "CollapsibleTriggerProps") [] []) (fun i =>
    kel "reka-ui/CollapsibleTrigger" [sat "data-slot" "collapsible-trigger"; v_bind (props i); bind_attrs (rest i)] [slot_ i]).

Definition collapsible_exports : list (string * component S) :=
  [("Collapsible", Collapsible);
   ("CollapsibleContent", CollapsibleContent);
   ("CollapsibleTrigger", CollapsibleTrigger)].

(** ** [empty] *)

Definition Empty : component S :=
  define (Decls ([any "class"]) [] []) (fun i =>
    kel "div" [
        sat "data-slot" "empty";
        bat "class" (cn_ [ #"gap-4 rounded-xl border-dashed p-6 flex w-full min-w-0 flex-1 flex-col items-center justify-center text-center text-balance"; prop i "class"]);
        bind_attrs (rest i)] [slot_ i]).

Definition EmptyContent : component S :=
  define (Decls ([any "class"]) [] []) (fun i =>
    kel "div" [
        sat "data-slot" "empty-content";
        bat "class" (cn_ [ #"gap-2.5 text-sm flex w-full max-w-sm min-w-0 flex-col items-center text-balance"; prop i "class"]);
        bind_attrs (rest i)] [slot_ i]).

Definition EmptyDescription : component S :=
  define (Decls ([any "class"]) [] []) (fun i =>
    kel "p" [
        sat "data-slot" "empty-description";
        bat "class" (cn_ [ #"text-sm/relaxed text-muted-foreground [&>a]:underline [&>a]:underline-offset-4 [&>a:hover]:text-primary"; (attr_value i "class") .?? #""]);
        bind_attrs (rest i)] [slot_ i]).

Definition EmptyHeader : component S :=
  define (Decls ([any "class"]) [] []) (fun i =>
    kel "div" [
        sat "data-slot" "empty-header";
        bat "class" (cn_ [ #"gap-2 flex max-w-sm flex-col items-center"; prop i "class"]);
        bind_attrs (rest i)] [slot_ i]).

Definition EmptyMedia : component S :=
  define (Decls ([any "class"; any "variant"]) [("variant", VStr (js "default"))] []) (fun i =>
    kel "div" [
        sat "data-slot" "empty-icon";
        bat "data-variant" (prop i "variant");
        bat "class" (cn_ [variants_ emptyMediaVariants [("variant", prop i "variant")]; prop i "class"]);
        bind_attrs (rest i)] [slot_ i]).

Definition EmptyTitle : component S :=
  define (Decls ([any "class"]) [] []) (fun i =>
    kel "div" [
        sat "data-slot" "empty-title";
        bat "class" (cn_ [ #"text-sm font-medium tracking-tight cn-font-heading"; prop i "class"]);
        bind_attrs (rest i)] [slot_ i]).

Definition empty_exports : list (string * component S) :=
  [("Empty", Empty);
   ("EmptyContent", EmptyContent);
   ("EmptyDescription", EmptyDescription);
   ("EmptyHeader", EmptyHeader);
   ("EmptyMedia", EmptyMedia);
   ("EmptyTitle", EmptyTitle)].

(** ** [input-group] *)

Definition InputGroup : component S :=
  define (Decls ([any "class"]) [] []) (fun i =>
    kel "div" [
        sat "data-slot" "input-group";
        sat "role" "group";
        bat "class" (cn_ [ #"border-input dark:bg-input/30 has-[[data-slot=input-group-control]:focus-visible]:border-ring has-[[data-slot=input-group-control]:focus-visible]:ring-ring/50 has-[[data-slot][aria-invalid=true]]:ring-destructive/20 has-[[data-slot][aria-invalid=true]]:border-destructive dark:has-[[data-slot][aria-invalid=true]]:ring-destructive/40 has-disabled:bg-input/50 dark:has-disabled:bg-input/80 h-8 rounded-lg border transition-colors in-data-[slot=combobox-content]:focus-within:border-inherit in-data-[slot=combobox-content]:focus-within:ring-0 has-disabled:opacity-50 has-[[data-slot=input-group-control]:focus-visible]:ring-3 has-[[data-slot][aria-invalid=true]]:ring-3 has-[>[data-align=block-end]]:h-auto has-[>[data-align=block-end]]:flex-col has-[>[data-align=block-start]]:h-auto has-[>[data-align=block-start]]:flex-col has-[>[data-align=block-end]]:[&>input]:pt-3 has-[>[data-align=block-start]]:[&>input]:pb-3 has-[>[data-align=inline-end]]:[&>input]:pr-1.5 has-[>[data-align=inline-start]]:[&>input]:pl-1.5 group/input-group relative flex w-full min-w-0 items-center outline-none has-[>textarea]:h-auto"; prop i "class"]);
        bind_attrs (rest i)] [slot_ i]).

Definition InputGroupButton : component S :=
  define (Decls ([any "variant"; any "size"; any "class"]) [("size", VStr (js "xs")); ("variant", VStr (js "ghost"))] []) (fun i =>
    Button [
        sat "type" "button";
        bat "data-size" (prop i "size");
        bat "variant" (prop i "variant");
        bat "class" (cn_ [variants_ inputGroupButtonVariants [("size", prop i "size")]; prop i "class"]);
        bind_attrs (rest i)] [slot_ i]).

Definition InputGroupInput : component S :=
  define (Decls ([any "class"]) [] []) (fun i =>
    Input [
        sat "data-slot" "input-group-control";
        bat "class" (cn_ [ #"rounded-none border-0 bg-transparent shadow-none ring-0 focus-visible:ring-0 disabled:bg-transparent aria-invalid:ring-0 dark:bg-transparent dark:disabled:bg-transparent flex-1"; prop i "class"]);
        bind_attrs (rest i)] []).

Definition InputGroupText : component S :=
  define (Decls ([any "class"]) [] []) (fun i =>
    kel "span" [
        bat "class" (cn_ [ #"text-muted-foreground gap-2 text-sm [&_svg:not([class*=size-])]:size-4 flex items-center [&_svg]:pointer-events-none"; prop i "class"]);
        bind_attrs (rest i)] [slot_ i]).

Definition InputGroupTextarea : component S :=
  define (Decls ([any "class"]) [] []) (fun i =>
    Textarea [
        sat "data-slot" "input-group-control";
        bat "class" (cn_ [ #"rounded-none border-0 bg-transparent py-2 shadow-none ring-0 focus-visible:ring-0 disabled:bg-transparent aria-invalid:ring-0 dark:bg-transparent dark:disabled:bg-transparent flex-1 resize-none"; prop i "class"]);
        bind_attrs (rest i)] []).

Definition input_group_exports : list (string * component S) :=
  [("InputGroup", InputGroup);
   ("InputGroupButton", InputGroupButton);
   ("InputGroupInput", InputGroupInput);
   ("InputGroupText", InputGroupText);
   ("InputGroupTextarea", InputGroupTextarea)].

(** ** [scroll-area] *)

Definition ScrollBar : component S :=
  define (Decls ([any "class"] ++ lib_props "ScrollAreaScrollbarProps") [("orientation", VStr (js "vertical"))] []) (fun i =>
    let delegatedProps := reactiveOmit (props i) ["class"] in
    kel "reka-ui/ScrollAreaScrollbar" [
        sat "data-slot" "scroll-area-scrollbar";
        bat "data-orientation" (prop i "orientation");
        v_bind delegatedProps;
        bat "class" (cn_ [ #"data-horizontal:h-2.5 data-horizontal:flex-col data-horizontal:border-t data-horizontal:border-t-transparent data-vertical:h-full data-vertical:w-2.5 data-vertical:border-l data-vertical:border-l-transparent flex touch-none p-px transition-colors select-none"; prop i "class"]);
        bind_attrs (rest i)] [
      kel "reka-ui/ScrollAreaThumb" [sat "data-slot" "scroll-area-thumb"; sat "class" "rounded-full relative flex-1 bg-border"] []]).

Definition ScrollArea : component S :=
  define (Decls ([any "class"] ++ lib_props "ScrollAreaRootProps") [] []) (fun i =>
    let delegatedProps := reactiveOmit (props i) ["class"] in
    kel "reka-ui/ScrollAreaRoot" [
        sat "data-slot" "scroll-area";
        v_bind delegatedProps;
        bat "class" (cn_ [ #"relative"; prop i "class"]);
        bind_attrs (rest i)] [
      kel "reka-ui/ScrollAreaViewport" [
          sat "data-slot" "scroll-area-viewport";
          sat "class" "size-full rounded-[inherit] transition-[color,box-shadow] outline-none focus-visible:ring-3 focus-visible:ring-ring/50 focus-visible:outline-1"] [slot_ i];
      ScrollBar [] [];
      kel "reka-ui/ScrollAreaCorner" [] []]).

Definition scroll_area_exports : list (string * component S) :=
  [("ScrollArea", ScrollArea);
   ("ScrollBar", ScrollBar)].

End components.
