(* ===== verification/UiOverlay.v ===== *)
(** * The overlays of [components/ui]

    Dialogs, sheets, selects, menus, popovers and tooltips: wrappers of [reka-ui]
    with the classes and the close buttons of the panel. *)

From stdpp Require Import base list gmap strings.
From Stdlib Require Import NArith ZArith Lia String SpecFloat.
From S2P Require Import Prelude JsString JsNum JsVal Json Prog State Payload View Form Kit UiBase.
Local Open Scope js_scope.

Section components.
Context `{Platform} `{UiLibs} {S : Type}.

(** ** [dialog] *)

Definition Dialog : component S :=
  define (Decls (lib_props "DialogRootProps") [] (lib_emits "DialogRootEmits")) (fun i =>
    let forwarded := forward_emits i (props i) in
    kel "reka-ui/DialogRoot" [sat "data-slot" "dialog"; bind_attrs forwarded; bind_attrs (rest i)] [slot_ i]).

Definition DialogClose : component S :=
  define (Decls (lib_props "DialogCloseProps") [] []) (fun i =>
    kel "reka-ui/DialogClose" [sat "data-slot" "dialog-close"; v_bind (props i); bind_attrs (rest i)] [slot_ i]).

Definition DialogOverlay : component S :=
  define (Decls ([any "class"] ++ lib_props "DialogOverlayProps") [] []) (fun i =>
    let delegatedProps := reactiveOmit (props i) ["class"] in
    kel "reka-ui/DialogOverlay" [
        sat "data-slot" "dialog-overlay";
        v_bind delegatedProps;
        bat "class" (cn_ [ #"data-open:animate-in data-closed:animate-out data-closed:fade-out-0 data-open:fade-in-0 bg-black/10 duration-100 supports-backdrop-filter:backdrop-blur-xs fixed inset-0 isolate z-50"; prop i "class"]);
        bind_attrs (rest i)] [slot_ i]).

Definition DialogContent : component S :=
  define (Decls ([any "class"; flag "showCloseButton"] ++ lib_props "DialogContentProps") [("showCloseButton", VBool true)] (lib_emits "DialogContentEmits")) (fun i =>
    let delegatedProps := reactiveOmit (props i) ["class"] in
    let forwarded := forward_emits i delegatedProps in
    kel "reka-ui/DialogPortal" [] [
      DialogOverlay [] [];
      kel "reka-ui/DialogContent" [
          sat "data-slot" "dialog-content";
          spread (rest i) forwarded;
          bat "class" (cn_ [ #"bg-popover text-popover-foreground data-open:animate-in data-closed:animate-out data-closed:fade-out-0 data-open:fade-in-0 data-closed:zoom-out-95 data-open:zoom-in-95 ring-foreground/10 grid max-w-[calc(100%-2rem)] gap-4 rounded-2xl p-4 text-sm ring-1 duration-100 sm:max-w-sm fixed top-1/2 left-1/2 z-50 w-full -translate-x-1/2 -translate-y-1/2 outline-none"; prop i "class"])] [
        slot_ i;
        v_if (prop i "showCloseButton")
          (kel "reka-ui/DialogClose" [sat "data-slot" "dialog-close"; sat "as-child" ""] [
            Button [sat "variant" "ghost"; sat "class" "absolute top-2 right-2"; sat "size" "icon-sm"] [kel "@lucide/vue/X" [] []; kel "span" [sat "class" "sr-only"] [txt "Close"]]])
          none]]).

Definition DialogDescription : component S :=
  define (Decls ([any "class"] ++ lib_props "DialogDescriptionProps") [] []) (fun i =>
    let delegatedProps := reactiveOmit (props i) ["class"] in
    let forwardedProps := forward_props i delegatedProps in
    kel "reka-ui/DialogDescription" [
        sat "data-slot" "dialog-description";
        v_bind forwardedProps;
        bat "class" (cn_ [ #"text-muted-foreground *:[a]:hover:text-foreground text-sm *:[a]:underline *:[a]:underline-offset-3"; prop i "class"]);
        bind_attrs (rest i)] [slot_ i]).

Definition DialogFooter : component S :=
  define (Decls ([any "class"; flag "showCloseButton"]) [("showCloseButton", VBool false)] []) (fun i =>
    kel "div" [
        sat "data-slot" "dialog-footer";
        bat "class" (cn_ [ #"bg-muted/50 -mx-4 -mb-4 rounded-b-xl border-t p-4 flex flex-col-reverse gap-2 sm:flex-row sm:justify-end"; prop i "class"]);
        bind_attrs (rest i)] [
      slot_ i;
      v_if (prop i "showCloseButton")
        (kel "reka-ui/DialogClose" [sat "as-child" ""] [Button [sat "variant" "outline"] [txt " Close "]])
        none]).

Definition DialogHeader : component S :=
  define (Decls ([any "class"]) [] []) (fun i =>
    kel "div" [
        sat "data-slot" "dialog-header";
        bat "class" (cn_ [ #"gap-2 flex flex-col"; prop i "class"]);
        bind_attrs (rest i)] [slot_ i]).

Definition DialogTitle : component S :=
  define (Decls ([any "class"] ++ lib_props "DialogTitleProps") [] []) (fun i =>
    let delegatedProps := reactiveOmit (props i) ["class"] in
    let forwardedProps := forward_props i delegatedProps in
    kel "reka-ui/DialogTitle" [
        sat "data-slot" "dialog-title";
        v_bind forwardedProps;
        bat "class" (cn_ [ #"text-base leading-none font-medium cn-font-heading"; prop i "class"]);
        bind_attrs (rest i)] [slot_ i]).

Definition DialogTrigger : component S :=
  define (Decls (lib_props "DialogTriggerProps") [] []) (fun i =>
    kel "reka-ui/DialogTrigger" [sat "data-slot" "dialog-trigger"; v_bind (props i); bind_attrs (rest i)] [slot_ i]).

Definition dialog_exports : list (string * component S) :=
  [("Dialog", Dialog);
   ("DialogClose", DialogClose);
   ("DialogContent", DialogContent);
   ("DialogDescription", DialogDescription);
   ("DialogFooter", DialogFooter);
   ("DialogHeader", DialogHeader);
   ("DialogOverlay", DialogOverlay);
   ("DialogTitle", DialogTitle);
   ("DialogTrigger", DialogTrigger)].

(** ** [sheet] *)

Definition Sheet : component S :=
  define (Decls (lib_props "DialogRootProps") [] (lib_emits "DialogRootEmits")) (fun i =>
    let forwarded := forward_emits i (props i) in
    kel "reka-ui/DialogRoot" [sat "data-slot" "sheet"; bind_attrs forwarded; bind_attrs (rest i)] [slot_ i]).

Definition SheetClose : component S :=
  define (Decls (lib_props "DialogCloseProps") [] []) (fun i =>
    kel "reka-ui/DialogClose" [sat "data-slot" "sheet-close"; v_bind (props i); bind_attrs (rest i)] [slot_ i]).

Definition SheetOverlay : component S :=
  define (Decls ([any "class"] ++ lib_props "DialogOverlayProps") [] []) (fun i =>
    let delegatedProps := reactiveOmit (props i) ["class"] in
    kel "reka-ui/DialogOverlay" [
        sat "data-slot" "sheet-overlay";
        bat "class" (cn_ [ #"bg-black/10 supports-backdrop-filter:backdrop-blur-xs fixed inset-0 z-50 duration-100 data-open:animate-in data-open:fade-in-0 data-closed:animate-out data-closed:fade-out-0"; prop i "class"]);
        v_bind delegatedProps;
        bind_attrs (rest i)] [slot_ i]).

Definition SheetContent : component S :=
  define (Decls ([any "class"; any "side"; flag "showCloseButton"] ++ lib_props "DialogContentProps") [("side", VStr (js "right")); ("showCloseButton", VBool true)] (lib_emits "DialogContentEmits")) (fun i =>
    let delegatedProps := reactiveOmit (props i) ["class"; "side"; "showCloseButton"] in
    let forwarded := forward_emits i delegatedProps in
    kel "reka-ui/DialogPortal" [] [
      SheetOverlay [] [];
      kel "reka-ui/DialogContent" [
          sat "data-slot" "sheet-content";
          bat "data-side" (prop i "side");
          bat "class" (cn_ [ #"bg-popover text-popover-foreground fixed z-50 flex flex-col gap-4 bg-clip-padding text-sm shadow-lg transition duration-200 ease-in-out data-[side=bottom]:inset-x-0 data-[side=bottom]:bottom-0 data-[side=bottom]:h-auto data-[side=bottom]:border-t data-[side=left]:inset-y-0 data-[side=left]:left-0 data-[side=left]:h-full data-[side=left]:w-3/4 data-[side=left]:border-r data-[side=right]:inset-y-0 data-[side=right]:right-0 data-[side=right]:h-full data-[side=right]:w-3/4 data-[side=right]:border-l data-[side=top]:inset-x-0 data-[side=top]:top-0 data-[side=top]:h-auto data-[side=top]:border-b data-[side=left]:sm:max-w-sm data-[side=right]:sm:max-w-sm data-open:animate-in data-open:fade-in-0 data-[side=bottom]:data-open:slide-in-from-bottom-10 data-[side=left]:data-open:slide-in-from-left-10 data-[side=right]:data-open:slide-in-from-right-10 data-[side=top]:data-open:slide-in-from-top-10 data-closed:animate-out data-closed:fade-out-0 data-[side=bottom]:data-closed:slide-out-to-bottom-10 data-[side=left]:data-closed:slide-out-to-left-10 data-[side=right]:data-closed:slide-out-to-right-10 data-[side=top]:data-closed:slide-out-to-top-10"; prop i "class"]);
          spread (rest i) forwarded] [
        slot_ i;
        v_if (prop i "showCloseButton")
          (kel "reka-ui/DialogClose" [sat "data-slot" "sheet-close"; sat "as-child" ""] [
            Button [sat "variant" "ghost"; sat "class" "absolute top-3 right-3"; sat "size" "icon-sm"] [kel "@lucide/vue/X" [] []; kel "span" [sat "class" "sr-only"] [txt "Close"]]])
          none]]).

Definition SheetDescription : component S :=
  define (Decls ([any "class"] ++ lib_props "DialogDescriptionProps") [] []) (fun i =>
    let delegatedProps := reactiveOmit (props i) ["class"] in
    kel "reka-ui/DialogDescription" [
        sat "data-slot" "sheet-description";
        bat "class" (cn_ [ #"text-muted-foreground text-sm"; prop i "class"]);
        v_bind delegatedProps;
        bind_attrs (rest i)] [slot_ i]).

Definition SheetFooter : component S :=
  define (Decls ([any "class"]) [] []) (fun i =>
    kel "div" [
        sat "data-slot" "sheet-footer";
        bat "class" (cn_ [ #"gap-2 p-4 mt-auto flex flex-col"; prop i "class"]);
        bind_attrs (rest i)] [slot_ i]).

Definition SheetHeader : component S :=
  define (Decls ([any "class"]) [] []) (fun i =>
    kel "div" [
        sat "data-slot" "sheet-header";
        bat "class" (cn_ [ #"gap-0.5 p-4 flex flex-col"; prop i "class"]);
        bind_attrs (rest i)] [slot_ i]).

Definition SheetTitle : component S :=
  define (Decls ([any "class"] ++ lib_props "DialogTitleProps") [] []) (fun i =>
    let delegatedProps := reactiveOmit (props i) ["class"] in
    kel "reka-ui/DialogTitle" [
        sat "data-slot" "sheet-title";
        bat "class" (cn_ [ #"text-foreground text-base font-medium cn-font-heading"; prop i "class"]);
        v_bind delegatedProps;
        bind_attrs (rest i)] [slot_ i]).

Definition SheetTrigger : component S :=
  define (Decls (lib_props "DialogTriggerProps") [] []) (fun i =>
    kel "reka-ui/DialogTrigger" [sat "data-slot" "sheet-trigger"; v_bind (props i); bind_attrs (rest i)] [slot_ i]).

Definition sheet_exports : list (string * component S) :=
  [("Sheet", Sheet);
   ("SheetClose", SheetClose);
   ("SheetContent", SheetContent);
   ("SheetDescription", SheetDescription);
   ("SheetFooter", SheetFooter);
   ("SheetHeader", SheetHeader);
   ("SheetTitle", SheetTitle);
   ("SheetTrigger", SheetTrigger)].

(** ** [alert-dialog] *)

Definition AlertDialog : component S :=
  define (Decls (lib_props "AlertDialogProps") [] (lib_emits "AlertDialogEmits")) (fun i =>
    let forwarded := forward_emits i (props i) in
    kel "reka-ui/AlertDialogRoot" [sat "data-slot" "alert-dialog"; bind_attrs forwarded; bind_attrs (rest i)] [slot_ i]).

Definition AlertDialogAction : component S :=
  define (Decls ([any "class"; any "variant"; any "size"] ++ lib_props "AlertDialogActionProps") [("variant", VStr (js "default")); ("size", VStr (js "default"))] []) (fun i =>
    let delegatedProps := reactiveOmit (props i) ["class"; "variant"; "size"] in
    kel "reka-ui/AlertDialogAction" [
        sat "data-slot" "alert-dialog-action";
        v_bind delegatedProps;
        bat "class" (cn_ [ #""; variants_ buttonVariants [("variant", prop i "variant"); ("size", prop i "size")]; prop i "class"]);
        bind_attrs (rest i)] [slot_ i]).

Definition AlertDialogCancel : component S :=
  define (Decls ([any "class"; any "variant"; any "size"] ++ lib_props "AlertDialogCancelProps") [("variant", VStr (js "outline")); ("size", VStr (js "default"))] []) (fun i =>
    let delegatedProps := reactiveOmit (props i) ["class"; "variant"; "size"] in
    kel "reka-ui/AlertDialogCancel" [
        sat "data-slot" "alert-dialog-cancel";
        v_bind delegatedProps;
        bat "class" (cn_ [ #""; variants_ buttonVariants [("variant", prop i "variant"); ("size", prop i "size")]; prop i "class"]);
        bind_attrs (rest i)] [slot_ i]).

Definition AlertDialogContent : component S :=
  define (Decls ([any "class"; any "size"] ++ lib_props "AlertDialogContentProps") [("size", VStr (js "default"))] (lib_emits "AlertDialogContentEmits")) (fun i =>
    let delegatedProps := reactiveOmit (props i) ["class"; "size"] in
    let forwarded := forward_emits i delegatedProps in
    kel "reka-ui/AlertDialogPortal" [] [
      kel "reka-ui/AlertDialogOverlay" [
          sat "data-slot" "alert-dialog-overlay";
          sat "class" "data-open:animate-in data-closed:animate-out data-closed:fade-out-0 data-open:fade-in-0 bg-black/10 duration-100 supports-backdrop-filter:backdrop-blur-xs fixed inset-0 z-50"] [];
      kel "reka-ui/AlertDialogContent" [
          sat "data-slot" "alert-dialog-content";
          bat "data-size" (prop i "size");
          spread (rest i) forwarded;
          bat "class" (cn_ [ #"data-open:animate-in data-closed:animate-out data-closed:fade-out-0 data-open:fade-in-0 data-closed:zoom-out-95 data-open:zoom-in-95 bg-popover text-popover-foreground ring-foreground/10 gap-4 rounded-xl p-4 ring-1 duration-100 data-[size=default]:max-w-xs data-[size=sm]:max-w-xs data-[size=default]:sm:max-w-sm group/alert-dialog-content fixed top-1/2 left-1/2 z-50 grid w-full -translate-x-1/2 -translate-y-1/2 outline-none"; prop i "class"])] [slot_ i]]).

Definition AlertDialogDescription : component S :=
  define (Decls ([any "class"] ++ lib_props "AlertDialogDescriptionProps") [] []) (fun i =>
    let delegatedProps := reactiveOmit (props i) ["class"] in
    kel "reka-ui/AlertDialogDescription" [
        sat "data-slot" "alert-dialog-description";
        v_bind delegatedProps;
        bat "class" (cn_ [ #"text-muted-foreground *:[a]:hover:text-foreground text-sm text-balance md:text-pretty *:[a]:underline *:[a]:underline-offset-3"; prop i "class"]);
        bind_attrs (rest i)] [slot_ i]).

Definition AlertDialogFooter : component S :=
  define (Decls ([any "class"]) [] []) (fun i =>
    kel "div" [
        sat "data-slot" "alert-dialog-footer";
        bat "class" (cn_ [ #"bg-muted/50 -mx-4 -mb-4 rounded-b-xl border-t p-4 flex flex-col-reverse gap-2 group-data-[size=sm]/alert-dialog-content:grid group-data-[size=sm]/alert-dialog-content:grid-cols-2 sm:flex-row sm:justify-end"; prop i "class"]);
        bind_attrs (rest i)] [slot_ i]).

Definition AlertDialogHeader : component S :=
  define (Decls ([any "class"]) [] []) (fun i =>
    kel "div" [
        sat "data-slot" "alert-dialog-header";
        bat "class" (cn_ [ #"grid grid-rows-[auto_1fr] place-items-center gap-1.5 text-center has-data-[slot=alert-dialog-media]:grid-rows-[auto_auto_1fr] has-data-[slot=alert-dialog-media]:gap-x-4 sm:group-data-[size=default]/alert-dialog-content:place-items-start sm:group-data-[size=default]/alert-dialog-content:text-left sm:group-data-[size=default]/alert-dialog-content:has-data-[slot=alert-dialog-media]:grid-rows-[auto_1fr]"; prop i "class"]);
        bind_attrs (rest i)] [slot_ i]).

Definition AlertDialogMedia : component S :=
  define (Decls ([any "class"]) [] []) (fun i =>
    kel "div" [
        sat "data-slot" "alert-dialog-media";
        bat "class" (cn_ [ #"bg-muted mb-2 inline-flex size-10 items-center justify-center rounded-md sm:group-data-[size=default]/alert-dialog-content:row-span-2 *:[svg:not([class*=size-])]:size-6"; prop i "class"]);
        bind_attrs (rest i)] [slot_ i]).

Definition AlertDialogTitle : component S :=
  define (Decls ([any "class"] ++ lib_props "AlertDialogTitleProps") [] []) (fun i =>
    let delegatedProps := reactiveOmit (props i) ["class"] in
    kel "reka-ui/AlertDialogTitle" [
        sat "data-slot" "alert-dialog-title";
        v_bind delegatedProps;
        bat "class" (cn_ [ #"text-base font-medium sm:group-data-[size=default]/alert-dialog-content:group-has-data-[slot=alert-dialog-media]/alert-dialog-content:col-start-2 cn-font-heading"; prop i "class"]);
        bind_attrs (rest i)] [slot_ i]).

Definition AlertDialogTrigger : component S :=
  define (Decls (lib_props "AlertDialogTriggerProps") [] []) (fun i =>
    kel "reka-ui/AlertDialogTrigger" [sat "data-slot" "alert-dialog-trigger"; v_bind (props i); bind_attrs (rest i)] [slot_ i]).

Definition alert_dialog_exports : list (string * component S) :=
  [("AlertDialog", AlertDialog);
   ("AlertDialogAction", AlertDialogAction);
   ("AlertDialogCancel", AlertDialogCancel);
   ("AlertDialogContent", AlertDialogContent);
   ("AlertDialogDescription", AlertDialogDescription);
   ("AlertDialogFooter", AlertDialogFooter);
   ("AlertDialogHeader", AlertDialogHeader);
   ("AlertDialogMedia", AlertDialogMedia);
   ("AlertDialogTitle", AlertDialogTitle);
   ("AlertDialogTrigger", AlertDialogTrigger)].

(** ** [select] *)

Definition Select : component S :=
  define (Decls (lib_props "SelectRootProps") [] (lib_emits "SelectRootEmits")) (fun i =>
    let forwarded := forward_emits i (props i) in
    kel "reka-ui/SelectRoot" [sat "data-slot" "select"; bind_attrs forwarded; bind_attrs (rest i)] [slot_ i]).

Definition SelectScrollDownButton : component S :=
  define (Decls ([any "class"] ++ lib_props "SelectScrollDownButtonProps") [] []) (fun i =>
    let delegatedProps := reactiveOmit (props i) ["class"] in
    let forwardedProps := forward_props i delegatedProps in
    kel "reka-ui/SelectScrollDownButton" [
        sat "data-slot" "select-scroll-down-button";
        v_bind forwardedProps;
        bat "class" (cn_ [ #"bg-popover z-10 flex cursor-default items-center justify-center py-1 [&_svg:not([class*=size-])]:size-4"; prop i "class"]);
        bind_attrs (rest i)] [slot_or i (kel "@lucide/vue/ChevronDown" [] [])]).

Definition SelectScrollUpButton : component S :=
  define (Decls ([any "class"] ++ lib_props "SelectScrollUpButtonProps") [] []) (fun i =>
    let delegatedProps := reactiveOmit (props i) ["class"] in
    let forwardedProps := forward_props i delegatedProps in
    kel "reka-ui/SelectScrollUpButton" [
        sat "data-slot" "select-scroll-up-button";
        v_bind forwardedProps;
        bat "class" (cn_ [ #"bg-popover z-10 flex cursor-default items-center justify-center py-1 [&_svg:not([class*=size-])]:size-4"; prop i "class"]);
        bind_attrs (rest i)] [slot_or i (kel "@lucide/vue/ChevronUp" [] [])]).

Definition SelectContent : component S :=
  define (Decls ([any "class"] ++ lib_props "SelectContentProps") [("position", VStr (js "item-aligned")); ("align", VStr (js "center"))] (lib_emits "SelectContentEmits")) (fun i =>
    let delegatedProps := reactiveOmit (props i) ["class"] in
    let forwarded := forward_emits i delegatedProps in
    kel "reka-ui/SelectPortal" [] [
      kel "reka-ui/SelectContent" [
          sat "data-slot" "select-content";
          bat "data-align-trigger" ((prop i "position") === #"item-aligned");
          spread (rest i) forwarded;
          bat "class" (cn_ [ #"bg-popover text-popover-foreground data-open:animate-in data-closed:animate-out data-closed:fade-out-0 data-open:fade-in-0 data-closed:zoom-out-95 data-open:zoom-in-95 data-[side=bottom]:slide-in-from-top-2 data-[side=left]:slide-in-from-right-2 data-[side=right]:slide-in-from-left-2 data-[side=top]:slide-in-from-bottom-2 ring-foreground/10 min-w-36 rounded-2xl shadow-md ring-1 duration-100 data-[side=inline-start]:slide-in-from-right-2 data-[side=inline-end]:slide-in-from-left-2 cn-menu-translucent relative z-50 max-h-(--reka-select-content-available-height) origin-(--reka-select-content-transform-origin) overflow-x-hidden overflow-y-auto data-[align-trigger=true]:animate-none"; ((prop i "position") === #"popper") .&& #"data-[side=bottom]:translate-y-1 data-[side=left]:-translate-x-1 data-[side=right]:translate-x-1 data-[side=top]:-translate-y-1"; prop i "class"])] [
        SelectScrollUpButton [] [];
        kel "reka-ui/SelectViewport" [
            bat "data-position" (prop i "position");
            bat "class" (cn_ [ #"data-[position=popper]:h-(--reka-select-trigger-height) data-[position=popper]:w-full data-[position=popper]:min-w-(--reka-select-trigger-width)"])] [slot_ i];
        SelectScrollDownButton [] []]]).

Definition SelectGroup : component S :=
  define (Decls ([any "class"] ++ lib_props "SelectGroupProps") [] []) (fun i =>
    let delegatedProps := reactiveOmit (props i) ["class"] in
    kel "reka-ui/SelectGroup" [
        sat "data-slot" "select-group";
        v_bind delegatedProps;
        bat "class" (cn_ [ #"scroll-my-1 p-1"; prop i "class"]);
        bind_attrs (rest i)] [slot_ i]).

Definition SelectItem : component S :=
  define (Decls ([any "class"] ++ lib_props "SelectItemProps") [] []) (fun i =>
    let delegatedProps := reactiveOmit (props i) ["class"] in
    let forwardedProps := forward_props i delegatedProps in
    kel "reka-ui/SelectItem" [
        sat "data-slot" "select-item";
        v_bind forwardedProps;
        bat "class" (cn_ [ #"focus:bg-accent focus:text-accent-foreground not-data-[variant=destructive]:focus:**:text-accent-foreground gap-1.5 rounded-md py-1 pr-8 pl-1.5 text-sm [&_svg:not([class*=size-])]:size-4 *:[span]:last:flex *:[span]:last:items-center *:[span]:last:gap-2 relative flex w-full cursor-default items-center outline-hidden select-none data-[disabled]:pointer-events-none data-[disabled]:opacity-50 [&_svg]:pointer-events-none [&_svg]:shrink-0"; prop i "class"]);
        bind_attrs (rest i)] [
      kel "span" [
          sat "class" "pointer-events-none absolute right-2 flex size-4 items-center justify-center"] [
        kel "reka-ui/SelectItemIndicator" [] [kel "@lucide/vue/Check" [sat "class" "pointer-events-none"] []]];
      kel "reka-ui/SelectItemText" [] [slot_ i]]).

Definition SelectItemText : component S :=
  define (Decls (lib_props "SelectItemTextProps") [] []) (fun i =>
    kel "reka-ui/SelectItemText" [sat "data-slot" "select-item-text"; v_bind (props i); bind_attrs (rest i)] [slot_ i]).

Definition SelectLabel : component S :=
  define (Decls ([any "class"] ++ lib_props "SelectLabelProps") [] []) (fun i =>
    kel "reka-ui/SelectLabel" [
        sat "data-slot" "select-label";
        bat "class" (cn_ [ #"text-muted-foreground px-1.5 py-1 text-xs"; prop i "class"]);
        bind_attrs (rest i)] [slot_ i]).

Definition SelectSeparator : component S :=
  define (Decls ([any "class"] ++ lib_props "SelectSeparatorProps") [] []) (fun i =>
    let delegatedProps := reactiveOmit (props i) ["class"] in
    kel "reka-ui/SelectSeparator" [
        sat "data-slot" "select-separator";
        v_bind delegatedProps;
        bat "class" (cn_ [ #"bg-border -mx-1 my-1 h-px pointer-events-none"; prop i "class"]);
        bind_attrs (rest i)] []).

Definition SelectTrigger : component S :=
  define (Decls ([any "class"; any "size"] ++ lib_props "SelectTriggerProps") [("size", VStr (js "default"))] []) (fun i =>
    let delegatedProps := reactiveOmit (props i) ["class"; "size"] in
    let forwardedProps := forward_props i delegatedProps in
    kel "reka-ui/SelectTrigger" [
        sat "data-slot" "select-trigger";
        bat "data-size" (prop i "size");
        v_bind forwardedProps;
        bat "class" (cn_ [ #"border-input data-placeholder:text-muted-foreground dark:bg-input/30 dark:hover:bg-input/50 focus-visible:border-ring focus-visible:ring-ring/50 aria-invalid:ring-destructive/20 dark:aria-invalid:ring-destructive/40 aria-invalid:border-destructive dark:aria-invalid:border-destructive/50 gap-1.5 rounded-2xl border bg-transparent py-2 pr-2 pl-2.5 text-sm transition-colors select-none focus-visible:ring-3 aria-invalid:ring-3 data-[size=default]:h-8 data-[size=sm]:h-7 *:data-[slot=select-value]:gap-1.5 [&_svg:not([class*=size-])]:size-4 flex w-full items-center justify-between whitespace-nowrap outline-none disabled:cursor-not-allowed disabled:opacity-50 *:data-[slot=select-value]:line-clamp-1 *:data-[slot=select-value]:flex *:data-[slot=select-value]:items-center [&_svg]:pointer-events-none [&_svg]:shrink-0"; prop i "class"]);
        bind_attrs (rest i)] [
      slot_ i;
      kel "reka-ui/SelectIcon" [sat "as-child" ""] [
        kel "@lucide/vue/ChevronDown" [sat "class" "text-muted-foreground size-4 pointer-events-none"] []]]).

Definition SelectValue : component S :=
  define (Decls (lib_props "SelectValueProps") [] []) (fun i =>
    kel "reka-ui/SelectValue" [sat "data-slot" "select-value"; v_bind (props i); bind_attrs (rest i)] [slot_ i]).

Definition select_exports : list (string * component S) :=
  [("Select", Select);
   ("SelectContent", SelectContent);
   ("SelectGroup", SelectGroup);
   ("SelectItem", SelectItem);
   ("SelectItemText", SelectItemText);
   ("SelectLabel", SelectLabel);
   ("SelectScrollDownButton", SelectScrollDownButton);
   ("SelectScrollUpButton", SelectScrollUpButton);
   ("SelectSeparator", SelectSeparator);
   ("SelectTrigger", SelectTrigger);
   ("SelectValue", SelectValue)].

(** ** [dropdown-menu] *)

Definition DropdownMenu : component S :=
  define (Decls (lib_props "DropdownMenuRootProps") [] (lib_emits "DropdownMenuRootEmits")) (fun i =>
    let forwarded := forward_emits i (props i) in
    kel "reka-ui/DropdownMenuRoot" [sat "data-slot" "dropdown-menu"; bind_attrs forwarded; bind_attrs (rest i)] [slot_ i]).

Definition DropdownMenuCheckboxItem : component S :=
  define (Decls ([any "class"] ++ lib_props "DropdownMenuCheckboxItemProps") [] (lib_emits "DropdownMenuCheckboxItemEmits")) (fun i =>
    let delegatedProps := reactiveOmit (props i) ["class"] in
    let forwarded := forward_emits i delegatedProps in
    kel "reka-ui/DropdownMenuCheckboxItem" [
        sat "data-slot" "dropdown-menu-checkbox-item";
        bind_attrs forwarded;
        bat "class" (cn_ [ #"focus:bg-accent focus:text-accent-foreground focus:**:text-accent-foreground gap-1.5 rounded-md py-1 pr-8 pl-1.5 text-sm data-inset:pl-7 [&_svg:not([class*=size-])]:size-4 relative flex cursor-default items-center outline-hidden select-none data-disabled:pointer-events-none data-disabled:opacity-50 [&_svg]:pointer-events-none [&_svg]:shrink-0"; prop i "class"]);
        bind_attrs (rest i)] [
      kel "span" [
          sat "class" "absolute right-2 flex items-center justify-center pointer-events-none";
          sat "data-slot" "dropdown-menu-checkbox-item-indicator"] [kel "reka-ui/DropdownMenuItemIndicator" [] [kel "@lucide/vue/Check" [] []]];
      slot_ i]).

Definition DropdownMenuContent : component S :=
  define (Decls ([any "class"] ++ lib_props "DropdownMenuContentProps") [("align", VStr (js "start")); ("sideOffset", VNum (num_of_Z 4))] (lib_emits "DropdownMenuContentEmits")) (fun i =>
    let delegatedProps := reactiveOmit (props i) ["class"] in
    let forwarded := forward_emits i delegatedProps in
    kel "reka-ui/DropdownMenuPortal" [] [
      kel "reka-ui/DropdownMenuContent" [
          sat "data-slot" "dropdown-menu-content";
          spread (rest i) forwarded;
          bat "class" (cn_ [ #"data-open:animate-in data-closed:animate-out data-closed:fade-out-0 data-open:fade-in-0 data-closed:zoom-out-95 data-open:zoom-in-95 data-[side=bottom]:slide-in-from-top-2 data-[side=left]:slide-in-from-right-2 data-[side=right]:slide-in-from-left-2 data-[side=top]:slide-in-from-bottom-2 ring-foreground/10 bg-popover text-popover-foreground min-w-32 rounded-2xl p-1 shadow-md ring-1 duration-100 cn-menu-translucent z-50 max-h-(--reka-dropdown-menu-content-available-height) w-(--reka-dropdown-menu-trigger-width) origin-(--reka-dropdown-menu-content-transform-origin) overflow-x-hidden overflow-y-auto data-[state=closed]:overflow-hidden"; prop i "class"])] [slot_ i]]).

Definition DropdownMenuGroup : component S :=
  define (Decls (lib_props "DropdownMenuGroupProps") [] []) (fun i =>
    kel "reka-ui/DropdownMenuGroup" [sat "data-slot" "dropdown-menu-group"; v_bind (props i); bind_attrs (rest i)] [slot_ i]).

Definition DropdownMenuItem : component S :=
  define (Decls ([any "class"; flag "inset"; any "variant"] ++ lib_props "DropdownMenuItemProps") [("variant", VStr (js "default"))] []) (fun i =>
    let delegatedProps := reactiveOmit (props i) ["inset"; "variant"; "class"] in
    let forwardedProps := forward_props i delegatedProps in
    kel "reka-ui/DropdownMenuItem" [
        sat "data-slot" "dropdown-menu-item";
        bat "data-inset" (e_if (prop i "inset") #"" (Ok VUndef));
        bat "data-variant" (prop i "variant");
        v_bind forwardedProps;
        bat "class" (cn_ [ #"focus:bg-accent focus:text-accent-foreground data-[variant=destructive]:text-destructive data-[variant=destructive]:focus:bg-destructive/10 dark:data-[variant=destructive]:focus:bg-destructive/20 data-[variant=destructive]:focus:text-destructive data-[variant=destructive]:*:[svg]:text-destructive not-data-[variant=destructive]:focus:**:text-accent-foreground gap-1.5 rounded-md px-1.5 py-1 text-sm data-inset:pl-7 [&_svg:not([class*=size-])]:size-4 group/dropdown-menu-item relative flex cursor-default items-center outline-hidden select-none data-disabled:pointer-events-none data-disabled:opacity-50 [&_svg]:pointer-events-none [&_svg]:shrink-0"; prop i "class"]);
        bind_attrs (rest i)] [slot_ i]).

Definition DropdownMenuLabel : component S :=
  define (Decls ([any "class"; flag "inset"] ++ lib_props "DropdownMenuLabelProps") [] []) (fun i =>
    let delegatedProps := reactiveOmit (props i) ["class"; "inset"] in
    let forwardedProps := forward_props i delegatedProps in
    kel "reka-ui/DropdownMenuLabel" [
        sat "data-slot" "dropdown-menu-label";
        bat "data-inset" (e_if (prop i "inset") #"" (Ok VUndef));
        v_bind forwardedProps;
        bat "class" (cn_ [ #"text-muted-foreground px-1.5 py-1 text-xs font-medium data-inset:pl-7"; prop i "class"]);
        bind_attrs (rest i)] [slot_ i]).

Definition DropdownMenuRadioGroup : component S :=
  define (Decls (lib_props "DropdownMenuRadioGroupProps") [] (lib_emits "DropdownMenuRadioGroupEmits")) (fun i =>
    let forwarded := forward_emits i (props i) in
    kel "reka-ui/DropdownMenuRadioGroup" [sat "data-slot" "dropdown-menu-radio-group"; bind_attrs forwarded; bind_attrs (rest i)] [slot_ i]).

Definition DropdownMenuRadioItem : component S :=
  define (Decls ([any "class"] ++ lib_props "DropdownMenuRadioItemProps") [] (lib_emits "DropdownMenuRadioItemEmits")) (fun i =>
    let delegatedProps := reactiveOmit (props i) ["class"] in
    let forwarded := forward_emits i delegatedProps in
    kel "reka-ui/DropdownMenuRadioItem" [
        sat "data-slot" "dropdown-menu-radio-item";
        bind_attrs forwarded;
        bat "class" (cn_ [ #"focus:bg-accent focus:text-accent-foreground focus:**:text-accent-foreground gap-1.5 rounded-md py-1 pr-8 pl-1.5 text-sm data-inset:pl-7 [&_svg:not([class*=size-])]:size-4 relative flex cursor-default items-center outline-hidden select-none data-disabled:pointer-events-none data-disabled:opacity-50 [&_svg]:pointer-events-none [&_svg]:shrink-0"; prop i "class"]);
        bind_attrs (rest i)] [
      kel "span" [
          sat "class" "absolute right-2 flex items-center justify-center pointer-events-none";
          sat "data-slot" "dropdown-menu-radio-item-indicator"] [kel "reka-ui/DropdownMenuItemIndicator" [] [kel "@lucide/vue/Check" [] []]];
      slot_ i]).

Definition DropdownMenuSeparator : component S :=
  define (Decls ([any "class"] ++ lib_props "DropdownMenuSeparatorProps") [] []) (fun i =>
    let delegatedProps := reactiveOmit (props i) ["class"] in
    kel "reka-ui/DropdownMenuSeparator" [
        sat "data-slot" "dropdown-menu-separator";
        v_bind delegatedProps;
        bat "class" (cn_ [ #"bg-border -mx-1 my-1 h-px"; prop i "class"]);
        bind_attrs (rest i)] []).

Definition DropdownMenuShortcut : component S :=
  define (Decls ([any "class"]) [] []) (fun i =>
    kel "span" [
        sat "data-slot" "dropdown-menu-shortcut";
        bat "class" (cn_ [ #"text-muted-foreground group-focus/dropdown-menu-item:text-accent-foreground ml-auto text-xs tracking-widest"; prop i "class"]);
        bind_attrs (rest i)] [slot_ i]).

Definition DropdownMenuSub : component S :=
  define (Decls (lib_props "DropdownMenuSubProps") [] (lib_emits "DropdownMenuSubEmits")) (fun i =>
    let forwarded := forward_emits i (props i) in
    kel "reka-ui/DropdownMenuSub" [sat "data-slot" "dropdown-menu-sub"; bind_attrs forwarded; bind_attrs (rest i)] [slot_ i]).

Definition DropdownMenuSubContent : component S :=
  define (Decls ([any "class"] ++ lib_props "DropdownMenuSubContentProps") [] (lib_emits "DropdownMenuSubContentEmits")) (fun i =>
    let delegatedProps := reactiveOmit (props i) ["class"] in
    let forwarded := forward_emits i delegatedProps in
    kel "reka-ui/DropdownMenuSubContent" [
        sat "data-slot" "dropdown-menu-sub-content";
        bind_attrs forwarded;
        bat "class" (cn_ [ #"data-open:animate-in data-closed:animate-out data-closed:fade-out-0 data-open:fade-in-0 data-closed:zoom-out-95 data-open:zoom-in-95 data-[side=bottom]:slide-in-from-top-2 data-[side=left]:slide-in-from-right-2 data-[side=right]:slide-in-from-left-2 data-[side=top]:slide-in-from-bottom-2 ring-foreground/10 bg-popover text-popover-foreground min-w-[96px] rounded-lg p-1 shadow-lg ring-1 duration-100 cn-menu-translucent z-50 max-w-(--reka-dropdown-menu-content-available-width) origin-(--reka-dropdown-menu-content-transform-origin) overflow-hidden"; prop i "class"]);
        bind_attrs (rest i)] [slot_ i]).

Definition DropdownMenuSubTrigger : component S :=
  define (Decls ([any "class"; flag "inset"] ++ lib_props "DropdownMenuSubTriggerProps") [] []) (fun i =>
    let delegatedProps := reactiveOmit (props i) ["class"; "inset"] in
    let forwardedProps := forward_props i delegatedProps in
    kel "reka-ui/DropdownMenuSubTrigger" [
        sat "data-slot" "dropdown-menu-sub-trigger";
        bat "data-inset" (e_if (prop i "inset") #"" (Ok VUndef));
        v_bind forwardedProps;
        bat "class" (cn_ [ #"focus:bg-accent focus:text-accent-foreground data-open:bg-accent data-open:text-accent-foreground not-data-[variant=destructive]:focus:**:text-accent-foreground gap-1.5 rounded-md px-1.5 py-1 text-sm data-inset:pl-7 [&_svg:not([class*=size-])]:size-4 flex cursor-default items-center outline-hidden select-none [&_svg]:pointer-events-none [&_svg]:shrink-0"; prop i "class"]);
        bind_attrs (rest i)] [slot_ i; kel "@lucide/vue/ChevronRight" [sat "class" "cn-rtl-flip ml-auto"] []]).

Definition DropdownMenuTrigger : component S :=
  define (Decls (lib_props "DropdownMenuTriggerProps") [] []) (fun i =>
    let forwardedProps := forward_props i (props i) in
    kel "reka-ui/DropdownMenuTrigger" [sat "data-slot" "dropdown-menu-trigger"; v_bind forwardedProps; bind_attrs (rest i)] [slot_ i]).

Definition dropdown_menu_exports : list (string * component S) :=
  [("DropdownMenu", DropdownMenu);
   ("DropdownMenuCheckboxItem", DropdownMenuCheckboxItem);
   ("DropdownMenuContent", DropdownMenuContent);
   ("DropdownMenuGroup", DropdownMenuGroup);
   ("DropdownMenuItem", DropdownMenuItem);
   ("DropdownMenuLabel", DropdownMenuLabel);
   ("DropdownMenuRadioGroup", DropdownMenuRadioGroup);
   ("DropdownMenuRadioItem", DropdownMenuRadioItem);
   ("DropdownMenuSeparator", DropdownMenuSeparator);
   ("DropdownMenuShortcut", DropdownMenuShortcut);
   ("DropdownMenuSub", DropdownMenuSub);
   ("DropdownMenuSubContent", DropdownMenuSubContent);
   ("DropdownMenuSubTrigger", DropdownMenuSubTrigger);
   ("DropdownMenuTrigger", DropdownMenuTrigger)].

(** ** [popover] *)

Definition Popover : component S :=
  define (Decls (lib_props "PopoverRootProps") [] (lib_emits "PopoverRootEmits")) (fun i =>
    let forwarded := forward_emits i (props i) in
    kel "reka-ui/PopoverRoot" [sat "data-slot" "popover"; bind_attrs forwarded; bind_attrs (rest i)] [slot_ i]).

Definition PopoverAnchor : component S :=
  define (Decls (lib_props "PopoverAnchorProps") [] []) (fun i =>
    kel "reka-ui/PopoverAnchor" [sat "data-slot" "popover-anchor"; v_bind (props i); bind_attrs (rest i)] [slot_ i]).

Definition PopoverContent : component S :=
  define (Decls ([any "class"] ++ lib_props "PopoverContentProps") [("align", VStr (js "center")); ("sideOffset", VNum (num_of_Z 4))] (lib_emits "PopoverContentEmits")) (fun i =>
    let delegatedProps := reactiveOmit (props i) ["class"] in
    let forwarded := forward_emits i delegatedProps in
    kel "reka-ui/PopoverPortal" [] [
      kel "reka-ui/PopoverContent" [
          sat "data-slot" "popover-content";
          spread (rest i) forwarded;
          bat "class" (cn_ [ #"bg-popover text-popover-foreground data-open:animate-in data-closed:animate-out data-closed:fade-out-0 data-open:fade-in-0 data-closed:zoom-out-95 data-open:zoom-in-95 data-[side=bottom]:slide-in-from-top-2 data-[side=left]:slide-in-from-right-2 data-[side=right]:slide-in-from-left-2 data-[side=top]:slide-in-from-bottom-2 ring-foreground/10 flex flex-col gap-2.5 rounded-lg p-2.5 text-sm shadow-md ring-1 duration-100 z-50 w-72 max-w-(--reka-popover-content-available-width) origin-(--reka-popover-content-transform-origin) outline-hidden"; prop i "class"])] [slot_ i]]).

Definition PopoverDescription : component S :=
  define (Decls ([any "class"]) [] []) (fun i =>
    kel "p" [
        sat "data-slot" "popover-description";
        bat "class" (cn_ [ #"text-muted-foreground"; prop i "class"]);
        bind_attrs (rest i)] [slot_ i]).

Definition PopoverHeader : component S :=
  define (Decls ([any "class"]) [] []) (fun i =>
    kel "div" [
        sat "data-slot" "popover-header";
        bat "class" (cn_ [ #"flex flex-col gap-0.5 text-sm"; prop i "class"]);
        bind_attrs (rest i)] [slot_ i]).

Definition PopoverTitle : component S :=
  define (Decls ([any "class"]) [] []) (fun i =>
    kel "div" [
        sat "data-slot" "popover-title";
        bat "class" (cn_ [ #"font-medium cn-font-heading"; prop i "class"]);
        bind_attrs (rest i)] [slot_ i]).

Definition PopoverTrigger : component S :=
  define (Decls (lib_props "PopoverTriggerProps") [] []) (fun i =>
    kel "reka-ui/PopoverTrigger" [sat "data-slot" "popover-trigger"; v_bind (props i); bind_attrs (rest i)] [slot_ i]).

Definition popover_exports : list (string * component S) :=
  [("Popover", Popover);
   ("PopoverAnchor", PopoverAnchor);
   ("PopoverContent", PopoverContent);
   ("PopoverDescription", PopoverDescription);
   ("PopoverHeader", PopoverHeader);
   ("PopoverTitle", PopoverTitle);
   ("PopoverTrigger", PopoverTrigger)].

(** ** [tooltip] *)

Definition Tooltip : component S :=
  define (Decls (lib_props "TooltipRootProps") [] (lib_emits "TooltipRootEmits")) (fun i =>
    let forwarded := forward_emits i (props i) in
    kel "reka-ui/TooltipRoot" [sat "data-slot" "tooltip"; bind_attrs forwarded; bind_attrs (rest i)] [slot_ i]).

Definition TooltipContent : component S :=
  define (Decls ([any "class"] ++ lib_props "TooltipContentProps") [("sideOffset", VNum (num_of_Z 0))] (lib_emits "TooltipContentEmits")) (fun i =>
    let delegatedProps := reactiveOmit (props i) ["class"] in
    let forwarded := forward_emits i delegatedProps in
    kel "reka-ui/TooltipPortal" [] [
      kel "reka-ui/TooltipContent" [
          sat "data-slot" "tooltip-content";
          spread forwarded (rest i);
          bat "class" (cn_ [ #"data-open:animate-in data-open:fade-in-0 data-open:zoom-in-95 data-[state=delayed-open]:animate-in data-[state=delayed-open]:fade-in-0 data-[state=delayed-open]:zoom-in-95 data-closed:animate-out data-closed:fade-out-0 data-closed:zoom-out-95 data-[side=bottom]:slide-in-from-top-2 data-[side=left]:slide-in-from-right-2 data-[side=right]:slide-in-from-left-2 data-[side=top]:slide-in-from-bottom-2 inline-flex items-center gap-1.5 rounded-md px-3 py-1.5 text-xs has-data-[slot=kbd]:pr-1.5 **:data-[slot=kbd]:relative **:data-[slot=kbd]:isolate **:data-[slot=kbd]:z-50 **:data-[slot=kbd]:rounded-sm bg-foreground text-background z-50 w-fit max-w-xs origin-(--reka-tooltip-content-transform-origin)"; prop i "class"])] [
        slot_ i;
        kel "reka-ui/TooltipArrow" [
            sat "class" "size-2.5 rotate-45 rounded-xs bg-foreground fill-foreground z-50 translate-y-[calc(-50%_-_2px)]"] []]]).

Definition TooltipProvider : component S :=
  define (Decls (lib_props "TooltipProviderProps") [("delayDuration", VNum (num_of_Z 0))] []) (fun i =>
    kel "reka-ui/TooltipProvider" [v_bind (props i); bind_attrs (rest i)] [slot_ i]).

Definition TooltipTrigger : component S :=
  define (Decls (lib_props "TooltipTriggerProps") [] []) (fun i =>
    kel "reka-ui/TooltipTrigger" [sat "data-slot" "tooltip-trigger"; v_bind (props i); bind_attrs (rest i)] [slot_ i]).

Definition tooltip_exports : list (string * component S) :=
  [("Tooltip", Tooltip);
   ("TooltipContent", TooltipContent);
   ("TooltipProvider", TooltipProvider);
   ("TooltipTrigger", TooltipTrigger)].

End components.
