(* ===== verification/UiSidebar.v ===== *)
(** * The components of [components/ui/sidebar]

    The parts of the sidebar below its provider; [ctx] is what [useSidebar()] gives. *)

From stdpp Require Import base list gmap strings.
From Stdlib Require Import NArith ZArith Lia String SpecFloat.
From S2P Require Import Prelude JsString JsNum JsVal Json Prog State Payload View Form Kit UiBase UiOverlay SidebarProvider.
Local Open Scope js_scope.

(** ** Class tables *)

Definition sidebarMenuButtonVariants : cva_config :=
  {| cva_base := "ring-sidebar-ring hover:bg-sidebar-accent hover:text-sidebar-accent-foreground active:bg-sidebar-accent active:text-sidebar-accent-foreground data-active:bg-sidebar-accent data-active:text-sidebar-accent-foreground data-open:hover:bg-sidebar-accent data-open:hover:text-sidebar-accent-foreground gap-2 rounded-2xl p-2 text-left text-sm transition-[width,height,padding] group-has-data-[sidebar=menu-action]/menu-item:pr-8 group-data-[collapsible=icon]:size-8! group-data-[collapsible=icon]:p-2! focus-visible:ring-2 data-active:font-medium peer/menu-button group/menu-button flex w-full items-center overflow-hidden outline-hidden disabled:pointer-events-none disabled:opacity-50 aria-disabled:pointer-events-none aria-disabled:opacity-50 [&_svg]:size-4 [&_svg]:shrink-0 [&>span:last-child]:truncate";
     cva_variants := [("variant", [
      ("default", "hover:bg-sidebar-accent hover:text-sidebar-accent-foreground");
      ("outline", "bg-background hover:bg-sidebar-accent hover:text-sidebar-accent-foreground shadow-[0_0_0_1px_var(--sidebar-border)] hover:shadow-[0_0_0_1px_var(--sidebar-accent)]")]); ("size", [
      ("default", "h-8 text-sm");
      ("sm", "h-7 text-xs");
      ("lg", "h-12 text-sm group-data-[collapsible=icon]:p-0!")])];
     cva_defaults := [("variant", "default"); ("size", "default")] |}.


Section components.
Context `{Platform} `{UiLibs} {S : Type}.
Context (ctx : sidebar_context S).

(** ** [sidebar] *)

Definition Sidebar : component S :=
  define (Decls ([any "side"; any "variant"; any "collapsible"; any "class"]) [("side", VStr (js "left")); ("variant", VStr (js "sidebar")); ("collapsible", VStr (js "offcanvas"))] []) (fun i =>
    v_if ((prop i "collapsible") === #"none")
      (kel "div" [
          sat "data-slot" "sidebar";
          bat "class" (cn_ [ #"bg-sidebar text-sidebar-foreground flex w-(--sidebar-width) flex-col"; prop i "class"]);
          bind_attrs (rest i)] [slot_ i])
      (v_if (Ok (VBool (c_isMobile ctx)))
      (Sheet [
          bat "open" (Ok (VBool (c_openMobile ctx)));
          bind_attrs (rest i);
          lat "@update:open" (fun ev => c_setOpenMobile ctx ev)] [
        SheetContent [
            sat "data-sidebar" "sidebar";
            sat "data-slot" "sidebar";
            sat "data-mobile" "true";
            bat "side" (prop i "side");
            sat "class" "bg-sidebar text-sidebar-foreground w-(--sidebar-width) p-0 [&>button]:hidden";
            bat "style" (e_object [("--sidebar-width", e_str SIDEBAR_WIDTH_MOBILE)])] [
          SheetHeader [sat "class" "sr-only"] [SheetTitle [] [txt "Sidebar"]; SheetDescription [] [txt "Displays the mobile sidebar."]];
          kel "div" [sat "class" "flex h-full w-full flex-col"] [slot_ i]]])
      (kel "div" [
          sat "class" "group peer text-sidebar-foreground hidden md:block";
          sat "data-slot" "sidebar";
          bat "data-state" (e_str (c_state ctx));
          bat "data-collapsible" (e_if ((e_str (c_state ctx)) === #"collapsed") (prop i "collapsible") #"");
          bat "data-variant" (prop i "variant");
          bat "data-side" (prop i "side")] [
        kel "div" [
            sat "data-slot" "sidebar-gap";
            bat "class" (cn_ [ #"transition-[width] duration-200 ease-linear relative w-(--sidebar-width) bg-transparent"; #"group-data-[collapsible=offcanvas]:w-0"; #"group-data-[side=right]:rotate-180"; e_if (((prop i "variant") === #"floating") .|| ((prop i "variant") === #"inset")) #"group-data-[collapsible=icon]:w-[calc(var(--sidebar-width-icon)+(--spacing(4)))]" #"group-data-[collapsible=icon]:w-(--sidebar-width-icon)"])] [];
        kel "div" [
            sat "data-slot" "sidebar-container";
            bat "data-side" (prop i "side");
            bat "class" (cn_ [ #"fixed inset-y-0 z-10 hidden h-svh w-(--sidebar-width) transition-[left,right,width] duration-200 ease-linear md:flex"; e_if ((prop i "side") === #"left") #"left-0 group-data-[collapsible=offcanvas]:left-[calc(var(--sidebar-width)*-1)]" #"right-0 group-data-[collapsible=offcanvas]:right-[calc(var(--sidebar-width)*-1)]"; e_if (((prop i "variant") === #"floating") .|| ((prop i "variant") === #"inset")) #"p-2 group-data-[collapsible=icon]:w-[calc(var(--sidebar-width-icon)+(--spacing(4))+2px)]" #"group-data-[collapsible=icon]:w-(--sidebar-width-icon) group-data-[side=left]:border-r group-data-[side=right]:border-l"; prop i "class"]);
            bind_attrs (rest i)] [
          kel "div" [
              sat "data-sidebar" "sidebar";
              sat "data-slot" "sidebar-inner";
              sat "class" "bg-sidebar group-data-[variant=floating]:ring-sidebar-border group-data-[variant=floating]:rounded-2xl group-data-[variant=floating]:shadow-sm group-data-[variant=floating]:ring-1 flex size-full flex-col"] [slot_ i]]]))).

Definition SidebarContent : component S :=
  define (Decls ([any "class"]) [] []) (fun i =>
    kel "div" [
        sat "data-slot" "sidebar-content";
        sat "data-sidebar" "content";
        bat "class" (cn_ [ #"no-scrollbar gap-0 flex min-h-0 flex-1 flex-col overflow-auto group-data-[collapsible=icon]:overflow-hidden"; prop i "class"]);
        bind_attrs (rest i)] [slot_ i]).

Definition SidebarFooter : component S :=
  define (Decls ([any "class"]) [] []) (fun i =>
    kel "div" [
        sat "data-slot" "sidebar-footer";
        sat "data-sidebar" "footer";
        bat "class" (cn_ [ #"gap-2 p-2 flex flex-col"; prop i "class"]);
        bind_attrs (rest i)] [slot_ i]).

Definition SidebarGroup : component S :=
  define (Decls ([any "class"]) [] []) (fun i =>
    kel "div" [
        sat "data-slot" "sidebar-group";
        sat "data-sidebar" "group";
        bat "class" (cn_ [ #"p-2 relative flex w-full min-w-0 flex-col"; prop i "class"]);
        bind_attrs (rest i)] [slot_ i]).

Definition SidebarGroupAction : component S :=
  define (Decls ([any "class"] ++ lib_props "PrimitiveProps") [] []) (fun i =>
    kel "reka-ui/Primitive" [
        sat "data-slot" "sidebar-group-action";
        sat "data-sidebar" "group-action";
        bat "as" (prop i "as");
        bat "as-child" (prop i "asChild");
        bat "class" (cn_ [ #"text-sidebar-foreground ring-sidebar-ring hover:bg-sidebar-accent hover:text-sidebar-accent-foreground absolute top-3.5 right-3 w-5 rounded-md p-0 focus-visible:ring-2 [&>svg]:size-4 flex aspect-square items-center justify-center outline-hidden transition-transform group-data-[collapsible=icon]:hidden after:absolute after:-inset-2 md:after:hidden [&>svg]:shrink-0"; prop i "class"]);
        bind_attrs (rest i)] [slot_ i]).

Definition SidebarGroupContent : component S :=
  define (Decls ([any "class"]) [] []) (fun i =>
    kel "div" [
        sat "data-slot" "sidebar-group-content";
        sat "data-sidebar" "group-content";
        bat "class" (cn_ [ #"text-sm w-full"; prop i "class"]);
        bind_attrs (rest i)] [slot_ i]).

Definition SidebarGroupLabel : component S :=
  define (Decls ([any "class"] ++ lib_props "PrimitiveProps") [] []) (fun i =>
    kel "reka-ui/Primitive" [
        sat "data-slot" "sidebar-group-label";
        sat "data-sidebar" "group-label";
        bat "as" (prop i "as");
        bat "as-child" (prop i "asChild");
        bat "class" (cn_ [ #"text-sidebar-foreground/70 ring-sidebar-ring h-8 rounded-md px-2 text-xs font-medium transition-[margin,opacity] duration-200 ease-linear group-data-[collapsible=icon]:pointer-events-none group-data-[collapsible=icon]:-mt-8 group-data-[collapsible=icon]:select-none group-data-[collapsible=icon]:opacity-0 focus-visible:ring-2 [&>svg]:size-4 flex shrink-0 items-center outline-hidden [&>svg]:shrink-0"; prop i "class"]);
        bind_attrs (rest i)] [slot_ i]).

Definition SidebarHeader : component S :=
  define (Decls ([any "class"]) [] []) (fun i =>
    kel "div" [
        sat "data-slot" "sidebar-header";
        sat "data-sidebar" "header";
        bat "class" (cn_ [ #"gap-2 p-2 flex flex-col"; prop i "class"]);
        bind_attrs (rest i)] [slot_ i]).

Definition SidebarInput : component S :=
  define (Decls ([any "class"]) [] []) (fun i =>
    Input [
        sat "data-slot" "sidebar-input";
        sat "data-sidebar" "input";
        bat "class" (cn_ [ #"bg-background h-8 w-full shadow-none"; prop i "class"]);
        bind_attrs (rest i)] [slot_ i]).

Definition SidebarInset : component S :=
  define (Decls ([any "class"]) [] []) (fun i =>
    kel "main" [
        sat "data-slot" "sidebar-inset";
        bat "class" (cn_ [ #"md:peer-data-[variant=inset]:m-2 md:peer-data-[variant=inset]:ml-0 md:peer-data-[variant=inset]:rounded-2xl md:peer-data-[variant=inset]:shadow-sm md:peer-data-[variant=inset]:peer-data-[state=collapsed]:ml-2 relative flex w-full flex-1 flex-col bg-background"; prop i "class"]);
        bind_attrs (rest i)] [slot_ i]).

Definition SidebarMenu : component S :=
  define (Decls ([any "class"]) [] []) (fun i =>
    kel "ul" [
        sat "data-slot" "sidebar-menu";
        sat "data-sidebar" "menu";
        bat "class" (cn_ [ #"gap-0 flex w-full min-w-0 flex-col"; prop i "class"]);
        bind_attrs (rest i)] [slot_ i]).

Definition SidebarMenuAction : component S :=
  define (Decls ([flag "showOnHover"; any "class"] ++ lib_props "PrimitiveProps") [("as", VStr (js "button"))] []) (fun i =>
    kel "reka-ui/Primitive" [
        sat "data-slot" "sidebar-menu-action";
        sat "data-sidebar" "menu-action";
        bat "class" (cn_ [ #"text-sidebar-foreground ring-sidebar-ring hover:bg-sidebar-accent hover:text-sidebar-accent-foreground peer-hover/menu-button:text-sidebar-accent-foreground absolute top-1.5 right-1 aspect-square w-5 rounded-md p-0 peer-data-[size=default]/menu-button:top-1.5 peer-data-[size=lg]/menu-button:top-2.5 peer-data-[size=sm]/menu-button:top-1 focus-visible:ring-2 [&>svg]:size-4 flex items-center justify-center outline-hidden transition-transform group-data-[collapsible=icon]:hidden after:absolute after:-inset-2 md:after:hidden [&>svg]:shrink-0"; (prop i "showOnHover") .&& #"group-focus-within/menu-item:opacity-100 group-hover/menu-item:opacity-100 peer-data-active/menu-button:text-sidebar-accent-foreground aria-expanded:opacity-100 md:opacity-0"; prop i "class"]);
        bat "as" (prop i "as");
        bat "as-child" (prop i "asChild");
        bind_attrs (rest i)] [slot_ i]).

Definition SidebarMenuBadge : component S :=
  define (Decls ([any "class"]) [] []) (fun i =>
    kel "div" [
        sat "data-slot" "sidebar-menu-badge";
        sat "data-sidebar" "menu-badge";
        bat "class" (cn_ [ #"text-sidebar-foreground peer-hover/menu-button:text-sidebar-accent-foreground peer-data-active/menu-button:text-sidebar-accent-foreground pointer-events-none absolute right-1 h-5 min-w-5 rounded-md px-1 text-xs font-medium peer-data-[size=default]/menu-button:top-1.5 peer-data-[size=lg]/menu-button:top-2.5 peer-data-[size=sm]/menu-button:top-1 flex items-center justify-center tabular-nums select-none group-data-[collapsible=icon]:hidden"; prop i "class"]);
        bind_attrs (rest i)] [slot_ i]).

Definition SidebarMenuButtonChild : component S :=
  define (Decls ([any "variant"; any "size"; flag "isActive"; any "class"] ++ lib_props "PrimitiveProps") [("as", VStr (js "button")); ("variant", VStr (js "default")); ("size", VStr (js "default"))] []) (fun i =>
    kel "reka-ui/Primitive" [
        sat "data-slot" "sidebar-menu-button";
        sat "data-sidebar" "menu-button";
        bat "data-size" (prop i "size");
        bat "data-active" ((prop i "isActive") .|| (Ok VUndef));
        bat "class" (cn_ [variants_ sidebarMenuButtonVariants [("variant", prop i "variant"); ("size", prop i "size")]; prop i "class"]);
        bat "as" (prop i "as");
        bat "as-child" (prop i "asChild");
        bind_attrs (rest i)] [slot_ i]).

Definition SidebarMenuButton : component S :=
  define (Decls ([any "variant"; any "size"; flag "isActive"; any "class"; any "tooltip"] ++ lib_props "PrimitiveProps") [("as", VStr (js "button")); ("variant", VStr (js "default")); ("size", VStr (js "default"))] []) (fun i =>
    let delegatedProps := reactiveOmit (props i) ["tooltip"] in
    v_if (e_not (prop i "tooltip"))
      (SidebarMenuButtonChild [spread (prod_map id AVal <$> delegatedProps) (rest i)] [slot_ i])
      (Tooltip [] [
        TooltipTrigger [sat "as-child" ""] [SidebarMenuButtonChild [spread (prod_map id AVal <$> delegatedProps) (rest i)] [slot_ i]];
        TooltipContent [
            sat "side" "right";
            sat "align" "center";
            bat "hidden" (((e_str (c_state ctx)) !== #"collapsed") .|| (Ok (VBool (c_isMobile ctx))))] [
          v_if (e_is_string (prop i "tooltip"))
            (interp (prop i "tooltip"))
            (kel "component" [bat "is" (prop i "tooltip")] [])]])).

Definition SidebarMenuItem : component S :=
  define (Decls ([any "class"]) [] []) (fun i =>
    kel "li" [
        sat "data-slot" "sidebar-menu-item";
        sat "data-sidebar" "menu-item";
        bat "class" (cn_ [ #"group/menu-item relative"; prop i "class"]);
        bind_attrs (rest i)] [slot_ i]).

Definition SidebarMenuSub : component S :=
  define (Decls ([any "class"]) [] []) (fun i =>
    kel "ul" [
        sat "data-slot" "sidebar-menu-sub";
        sat "data-sidebar" "menu-sub";
        bat "class" (cn_ [ #"border-sidebar-border mx-3.5 translate-x-px gap-1 border-l px-2.5 py-0.5 group-data-[collapsible=icon]:hidden flex min-w-0 flex-col"; prop i "class"]);
        bind_attrs (rest i)] [slot_ i]).

Definition SidebarMenuSubButton : component S :=
  define (Decls ([any "size"; flag "isActive"; any "class"] ++ lib_props "PrimitiveProps") [("as", VStr (js "a")); ("size", VStr (js "md"))] []) (fun i =>
    kel "reka-ui/Primitive" [
        sat "data-slot" "sidebar-menu-sub-button";
        sat "data-sidebar" "menu-sub-button";
        bat "as" (prop i "as");
        bat "as-child" (prop i "asChild");
        bat "data-size" (prop i "size");
        bat "data-active" ((prop i "isActive") .|| (Ok VUndef));
        bat "class" (cn_ [ #"text-sidebar-foreground ring-sidebar-ring hover:bg-sidebar-accent hover:text-sidebar-accent-foreground active:bg-sidebar-accent active:text-sidebar-accent-foreground [&>svg]:text-sidebar-accent-foreground data-active:bg-sidebar-accent data-active:text-sidebar-accent-foreground h-7 gap-2 rounded-md px-2 focus-visible:ring-2 data-[size=md]:text-sm data-[size=sm]:text-xs [&>svg]:size-4 flex min-w-0 -translate-x-px items-center overflow-hidden outline-hidden group-data-[collapsible=icon]:hidden disabled:pointer-events-none disabled:opacity-50 aria-disabled:pointer-events-none aria-disabled:opacity-50 [&>span:last-child]:truncate [&>svg]:shrink-0"; prop i "class"]);
        bind_attrs (rest i)] [slot_ i]).

Definition SidebarMenuSubItem : component S :=
  define (Decls ([any "class"]) [] []) (fun i =>
    kel "li" [
        sat "data-slot" "sidebar-menu-sub-item";
        sat "data-sidebar" "menu-sub-item";
        bat "class" (cn_ [ #"group/menu-sub-item relative"; prop i "class"]);
        bind_attrs (rest i)] [slot_ i]).

Definition SidebarRail : component S :=
  define (Decls ([any "class"]) [] []) (fun i =>
    kel "button" [
        sat "data-sidebar" "rail";
        sat "data-slot" "sidebar-rail";
        sat "aria-label" "Toggle Sidebar";
        bat "tabindex" (e_num (-1));
        sat "title" "Toggle Sidebar";
        bat "class" (cn_ [ #"hover:after:bg-sidebar-border absolute inset-y-0 z-20 hidden w-4 transition-all ease-linear group-data-[side=left]:-right-4 group-data-[side=right]:left-0 after:absolute after:inset-y-0 after:start-1/2 after:w-0.5 sm:flex ltr:-translate-x-1/2 rtl:-translate-x-1/2"; #"in-data-[side=left]:cursor-w-resize in-data-[side=right]:cursor-e-resize"; #"[[data-side=left][data-state=collapsed]_&]:cursor-e-resize [[data-side=right][data-state=collapsed]_&]:cursor-w-resize"; #"group-data-[collapsible=offcanvas]:translate-x-0 group-data-[collapsible=offcanvas]:after:left-full hover:group-data-[collapsible=offcanvas]:bg-sidebar"; #"[[data-side=left][data-collapsible=offcanvas]_&]:-right-2"; #"[[data-side=right][data-collapsible=offcanvas]_&]:-left-2"; prop i "class"]);
        lat "@click" (fun _ => c_toggleSidebar ctx);
        bind_attrs (rest i)] [slot_ i]).

Definition SidebarSeparator : component S :=
  define (Decls ([any "class"]) [] []) (fun i =>
    Separator [
        sat "data-slot" "sidebar-separator";
        sat "data-sidebar" "separator";
        bat "class" (cn_ [ #"bg-sidebar-border mx-2 w-auto"; prop i "class"]);
        bind_attrs (rest i)] [slot_ i]).

Definition SidebarTrigger : component S :=
  define (Decls ([any "class"]) [] []) (fun i =>
    Button [
        sat "data-sidebar" "trigger";
        sat "data-slot" "sidebar-trigger";
        sat "variant" "ghost";
        sat "size" "icon-sm";
        bat "class" (cn_ [ #""; prop i "class"]);
        lat "@click" (fun _ => c_toggleSidebar ctx);
        bind_attrs (rest i)] [
      kel "@lucide/vue/PanelLeft" [sat "class" "cn-rtl-flip"] [];
      kel "span" [sat "class" "sr-only"] [txt "Toggle Sidebar"]]).

Definition sidebar_exports : list (string * component S) :=
  [("Sidebar", Sidebar);
   ("SidebarContent", SidebarContent);
   ("SidebarFooter", SidebarFooter);
   ("SidebarGroup", SidebarGroup);
   ("SidebarGroupAction", SidebarGroupAction);
   ("SidebarGroupContent", SidebarGroupContent);
   ("SidebarGroupLabel", SidebarGroupLabel);
   ("SidebarHeader", SidebarHeader);
   ("SidebarInput", SidebarInput);
   ("SidebarInset", SidebarInset);
   ("SidebarMenu", SidebarMenu);
   ("SidebarMenuAction", SidebarMenuAction);
   ("SidebarMenuBadge", SidebarMenuBadge);
   ("SidebarMenuButton", SidebarMenuButton);
   ("SidebarMenuItem", SidebarMenuItem);
   ("SidebarMenuSub", SidebarMenuSub);
   ("SidebarMenuSubButton", SidebarMenuSubButton);
   ("SidebarMenuSubItem", SidebarMenuSubItem);
   ("SidebarRail", SidebarRail);
   ("SidebarSeparator", SidebarSeparator);
   ("SidebarTrigger", SidebarTrigger)].

End components.
