(* ===== verification/KitRules.v ===== *)
(** * Proving that a component keeps what it is given

    Rules for the forwarding helpers, and the tactic [kit_keeps] that walks through
    a template: every part renders, and the listener or the slot at hand is found
    in one of them. *)

From stdpp Require Import base list gmap strings.
From Stdlib Require Import NArith ZArith Lia String SpecFloat.
From S2P Require Import Prelude JsString JsNum JsVal Json Prog State Payload View RenderRules Form Kit Expand.
Local Open Scope js_scope.

Create HintDb kit discriminated.
#[export] Hint Constants Opaque : kit.

Section rules.
Context `{Platform} `{HandlerLaws} {S : Type}.
Notation attrs := (list (jstring * attr S)).
Implicit Types (h : jstring * (jsval -> prog S unit)) (i : instance S) (a : attrs).

(** ** Expressions and parts *)

Lemma bat_ok k e : is_ok e -> is_ok (bat (S:=S) k e).
Proof. by destruct e. Qed.

Lemma cn_ok l : Forall is_ok l -> is_ok (cn_ l).
Proof. intros Hl. unfold cn_. pose proof (ok_seq_list l Hl). by destruct (result_seq l). Qed.

Lemma variants_ok c l : Forall (fun kv => is_ok (snd kv)) l -> is_ok (variants_ c l).
Proof.
  intros Hl. unfold variants_.
  assert (Forall is_ok (map (fun kv : string * E jsval => v ← snd kv; Ok (js (fst kv), v)) l)) as Hl'.
  { apply Forall_map. eapply Forall_impl; [exact Hl|]. intros [k [v|]]; done. }
  apply ok_seq_list in Hl'. by destruct (result_seq _).
Qed.

Lemma object_ok l : Forall (fun ke => is_ok (snd ke)) l -> is_ok (e_object l).
Proof. intros (o & ->)%ok_object. done. Qed.

Lemma is_string_ok e : is_ok e -> is_ok (e_is_string e).
Proof. by destruct e. Qed.

Lemma slot_or_ok i f : is_ok f -> is_ok (slot_or i f).
Proof. unfold slot_or. by destruct (content i). Qed.

Lemma model_part_ok i k d : is_ok d -> is_ok (model_part i k d).
Proof. by destruct d. Qed.

(** ** Where a handler goes *)

Lemma bind_handles h a : In h (handlers a) -> part_handles h (bind_attrs a).
Proof. by exists a. Qed.

Lemma forward_own h i ps : In h (handlers (own i)) -> part_handles h (bind_attrs (forward_emits i ps)).
Proof. intros Hh. apply bind_handles. unfold forward_emits. by rewrite forward_handlers. Qed.

Lemma spread_own h i ps : In h (handlers (own i)) -> part_handles h (spread (rest i) (forward_emits i ps)).
Proof.
  intros Hh. eexists. split; [done|]. eapply spread_right; [done|]. unfold forward_emits. by rewrite forward_handlers.
Qed.

Lemma separate d a k h h' : In h (handlers (rest (instance_of d a k))) ->
  In h' (handlers (own (instance_of d a k))) -> fst h <> fst h'.
Proof. intros Hr%rest_events Ho%own_events Heq. by rewrite Heq in Hr. Qed.

Lemma spread_rest d a k ps h : In h (handlers (rest (instance_of d a k))) ->
  part_handles h (spread (rest (instance_of d a k)) (forward_emits (instance_of d a k) ps)).
Proof.
  intros Hh. eexists. split; [done|]. eapply spread_left; [done|done|].
  unfold forward_emits. rewrite forward_handlers. intros (h' & Heq & Hin)%list_elem_of_fmap.
  apply list_elem_of_In in Hin. by eapply separate.
Qed.

Lemma spread_own' d a k ps h : In h (handlers (own (instance_of d a k))) ->
  part_handles h (spread (forward_emits (instance_of d a k) ps) (rest (instance_of d a k))).
Proof.
  intros Hh. eexists. split; [done|]. eapply spread_left; [done|unfold forward_emits; by rewrite forward_handlers|].
  intros (h' & Heq & Hin)%list_elem_of_fmap. apply list_elem_of_In in Hin. by eapply separate.
Qed.

Lemma spread_rest' h i b : In h (handlers (rest i)) -> part_handles h (spread b (rest i)).
Proof. intros Hh. eexists. split; [done|]. by eapply spread_right. Qed.

Lemma model_handles d a k h key e : js <$> d_emits d = [update_of (js key)] -> is_ok e ->
  In h (handlers (own (instance_of d a k))) -> part_handles h (model_part (instance_of d a k) key e).
Proof.
  intros Hd He Hh. destruct e as [v|]; [|done].
  pose proof (own_events _ _ _ _ Hh) as Hin. rewrite Hd in Hin. apply list_elem_of_singleton in Hin.
  destruct h as [ev f]. cbn [fst] in Hin. subst ev. eexists. split; [done|]. by apply vmodel_handler.
Qed.

Lemma slot_obs Q i : Q (content i) -> obs Q (slot_ i).
Proof. by exists (content i). Qed.

(** A slot with a fallback: an empty slot shows nothing that could be missed. *)
Lemma slot_or_obs Q i f : monotone Q -> is_ok f -> Q (content i) -> obs Q (slot_or i f).
Proof.
  intros HQ Hf Hc. unfold slot_or. destruct (content i) as [|n l] eqn:E; [|by eexists].
  destruct f as [ns|]; [|done]. eexists. split; [done|].
  rewrite <- (app_nil_r ns). by apply (mono_app Q HQ ns []).
Qed.
End rules.

Ltac kit_ok :=
  repeat match goal with
  | |- Forall _ [] => constructor
  | |- Forall _ (_ :: _) => constructor
  | |- is_ok (snd (_, _)) => cbn [snd]
  | |- is_ok (kel _ _ _) => apply kel_ok
  | |- is_ok (v_if _ _ _) => apply ok_v_if
  | |- is_ok (interp _) => apply ok_interp
  | |- is_ok (bat _ _) => apply bat_ok
  | |- is_ok (cn_ _) => apply cn_ok
  | |- is_ok (variants_ _ _) => apply variants_ok
  | |- is_ok (e_object _) => apply object_ok
  | |- is_ok (e_if _ _ _) => apply ok_if
  | |- is_ok (e_or _ _) => apply ok_or
  | |- is_ok (e_and _ _) => apply ok_and
  | |- is_ok (e_coalesce _ _) => apply ok_coalesce
  | |- is_ok (e_not _) => apply ok_not
  | |- is_ok (e_seq _ _) => apply ok_seq
  | |- is_ok (e_sne _ _) => apply ok_sne
  | |- is_ok (e_is_string _) => apply is_string_ok
  | |- is_ok (slot_or _ _) => apply slot_or_ok
  | |- is_ok (model_part _ _ _) => apply model_part_ok
  | |- is_ok (Ok _) => exact I
  | |- is_ok (prop _ _) => exact I
  | |- is_ok (e_str _) => exact I
  | |- is_ok (e_num _) => exact I
  | |- is_ok (sat _ _) => exact I
  | |- is_ok (lat _ _) => exact I
  | |- is_ok (txt _) => exact I
  | |- is_ok none => exact I
  | |- is_ok (slot_ _) => exact I
  | |- is_ok (bind_attrs _) => exact I
  | |- is_ok (v_bind _) => exact I
  | |- is_ok (spread _ _) => exact I
  | |- is_ok (field_of _ _) => exact I
  | |- is_ok (attr_value _ _) => exact I
  | |- is_ok (_ _ _) => eapply keeps_ok; [solve [eauto with kit nocore]|..]
  end.

(** Find the list element that [tac] solves. *)
Ltac pick tac := first [apply Exists_cons_hd; tac | apply Exists_cons_tl; pick tac].

Ltac part_search := idtac;
  lazymatch goal with
  | |- part_handles _ (bind_attrs (rest _)) => by apply bind_handles
  | |- part_handles _ (bind_attrs (forward_emits _ _)) => by apply forward_own
  | |- part_handles _ (spread (rest _) (forward_emits _ _)) => first [by apply spread_rest | by apply spread_own]
  | |- part_handles _ (spread (forward_emits _ _) (rest _)) => first [by apply spread_rest' | by apply spread_own']
  | |- part_handles _ (spread _ (rest _)) => by apply spread_rest'
  | |- part_handles _ (model_part _ _ _) => apply model_handles; [reflexivity|kit_ok|done]
  end.

Ltac mono := first [assumption | apply handles_mono | apply shows_mono].

Ltac kit_obs := idtac;
  lazymatch goal with
  | |- obs _ (v_if _ _ _) => apply v_if_obs; [solve [kit_ok]|kit_obs|kit_obs]
  | |- obs _ (slot_ _) => by apply slot_obs
  | |- obs _ (slot_or _ _) => apply slot_or_obs; [mono|solve [kit_ok]|done]
  | |- obs _ (kel _ _ _) => first
      [ apply kel_handles; [solve [kit_ok]|solve [kit_ok]|pick part_search]
      | apply kel_obs; [mono|solve [kit_ok]|solve [kit_ok]|pick kit_obs] ]
  | |- obs _ (_ _ _) => first
      [ eapply keeps_handlers; [solve [eauto with kit nocore]|solve [kit_ok]|solve [kit_ok]|pick part_search]
      | eapply keeps_slot; [solve [eauto with kit nocore]|reflexivity|solve [kit_ok]|solve [kit_ok]|mono|pick kit_obs] ]
  end.

Ltac kit_keeps :=
  apply keeps_define;
  [ intros ?; cbv beta zeta; kit_ok
  | let a := fresh in let k := fresh in let h := fresh in let Hh := fresh in let Hin := fresh in
    intros a k h Hh; cbv beta zeta; match goal with |- context [instance_of ?d a k] =>
      destruct (instance_cases d a k h Hh) as [[? Hin]|?] end;
    [try (exfalso; exact (not_elem_of_nil _ Hin))|]; kit_obs
  | let Hs := fresh in intros Hs; first [discriminate Hs | intros ? ? ? ?; cbv beta zeta; kit_obs] ].
