(* ===== verification/KitProps.v ===== *)
(** * The kit is transparent

    [expand] replaces the elements of [components/ui] in a tree by what their
    components render; every exported wrapper keeps what it is given. *)

From stdpp Require Import base list gmap strings.
From Stdlib Require Import NArith ZArith Lia String SpecFloat.
From S2P Require Import Prelude JsString JsNum JsVal Json Prog State Payload View Form Kit UiBase UiOverlay SidebarProvider UiSidebar.
From S2P Require Import Demo Session SettingsView Expand KitRules.
Local Open Scope js_scope.

(** Components without a slot of their own. *)
Definition void : list string :=
  ["Input"; "Textarea"; "Separator"; "Skeleton"; "Switch"; "InputGroupInput"; "InputGroupTextarea";
   "SidebarInput"; "SidebarSeparator"; "SelectSeparator"; "DropdownMenuSeparator"; "SidebarTrigger"; "ScrollBar"].

Definition slotted (name : string) : bool := negb (bool_decide (name ∈ void)).

(** ** Expanding a tree *)

Section expand.
Context `{Platform} `{UiLibs} {S : Type} (ctx : sidebar_context S).

(** What the [index.ts] files export. *)
Definition kit : list (string * component S) :=
  button_exports ++ badge_exports ++ alert_exports ++ card_exports ++ input_exports ++ label_exports ++ textarea_exports ++ separator_exports ++ skeleton_exports ++ checkbox_exports ++ table_exports ++ tabs_exports ++ switch_exports ++ avatar_exports ++ breadcrumb_exports ++ collapsible_exports ++ empty_exports ++ input_group_exports ++ scroll_area_exports ++ dialog_exports ++ sheet_exports ++ alert_dialog_exports ++ select_exports ++ dropdown_menu_exports ++ popover_exports ++ tooltip_exports ++ sidebar_exports ctx.

Definition kit_component (tag : jstring) : option (string * component S) :=
  List.find (fun c => bool_decide (js (fst c) = tag)) kit.

Fixpoint expand (n : vnode S) : E (list (vnode S)) :=
  match n with
  | Text s => Ok [Text s]
  | Elem tag a kids =>
      match kit_component tag with
      | Some c => snd c [Ok a] [frag (map expand kids)]
      | None => k ← frag (map expand kids); Ok [Elem tag a k]
      end
  end.

(** The handlers and texts of a tree as its view wrote it; what is put into a
    component without a slot is not shown. *)
Definition shows_kids (tag : jstring) : bool :=
  match kit_component tag with Some c => slotted (fst c) | None => true end.

Fixpoint given_handlers (n : vnode S) : list (jstring * (jsval -> prog S unit)) :=
  match n with
  | Text _ => []
  | Elem tag a kids => handlers a ++ (if shows_kids tag then List.concat (map given_handlers kids) else [])
  end.

Fixpoint given_texts (n : vnode S) : list jstring :=
  match n with
  | Text s => [s]
  | Elem tag _ kids => if shows_kids tag then List.concat (map given_texts kids) else []
  end.
End expand.

Definition all_keep {S} (l : list (string * component S)) : Prop :=
  Forall (fun c => keeps (slotted (fst c)) (snd c)) l.

Ltac keep_all :=
  lazymatch goal with |- all_keep ?l => let l' := eval hnf in l in change (all_keep l') end; unfold all_keep;
  repeat match goal with
  | |- Forall _ (_ :: _) => apply Forall_cons; split
  | |- Forall _ [] => apply Forall_nil
  end; try exact I;
  lazymatch goal with |- keeps (slotted (fst (?n, ?c))) (snd _) =>
    let b := eval vm_compute in (slotted n) in change (keeps b c) end;
  kit_keeps.

Section kit.
Context `{Platform} `{HandlerLaws} {S : Type}.

(** Components that other templates use. *)

Lemma Button_keeps : keeps (S:=S) true Button.
Proof. kit_keeps. Qed.
Lemma TableRow_keeps : keeps (S:=S) true TableRow.
Proof. kit_keeps. Qed.
Lemma TableCell_keeps : keeps (S:=S) true TableCell.
Proof. kit_keeps. Qed.
Lemma Separator_keeps : keeps (S:=S) false Separator.
Proof. kit_keeps. Qed.
Lemma Input_keeps : keeps (S:=S) false Input.
Proof. kit_keeps. Qed.
Lemma Textarea_keeps : keeps (S:=S) false Textarea.
Proof. kit_keeps. Qed.
Lemma ScrollBar_keeps : keeps (S:=S) false ScrollBar.
Proof. kit_keeps. Qed.
Hint Resolve Button_keeps TableRow_keeps TableCell_keeps Separator_keeps Input_keeps Textarea_keeps ScrollBar_keeps : kit.

Lemma DialogOverlay_keeps : keeps (S:=S) true DialogOverlay.
Proof. kit_keeps. Qed.
Lemma SheetOverlay_keeps : keeps (S:=S) true SheetOverlay.
Proof. kit_keeps. Qed.
Hint Resolve DialogOverlay_keeps SheetOverlay_keeps : kit.

Lemma Sheet_keeps : keeps (S:=S) true Sheet.
Proof. kit_keeps. Qed.
Lemma SheetContent_keeps : keeps (S:=S) true SheetContent.
Proof. kit_keeps. Qed.
Lemma SheetHeader_keeps : keeps (S:=S) true SheetHeader.
Proof. kit_keeps. Qed.
Lemma SheetTitle_keeps : keeps (S:=S) true SheetTitle.
Proof. kit_keeps. Qed.
Lemma SheetDescription_keeps : keeps (S:=S) true SheetDescription.
Proof. kit_keeps. Qed.
Lemma SelectScrollUpButton_keeps : keeps (S:=S) true SelectScrollUpButton.
Proof. kit_keeps. Qed.
Lemma SelectScrollDownButton_keeps : keeps (S:=S) true SelectScrollDownButton.
Proof. kit_keeps. Qed.
Lemma Tooltip_keeps : keeps (S:=S) true Tooltip.
Proof. kit_keeps. Qed.
Lemma TooltipTrigger_keeps : keeps (S:=S) true TooltipTrigger.
Proof. kit_keeps. Qed.
Lemma TooltipContent_keeps : keeps (S:=S) true TooltipContent.
Proof. kit_keeps. Qed.
Hint Resolve Sheet_keeps SheetContent_keeps SheetHeader_keeps SheetTitle_keeps SheetDescription_keeps SelectScrollUpButton_keeps SelectScrollDownButton_keeps Tooltip_keeps TooltipTrigger_keeps TooltipContent_keeps : kit.

Lemma SidebarMenuButtonChild_keeps : keeps (S:=S) true SidebarMenuButtonChild.
Proof. kit_keeps. Qed.
Hint Resolve SidebarMenuButtonChild_keeps : kit.

Lemma button_keep : all_keep (S:=S) button_exports.
Proof. keep_all. Qed.
Lemma badge_keep : all_keep (S:=S) badge_exports.
Proof. keep_all. Qed.
Lemma alert_keep : all_keep (S:=S) alert_exports.
Proof. keep_all. Qed.
Lemma card_keep : all_keep (S:=S) card_exports.
Proof. keep_all. Qed.
Lemma input_keep : all_keep (S:=S) input_exports.
Proof. keep_all. Qed.
Lemma label_keep : all_keep (S:=S) label_exports.
Proof. keep_all. Qed.
Lemma textarea_keep : all_keep (S:=S) textarea_exports.
Proof. keep_all. Qed.
Lemma separator_keep : all_keep (S:=S) separator_exports.
Proof. keep_all. Qed.
Lemma skeleton_keep : all_keep (S:=S) skeleton_exports.
Proof. keep_all. Qed.
Lemma checkbox_keep : all_keep (S:=S) checkbox_exports.
Proof. keep_all. Qed.
Lemma table_keep : all_keep (S:=S) table_exports.
Proof. keep_all. Qed.
Lemma tabs_keep : all_keep (S:=S) tabs_exports.
Proof. keep_all. Qed.
Lemma switch_keep : all_keep (S:=S) switch_exports.
Proof. keep_all. Qed.
Lemma avatar_keep : all_keep (S:=S) avatar_exports.
Proof. keep_all. Qed.
Lemma breadcrumb_keep : all_keep (S:=S) breadcrumb_exports.
Proof. keep_all. Qed.
Lemma collapsible_keep : all_keep (S:=S) collapsible_exports.
Proof. keep_all. Qed.
Lemma empty_keep : all_keep (S:=S) empty_exports.
Proof. keep_all. Qed.
Lemma input_group_keep : all_keep (S:=S) input_group_exports.
Proof. keep_all. Qed.
Lemma scroll_area_keep : all_keep (S:=S) scroll_area_exports.
Proof. keep_all. Qed.
Lemma dialog_keep : all_keep (S:=S) dialog_exports.
Proof. keep_all. Qed.
Lemma sheet_keep : all_keep (S:=S) sheet_exports.
Proof. keep_all. Qed.
Lemma alert_dialog_keep : all_keep (S:=S) alert_dialog_exports.
Proof. keep_all. Qed.
Lemma select_keep : all_keep (S:=S) select_exports.
Proof. keep_all. Qed.
Lemma dropdown_menu_keep : all_keep (S:=S) dropdown_menu_exports.
Proof. keep_all. Qed.
Lemma popover_keep : all_keep (S:=S) popover_exports.
Proof. keep_all. Qed.
Lemma tooltip_keep : all_keep (S:=S) tooltip_exports.
Proof. keep_all. Qed.
Lemma sidebar_keep ctx : all_keep (S:=S) (sidebar_exports ctx).
Proof. keep_all. Qed.

Lemma kit_keep (ctx : sidebar_context S) : all_keep (kit ctx).
Proof.
  unfold kit, all_keep. rewrite !Forall_app. repeat split.
  - apply button_keep.
  - apply badge_keep.
  - apply alert_keep.
  - apply card_keep.
  - apply input_keep.
  - apply label_keep.
  - apply textarea_keep.
  - apply separator_keep.
  - apply skeleton_keep.
  - apply checkbox_keep.
  - apply table_keep.
  - apply tabs_keep.
  - apply switch_keep.
  - apply avatar_keep.
  - apply breadcrumb_keep.
  - apply collapsible_keep.
  - apply empty_keep.
  - apply input_group_keep.
  - apply scroll_area_keep.
  - apply dialog_keep.
  - apply sheet_keep.
  - apply alert_dialog_keep.
  - apply select_keep.
  - apply dropdown_menu_keep.
  - apply popover_keep.
  - apply tooltip_keep.
  - apply sidebar_keep.
Qed.

(** ** Trees *)

Section nested.
Context (P : vnode S -> Prop) (HT : forall s, P (Text s)) (HE : forall t a kids, Forall P kids -> P (Elem t a kids)).

Fixpoint vnode_nested_ind (n : vnode S) : P n :=
  match n with
  | Text s => HT s
  | Elem t a kids => HE t a kids
      ((fix go (l : list (vnode S)) : Forall P l :=
          match l with [] => Forall_nil_2 P | x :: l' => Forall_cons_2 P x l' (vnode_nested_ind x) (go l') end) kids)
  end.
End nested.

(** What a node expands to has everything it was given. *)
Definition complete ctx (n : vnode S) : Prop :=
  exists ns, expand ctx n = Ok ns /\ (forall h, In h (given_handlers ctx n) -> handles h ns) /\ shows (given_texts ctx n) ns.

Lemma complete_kids ctx kids : Forall (complete ctx) kids ->
  exists k, frag (map (expand ctx) kids) = Ok k /\
    (forall h, In h (List.concat (map (given_handlers ctx) kids)) -> handles h k) /\
    shows (List.concat (map (given_texts ctx) kids)) k.
Proof.
  unfold frag. induction 1 as [|n kids (ns & Hn & Hh & Ht) _ (k & Hk & Hhk & Htk)].
  { exists []. split; [done|]. split; [by intros ?|constructor]. }
  cbn [map result_seq]. rewrite Hn. cbn [mbind result_bind]. destruct (result_seq (map (expand ctx) kids)) as [ls|]; [|done].
  cbn [mbind result_bind] in *. injection Hk as <-. eexists. split; [done|]. cbn [List.concat map]. split.
  - intros h Hin. unfold handles, tree_handlers. rewrite map_app, concat_app. apply in_or_app.
    apply in_app_or in Hin as [Hin|Hin]; [left; by apply Hh|right; by apply Hhk].
  - unfold shows, tree_texts in *. rewrite map_app, concat_app. by apply sublist_app.
Qed.

Lemma kit_component_keeps (ctx : sidebar_context S) tag c : kit_component ctx tag = Some c -> keeps (slotted (fst c)) (snd c).
Proof.
  intros [Hin _]%find_some. pose proof (kit_keep ctx) as Hk. unfold all_keep in Hk. rewrite Forall_forall in Hk.
  apply Hk. by apply list_elem_of_In.
Qed.

Lemma expand_complete ctx n : complete ctx n.
Proof.
  induction n as [s|tag a kids Hkids] using vnode_nested_ind.
  { exists [Text s]. split; [done|]. split; [by intros ?|]. by unfold shows, tree_texts. }
  destruct (complete_kids ctx kids Hkids) as (k & Hk & Hh & Ht). clear Hkids.
  unfold complete. cbn [expand given_handlers given_texts]. unfold shows_kids. rewrite Hk.
  destruct (kit_component ctx tag) as [c|] eqn:Hc; cycle 1.
  { eexists. split; [done|]. split.
    - intros h Hin. unfold handles, tree_handlers. cbn. rewrite app_nil_r. apply in_or_app.
      apply in_app_or in Hin as [Hin|Hin]; [by left|right; by apply Hh].
    - by apply shows_mono. }
  apply kit_component_keeps in Hc. set (ps := [Ok a]). set (ks := [Ok k]).
  assert (Forall is_ok ps /\ Forall is_ok ks) as [Hps Hks] by (split; by repeat constructor).
  pose proof (keeps_ok _ _ Hc ps ks Hps Hks) as Hok. destruct (snd c ps ks) as [ns|] eqn:Ens; [|done].
  assert (Hobs : forall Q, obs Q (snd c ps ks) -> Q ns) by (intros Q (ns' & He & HQ); rewrite Ens in He; by injection He as <-).
  exists ns. split; [done|]. split.
  - intros h Hin. apply Hobs. apply in_app_or in Hin as [Hin|Hin].
    + apply (keeps_handlers _ _ Hc); [done|done|]. apply Exists_cons_hd. by exists a.
    + destruct (slotted (fst c)); [|done]. apply (keeps_slot _ _ Hc); [done|done|done|apply handles_mono|].
      apply Exists_cons_hd. exists k. split; [done|]. by apply Hh.
  - destruct (slotted (fst c)); [|apply sublist_nil_l]. apply Hobs.
    apply (keeps_slot _ _ Hc); [done|done|done|apply shows_mono|]. apply Exists_cons_hd. by exists k.
Qed.
End kit.

(** [EmptyDescription] looks for its class among [$attrs], where a declared prop
    never is: the class it is given makes no difference. *)
Lemma empty_description_ignores_class `{Platform} `{UiLibs} {S : Type} (c1 c2 : jsval) (ks : list (E (list (vnode S)))) :
  EmptyDescription [bat "class" (Ok c1)] ks = EmptyDescription [bat "class" (Ok c2)] ks.
Proof. unfold EmptyDescription, define. cbn. by destruct (frag ks). Qed.

(** ** Claims *)

(** C29: The kit is transparent.  Whatever tree a view renders, replacing its
    elements of [components/ui] by their templates never fails, attaches every
    listener and field binding of the tree to an element under its event, and
    shows every text of the tree in the same order; [reka-ui]'s and [@vueuse]'s
    helpers are arbitrary functions that forward events. *)
Theorem kit_transparent `{Platform} `{HandlerLaws} {S : Type} (ctx : sidebar_context S) (n : vnode S) :
  exists ns, expand ctx n = Ok ns /\
    (forall h, In h (given_handlers ctx n) -> In h (tree_handlers ns)) /\
    sublist (given_texts ctx n) (tree_texts ns).
Proof. exact (expand_complete ctx n). Qed.

(** Libraries that forward what they are given. *)
Definition demo_listeners {S} (own : list (jstring * attr S)) : list (jstring * attr S) :=
  map (fun h => (js "on:" ++ fst h, AOn (snd h))) (handlers own).

Definition demo_vmodel {S} (own : list (jstring * attr S)) (k : string) (d : jsval) : list (jstring * attr S) :=
  (js "value", AVal (default d (head (omap (given_value (js k)) own)))) :: demo_listeners own.

Definition demo_ui : UiLibs :=
  {| lib_props := fun n => if String.eqb n "PrimitiveProps" then [any "as"; flag "asChild"] else [];
     lib_emits := fun _ => [];
     cva := fun c _ => js (cva_base c);
     reactiveOmit := fun ps ks => filter (fun kv => fst kv ∉ js <$> ks) ps;
     useForwardProps := fun given ps => filter (fun kv => fst kv ∈ given) ps;
     useForwardPropsEmits := fun S own ps => (prod_map id AVal <$> ps) ++ demo_listeners own;
     useVModel := fun S own ps k d => demo_vmodel own k d |}.

Lemma demo_listeners_handlers {S} (own : list (jstring * attr S)) : handlers (demo_listeners own) = handlers own.
Proof.
  unfold demo_listeners. induction (handlers own) as [|[e f] l IH]; [done|].
  cbn [map fst snd]. rewrite <- IH at 2. done.
Qed.

Lemma demo_laws : @HandlerLaws demo_ui.
Proof.
  split.
  - intros S own ps. cbn [useForwardPropsEmits demo_ui]. rewrite handlers_app, values_handlers. apply demo_listeners_handlers.
  - intros S own ps k d h Hh. cbn [useVModel demo_ui]. unfold demo_vmodel.
    change (handlers ?x) with (handlers (demo_listeners own)). by rewrite demo_listeners_handlers.
Qed.

(** The settings form and what it expands to. *)
Definition demo_context {S} : sidebar_context S :=
  {| c_isMobile := false; c_state := js "expanded"; c_openMobile := false;
     c_setOpenMobile := fun _ => Ret tt; c_toggleSidebar := Ret tt |}.
Definition demo_settings : vnode (panel * SettingsView.state) :=
  match @SettingsView.render demo_platform (@Session.init_panel demo_platform demo_browser) SettingsView.setup with
  | Ok (n :: _) => n
  | _ => Text []
  end.

Lemma kit_transparent_witness :
  fst <$> @given_handlers demo_platform demo_ui _ demo_context demo_settings = [js "update:modelValue"; js "click"] /\
  exists ns, @expand demo_platform demo_ui _ demo_context demo_settings = Ok ns /\
    (forall h, In h (@given_handlers demo_platform demo_ui _ demo_context demo_settings) -> In h (tree_handlers ns)) /\
    sublist (@given_texts demo_platform demo_ui _ demo_context demo_settings) (tree_texts ns).
Proof.
  split; [by vm_compute|].
  exact (@kit_transparent demo_platform demo_ui demo_laws _ demo_context demo_settings).
Defined.
