(* ===== verification/SidebarProps.v ===== *)
(** * The sidebar remembers its state

    The cookie [SidebarProvider] writes is read back by the next load: the reading
    of [document.cookie] as a text, and the invariant that relates the cookie to
    the open state under any sequence of events. *)

From stdpp Require Import base list gmap strings.
From Stdlib Require Import NArith ZArith Lia String SpecFloat.
From S2P Require Import Prelude JsString JsNum JsVal Json Prog State Payload View Form Kit SidebarProvider.
Local Open Scope js_scope.

(** ** Substrings *)

Lemma starts_with_iff p s : starts_with p s = true <-> exists b, s = p ++ b.
Proof.
  revert s. induction p as [|c p IH]; intros s; [split; [by exists s|done]|].
  destruct s as [|d s]; cbn [starts_with]; [split; [done|by intros (b & ?)]|].
  rewrite andb_true_iff, IH, N.eqb_eq. split.
  - intros (-> & b & ->). by exists b.
  - intros (b & [= -> ->]). split; [done|by exists b].
Qed.

Lemma includes_iff p s : includes p s = true <-> exists a b, s = a ++ p ++ b.
Proof.
  induction s as [|c s IH]; cbn [includes].
  - rewrite orb_false_r. rewrite starts_with_iff. split.
    + intros (b & Hb). by exists [], b.
    + intros (a & b & Hb). symmetry in Hb. apply app_eq_nil in Hb as [-> Hb]. by exists b.
  - rewrite orb_true_iff, IH, starts_with_iff. split.
    + intros [(b & Hb)|(a & b & ->)]; [by exists [], b|by exists (c :: a), b].
    + intros ([|d a] & b & Hb); [left; by exists b|right]. injection Hb as -> ->. by exists a, b.
Qed.

(** A text without the separator lies on one side of it. *)
Lemma split_around (c : N) (p a b x y : jstring) : c ∉ p -> p <> [] -> a ++ p ++ b = x ++ c :: y ->
  (exists m, x = a ++ p ++ m) \/ (exists m, y = m ++ p ++ b).
Proof.
  intros Hc Hp Heq. apply app_eq_app in Heq as (k & [[-> Hk]|[-> Hk]]).
  - destruct k as [|d k]; cbn in Hk.
    + destruct p as [|e p]; [done|]. injection Hk as -> _. set_solver.
    + injection Hk as -> ->. right. by exists k.
  - symmetry in Hk. apply app_eq_app in Hk as (m & [[-> Hm]|[-> Hm]]).
    + left. exists m. by rewrite <- ?app_assoc.
    + destruct m as [|d m]; [left; exists []; by rewrite !app_nil_r|]. injection Hm as -> _. set_solver.
Qed.

Lemma includes_join p l : 59%N ∉ p -> 32%N ∉ p -> p <> [] ->
  includes p (join (js "; ") l) = true <-> Exists (fun x => includes p x = true) l.
Proof.
  intros H1 H2 Hp. induction l as [|x l IH].
  { cbn [join]. rewrite includes_iff. split; [|by intros ?%Exists_nil]. intros (a & b & Hab). symmetry in Hab.
    apply app_eq_nil in Hab as [_ Hab]. by apply app_eq_nil in Hab as [? _]. }
  destruct l as [|y l]; [cbn [join]; rewrite Exists_cons, Exists_nil; tauto|].
  change (join (js "; ") (x :: y :: l)) with (x ++ 59%N :: 32%N :: join (js "; ") (y :: l)).
  rewrite Exists_cons, <- IH, !includes_iff. split.
  - intros (a & b & Hab). symmetry in Hab. apply split_around in Hab as [(m & ->)|(m & Hm)]; [..|done|done].
    + left. by exists a, m.
    + right. destruct m as [|d m]; cbn in Hm.
      * destruct p as [|e p]; [done|]. injection Hm as Hm _. subst e. set_solver.
      * injection Hm as _ Hm. by exists m, b.
  - intros [(a & b & ->)|(a & b & Hab)].
    + exists a, (b ++ 59%N :: 32%N :: join (js "; ") (y :: l)). by rewrite <- !app_assoc.
    + exists (x ++ 59%N :: 32%N :: a), b. rewrite Hab. by rewrite <- !app_assoc.
Qed.

(** ** The cookie *)

Definition closed_text : jstring := SIDEBAR_COOKIE_NAME ++ js "=false".

Definition is_state (c : cookie) : bool := bool_decide (ck_name c = SIDEBAR_COOKIE_NAME).

(** No cookie of another name reads like the sidebar's. *)
Definition foreign_ok (cs : list cookie) : Prop :=
  Forall (fun c => is_state c = false -> includes closed_text (cookie_text c) = false) cs.

Definition week : Z := 604800.
Definition state_cookie (now : Z) (b : bool) : cookie :=
  {| ck_name := SIDEBAR_COOKIE_NAME; ck_value := bool_text b; ck_expires := Some (now + week)%Z |}.

Lemma set_state_cookie now b cs : set_cookie now (cookie_assignment b) cs = put_cookie (state_cookie now b) cs.
Proof.
  unfold set_cookie. replace (split_at 59 (cookie_assignment b)) with
    (SIDEBAR_COOKIE_NAME ++ js "=" ++ bool_text b, Some (js " path=/; max-age=604800")) by (destruct b; by vm_compute).
  replace (split_at 61 (SIDEBAR_COOKIE_NAME ++ js "=" ++ bool_text b)) with (SIDEBAR_COOKIE_NAME, Some (bool_text b))
    by (destruct b; by vm_compute).
  replace (trim SIDEBAR_COOKIE_NAME) with SIDEBAR_COOKIE_NAME by (by vm_compute).
  replace (trim (bool_text b)) with (bool_text b) by (destruct b; by vm_compute).
  by replace (max_age (js " path=/; max-age=604800")) with (Some week) by (by vm_compute).
Qed.

Lemma state_cookie_text now b : includes closed_text (cookie_text (state_cookie now b)) = negb b.
Proof. destruct b; by vm_compute. Qed.

(** The default is closed exactly if a living cookie says so. *)
Lemma cookie_default_spec now cs :
  cookie_default (cookie_string now cs) = false <->
  Exists (fun c => alive now c = true /\ includes closed_text (cookie_text c) = true) cs.
Proof.
  unfold cookie_default, cookie_string. rewrite negb_false_iff. fold closed_text. rewrite includes_join.
  - rewrite !Exists_exists. split.
    + intros (x & (c & -> & Hc)%list_elem_of_fmap & Hx). apply list_elem_of_filter in Hc as [? ?]. eauto.
    + intros (c & Hc & Ha & Hx). exists (cookie_text c). split; [|done].
      apply list_elem_of_fmap. exists c. split; [done|]. by apply list_elem_of_filter.
  - apply (bool_decide_unpack _). by vm_compute.
  - apply (bool_decide_unpack _). by vm_compute.
  - done.
Qed.

Lemma put_cookie_in c cs d : d ∈ put_cookie c cs -> d = c \/ (d ∈ cs /\ (NoDup (ck_name <$> cs) -> ck_name d <> ck_name c)).
Proof.
  induction cs as [|e cs IH]; cbn [put_cookie]; [set_solver|]. case_decide as He.
  - intros [->|Hd]%elem_of_cons; [by left|]. right. split; [set_solver|]. intros [Hn _]%NoDup_cons Heq.
    apply Hn. rewrite He, <- Heq. by apply list_elem_of_fmap_2.
  - intros [->|Hd]%elem_of_cons; [right; split; [set_solver|done]|]. destruct (IH Hd) as [->|[? Hn]]; [by left|].
    right. split; [set_solver|]. intros [_ ?]%NoDup_cons. by apply Hn.
Qed.

Lemma put_cookie_self c cs : c ∈ put_cookie c cs.
Proof. induction cs as [|e cs IH]; cbn [put_cookie]; [set_solver|]. case_decide; set_solver. Qed.

Lemma put_cookie_names c cs : NoDup (ck_name <$> cs) -> NoDup (ck_name <$> put_cookie c cs).
Proof.
  induction cs as [|e cs IH]; cbn [put_cookie]; [intros _; apply NoDup_singleton|]. intros [Hn Hd]%NoDup_cons.
  case_decide as He; [by rewrite fmap_cons, <- He; apply NoDup_cons|].
  rewrite fmap_cons. apply NoDup_cons. split; [|by apply IH]. intros (d & Heq & Hin)%list_elem_of_fmap.
  destruct (put_cookie_in _ _ _ Hin) as [->|[Hin' _]]; [done|]. apply Hn. rewrite Heq. by apply list_elem_of_fmap_2.
Qed.

(** ** What the provider remembers *)

Section provider.
Context `{VModelLaws}.

Definition is_open (w : world) : bool := vm_get (open (bar w)).

Record remembers (w : world) : Prop := {
  rem_passive : vm_passive (open (bar w)) = true;
  rem_names : NoDup (ck_name <$> jar w);
  rem_foreign : foreign_ok (jar w);
  rem_alive : forall c, c ∈ jar w -> is_state c = true -> alive (clock w) c = true ->
    includes closed_text (cookie_text c) = negb (is_open w);
  rem_none : (forall c, c ∈ jar w -> is_state c = false) -> is_open w = true
}.

Lemma alive_before t t' c : (t <= t')%Z -> alive t' c = true -> alive t c = true.
Proof. unfold alive. destruct (ck_expires c); [|done]. rewrite !bool_decide_eq_true. lia. Qed.

Lemma same_name cs (c d : cookie) : NoDup (ck_name <$> cs) -> c ∈ cs -> d ∈ cs -> ck_name c = ck_name d -> c = d.
Proof.
  intros Hn (i & Hi)%list_elem_of_lookup (j & Hj)%list_elem_of_lookup Heq.
  assert (i = j) as <-; [|by simplify_eq]. eapply NoDup_lookup; [exact Hn|..]; rewrite list_lookup_fmap, ?Hi, ?Hj; [done|].
  cbn. by rewrite Heq.
Qed.

(** The default of a load: what the sidebar's living cookie says. *)
Lemma default_of_cookie now cs c : NoDup (ck_name <$> cs) -> foreign_ok cs -> c ∈ cs -> is_state c = true ->
  alive now c = true -> cookie_default (cookie_string now cs) = negb (includes closed_text (cookie_text c)).
Proof.
  intros Hn Hf Hc Hs Ha. destruct (includes closed_text (cookie_text c)) eqn:Hi; cbn [negb].
  - apply cookie_default_spec, Exists_exists. eauto.
  - apply not_false_is_true. intros (d & Hd & _ & Hdi)%cookie_default_spec%Exists_exists.
    destruct (is_state d) eqn:Hds.
    + assert (c = d) as <-; [|by rewrite Hi in Hdi]. apply (same_name cs); [done..|].
      apply bool_decide_eq_true in Hs, Hds. congruence.
    + unfold foreign_ok in Hf. rewrite Forall_forall in Hf. rewrite (Hf d Hd Hds) in Hdi. done.
Qed.

Lemma default_without now cs : foreign_ok cs ->
  (forall c, c ∈ cs -> is_state c = true -> alive now c = false) -> cookie_default (cookie_string now cs) = true.
Proof.
  intros Hf Hno. apply not_false_is_true. intros (d & Hd & Ha & Hi)%cookie_default_spec%Exists_exists.
  destruct (is_state d) eqn:Hs; [by rewrite (Hno d Hd Hs) in Ha|].
  unfold foreign_ok in Hf. rewrite Forall_forall in Hf. by rewrite (Hf d Hd Hs) in Hi.
Qed.

Lemma load_open mobile now cs : is_open (load mobile now cs) = cookie_default (cookie_string now cs).
Proof. unfold is_open. cbn. by rewrite vm_get_new. Qed.

Lemma load_remembers mobile now cs : NoDup (ck_name <$> cs) -> foreign_ok cs -> remembers (load mobile now cs).
Proof.
  intros Hn Hf. split; [|done|done|..].
  - cbn. by rewrite vm_passive_new.
  - intros c Hc Hs Ha. rewrite load_open, (default_of_cookie now cs c) by done. by rewrite negb_involutive.
  - intros Hno. rewrite load_open. apply default_without; [done|]. intros c Hc Hs. cbn in Hno. by rewrite (Hno c Hc) in Hs.
Qed.

Lemma setOpen_remembers v w : remembers w -> remembers (setOpen v w) /\ is_open (setOpen v w) = v.
Proof.
  intros [Hp Hn Hf _ _].
  assert (Hv : vm_get (vm_set v (open (bar w))) = v) by (by rewrite vm_get_set, Hp).
  split; [|by unfold is_open].
  split; unfold is_open; cbn [setOpen bar open jar clock]; rewrite ?Hv, ?set_state_cookie.
  - by rewrite vm_passive_set.
  - by apply put_cookie_names.
  - unfold foreign_ok in *. rewrite Forall_forall in *. intros c [->|[Hc _]]%put_cookie_in; [done|by apply Hf].
  - intros c [->|[Hc Hne]]%put_cookie_in Hs _; [apply state_cookie_text|].
    apply bool_decide_eq_true in Hs. by destruct (Hne Hn).
  - intros Hno. specialize (Hno _ (put_cookie_self _ _)). done.
Qed.

(** Events that leave the open state and the cookies alone. *)
Lemma same_remembers w w' : open (bar w') = open (bar w) -> jar w' = jar w -> (clock w <= clock w')%Z ->
  remembers w -> remembers w' /\ is_open w' = is_open w.
Proof.
  intros Ho Hj Hc [Hp Hn Hf Ha Hno]. assert (Hi : is_open w' = is_open w) by (unfold is_open; by rewrite Ho).
  split; [|done]. split; rewrite ?Ho, ?Hj, ?Hi; try done.
  intros c Hin Hs Hal. apply Ha; [done..|]. by eapply alive_before.
Qed.

Lemma toggle_remembers w : remembers w -> remembers (toggleSidebar w).
Proof.
  intros Hw. unfold toggleSidebar. destruct (isMobile (bar w)); [|by apply setOpen_remembers].
  by apply (same_remembers w); [..|done].
Qed.

Lemma step_remembers e w : remembers w -> remembers (step e w).
Proof.
  intros Hw. destruct e as [|k m c|b|m|t]; cbn [step].
  - by apply toggle_remembers.
  - unfold on_keydown. destruct (_ && _); [by apply toggle_remembers|done].
  - by apply (same_remembers w); [..|done].
  - by apply (same_remembers w); [..|done].
  - apply (same_remembers w); [done|done| |done]. cbn [clock]. lia.
Qed.

Lemma run_remembers es w : remembers w -> remembers (run es w).
Proof. revert w. induction es as [|e es IH]; intros w Hw; [done|]. by apply IH, step_remembers. Qed.

(** A later load reads back what the provider remembers. *)
Lemma reload_open mobile later w : remembers w -> (clock w <= later)%Z ->
  (forall c, c ∈ jar w -> is_state c = true -> alive later c = true) ->
  is_open (load mobile later (jar w)) = is_open w.
Proof.
  intros [Hp Hn Hf Ha Hno] Hl Halive. rewrite load_open.
  destruct (decide (Exists (fun c => is_state c = true) (jar w))) as [(c & Hc & Hs)%Exists_exists|Hnone].
  - rewrite (default_of_cookie later (jar w) c); [|done..|by apply Halive].
    rewrite (Ha c Hc Hs); [by rewrite negb_involutive|]. eapply alive_before; [exact Hl|]. by apply Halive.
  - assert (Hall : forall c, c ∈ jar w -> is_state c = false).
    { intros c Hc. apply not_true_is_false. intros Hs. apply Hnone, Exists_exists. eauto. }
    rewrite Hno by done. apply default_without; [done|]. intros c Hc Hs. by rewrite (Hall c Hc) in Hs.
Qed.

(** Toggling on a wide screen. *)
Lemma toggle_wide w : remembers w -> isMobile (bar w) = false ->
  is_open (toggleSidebar w) = negb (is_open w) /\
  forall c, c ∈ jar (toggleSidebar w) -> is_state c = true -> c = state_cookie (clock w) (negb (is_open w)).
Proof.
  intros Hw Hm. destruct (setOpen_remembers (negb (is_open w)) w Hw) as [_ Ho].
  unfold toggleSidebar. rewrite Hm. fold (is_open w). split; [exact Ho|].
  intros c. cbn [setOpen jar]. rewrite set_state_cookie.
  replace (vm_get (vm_set (negb (is_open w)) (open (bar w)))) with (negb (is_open w)) by (symmetry; exact Ho).
  intros [->|[Hc Hne]]%put_cookie_in Hs; [done|]. apply bool_decide_eq_true in Hs. by destruct (Hne (rem_names w Hw)).
Qed.

(** With the [open] prop given, the cookie records the state before the change:
    assigning the model only emits, and the value read back is still the prop's. *)
Lemma controlled_cookie_stale v w : vm_passive (open (bar w)) = false ->
  jar (setOpen v w) = put_cookie (state_cookie (clock w) (is_open w)) (jar w).
Proof. intros Hp. cbn [setOpen jar]. rewrite set_state_cookie. unfold is_open. by rewrite vm_get_set, Hp. Qed.
End provider.

(** ** Claims *)

(** C30: The sidebar remembers its state.  After a load and any sequence of toggles,
    shortcuts, resizes, sheet events and waiting: on a wide screen toggling flips
    the sidebar, and loading the page again within a week shows it as it was left;
    on a narrow screen toggling flips the sheet and leaves the sidebar and the
    cookies alone; and a later load shows the same state as long as the sidebar's
    cookie, if there is one, has not expired.  Cookies have distinct names, and no
    other cookie contains the text looked for. *)
Theorem sidebar_remembered `{VModelLaws} mobile now cs es :
  NoDup (ck_name <$> cs) -> foreign_ok cs ->
  let w := run es (load mobile now cs) in
  (isMobile (bar w) = false ->
    is_open (toggleSidebar w) = negb (is_open w) /\
    forall mobile' t, (clock w <= t < clock w + SIDEBAR_COOKIE_MAX_AGE)%Z ->
      is_open (load mobile' t (jar (toggleSidebar w))) = negb (is_open w)) /\
  (isMobile (bar w) = true ->
    openMobile (bar (toggleSidebar w)) = negb (openMobile (bar w)) /\
    is_open (toggleSidebar w) = is_open w /\ jar (toggleSidebar w) = jar w) /\
  (forall mobile' later, (clock w <= later)%Z ->
    (forall c, c ∈ jar w -> is_state c = true -> alive later c = true) ->
    is_open (load mobile' later (jar w)) = is_open w).
Proof.
  intros Hn Hf w. assert (Hw : remembers w) by (by apply run_remembers, load_remembers). split_and!.
  - intros Hm. destruct (toggle_wide w Hw Hm) as [Ho Hc]. split; [done|]. intros mobile' t Ht.
    rewrite <- Ho. apply reload_open; [by apply toggle_remembers|..].
    + unfold toggleSidebar. rewrite Hm. cbn [setOpen clock]. lia.
    + intros c Hin Hs. rewrite (Hc c Hin Hs). cbn [alive ck_expires state_cookie].
      apply bool_decide_eq_true. unfold week, SIDEBAR_COOKIE_MAX_AGE in *. lia.
  - intros Hm. unfold toggleSidebar. by rewrite Hm.
  - intros mobile' later Hl Ha. by apply reload_open.
Qed.

(** A model as [@vueuse/core] makes it. *)
Definition demo_vmodel : VModel :=
  {| vm := bool * bool; vm_new := fun p d => (bool_decide (p = None), default d p);
     vm_passive := fst; vm_get := snd; vm_set := fun b m => (fst m, if fst m then b else snd m) |}.

Lemma demo_vmodel_laws : @VModelLaws demo_vmodel.
Proof. split; [done..|]. by intros b [[|] x]. Qed.

Definition demo_cookies : list cookie := [{| ck_name := js "theme"; ck_value := js "dark"; ck_expires := None |}].

Definition demo_events : list event := [Resize true; Toggle; Resize false; Key (js "b") false true; Wait 3600].

Lemma demo_cookies_ok : NoDup (ck_name <$> demo_cookies) /\ foreign_ok demo_cookies.
Proof. split; [apply NoDup_singleton|]. apply Forall_singleton. intros _. by vm_compute. Qed.

Lemma demo_cookie_alive c :
  c ∈ jar (@run demo_vmodel demo_events (@load demo_vmodel false 0 demo_cookies)) -> alive 86400 c = true.
Proof.
  revert c. apply Forall_forall. apply (bool_decide_unpack _). by vm_compute.
Qed.

Lemma sidebar_remembered_witness :
  let w := @run demo_vmodel demo_events (@load demo_vmodel false 0 demo_cookies) in
  is_open w = false /\ openMobile (bar w) = true /\
  is_open (@load demo_vmodel false 86400 (jar w)) = is_open w.
Proof.
  split; [by vm_compute|]. split; [by vm_compute|].
  exact (proj2 (proj2 (@sidebar_remembered demo_vmodel demo_vmodel_laws false 0 demo_cookies demo_events
    (proj1 demo_cookies_ok) (proj2 demo_cookies_ok))) false 86400%Z ltac:(by vm_compute)
    (fun c Hc _ => demo_cookie_alive c Hc)).
Defined.
