(* ===== verification/CommandState.v ===== *)
(** * [components/ui/command]: the filter of a command list

    [Command.vue] keeps the registered items and groups and which of them match
    the search; [CommandItem.vue] and [CommandGroup.vue] register themselves when
    mounted, and every part decides from the shared state whether it is shown.
    [contains] is the comparison of [reka-ui]'s [useFilter].  Maps are iterated in
    insertion order, which none of the results depends on. *)

From stdpp Require Import base list gmap sets fin_sets strings.
From Stdlib Require Import NArith ZArith Lia String.
From S2P Require Import Prelude JsString JsNum JsVal.
Local Open Scope js_scope.

(** [filterState.filtered] *)
Record filtered_state := Filtered {
  count : nat;
  items : gmap jstring bool;
  groups : gset jstring
}.

Record command := Command_ {
  allItems : gmap jstring jstring;
  allGroups : gmap jstring (gset jstring);
  search : jstring;
  filtered : filtered_state
}.

(** Setup of [Command.vue]. *)
Definition new_command : command :=
  {| allItems := ∅; allGroups := ∅; search := []; filtered := {| count := 0; items := ∅; groups := ∅ |} |}.

Section command.
Context (contains : jstring -> jstring -> bool).

Definition set_filtered (f : filtered_state) (c : command) : command :=
  {| allItems := allItems c; allGroups := allGroups c; search := search c; filtered := f |}.

(** The first loop: the score of every registered item, over the scores there were. *)
Definition scores (c : command) : gmap jstring bool :=
  ((fun value => contains value (search c)) <$> allItems c) ∪ items (filtered c).

Definition matching (c : command) : gmap jstring jstring :=
  filter (fun kv => contains (snd kv) (search c) = true) (allItems c).

(** The second loop: groups with an item of positive score. *)
Definition some_visible (sc : gmap jstring bool) (group : gset jstring) : bool :=
  existsb (fun itemId => bool_decide (sc !! itemId = Some true)) (elements group).
Definition visible_groups (sc : gmap jstring bool) (c : command) : gset jstring :=
  dom (filter (fun kv => some_visible sc (snd kv) = true) (allGroups c)).

Definition filterItems (c : command) : command :=
  match search c with
  | [] => set_filtered {| count := size (allItems c); items := items (filtered c); groups := groups (filtered c) |} c
  | _ => set_filtered {| count := size (matching c); items := scores c; groups := visible_groups (scores c) c |} c
  end.

(** [filterState.search = s], with the watcher on it. *)
Definition setSearch (s : jstring) (c : command) : command :=
  if decide (s = search c) then c
  else filterItems {| allItems := allItems c; allGroups := allGroups c; search := s; filtered := filtered c |}.

(** ** [CommandItem.vue] *)

Definition item_isRender (id : jstring) (c : command) : bool :=
  match search c with
  | [] => true
  | _ => match items (filtered c) !! id with None => true | Some score => score end
  end.

Definition set_groups (g : gmap jstring (gset jstring)) (c : command) : command :=
  {| allItems := allItems c; allGroups := g; search := search c; filtered := filtered c |}.

(** [onMounted]; [text] is the text of the rendered element, [None] if there is none.
    A group of the empty name counts as no group. *)
Definition item_mounted (id : jstring) (text : option jstring) (groupId : option jstring) (c : command) : command :=
  match text with
  | None => c
  | Some t =>
      let c := {| allItems := <[id := t]> (allItems c); allGroups := allGroups c; search := search c; filtered := filtered c |} in
      match groupId with
      | None | Some [] => c
      | Some g => set_groups (<[g := {[id]} ∪ default ∅ (allGroups c !! g)]> (allGroups c)) c
      end
  end.

Definition item_unmounted (id : jstring) (c : command) : command :=
  {| allItems := delete id (allItems c); allGroups := allGroups c; search := search c; filtered := filtered c |}.

(** [@select] *)
Definition item_selected (c : command) : command := setSearch [] c.

(** ** [CommandGroup.vue] and [CommandEmpty.vue] *)

Definition group_isRender (id : jstring) (c : command) : bool :=
  match search c with [] => true | _ => bool_decide (id ∈ groups (filtered c)) end.

Definition group_mounted (id : jstring) (c : command) : command :=
  match allGroups c !! id with Some _ => c | None => set_groups (<[id := ∅]> (allGroups c)) c end.

Definition group_unmounted (id : jstring) (c : command) : command := set_groups (delete id (allGroups c)) c.

Definition empty_isRender (c : command) : bool :=
  match search c with [] => false | _ => bool_decide (count (filtered c) = 0) end.

(** ** What can happen *)

Inductive event :=
| Search (s : jstring)
| Select
| ItemMounted (id : jstring) (text groupId : option jstring)
| ItemUnmounted (id : jstring)
| GroupMounted (id : jstring)
| GroupUnmounted (id : jstring).

Definition step (e : event) (c : command) : command :=
  match e with
  | Search s => setSearch s c
  | Select => item_selected c
  | ItemMounted id text g => item_mounted id text g c
  | ItemUnmounted id => item_unmounted id c
  | GroupMounted id => group_mounted id c
  | GroupUnmounted id => group_unmounted id c
  end.

Definition run (es : list event) (c : command) : command := fold_left (fun c e => step e c) es c.
End command.

(** Items that stay: no item is unmounted. *)
Definition keeps_items (e : event) : Prop := match e with ItemUnmounted _ => False | _ => True end.
