(* ===== verification/CommandProps.v ===== *)
(** * The command list shows what matches

    What [filterItems] computes, against the definition by the registered items;
    and two states in which the code shows something else. *)

From stdpp Require Import base list gmap sets fin_sets strings.
From Stdlib Require Import NArith ZArith Lia String.
From S2P Require Import Prelude JsString JsNum JsVal CommandState.
Local Open Scope js_scope.

Section filter.
Context (contains : jstring -> jstring -> bool).
Implicit Types c : command.

(** Every member of a group is a registered item. *)
Definition coherent c : Prop :=
  forall g members id, allGroups c !! g = Some members -> id ∈ members -> is_Some (allItems c !! id).

Lemma filterItems_registry c : allItems (filterItems contains c) = allItems c /\
  allGroups (filterItems contains c) = allGroups c /\ search (filterItems contains c) = search c.
Proof. unfold filterItems. destruct (search c) eqn:E; cbn; by rewrite ?E. Qed.

Lemma setSearch_registry s c : allItems (setSearch contains s c) = allItems c /\
  allGroups (setSearch contains s c) = allGroups c /\ search (setSearch contains s c) = s.
Proof. unfold setSearch. case_decide as Hs; [by subst|]. apply (filterItems_registry (Command_ _ _ _ _)). Qed.

Lemma coherent_setSearch s c : coherent c -> coherent (setSearch contains s c).
Proof.
  intros Hc g members id. destruct (setSearch_registry s c) as (-> & -> & _). apply Hc.
Qed.

Lemma coherent_step e c : keeps_items e -> coherent c -> coherent (step contains e c).
Proof.
  intros He Hc. destruct e as [s| |id text g|id|id|id]; cbn [step]; [by apply coherent_setSearch..| |done| |].
  - unfold item_mounted. destruct text as [t|]; [|done]. intros g' members id'.
    assert (Hreg : is_Some (allItems c !! id') \/ id' = id -> is_Some (<[id:=t]> (allItems c) !! id')).
    { intros [Hi| ->]; [by apply lookup_insert_is_Some'; right|by apply lookup_insert_is_Some'; left]. }
    destruct g as [[|x g]|]; cbn [set_groups allGroups allItems]; try (intros Hg Hm; apply Hreg; left; exact (Hc _ _ _ Hg Hm)).
    intros [[<- <-]|[_ Hg]]%lookup_insert_Some Hm; apply Hreg; [|left; exact (Hc _ _ _ Hg Hm)].
    apply elem_of_union in Hm as [Hm%elem_of_singleton|Hm]; [by right|left].
    destruct (allGroups c !! (x :: g)) as [ms|] eqn:E; [exact (Hc _ _ _ E Hm)|]. by apply not_elem_of_empty in Hm.
  - unfold group_mounted. destruct (allGroups c !! id) eqn:E; [done|]. intros g members i. cbn [set_groups allGroups allItems].
    intros [[<- <-]|[_ Hg]]%lookup_insert_Some Hm; [by apply not_elem_of_empty in Hm|exact (Hc _ _ _ Hg Hm)].
  - intros g members i. cbn [group_unmounted set_groups allGroups allItems]. intros [_ Hg]%lookup_delete_Some. exact (Hc _ _ _ Hg).
Qed.

Lemma coherent_run es c : Forall keeps_items es -> coherent c -> coherent (run contains es c).
Proof. intros Hes. revert c. induction Hes as [|e es He _ IH]; intros c Hc; [done|]. by apply IH, coherent_step. Qed.

(** The score of a registered item is its match. *)
Lemma scores_registered c id t : allItems c !! id = Some t -> scores contains c !! id = Some (contains t (search c)).
Proof. intros Hi. unfold scores. apply lookup_union_Some_l. by rewrite lookup_fmap, Hi. Qed.

Lemma some_visible_spec (sc : gmap jstring bool) (group : gset jstring) :
  some_visible sc group = true <-> exists id, id ∈ group /\ sc !! id = Some true.
Proof.
  unfold some_visible. rewrite existsb_exists. split.
  - intros (id & Hin & Hs). apply bool_decide_eq_true in Hs. apply list_elem_of_In, elem_of_elements in Hin. eauto.
  - intros (id & Hin & Hs). exists id. split; [by apply list_elem_of_In, elem_of_elements|]. by apply bool_decide_eq_true.
Qed.

Lemma visible_groups_spec (sc : gmap jstring bool) c g members : allGroups c !! g = Some members ->
  g ∈ visible_groups sc c <-> exists id, id ∈ members /\ sc !! id = Some true.
Proof.
  intros Hg. unfold visible_groups. rewrite elem_of_dom. unfold is_Some. setoid_rewrite map_lookup_filter_Some. cbn [snd].
  rewrite <- some_visible_spec. split; [intros (m & Hm & ?); by simplify_eq|eauto].
Qed.

(** The state after a search has changed. *)
Lemma setSearch_filtered s c : s <> search c -> s <> [] ->
  let c1 := {| allItems := allItems c; allGroups := allGroups c; search := s; filtered := filtered c |} in
  filtered (setSearch contains s c) =
    {| count := size (matching contains c1); items := scores contains c1;
       groups := visible_groups (scores contains c1) c1 |}.
Proof. intros Hs Hne. unfold setSearch. rewrite decide_False by done. unfold filterItems. cbn [search]. by destruct s. Qed.
End filter.

(** ** Claims *)

(** C31: The command list shows what matches.  After any mounting of items and
    groups, unmounting of groups, selections and searches, changing the search to
    a non-empty text shows exactly the registered items that contain it, exactly
    the groups with such an item, counts these items, and shows the empty message
    exactly when there are none; an empty search shows everything. *)
Theorem command_filter_correct contains es s :
  Forall keeps_items es ->
  let c := run contains es new_command in
  let c' := setSearch contains s c in
  s <> search c ->
  (s <> [] ->
    (forall id t, allItems c !! id = Some t -> item_isRender id c' = contains t s) /\
    (forall g members, allGroups c !! g = Some members ->
      group_isRender g c' = true <->
      exists id t, id ∈ members /\ allItems c !! id = Some t /\ contains t s = true) /\
    count (filtered c') = size (filter (fun kv => contains (snd kv) s = true) (allItems c)) /\
    (empty_isRender c' = true <-> forall id t, allItems c !! id = Some t -> contains t s = false)) /\
  (s = [] -> (forall id, item_isRender id c' = true) /\ (forall g, group_isRender g c' = true) /\
    empty_isRender c' = false /\ count (filtered c') = size (allItems c)).
Proof.
  intros Hes c c' Hs. assert (Hc : coherent c) by (apply coherent_run; [done|]; intros g m id Hg; by destruct (lookup_empty_Some g m)).
  destruct (setSearch_registry contains s c) as (Hi & Hg & Hse). fold c' in Hi, Hg, Hse. split.
  - intros Hne. pose proof (setSearch_filtered contains s c Hs Hne) as Hf. fold c' in Hf. cbv zeta in Hf.
    set (c1 := {| allItems := _ |}) in Hf.
    assert (Hsh : forall (a b : bool), match search c' with [] => a | _ => b end = b) by (rewrite Hse; by destruct s).
    split_and!.
    + intros id t Hid. unfold item_isRender. rewrite Hsh, Hf. cbn [items]. by rewrite (scores_registered contains c1 id t).
    + intros g members Hgm. unfold group_isRender. rewrite Hsh, Hf. cbn [groups]. rewrite bool_decide_eq_true.
      rewrite (visible_groups_spec _ c1 g members) by done. split.
      * intros (id & Hin & Hsc). destruct (Hc g members id Hgm Hin) as (t & Ht). exists id, t.
        rewrite (scores_registered contains c1 id t) in Hsc by done. by injection Hsc as ->.
      * intros (id & t & Hin & Ht & Hm). exists id. split; [done|]. rewrite (scores_registered contains c1 id t Ht). f_equal. exact Hm.
    + by rewrite Hf.
    + unfold empty_isRender. rewrite Hsh, Hf. cbn [count]. rewrite bool_decide_eq_true. unfold matching. cbn [allItems search c1].
      rewrite map_size_empty_iff. split.
      * intros He id t Hid. apply not_true_is_false. intros Hm. exact (map_filter_empty_not_lookup _ _ id t He Hm Hid).
      * intros Hall. apply map_empty. intros id. apply map_lookup_filter_None. right. intros t Hid. cbn [snd].
        by rewrite (Hall id t Hid).
  - intros ->. unfold item_isRender, group_isRender, empty_isRender. rewrite Hse. split_and!; try done.
    unfold c', setSearch. rewrite decide_False by done. done.
Qed.

Definition demo_contains (value text : jstring) : bool := includes text value.
Definition demo_mounts : list event :=
  [ItemMounted (js "i1") (Some (js "queues")) (Some (js "g1")); ItemMounted (js "i2") (Some (js "groups")) (Some (js "g2"));
   GroupMounted (js "g1"); GroupMounted (js "g2"); Search (js "zzz")].

Lemma command_filter_correct_witness :
  let c' := setSearch demo_contains (js "queue") (run demo_contains demo_mounts new_command) in
  item_isRender (js "i1") c' = true /\ group_isRender (js "g2") c' = false /\ count (filtered c') = 1 /\
  empty_isRender (run demo_contains demo_mounts new_command) = true.
Proof.
  pose proof (command_filter_correct demo_contains demo_mounts (js "queue") ltac:(by repeat constructor)
    ltac:(by vm_compute)) as [Hne _].
  destruct (Hne ltac:(done)) as (Hitem & Hgroup & Hcount & _). split_and!.
  - rewrite (Hitem (js "i1") (js "queues")); by vm_compute.
  - by vm_compute.
  - rewrite Hcount. by vm_compute.
  - by vm_compute.
Defined.

(** Two states in which something else is shown.  An unmounted item stays in its
    group, with its last score: the group is shown although nothing in it matches.
    An item mounted during a search is shown without being counted: the empty
    message appears next to it. *)
Lemma command_stale_group :
  exists es, let c := run demo_contains es new_command in
  group_isRender (js "g1") c = true /\ allItems c = ∅ /\ empty_isRender c = true.
Proof.
  exists [ItemMounted (js "i1") (Some (js "queues")) (Some (js "g1")); Search (js "q"); ItemUnmounted (js "i1"); Search (js "qu")].
  split_and!; by vm_compute.
Qed.

Lemma command_late_item :
  exists es, let c := run demo_contains es new_command in
  item_isRender (js "i1") c = true /\ allItems c !! js "i1" = Some (js "queues") /\ empty_isRender c = true.
Proof.
  exists [Search (js "q"); ItemMounted (js "i1") (Some (js "queues")) None].
  split_and!; by vm_compute.
Qed.
