(* ===== verification/UiCommand.v ===== *)
(** * The components of [components/ui/command]

    Their templates over the state of [CommandState]; [uid] is the id that [useId()]
    gives, [addonClick] the listener of [InputGroupAddon], which focuses the field
    of its group. *)

From stdpp Require Import base list gmap strings.
From Stdlib Require Import NArith ZArith Lia String SpecFloat.
From S2P Require Import Prelude JsString JsNum JsVal Json Prog State Payload View Form Kit UiBase UiOverlay CommandState.
Local Open Scope js_scope.

Section components.
Context `{Platform} `{UiLibs} {S : Type}.
Context (cmd : command) (set_search : jsval -> prog S unit) (uid : jstring) (addonClick : jsval -> prog S unit).

(** ** [input-group/InputGroupAddon.vue] *)

Definition InputGroupAddon : component S :=
  define (Decls ([any "align"; any "class"]) [("align", VStr (js "inline-start"))] []) (fun i =>
    kel "div" [
        sat "role" "group";
        sat "data-slot" "input-group-addon";
        bat "data-align" (prop i "align");
        bat "class" (cn_ [variants_ inputGroupAddonVariants [("align", prop i "align")]; prop i "class"]);
        lat "@click" (fun ev => addonClick ev);
        bind_attrs (rest i)] [slot_ i]).

(** ** [command] *)

Definition Command : component S :=
  define (Decls ([any "class"] ++ lib_props "ListboxRootProps") [("modelValue", VStr (js "")); ("highlightOnHover", VBool true)] (lib_emits "ListboxRootEmits")) (fun i =>
    let delegatedProps := reactiveOmit (props i) ["class"] in
    let forwarded := forward_emits i delegatedProps in
    kel "reka-ui/ListboxRoot" [
        sat "data-slot" "command";
        bind_attrs forwarded;
        bat "class" (cn_ [ #"bg-popover text-popover-foreground rounded-xl! p-1 flex size-full flex-col overflow-hidden"; prop i "class"]);
        bind_attrs (rest i)] [slot_ i]).

Definition CommandDialog : component S :=
  define (Decls ([any "title"; any "description"; any "class"; flag "showCloseButton"] ++ lib_props "DialogRootProps") [("title", VStr (js "Command Palette")); ("description", VStr (js "Search for a command to run...")); ("showCloseButton", VBool false)] (lib_emits "DialogRootEmits")) (fun i =>
    let forwarded := forward_emits i (props i) in
    Dialog [bind_attrs forwarded; bind_attrs (rest i)] [
      DialogContent [
          bat "class" (cn_ [ #"rounded-xl! top-1/3 translate-y-0 overflow-hidden p-0"; prop i "class"]);
          bat "show-close-button" (prop i "showCloseButton")] [
        DialogHeader [sat "class" "sr-only"] [
          DialogTitle [] [interp (prop i "title")];
          DialogDescription [] [interp (prop i "description")]];
        Command [] [slot_ i]]]).

Definition CommandEmpty : component S :=
  define (Decls ([any "class"] ++ lib_props "PrimitiveProps") [] []) (fun i =>
    let delegatedProps := reactiveOmit (props i) ["class"] in
    v_if (Ok (VBool (empty_isRender cmd)))
      (kel "reka-ui/Primitive" [
          sat "data-slot" "command-empty";
          v_bind delegatedProps;
          bat "class" (cn_ [ #"py-6 text-center text-sm"; prop i "class"]);
          bind_attrs (rest i)] [slot_ i])
      none).

Definition CommandGroup : component S :=
  define (Decls ([any "class"; any "heading"] ++ lib_props "ListboxGroupProps") [] []) (fun i =>
    let delegatedProps := reactiveOmit (props i) ["class"] in
    kel "reka-ui/ListboxGroup" [
        v_bind delegatedProps;
        bat "id" (e_str uid);
        sat "data-slot" "command-group";
        bat "class" (cn_ [ #"text-foreground **:[[cmdk-group-heading]]:text-muted-foreground overflow-hidden p-1 **:[[cmdk-group-heading]]:px-2 **:[[cmdk-group-heading]]:py-1.5 **:[[cmdk-group-heading]]:text-xs **:[[cmdk-group-heading]]:font-medium"; prop i "class"]);
        bat "hidden" (e_if (Ok (VBool (group_isRender uid cmd))) (Ok VUndef) (Ok (VBool true)));
        bind_attrs (rest i)] [
      v_if (prop i "heading")
        (kel "reka-ui/ListboxGroupLabel" [sat "data-slot" "command-group-heading"; sat "class" ""] [interp (prop i "heading")])
        none;
      slot_ i]).

Definition CommandInput : component S :=
  define (Decls ([any "class"] ++ lib_props "ListboxFilterProps") [] []) (fun i =>
    let delegatedProps := reactiveOmit (props i) ["class"] in
    let forwardedProps := forward_props i delegatedProps in
    kel "div" [sat "data-slot" "command-input-wrapper"; sat "class" "p-1 pb-0"] [
      InputGroup [
          sat "class" "bg-input/30 border-input/30 h-8! rounded-lg! shadow-none! *:data-[slot=input-group-addon]:pl-2!"] [
        kel "reka-ui/ListboxFilter" [
            spread (prod_map id AVal <$> forwardedProps) (rest i);
            part_of (Ok (js "v-model", AModel (VStr (search cmd)) set_search));
            sat "data-slot" "command-input";
            sat "auto-focus" "";
            bat "class" (cn_ [ #"w-full text-sm outline-hidden disabled:cursor-not-allowed disabled:opacity-50"; prop i "class"])] [];
        InputGroupAddon [] [kel "@lucide/vue/Search" [sat "class" "size-4 shrink-0 opacity-50"] []]]]).

Definition CommandItem : component S :=
  define (Decls ([any "class"] ++ lib_props "ListboxItemProps") [] (lib_emits "ListboxItemEmits")) (fun i =>
    let delegatedProps := reactiveOmit (props i) ["class"] in
    let forwarded := forward_emits i delegatedProps in
    v_if (Ok (VBool (item_isRender uid cmd)))
      (kel "reka-ui/ListboxItem" [
          bind_attrs forwarded;
          bat "id" (e_str uid);
          sat "data-slot" "command-item";
          bat "class" (cn_ [ #"data-highlighted:bg-muted data-highlighted:text-foreground data-highlighted:*:[svg]:text-foreground relative flex cursor-default items-center gap-2 rounded-sm px-2 py-1.5 text-sm outline-hidden select-none in-data-[slot=dialog-content]:rounded-lg! [&_svg:not([class*=size-])]:size-4 group/command-item data-[disabled=true]:pointer-events-none data-[disabled=true]:opacity-50 [&_svg]:pointer-events-none [&_svg]:shrink-0"; prop i "class"]);
          lat "@select" (fun _ => set_search (VStr []));
          bind_attrs (rest i)] [
        slot_ i;
        kel "@lucide/vue/Check" [
            sat "class" "ml-auto opacity-0 group-has-data-[slot=command-shortcut]/command-item:hidden group-data-[checked=true]/command-item:opacity-100"] []])
      none).

Definition CommandList : component S :=
  define (Decls ([any "class"] ++ lib_props "ListboxContentProps") [] []) (fun i =>
    let delegatedProps := reactiveOmit (props i) ["class"] in
    let forwarded := forward_props i delegatedProps in
    kel "reka-ui/ListboxContent" [
        sat "data-slot" "command-list";
        v_bind forwarded;
        bat "class" (cn_ [ #"no-scrollbar max-h-72 scroll-py-1 outline-none overflow-x-hidden overflow-y-auto"; prop i "class"]);
        bind_attrs (rest i)] [kel "div" [sat "role" "presentation"] [slot_ i]]).

Definition CommandSeparator : component S :=
  define (Decls ([any "class"] ++ lib_props "SeparatorProps") [] []) (fun i =>
    let delegatedProps := reactiveOmit (props i) ["class"] in
    kel "reka-ui/Separator" [
        sat "data-slot" "command-separator";
        v_bind delegatedProps;
        bat "class" (cn_ [ #"bg-border -mx-1 h-px"; prop i "class"]);
        bind_attrs (rest i)] [slot_ i]).

Definition CommandShortcut : component S :=
  define (Decls ([any "class"]) [] []) (fun i =>
    kel "span" [
        sat "data-slot" "command-shortcut";
        bat "class" (cn_ [ #"text-muted-foreground group-data-highlighted/command-item:text-foreground ml-auto text-xs tracking-widest"; prop i "class"]);
        bind_attrs (rest i)] [slot_ i]).


End components.
