(* ===== verification/FormField.v ===== *)
(** * [components/ui/form/useFormField.ts]

    The context of a form field: [field_context] is what [vee-validate] provides
    under [FieldContextKey], the item's id what [FormItem] provides. *)

From stdpp Require Import base list gmap strings.
From Stdlib Require Import NArith ZArith Lia String SpecFloat.
From S2P Require Import Prelude JsString JsNum JsVal Json Prog State Payload View.
Local Open Scope js_scope.

Record field_context := FieldContext {
  fc_name : jsval;
  fc_errorMessage : jsval;
  fc_valid : jsval;
  fc_dirty : jsval;
  fc_touched : jsval
}.

Record form_field := FormField_ {
  ff_id : jsval;
  ff_name : jsval;
  ff_formItemId : jsval;
  ff_formDescriptionId : jsval;
  ff_formMessageId : jsval;
  ff_valid : jsval;
  ff_isDirty : jsval;
  ff_isTouched : jsval;
  ff_error : jsval
}.

Definition id_text (id : jsval) (suffix : string) : jsval := VStr (to_string id ++ js suffix).

Definition useFormField (fieldContext : option field_context) (id : jsval) : E form_field :=
  match fieldContext with
  | None => Exn (new_error (js "useFormField should be used within <FormField>"))
  | Some fc =>
      Ok {| ff_id := id; ff_name := fc_name fc;
            ff_formItemId := id_text id "-form-item";
            ff_formDescriptionId := id_text id "-form-item-description";
            ff_formMessageId := id_text id "-form-item-message";
            ff_valid := fc_valid fc; ff_isDirty := fc_dirty fc; ff_isTouched := fc_touched fc;
            ff_error := fc_errorMessage fc |}
  end.

(** The listener of [DialogScrollContent]: a press on the scroll bar, outside the
    target's client area, does not close the dialog. *)
Definition outside_content {S} (preventDefault : prog S unit) (event : jsval) : prog S unit :=
  outside ← pure (
    let originalEvent := (Ok event) @. "detail" @. "originalEvent" in
    let target := originalEvent @. "target" in
    ((originalEvent @. "offsetX") .> (target @. "clientWidth")) .||
    ((originalEvent @. "offsetY") .> (target @. "clientHeight")));
  if truthy outside then preventDefault else Ret tt.
