(* ===== verification/UiExtra.v ===== *)
(** * Components of [components/ui] the panel does not use

    The fields of [components/ui/form] on a field of [vee-validate], the toaster,
    the scrolling dialog and the placeholder of the sidebar's menu. *)

From stdpp Require Import base list gmap strings.
From Stdlib Require Import NArith ZArith Lia String SpecFloat.
From S2P Require Import Prelude JsString JsNum JsVal Json Prog State Payload View Form Kit UiBase UiOverlay SidebarProvider FormField.
Local Open Scope js_scope.

Section components.
Context `{Platform} `{UiLibs} {S : Type}.
Context (field : option field_context) (item : jsval) (random : num) (preventDefault : prog S unit).

(** ** [form/FormControl.vue] *)

Definition FormControl : component S :=
  define (Decls ([]) [] []) (fun i =>
    f ← useFormField field item;
    kel "reka-ui/Slot" [
        bat "id" (Ok (ff_formItemId f));
        sat "data-slot" "form-control";
        bat "aria-describedby" (e_if (e_not (Ok (ff_error f))) (e_template [Ok (ff_formDescriptionId f)]) (e_template [Ok (ff_formDescriptionId f); #" "; Ok (ff_formMessageId f)]));
        bat "aria-invalid" (e_not (e_not (Ok (ff_error f))));
        bind_attrs (rest i)] [slot_ i]).

(** ** [form/FormDescription.vue] *)

Definition FormDescription : component S :=
  define (Decls ([any "class"]) [] []) (fun i =>
    f ← useFormField field item;
    kel "p" [
        bat "id" (Ok (ff_formDescriptionId f));
        sat "data-slot" "form-description";
        bat "class" (cn_ [ #"text-muted-foreground text-sm"; prop i "class"]);
        bind_attrs (rest i)] [slot_ i]).

(** ** [form/FormItem.vue] *)

Definition FormItem : component S :=
  define (Decls ([any "class"]) [] []) (fun i =>
    kel "div" [
        sat "data-slot" "form-item";
        bat "class" (cn_ [ #"grid gap-2"; prop i "class"]);
        bind_attrs (rest i)] [slot_ i]).

(** ** [form/FormLabel.vue] *)

Definition FormLabel : component S :=
  define (Decls ([any "class"] ++ lib_props "LabelProps") [] []) (fun i =>
    f ← useFormField field item;
    Label [
        sat "data-slot" "form-label";
        bat "data-error" (e_not (e_not (Ok (ff_error f))));
        bat "class" (cn_ [ #"data-[error=true]:text-destructive"; prop i "class"]);
        bat "for" (Ok (ff_formItemId f));
        bind_attrs (rest i)] [slot_ i]).

(** ** [form/FormMessage.vue] *)

Definition FormMessage : component S :=
  define (Decls ([any "class"]) [] []) (fun i =>
    f ← useFormField field item;
    kel "vee-validate/ErrorMessage" [
        bat "id" (Ok (ff_formMessageId f));
        sat "data-slot" "form-message";
        sat "as" "p";
        bat "name" (Ok (ff_name f));
        bat "class" (cn_ [ #"text-destructive text-sm"; prop i "class"]);
        bind_attrs (rest i)] []).

(** ** [sonner/Sonner.vue] *)

Definition Sonner : component S :=
  define (Decls (lib_props "ToasterProps") [] []) (fun i =>
    let delegatedProps := reactiveOmit (props i) ["class"; "toastOptions"] in
    kel "vue-sonner/Toaster" [
        bat "class" (cn_ [ #"toaster group"; prop i "class"]);
        bat "style" (e_object [("--normal-bg", #"var(--popover)"); ("--normal-text", #"var(--popover-foreground)"); ("--normal-border", #"var(--border)"); ("--border-radius", #"var(--radius)"); ("--gray2", #"hsl(var(--popover) / 0.9)"); ("--gray3", #"var(--border)"); ("--gray4", #"var(--border)"); ("--gray5", #"var(--border)"); ("--gray12", #"var(--popover-foreground)")]);
        bat "toast-options" ((prop i "toastOptions") .?? (e_object [("classes", e_object [("toast", #"rounded-2xl")])]));
        v_bind delegatedProps;
        bind_attrs (rest i)] [
      kel "template" [sat "slot" "success-icon"] [kel "@lucide/vue/CheckCircle2" [sat "class" "size-4"] []];
      kel "template" [sat "slot" "info-icon"] [kel "@lucide/vue/Info" [sat "class" "size-4"] []];
      kel "template" [sat "slot" "warning-icon"] [kel "@lucide/vue/AlertTriangle" [sat "class" "size-4"] []];
      kel "template" [sat "slot" "error-icon"] [kel "@lucide/vue/XCircle" [sat "class" "size-4"] []];
      kel "template" [sat "slot" "loading-icon"] [kel "div" [] [kel "@lucide/vue/LoaderCircle" [sat "class" "size-4 animate-spin"] []]];
      kel "template" [sat "slot" "close-icon"] [kel "@lucide/vue/X" [sat "class" "size-4"] []]]).

(** ** [dialog/DialogScrollContent.vue] *)

Definition DialogScrollContent : component S :=
  define (Decls ([any "class"] ++ lib_props "DialogContentProps") [] (lib_emits "DialogContentEmits")) (fun i =>
    let delegatedProps := reactiveOmit (props i) ["class"] in
    let forwarded := forward_emits i delegatedProps in
    kel "reka-ui/DialogPortal" [] [
      kel "reka-ui/DialogOverlay" [
          sat "class" "fixed inset-0 z-50 grid place-items-center overflow-y-auto bg-black/80  data-[state=open]:animate-in data-[state=closed]:animate-out data-[state=closed]:fade-out-0 data-[state=open]:fade-in-0"] [
        kel "reka-ui/DialogContent" [
            bat "class" (cn_ [ #"relative z-50 grid w-full max-w-lg my-8 gap-4 border border-border bg-background p-6 shadow-lg duration-200 sm:rounded-lg md:w-full"; prop i "class"]);
            spread (rest i) forwarded;
            lat "@pointer-down-outside" (fun ev => outside_content preventDefault ev)] [
          slot_ i;
          kel "reka-ui/DialogClose" [
              sat "class" "absolute top-4 right-4 p-0.5 transition-colors rounded-md hover:bg-secondary"] [
            kel "@lucide/vue/X" [sat "class" "w-4 h-4"] [];
            kel "span" [sat "class" "sr-only"] [txt "Close"]]]]]).

(** ** [sidebar/SidebarMenuSkeleton.vue] *)

Definition SidebarMenuSkeleton : component S :=
  define (Decls ([flag "showIcon"; any "class"]) [] []) (fun i =>
    kel "div" [
        sat "data-slot" "sidebar-menu-skeleton";
        sat "data-sidebar" "menu-skeleton";
        bat "class" (cn_ [ #"h-8 gap-2 rounded-md px-2 flex items-center"; prop i "class"]);
        bind_attrs (rest i)] [
      v_if (prop i "showIcon")
        (Skeleton [sat "class" "size-4 rounded-md"; sat "data-sidebar" "menu-skeleton-icon"] [])
        none;
      Skeleton [
          sat "class" "h-4 max-w-(--skeleton-width) flex-1";
          sat "data-sidebar" "menu-skeleton-text";
          bat "style" (e_object [("--skeleton-width", e_str (skeleton_width random))])] []]).

End components.
