(* ===== verification/UiChart.v ===== *)
(** * [components/ui/chart]: the frame, the style, the legend and the tooltip

    [componentToString] ([utils.ts]) gives a chart the function that renders the
    tooltip of a data point.  What it rendered is kept in one map for the whole
    page, under the identifier of the chart and the serialised data.  The component
    is what the chart's author passes, so the markup it renders for given props is a
    parameter.  Data and coordinate are JavaScript values without dates and
    functions.  The theorems about it: the key does not depend on the order of the
    properties; a cache used by any charts in any order returns what rendering
    would, as long as the markup is determined by the key; and what goes wrong when
    it is not, since the coordinate is not part of the key and nested properties are
    dropped from it.

    In the components, [chart] is what [useChart] injects (the context
    [ChartContainer] provides, or the error of [reka-ui]'s [createContext] outside of
    one).  What the author of a chart writes is a parameter: the content of the
    container's scoped slot, the icons of the configuration ([<component :is>]) and
    the formatter of the tooltip's label; so is the browser's locale. *)

From stdpp Require Import base list sorting gmap strings.
From Stdlib Require Import NArith ZArith Lia String SpecFloat.
From S2P Require Import Prelude JsString JsNum JsVal Json Prog State Payload View Form Kit.
Local Open Scope js_scope.

(** ** [serializeKey] *)

(** [Array.prototype.sort] on strings compares code units. *)
Definition str_le (s t : jstring) : Prop := str_ltb t s = false.
#[export] Instance str_le_dec s t : Decision (str_le s t).
Proof. unfold str_le. apply _. Defined.

(** [Object.entries] *)
Definition e_entries (a : E jsval) : E (list (jstring * jsval)) :=
  v ← a;
  match v with
  | VUndef | VNull => throw_type (js "Cannot convert undefined or null to object")
  | VObj o | VErr _ _ o => Ok (own_entries o)
  | VArr l => Ok (imap (fun i x => (dec_of_N (N.of_nat i), x)) l)
  | VStr s => Ok (imap (fun i c => (dec_of_N (N.of_nat i), VStr [c])) s)
  | _ => Ok []
  end.
Definition e_keys (a : E jsval) : E (list jstring) := l ← e_entries a; Ok (map fst l).

(** A member of the serialised object, for a key of the list. *)
Definition listed_member (o : list (jstring * option jstring)) (k : jstring) : option jstring :=
  match List.find (fun kt => bool_decide (fst kt = k)) o with
  | Some kt => member_text kt
  | None => None
  end.

(** [JSON.stringify(v, keys)]: of every object at every depth only the listed
    properties, in the order of the list. *)
Fixpoint stringify_listed (keys : list jstring) (v : jsval) : option jstring :=
  match v with
  | VArr l =>
      Some ((91 :: join [44] (map (fun x => default (js "null") (stringify_listed keys x)) l) ++ [93])%N)
  | VObj o =>
      let o' := map (fun kv => (fst kv, stringify_listed keys (snd kv))) o in
      Some ((123 :: join [44] (omap (listed_member o') keys) ++ [125])%N)
  | VErr _ msg o =>
      let o' := (js "message", Some (quote msg)) :: map (fun kv => (fst kv, stringify_listed keys (snd kv))) o in
      Some ((123 :: join [44] (omap (listed_member o') keys) ++ [125])%N)
  | _ => stringify v
  end.

(** [Object.keys(key).sort()] *)
Definition sorted_keys (keys : list jstring) : list jstring := merge_sort str_le keys.

Definition serializeKey (key : jsval) : E jsval :=
  keys ← e_keys (Ok key);
  Ok (match stringify_listed (sorted_keys keys) key with Some t => VStr t | None => VUndef end).

(** ** [componentToString] *)

(** [const data = 'data' in _data ? _data.data : _data] *)
Definition point_data (_data : jsval) : E jsval :=
  if is_object _data then
    if has_key _data (js "data") then get _data (js "data") else Ok _data
  else throw_type (js "Cannot use 'in' operator to search for 'data' in " ++ to_string _data).

Notation tip_cache := (gmap jstring jstring).

(** A chart's tooltip: its identifier ([useId]), the other props of the component, the
    chart's configuration and the markup the component renders for props. *)
Record tooltip := MkTooltip {
  tip_id : jstring;
  tip_config : jsval;
  tip_props : list (jstring * jsval);
  tip_html : list (jstring * jsval) -> jstring
}.

(** [{ ...props, payload: data, config, x }] *)
Definition vnode_props (t : tooltip) (data x : jsval) : list (jstring * jsval) :=
  assoc_set (js "x") x (assoc_set (js "config") (tip_config t) (assoc_set (js "payload") data (tip_props t))).
Definition markup (t : tooltip) (data x : jsval) : jstring := tip_html t (vnode_props t data x).

(** The key: the identifier, a hyphen and the serialised data. *)
Definition tip_key (t : tooltip) (data : jsval) : E jstring :=
  k ← serializeKey data; Ok (tip_id t ++ js "-" ++ to_string k).

(** The function a chart is given: the text shown and the cache after it. *)
Definition tip_call (t : tooltip) (_data x : jsval) (cache : tip_cache) : E (jstring * tip_cache) :=
  data ← point_data _data;
  k ← tip_key t data;
  match cache !! k with
  | Some ((_ :: _) as cachedContent) => Ok (cachedContent, cache)
  | _ => Ok (markup t data x, <[k := markup t data x]> cache)
  end.

Definition componentToString (isClient : bool) (t : tooltip) : option (jsval -> jsval -> tip_cache -> E (jstring * tip_cache)) :=
  if isClient then Some (tip_call t) else None.

(** ** Calls on one page *)

Definition call_of : Type := tooltip * jsval * jsval.

(** The page's cache after calls that went well or failed (a failing call throws
    before it touches the cache). *)
Definition after_call (cache : tip_cache) (c : call_of) : tip_cache :=
  let '(t, d, x) := c in
  match tip_call t d x cache with Ok (_, cache') => cache' | Exn _ => cache end.
Definition after_calls (l : list call_of) : tip_cache := fold_left after_call l ∅.

(** ** Sorting strings *)

Lemma str_ltb_irrefl s : str_ltb s s = false.
Proof. induction s as [|c s IH]; [done|]. cbn. rewrite N.ltb_irrefl, N.eqb_refl. done. Qed.

#[export] Instance str_le_total : Total str_le.
Proof.
  unfold str_le. intros s. induction s as [|c s IH]; intros [|d t]; cbn; auto.
  destruct (N.ltb_spec c d), (N.ltb_spec d c); cbn; [lia|left|right|].
  - by destruct (N.eqb_spec d c); [lia|].
  - by destruct (N.eqb_spec c d); [lia|].
  - destruct (IH t) as [->| ->]; rewrite andb_false_r; auto.
Qed.

#[export] Instance str_le_trans : Transitive str_le.
Proof.
  unfold str_le. intros s. induction s as [|c s IH]; intros [|d t] [|e r]; cbn; try done.
  rewrite !orb_false_iff, !andb_false_iff, !N.ltb_ge, !N.eqb_neq. intros [H1 H2] [H3 H4].
  split; [lia|]. destruct (decide (e = c)) as [->|]; [|by left]. right.
  assert (d = c) as -> by lia. destruct H2, H4; try done. eauto.
Qed.

#[export] Instance str_le_antisym : AntiSymm (=) str_le.
Proof.
  unfold str_le. intros s. induction s as [|c s IH]; intros [|d t]; cbn; try done.
  rewrite !orb_false_iff, !andb_false_iff, !N.ltb_ge, !N.eqb_neq. intros [H1 H2] [H3 H4].
  assert (d = c) as -> by lia. destruct H2, H4; try done. by f_equal; apply IH.
Qed.

Lemma sorted_keys_perm l l' : l ≡ₚ l' -> sorted_keys l = sorted_keys l'.
Proof.
  intros Hp. unfold sorted_keys. apply (Sorted_unique str_le); try apply (Sorted_merge_sort str_le).
  by rewrite !merge_sort_Permutation.
Qed.

(** ** The order of the properties *)

Lemma insert_index_perm {A : Type} n (kv : jstring * A) l : (snd <$> insert_index n kv l) ≡ₚ kv :: (snd <$> l).
Proof.
  induction l as [|[m kv'] l IH]; [done|]. cbn. destruct (n <? m)%N; [done|]. cbn.
  rewrite IH. apply Permutation_swap.
Qed.

Lemma own_entries_perm {A : Type} (o : list (jstring * A)) : own_entries o ≡ₚ o.
Proof.
  unfold own_entries. induction o as [|kv o IH]; [done|]. cbn [foldr]. rewrite filter_cons.
  destruct (index_key (fst kv)) as [n|] eqn:E.
  - rewrite decide_False by done. rewrite insert_index_perm. cbn. by rewrite IH.
  - rewrite decide_True by done. rewrite <- Permutation_middle. by rewrite IH.
Qed.

(** Looking up does not depend on the order when no name is repeated. *)
Lemma listed_member_perm (o o' : list (jstring * option jstring)) k :
  NoDup (map fst o) -> o ≡ₚ o' -> listed_member o k = listed_member o' k.
Proof.
  intros Hn Hp. unfold listed_member. induction Hp as [|kv l l' Hp IH|kv kv' l|l l' l'' Hp IH Hp' IH']; cbn in *.
  - done.
  - apply NoDup_cons in Hn as [_ Hn]. by case_bool_decide; [|apply IH].
  - apply NoDup_cons in Hn as [Hk _]. repeat case_bool_decide; try done. exfalso. apply Hk. rewrite list_elem_of_In. left. congruence.
  - rewrite IH by done. apply IH'. by rewrite <- Hp.
Qed.

(** The key is the same whatever the order in which the properties were written. *)
Theorem serializeKey_order o o' :
  NoDup (map fst o) -> o ≡ₚ o' -> serializeKey (VObj o) = serializeKey (VObj o').
Proof.
  intros Hn Hp. unfold serializeKey, e_keys. cbn. do 2 f_equal.
  rewrite (sorted_keys_perm (map fst (own_entries o)) (map fst (own_entries o'))).
  2: { apply Permutation_map. by rewrite !own_entries_perm. }
  cbn. do 3 f_equal. apply list_omap_ext, Forall_Forall2_diag, Forall_forall. intros k _.
  apply listed_member_perm; [|by apply Permutation_map]. by rewrite map_map.
Qed.

(** ** The cache *)

(** The data, the key and the markup of a call. *)
Definition call_key (c : call_of) : E jstring := let '(t, d, _) := c in data ← point_data d; tip_key t data.
Definition call_markup (c : call_of) : E jstring :=
  let '(t, d, x) := c in data ← point_data d; _ ← tip_key t data; Ok (markup t data x).
Definition tip_shown (c : call_of) (cache : tip_cache) : E jstring :=
  let '(t, d, x) := c in r ← tip_call t d x cache; Ok (fst r).

(** Calls with one key have one markup. *)
Definition determined (l : list call_of) : Prop :=
  forall c c' k, c ∈ l -> c' ∈ l -> call_key c = Ok k -> call_key c' = Ok k -> call_markup c = call_markup c'.

(** What a call returns, by whether its key has a text in the cache. *)
Lemma tip_call_cases t d x cache :
  match call_key (t, d, x) with
  | Ok k => exists m, call_markup (t, d, x) = Ok m /\
      ((exists s, s <> [] /\ cache !! k = Some s /\ tip_call t d x cache = Ok (s, cache)) \/
       tip_call t d x cache = Ok (m, <[k := m]> cache))
  | Exn e => call_markup (t, d, x) = Exn e /\ tip_call t d x cache = Exn e
  end.
Proof.
  unfold tip_call, call_key, call_markup. destruct (point_data d) as [data|e]; cbn -[tip_key]; [|done].
  destruct (tip_key t data) as [k|e] eqn:Ek; cbn -[tip_key]; [|done].
  exists (markup t data x). split; [done|]. destruct (cache !! k) as [[|u s]|]; [by right|left; by exists (u :: s)|by right].
Qed.

(** Every text in the cache is the markup of a call that had its key. *)
Definition cached_by (l : list call_of) (cache : tip_cache) : Prop :=
  forall k s, cache !! k = Some s -> exists c, c ∈ l /\ call_key c = Ok k /\ call_markup c = Ok s.

Lemma cached_by_mono l l' cache : l ⊆ l' -> cached_by l cache -> cached_by l' cache.
Proof. intros Hl Hc k s (c & H1 & H2)%Hc. exists c. split; [by apply Hl|done]. Qed.

Lemma cached_by_calls l : cached_by l (after_calls l).
Proof.
  induction l as [|c l IH] using rev_ind; [intros k s Hs; unfold after_calls in Hs; cbn in Hs; by rewrite lookup_empty in Hs|].
  apply (cached_by_mono _ (l ++ [c])) in IH; [|set_solver].
  unfold after_calls. rewrite fold_left_app. fold (after_calls l). cbn. destruct c as [[t d] x].
  pose proof (tip_call_cases t d x (after_calls l)) as Hcase. unfold after_call.
  destruct (call_key (t, d, x)) as [k|e] eqn:Ek; [|by destruct Hcase as [_ ->]].
  destruct Hcase as (m & Hm & [(s & _ & _ & ->)| ->]); [done|].
  intros k' s. rewrite lookup_insert_Some. intros [[<- <-]|[_ Hs]]; [|by apply IH].
  exists (t, d, x). split; [set_solver|done].
Qed.

(** After any calls of any charts, a call shows the markup its component renders, as
    long as calls with the same key have the same markup. *)
Theorem cache_transparent l c : determined (l ++ [c]) -> tip_shown c (after_calls l) = call_markup c.
Proof.
  intros Hd. destruct c as [[t d] x]. pose proof (tip_call_cases t d x (after_calls l)) as Hcase. unfold tip_shown.
  destruct (call_key (t, d, x)) as [k|e] eqn:Ek; [|by destruct Hcase as [-> ->]].
  destruct Hcase as (m & Hm & [(s & _ & Hs & ->)| ->]); [|by rewrite Hm].
  destruct (cached_by_calls _ _ _ Hs) as (c & Hc & H1 & H2).
  transitivity (call_markup c); [done|]. by eapply Hd; [set_solver|set_solver| |].
Qed.

(** The coordinate is not part of the key: once a point has been shown at one
    coordinate, a point with the same data at another shows the first one's text. *)
Theorem stale_coordinate t d x x' cache s cache' :
  tip_call t d x cache = Ok (s, cache') -> s <> [] -> tip_call t d x' cache' = Ok (s, cache').
Proof.
  unfold tip_call. destruct (point_data d) as [data|]; cbn -[tip_key]; [|done]. destruct (tip_key t data) as [k|]; cbn -[tip_key]; [|done].
  destruct (cache !! k) as [[|u r]|] eqn:E; intros Hok Hs; simplify_eq; try rewrite E; try done;
    rewrite lookup_insert_eq; by destruct (markup t data x).
Qed.

(** Below the first level only properties named as one of the first are in the key. *)
Example nested_data_share_key :
  serializeKey (VObj ["point" ~> VObj ["value" ~> VNum (num_of_Z 1)]]) =
  serializeKey (VObj ["point" ~> VObj ["value" ~> VNum (num_of_Z 2)]]).
Proof. by vm_compute. Qed.

Example key_of_point :
  serializeKey (VObj ["b" ~> VNum (num_of_Z 2); "a" ~> VStr (js "x")]) = Ok (VStr (jsq "{'a':'x','b':2}")).
Proof. by vm_compute. Qed.

(** [export const THEMES = { light: '', dark: '.dark' }] *)
Definition THEMES : list (string * string) := [("light", ""); ("dark", ".dark")]%string.

(** [ChartContextProps] *)
Record ChartContextProps := ChartContext {
  ctx_id : jsval;
  ctx_config : jsval
}.

(** ** [ChartStyle.vue]: the text of the style *)

(** [colorConfig]: the series with a theme or a colour. *)
Fixpoint filter_e {A : Type} (f : A -> E jsval) (l : list A) : E (list A) :=
  match l with
  | [] => Ok []
  | x :: l' => b ← f x; r ← filter_e f l'; Ok (if truthy b then x :: r else r)
  end.

Definition colorConfig (config : jsval) : E (list (jstring * jsval)) :=
  l ← e_entries (Ok config);
  filter_e (fun kv => ((Ok (snd kv)) @. "theme") .|| ((Ok (snd kv)) @. "color")) l.

(** One custom property, or [null]. *)
Definition color_line (theme : string) (kv : jstring * jsval) : E jsval :=
  color ← ((Ok (snd kv)) @. "theme") @? theme .|| (Ok (snd kv)) @. "color";
  if truthy color then e_template [ #"  --color-"; Ok (VStr (fst kv)); #": "; Ok color; #";"] else Ok VNull.

Definition newline_ : E jsval := Ok (VStr [10%N]).

Definition theme_block (id : jsval) (cc : list (jstring * jsval)) (tp : string * string) : E jsval :=
  e_template [newline_; e_str (js (snd tp)); #" [data-chart="; Ok id; #"] {"; newline_;
              (ls ← result_seq (map (color_line (fst tp)) cc);
               Ok (VStr (join [10%N] (map (fun x => if is_nullish x then [] else to_string x) ls))));
              newline_; #"}"; newline_].

Definition style_text (id : jsval) (cc : list (jstring * jsval)) : E jsval :=
  bs ← result_seq (map (theme_block id cc) THEMES);
  Ok (VStr (join [10%N] (map to_string bs))).

(** ** [ChartLegendContent.vue]: [payload] *)

Definition legend_payload (nameKey : E jsval) (config : jsval) : E (list (jsval * jsval)) :=
  l ← e_entries (Ok config);
  result_seq (map (fun kv =>
    key ← nameKey .|| e_str (fst kv);
    itemConfig ← get config (fst kv);
    Ok (key, itemConfig)) l).

(** ** [ChartTooltipContent.vue]: computed values *)

Record tip_item := TipItem {
  ti_key : jstring;
  ti_value : jsval;
  ti_config : jsval;
  ti_color : jsval
}.

(** [payload] *)
Definition tip_payload (config payload : jsval) : E (list tip_item) :=
  l ← e_entries (Ok payload);
  r ← result_seq (map (fun kv =>
    itemConfig ← get config (fst kv);
    c ← get config (fst kv);
    indicatorColor ← (Ok c) @? "color" .?? (Ok payload) @. "fill";
    Ok (TipItem (fst kv) (snd kv) itemConfig indicatorColor)) l);
  Ok (filter (fun it => truthy (ti_config it) = true) r).

Definition nestLabel (payload indicator : jsval) : E jsval :=
  (ks ← e_keys (Ok payload); Ok (VNum (num_of_Z (Z.of_nat (List.length ks))))) === e_num 1 .&& Ok indicator !== #"dot".

Definition tooltipLabel (labelFormatter : option (jsval -> E jsval)) (hideLabel labelKey config payload x : jsval) : E jsval :=
  if truthy hideLabel then Ok VNull
  else
    let by_key :=
      e_if (Ok labelKey)
        ((e_index (Ok config) (Ok labelKey)) @? "label" .|| e_index (Ok payload) (Ok labelKey))
        (Ok x) in
    match labelFormatter with
    | Some f => if strict_eq x VUndef then by_key else f x
    | None => by_key
    end.

(** [s.replace(/:/g, '')] *)
Definition without_colons (s : jstring) : jstring := filter (fun c => c <> 58%N) s.

(** [chartId] *)
Definition chartId (id : jsval) (uniqueId : jstring) : E jsval :=
  e_template [ #"chart-"; (Ok id) .|| e_str (without_colons uniqueId)].

(** The legend's [containerSelector], set when it is mounted. *)
Definition legend_selector (chart : E ChartContextProps) : E jsval :=
  c ← chart; e_template [e_str (jsq "[data-chart='chart-"); Ok (ctx_id c); e_str (jsq "']>[data-vis-xy-container]")].

Section components.
Context `{Platform} `{UiLibs} {S : Type}.
Notation nodes := (E (list (vnode S))).
Context (chart : E ChartContextProps) (uniqueId : jstring) (containerSelector : jsval).
Context (chart_slot : jsval -> jsval -> nodes) (dynamic : jsval -> nodes).
Context (labelFormatter : option (jsval -> E jsval)) (toLocaleString : jsval -> E jsval).

(** ** [chart/ChartStyle.vue] *)

Definition ChartStyle : component S :=
  define (Decls ([any "id"]) [] []) (fun i =>
    c ← chart;
    cc ← colorConfig (ctx_config c);
    v_if (Ok (VBool (negb (bool_decide (List.length cc = 0)))))
      (kel "reka-ui/Primitive" [sat "as" "style"; bind_attrs (rest i)] [
        interp (id ← prop i "id"; style_text id cc)])
      none).

(** ** [chart/ChartLegendContent.vue] *)

Definition ChartLegendContent : component S :=
  define (Decls ([flag "hideIcon"; any "nameKey"; any "verticalAlign"; any "class"]) [("verticalAlign", VStr (js "bottom"))] []) (fun i =>
    c ← chart;
    v_if (Ok containerSelector)
      (kel "div" [
          bat "class" (cn_ [ #"flex items-center justify-center gap-4"; e_if (prop i "verticalAlign" === #"top") ( #"pb-3") ( #"pt-3"); prop i "class"]);
          bind_attrs (rest i)] [
        payload ← legend_payload (prop i "nameKey") (ctx_config c);
        frag (map (fun '(key, itemConfig) =>
          kel "div" [
              bat "key" (Ok key);
              bat "class" (cn_ [ #"[&>svg]:text-muted-foreground flex items-center gap-1.5 [&>svg]:h-3 [&>svg]:w-3"])] [
            v_if ((Ok itemConfig) @? "icon")
              (icon ← (Ok itemConfig) @? "icon"; dynamic icon)
              (kel "div" [
                  sat "class" "h-2 w-2 shrink-0 rounded-xs";
                  bat "style" (e_object [("backgroundColor", (Ok itemConfig) @? "color")])] []);
            txt " ";
            interp ((Ok itemConfig) @? "label")]) payload)])
      none).

(** ** [chart/ChartContainer.vue] *)

Definition ChartContainer : component S :=
  define (Decls ([any "id"; any "class"; any "config"; flag "cursor"]) [] []) (fun i =>
    config ← prop i "config";
    kel "div" [
        sat "data-slot" "chart";
        bat "data-chart" (id ← prop i "id"; chartId id uniqueId);
        bat "class" (cn_ [ #"cn-chart [&_.tick_text]:!fill-muted-foreground [&_.tick_line]:!stroke-border/50 [&_.recharts-curve.recharts-tooltip-cursor]:stroke-border [&_.recharts-polar-grid_[stroke='#ccc']]:stroke-border [&_.recharts-radial-bar-background-sector]:fill-muted [&_.recharts-rectangle.recharts-tooltip-cursor]:fill-muted [&_.recharts-reference-line_[stroke='#ccc']]:stroke-border flex flex-col aspect-video justify-center text-xs [&_.recharts-dot[stroke='#fff']]:stroke-transparent [&_.recharts-layer]:outline-hidden [&_.recharts-sector]:outline-hidden [&_.recharts-sector[stroke='#fff']]:stroke-transparent [&_.recharts-surface]:outline-hidden [&_[data-vis-xy-container]]:h-full [&_[data-vis-single-container]]:h-full h-full [&_[data-vis-xy-container]]:w-full [&_[data-vis-single-container]]:w-full w-full "; prop i "class"]);
        bat "style" (e_object [
          ("--vis-tooltip-padding", #"0px");
          ("--vis-tooltip-background-color", #"transparent");
          ("--vis-tooltip-border-color", #"transparent");
          ("--vis-tooltip-text-color", #"none");
          ("--vis-tooltip-shadow-color", #"none");
          ("--vis-tooltip-backdrop-filter", #"none");
          ("--vis-crosshair-circle-stroke-color", #"#0000");
          ("--vis-crosshair-line-stroke-width", e_if (prop i "cursor") ( #"1px") ( #"0px"));
          ("--vis-font-family", #"var(--font-sans)")]);
        bind_attrs (rest i)] [
      chart_slot (VStr uniqueId) config;
      ChartStyle [bat "id" (id ← prop i "id"; chartId id uniqueId)] []]).

(** The context it provides to what it contains. *)
Definition provided (config : jsval) : ChartContextProps := {| ctx_id := VStr uniqueId; ctx_config := config |}.

(** ** [chart/ChartTooltipContent.vue] *)

Definition tip_row (i : instance S) (nested : E jsval) (label : E jsval) (it : tip_item) : nodes :=
  let itemConfig := Ok (ti_config it) in
  let indicator := prop i "indicator" in
  kel "div" [
      bat "key" (e_str (ti_key it));
      bat "class" (cn_ [ #"[&>svg]:text-muted-foreground flex w-full flex-wrap items-stretch gap-2 [&>svg]:h-2.5 [&>svg]:w-2.5";
                         indicator === #"dot" .&& #"items-center"])] [
    v_if (itemConfig @? "icon")
      (icon ← itemConfig @. "icon"; dynamic icon)
      (v_if (e_not (prop i "hideIndicator"))
        (kel "div" [
            bat "class" (cn_ [ #"shrink-0 rounded-xs border-(--color-border) bg-(--color-bg)";
              e_object [
                ("h-2.5 w-2.5", indicator === #"dot");
                ("w-1", indicator === #"line");
                ("w-0 border-[1.5px] border-dashed bg-transparent", indicator === #"dashed");
                ("my-0.5", nested .&& indicator === #"dashed")]]);
            bat "style" (e_object [("--color-bg", Ok (ti_color it)); ("--color-border", Ok (ti_color it))])] [])
        none);
    kel "div" [bat "class" (cn_ [ #"flex flex-1 justify-between leading-none"; e_if nested ( #"items-end") ( #"items-center")])] [
      kel "div" [sat "class" "grid gap-1.5"] [
        v_if nested (kel "div" [sat "class" "font-medium"] [interp label]) none;
        kel "span" [sat "class" "text-muted-foreground"] [interp (itemConfig @? "label" .|| Ok (ti_value it))]];
      v_if (Ok (ti_value it))
        (kel "span" [sat "class" "text-foreground font-mono font-medium tabular-nums"] [interp (toLocaleString (ti_value it))])
        none]].

Definition ChartTooltipContent : component S :=
  define (Decls [flag "hideLabel"; flag "hideIndicator"; any "indicator"; any "nameKey"; any "labelKey"; any "payload"; any "config"; any "class"; any "color"; any "x"]
                [("payload", VObj []); ("config", VObj []); ("indicator", VStr (js "dot"))] []) (fun i =>
    payload ← prop i "payload";
    config ← prop i "config";
    let nested := indicator ← prop i "indicator"; nestLabel payload indicator in
    let label :=
      hideLabel ← prop i "hideLabel"; labelKey ← prop i "labelKey"; x ← prop i "x";
      tooltipLabel labelFormatter hideLabel labelKey config payload x in
    kel "div" [
        bat "class" (cn_ [ #"border-border/50 bg-background gap-1.5 rounded-lg border px-2.5 py-1.5 text-xs shadow-xl grid min-w-32 items-start"; prop i "class"]);
        bind_attrs (rest i)] [
      slot_or i (frag [
        v_if (e_not nested .&& label) (kel "div" [sat "class" "font-medium"] [interp label]) none;
        kel "div" [sat "class" "grid gap-1.5"] [
          items ← tip_payload config payload; frag (map (tip_row i nested label) items)]])]).
End components.

(** ** What is listed *)

(** For a configuration and data that are objects, the tooltip's rows are the
    configured properties of the data in their order, each with its own value. *)
Definition configured (cfg : list (jstring * jsval)) (kv : jstring * jsval) : bool :=
  truthy (default VUndef (assoc (fst kv) cfg)).

Definition series_color (cfg p : list (jstring * jsval)) (k : jstring) : jsval :=
  let c := oget (default VUndef (assoc k cfg)) (js "color") in
  if is_nullish c then default VUndef (assoc (js "fill") p) else c.

Lemma tip_item_ok cfg p kv :
  (itemConfig ← get (VObj cfg) (fst kv);
   c ← get (VObj cfg) (fst kv);
   indicatorColor ← (Ok c) @? "color" .?? (Ok (VObj p)) @. "fill";
   Ok (TipItem (fst kv) (snd kv) itemConfig indicatorColor)) =
  Ok (TipItem (fst kv) (snd kv) (default VUndef (assoc (fst kv) cfg))
        (series_color cfg p (fst kv))).
Proof. unfold series_color. cbn. unfold e_coalesce, e_oget. cbn. by destruct (is_nullish _). Qed.

Lemma result_seq_ok {A B : Type} (f : A -> E B) (g : A -> B) l :
  (forall x, f x = Ok (g x)) -> result_seq (map f l) = Ok (map g l).
Proof. intros Hf. induction l as [|x l IH]; [done|]. cbn. rewrite Hf, IH. done. Qed.

Theorem tooltip_rows cfg p :
  exists items, tip_payload (VObj cfg) (VObj p) = Ok items /\
    map (fun it => (ti_key it, ti_value it)) items = filter (fun kv => configured cfg kv = true) (own_entries p).
Proof.
  unfold tip_payload. cbn [e_entries mbind]. eexists. split.
  { cbn. rewrite (result_seq_ok _ _ _ (tip_item_ok cfg p)). done. }
  induction (own_entries p) as [|kv l IH]; [done|]. cbn [map]. rewrite !filter_cons. unfold configured at 1. cbn [ti_config].
  repeat case_decide; try done. cbn [map]. rewrite IH. by destruct kv.
Qed.

(** The style gives every coloured series a custom property in both themes. *)
Example style_of_series :
  style_text (VStr (js "chart-1")) [("desktop" ~> VObj ["color" ~> VStr (js "red")])] =
  Ok (VStr (js "
 [data-chart=chart-1] {
  --color-desktop: red;
}


.dark [data-chart=chart-1] {
  --color-desktop: red;
}
")).
Proof. by vm_compute. Qed.
