(* ===== verification/AddonFocus.v ===== *)
(** * [components/ui/input-group/InputGroupAddon.vue]: a click on an addon

    The listener moves the focus to the field of the input group, unless the click
    was on a button.  It works on the elements of the document: an element is
    addressed by its path from the document's root, a click has the path of the
    element that was hit ([target]) and of the addon ([currentTarget]), and the
    result is the element whose [focus()] is called. *)

From stdpp Require Import base list strings.
From Stdlib Require Import NArith Lia String.
From S2P Require Import Prelude JsString.

(** The elements of a document with their (lower-case) tags. *)
Inductive dom : Type := El (tag : jstring) (kids : list dom).

Definition tag_of (d : dom) : jstring := let 'El t _ := d in t.
Definition kids_of (d : dom) : list dom := let 'El _ ks := d in ks.

Notation path := (list nat).

Fixpoint node_at (p : path) (d : dom) : option dom :=
  match p with
  | [] => Some d
  | i :: p' => kids_of d !! i ≫= node_at p'
  end.
Definition has_tag (t : jstring) (p : path) (d : dom) : bool :=
  match node_at p d with Some e => bool_decide (tag_of e = t) | None => false end.

(** [e.closest(t)]: the element itself or the nearest ancestor; [above] is the path
    of the element, reversed. *)
Fixpoint closest_up (t : jstring) (above : path) (d : dom) : option path :=
  if has_tag t (reverse above) d then Some (reverse above)
  else match above with [] => None | _ :: above' => closest_up t above' d end.
Definition closest (t : jstring) (p : path) (d : dom) : option path := closest_up t (reverse p) d.

(** [e.parentElement] *)
Definition parentElement (p : path) : option path :=
  match reverse p with [] => None | _ :: above => Some (reverse above) end.

(** The first of the elements [ds], numbered from [i], that is or contains an
    element with the tag, in document order. *)
Fixpoint first_from (find : dom -> option path) (i : nat) (ds : list dom) : option path :=
  match ds with
  | [] => None
  | d :: ds' => match find d with Some p => Some (i :: p) | None => first_from find (S i) ds' end
  end.

Fixpoint first_in (t : jstring) (d : dom) : option path :=
  let 'El t' kids := d in
  if decide (t' = t) then Some []
  else (fix go (i : nat) (ds : list dom) : option path :=
          match ds with
          | [] => None
          | e :: ds' => match first_in t e with Some p => Some (i :: p) | None => go (S i) ds' end
          end) 0 kids.

(** [e.querySelector(t)]: the first descendant. *)
Definition querySelector (t : jstring) (p : path) (d : dom) : option path :=
  e ← node_at p d; app p <$> first_from (first_in t) 0 (kids_of e).

(** The listener: [target] and [currentTarget] of the event may be null. *)
Definition handleInputGroupAddonClick (document : dom) (currentTarget target : option path) : option path :=
  match target ≫= (fun p => closest (js "button") p document) with
  | Some _ => None
  | None =>
      match currentTarget with
      | Some c =>
          match parentElement c with
          | Some group => querySelector (js "input") group document
          | None => None
          end
      | None => None
      end
  end.

(** ** Document order *)

Fixpoint before (p q : path) : Prop :=
  match p, q with
  | [], _ => True
  | _ :: _, [] => False
  | i :: p', j :: q' => i < j \/ (i = j /\ before p' q')
  end.

Lemma before_app r p q : before p q -> before (r ++ p) (r ++ q).
Proof. induction r as [|i r IH]; cbn; auto. Qed.

Lemma first_in_eq t t' kids :
  first_in t (El t' kids) = if decide (t' = t) then Some [] else first_from (first_in t) 0 kids.
Proof.
  cbn. destruct (decide (t' = t)); [done|]. generalize 0.
  induction kids as [|e ds IH]; intros i; [done|]. cbn. by destruct (first_in t e).
Qed.

(** What [first_in] gives: the first element with the tag, if there is one. *)
Definition is_first (t : jstring) (r : option path) (d : dom) : Prop :=
  match r with
  | Some p => has_tag t p d = true /\ forall q, has_tag t q d = true -> before p q
  | None => forall q, has_tag t q d = false
  end.

Lemma has_tag_kid t i q d : has_tag t (i :: q) d = match kids_of d !! i with Some e => has_tag t q e | None => false end.
Proof. unfold has_tag. cbn. by destruct (kids_of d !! i). Qed.

(** The same among the elements of a list. *)
Lemma first_from_spec t ds i :
  Forall (fun d => is_first t (first_in t d) d) ds ->
  match first_from (first_in t) i ds with
  | Some p => exists j p' e, p = (i + j) :: p' /\ ds !! j = Some e /\ has_tag t p' e = true /\
      forall j' q e', ds !! j' = Some e' -> has_tag t q e' = true -> before (j :: p') (j' :: q)
  | None => forall j e q, ds !! j = Some e -> has_tag t q e = false
  end.
Proof.
  intros Hf. revert i. induction Hf as [|d ds Hd Hf IH]; intros i; [done|]. cbn [first_from].
  destruct (first_in t d) as [p|] eqn:E; cbn in Hd.
  - destruct Hd as [Hp Hq]. exists 0, p, d. rewrite Nat.add_0_r. split_and!; try done.
    intros [|j'] q e' He' Ht; cbn in *; [right; simplify_eq; auto|left; lia].
  - specialize (IH (S i)). destruct (first_from (first_in t) (S i) ds) as [p|].
    + destruct IH as (j & p' & e & -> & He & Ht & Hmin). exists (S j), p', e. split_and!; [f_equal; lia|done|done|].
      intros [|j'] q e' He' Hq; cbn in He'; [simplify_eq; by rewrite Hd in Hq|].
      specialize (Hmin _ _ _ He' Hq). cbn in *. destruct Hmin as [|[-> ?]]; [left; lia|by right].
    + intros [|j] e q He; cbn in He; [simplify_eq; apply Hd|by eapply IH].
Qed.

Section dom_ind.
Context (P : dom -> Prop) (Hel : forall t kids, Forall P kids -> P (El t kids)).
Fixpoint dom_nested_ind (d : dom) : P d :=
  match d with
  | El t kids => Hel t kids ((fix go (l : list dom) : Forall P l :=
      match l with [] => Forall_nil_2 P | e :: l' => Forall_cons_2 P e l' (dom_nested_ind e) (go l') end) kids)
  end.
End dom_ind.

Lemma first_in_spec t d : is_first t (first_in t d) d.
Proof.
  induction d as [t' kids IH] using dom_nested_ind. rewrite first_in_eq. destruct (decide (t' = t)) as [->|Hne].
  { split; [|done]. unfold has_tag. cbn. by apply bool_decide_eq_true. }
  assert (Hroot : has_tag t [] (El t' kids) = false) by (unfold has_tag; cbn; by apply bool_decide_eq_false).
  pose proof (first_from_spec t kids 0 IH) as Hs. destruct (first_from (first_in t) 0 kids) as [p|].
  - destruct Hs as (j & p' & e & -> & He & Ht & Hmin). split; [by rewrite has_tag_kid; cbn; rewrite He|].
    intros [|j' q] Hq; [congruence|]. rewrite has_tag_kid in Hq. cbn [kids_of] in Hq.
    destruct (kids !! j') as [e'|] eqn:E; [|done]. by apply (Hmin _ _ e').
  - intros [|j q]; [done|]. rewrite has_tag_kid. cbn [kids_of]. destruct (kids !! j) as [e|] eqn:E; [by eapply Hs|done].
Qed.

(** ** The listener *)

Lemma closest_up_spec t above d :
  match closest_up t above d with
  | Some p => reverse p `suffix_of` above /\ has_tag t p d = true
  | None => forall p, p `suffix_of` above -> has_tag t (reverse p) d = false
  end.
Proof.
  induction above as [|i above IH]; cbn [closest_up].
  - destruct (has_tag t (reverse []) d) eqn:E; [done|]. by intros p ->%suffix_nil_inv.
  - destruct (has_tag t (reverse (i :: above)) d) eqn:E; [by rewrite reverse_involutive|].
    destruct (closest_up t above d) as [p|]; [destruct IH; split; [by apply suffix_cons_r|done]|].
    intros [|j p] Hs; [apply IH, suffix_nil|]. apply suffix_cons_inv in Hs as [->|Hs]; [done|by apply IH].
Qed.

Lemma suffix_reverse_prefix (p q : path) : p `suffix_of` reverse q -> reverse p `prefix_of` q.
Proof. intros [r Hr]. exists (reverse r). rewrite <- (reverse_involutive q), Hr. by rewrite reverse_app. Qed.

Lemma prefix_reverse_suffix (p q : path) : p `prefix_of` q -> reverse p `suffix_of` reverse q.
Proof. intros [r ->]. exists (reverse r). by rewrite reverse_app. Qed.

Lemma closest_spec t p d :
  match closest t p d with
  | Some a => a `prefix_of` p /\ has_tag t a d = true
  | None => forall a, a `prefix_of` p -> has_tag t a d = false
  end.
Proof.
  unfold closest. pose proof (closest_up_spec t (reverse p) d) as Hs. destruct (closest_up t (reverse p) d) as [a|].
  - destruct Hs as [Hs Ht]. split; [|done]. apply suffix_reverse_prefix in Hs. by rewrite reverse_involutive in Hs.
  - intros a Ha%prefix_reverse_suffix. apply Hs in Ha. by rewrite reverse_involutive in Ha.
Qed.

Lemma node_at_app p q d : node_at (p ++ q) d = node_at p d ≫= node_at q.
Proof. revert d. induction p as [|i p IH]; intros d; [done|]. cbn [app node_at]. destruct (kids_of d !! i); [apply IH|done]. Qed.

Lemma has_tag_app t p q d e : node_at p d = Some e -> has_tag t (p ++ q) d = has_tag t q e.
Proof. intros He. unfold has_tag. by rewrite node_at_app, He. Qed.

(** [querySelector] gives the first descendant in document order. *)
Lemma querySelector_spec t p d e :
  node_at p d = Some e ->
  match querySelector t p d with
  | Some f => exists q, f = p ++ q /\ q <> [] /\ has_tag t f d = true /\
      forall q', q' <> [] -> has_tag t (p ++ q') d = true -> before f (p ++ q')
  | None => forall q, q <> [] -> has_tag t (p ++ q) d = false
  end.
Proof.
  intros He. unfold querySelector. rewrite He. cbn.
  pose proof (first_from_spec t (kids_of e) 0) as Hs. destruct (first_from (first_in t) 0 (kids_of e)) as [f|]; cbn.
  - destruct Hs as (j & p' & e' & -> & He' & Ht & Hmin); [apply Forall_forall; intros; apply first_in_spec|].
    exists (j :: p'). change (0 + j) with j. rewrite (has_tag_app _ _ _ _ _ He), has_tag_kid, He'. split_and!; try done.
    intros [|j' q] Hne Hq; [done|]. rewrite (has_tag_app _ _ _ _ _ He), has_tag_kid in Hq. apply before_app.
    destruct (kids_of e !! j') as [e2|] eqn:E2; [|done]. by apply (Hmin _ _ e2).
  - intros [|j q] Hne; [done|]. rewrite (has_tag_app _ _ _ _ _ He), has_tag_kid.
    destruct (kids_of e !! j) as [e2|] eqn:E2; [|done]. eapply Hs; [apply Forall_forall; intros; apply first_in_spec|done].
Qed.

(** A click on a button, or on something in one, moves no focus; any other click on
    an addon calls [focus()] on the first field of the group in document order, and
    on nothing only if the group has no field. *)
Theorem addon_click_focus document group i target e :
  node_at group document = Some e ->
  match handleInputGroupAddonClick document (Some (group ++ [i])) (Some target) with
  | Some f => (forall a, a `prefix_of` target -> has_tag (js "button") a document = false) /\
      exists p, f = group ++ p /\ p <> [] /\ has_tag (js "input") f document = true /\
        forall q, q <> [] -> has_tag (js "input") (group ++ q) document = true -> before f (group ++ q)
  | None => (exists a, a `prefix_of` target /\ has_tag (js "button") a document = true) \/
      forall q, q <> [] -> has_tag (js "input") (group ++ q) document = false
  end.
Proof.
  intros He. unfold handleInputGroupAddonClick, parentElement. cbn [mbind option_bind]. pose proof (closest_spec (js "button") target document) as Hc.
  destruct (closest (js "button") target document) as [a|]; [left; eauto|].
  rewrite reverse_snoc, reverse_involutive.
  pose proof (querySelector_spec (js "input") group document e He) as Hq.
  destruct (querySelector (js "input") group document) as [f|]; [by split|by right].
Qed.

(** A click on the addon's text focuses the field beside it; one on its button does not. *)
Example addon_click_text :
  handleInputGroupAddonClick
    (El (js "div") [El (js "div") [El (js "span") []; El (js "button") [El (js "svg") []]]; El (js "input") []]) (Some [0]) (Some [0; 0]) = Some [1] /\
  handleInputGroupAddonClick
    (El (js "div") [El (js "div") [El (js "span") []; El (js "button") [El (js "svg") []]]; El (js "input") []]) (Some [0]) (Some [0; 1; 0]) = None.
Proof. by vm_compute. Qed.
